(** * GhostHIDe USB-HID proxy: a shallow embedding of the host core

    The development follows the layout of the C sources:

    - [Cint]        fixed-width integer conversions and the byte memory;
    - [HidParser]   hid_parser.c, the double report buffer and its accessors;
    - [HidMouse]    hid_mouse.c, button and orientation accessors;
    - [HidOutput]   hid_output.c, the normalised 6-byte mouse report;
    - [HidKeyboard] hid_keyboard.c, the 6-key array;
    - [Ch375], [Ch376s]  chip command layer (baud-rate command);
    - [Host]        ch375_host.c, control and bulk transfers, descriptor walk;
    - [Recoil]      input_patterns.c, the recoil sequencer.

    C integers are [Z] with their wrap-around written out; a byte buffer is a
    [list Z]; an access outside an allocated buffer is undefined behaviour in
    C and is [None] in the model. *)

From Stdlib Require Import ZArith Lia Bool List.
From Stdlib Require Import Floats.SpecFloat.
From stdpp Require Import base list.
Import ListNotations.
Local Open Scope Z_scope.

(* ===================================================================== *)
(** * Part I: the embedding *)
(* ===================================================================== *)

(** ** Fixed-width integers and byte memory *)
Module Cint.

(** Conversion to an unsigned [w]-bit integer (C cast to uintw_t). *)
Definition to_u (w : Z) (x : Z) : Z := x mod 2 ^ w.

(** Conversion to a signed [w]-bit integer (two's complement cast). *)
Definition to_s (w : Z) (x : Z) : Z := (x + 2 ^ (w - 1)) mod 2 ^ w - 2 ^ (w - 1).

Definition to_u8 := to_u 8.
Definition to_u16 := to_u 16.
Definition to_u32 := to_u 32.
Definition to_s8 := to_s 8.
Definition to_s16 := to_s 16.
Definition to_s32 := to_s 32.

Definition in_s (w : Z) (x : Z) : Prop := - 2 ^ (w - 1) <= x < 2 ^ (w - 1).
Definition in_u (w : Z) (x : Z) : Prop := 0 <= x < 2 ^ w.

Definition INT8_MAX : Z := 127.
Definition INT8_MIN : Z := -128.

(** Saturation of [x] into the signed [w]-bit range. *)
Definition sat_s (w : Z) (x : Z) : Z :=
  Z.max (- 2 ^ (w - 1)) (Z.min (2 ^ (w - 1) - 1) x).

(** Byte [k] (0 = least significant) of an integer as laid out in
    little-endian memory. *)
Definition byte_of (k : Z) (x : Z) : Z := (x / 2 ^ (8 * k)) mod 256.

(** A pointer into a buffer is an offset; negative offsets are outside. *)
Definition load (buf : list Z) (p : Z) : option Z :=
  if decide (0 <= p) then buf !! Z.to_nat p else None.

Definition store (buf : list Z) (p : Z) (v : Z) : option (list Z) :=
  if decide (0 <= p < Z.of_nat (length buf))
  then Some (<[Z.to_nat p := v]> buf) else None.

(** [n] consecutive bytes of a buffer, from [p] on. *)
Fixpoint load_n (buf : list Z) (p : Z) (n : nat) : option (list Z) :=
  match n with
  | O => Some []
  | S n' =>
      match load buf p, load_n buf (p + 1) n' with
      | Some b, Some bs => Some (b :: bs)
      | _, _ => None
      end
  end.

(** Byte-wise store of a list at [p]. *)
Fixpoint store_n (buf : list Z) (p : Z) (bs : list Z) : option (list Z) :=
  match bs with
  | [] => Some buf
  | b :: bs' =>
      match store buf p b with
      | Some buf' => store_n buf' (p + 1) bs'
      | None => None
      end
  end.

(** A little-endian 16-bit / 32-bit integer read back from its bytes
    (memcpy into a uint16_t / uint32_t followed by sys_le16_to_cpu /
    sys_le32_to_cpu). *)
Definition le16 (b0 b1 : Z) : Z := to_u8 b0 + 256 * to_u8 b1.
Definition le32 (b0 b1 b2 b3 : Z) : Z :=
  to_u8 b0 + 256 * to_u8 b1 + 65536 * to_u8 b2 + 16777216 * to_u8 b3.

(** Zephyr errno values used as return codes. *)
Definition EIO : Z := 5.
Definition EAGAIN : Z := 11.
Definition ENOMEM : Z := 12.
Definition EINVAL : Z := 22.

End Cint.

(** ** The host chip seen from the drivers above it

    The transfer code talks to the chip through ch37x_setRetry,
    ch37x_sendToken, ch37x_readBlockData and ch37x_writeBlockData.  What the
    chip answers is not decided by the program: it is a script of replies,
    consumed one per call, and every call is logged. *)
Module Chip.
Import Cint.

(** Modelled from the spec: ch375.h and usb.h are not among the sources.  The
    return codes and status bytes are those of ch376s.h, which
    ch37x_common.h maps to the same CH37X_ names, and of the status table of
    the specification (IntSuccess = 0x14, IntDisconnect = 0x16, a PID result
    is pid | 0x20); the PID values are those of USB 2.0. *)
Definition CH37X_SUCCESS : Z := 0.
Definition CH37X_ERROR : Z := -1.
Definition CH37X_PARAM_INVALID : Z := -2.
Definition CH37X_WRITE_CMD_FAILED : Z := -3.
Definition CH37X_READ_DATA_FAILED : Z := -4.
Definition CH37X_TIMEOUT : Z := -6.
Definition CH37X_USB_INT_SUCCESS : Z := 0x14.
Definition CH37X_USB_INT_CONNECT : Z := 0x15.
Definition CH37X_USB_INT_DISCONNECT : Z := 0x16.
Definition CH37X_RETRY_TIMES_ZERO : Z := 0.
Definition CH37X_RETRY_TIMES_2MS : Z := 1.
Definition CH37X_RETRY_TIMES_INFINITY : Z := 2.
Definition USB_PID_OUT : Z := 0x01.
Definition USB_PID_IN : Z := 0x09.
Definition USB_PID_SETUP : Z := 0x0D.
Definition USB_PID_NAK : Z := 0x0A.
Definition USB_PID_STALL : Z := 0x0E.
Definition CH37X_PID2STATUS (x : Z) : Z := Z.lor x 0x20.

Inductive chip_call : Type :=
| SetRetry (times : Z)
| SendToken (ep : Z) (tog : bool) (pid : Z)
| ReadBlock (len : Z)
| WriteBlock (data : list Z)
| MSleep (ms : Z)
| BusyWait (us : Z).

(** One answer of the chip: the return code of the call, the status byte
    (token calls) and the bytes of the packet (block reads). *)
Record chip_reply : Type := mkReply { c_ret : Z; c_status : Z; c_data : list Z }.

Record chip_t : Type := mkChip { pending : list chip_reply; log : list chip_call }.

(** Computations against the chip. [None]: the script ran out, a loop ran
    out of fuel, or the C program left defined behaviour. *)
Definition M (A : Type) : Type := chip_t -> option (A * chip_t).

Definition ret {A} (a : A) : M A := fun c => Some (a, c).

Definition bind {A B} (m : M A) (k : A -> M B) : M B :=
  fun c => match m c with
           | Some (a, c') => k a c'
           | None => None
           end.

Definition undefined {A} : M A := fun _ => None.

Definition lift {A} (o : option A) : M A :=
  fun c => match o with Some a => Some (a, c) | None => None end.

Definition pop : M chip_reply :=
  fun c => match pending c with
           | [] => None
           | r :: rs => Some (r, mkChip rs (log c))
           end.

Definition emit (e : chip_call) : M unit :=
  fun c => Some (tt, mkChip (pending c) (log c ++ [e])).

Definition ch37x_setRetry (times : Z) : M Z :=
  bind (emit (SetRetry times)) (fun _ => bind pop (fun r => ret (c_ret r))).

(** Returns the return code and the status byte; the status is stored by
    the callee only when the code is CH37X_SUCCESS, and the callers read it
    only then. *)
Definition ch37x_sendToken (ep : Z) (tog : bool) (pid : Z) : M (Z * Z) :=
  bind (emit (SendToken ep tog pid))
       (fun _ => bind pop (fun r => ret (c_ret r, c_status r))).

(** ch375_readBlockData: at most [len] bytes (a uint8_t parameter) of the
    packet reach the caller's buffer; on success their number is the actual
    length. *)
Definition ch37x_readBlockData (len : Z) : M (Z * list Z) :=
  bind (emit (ReadBlock (to_u8 len)))
       (fun _ => bind pop (fun r =>
          ret (c_ret r, firstn (Z.to_nat (to_u8 len)) (c_data r)))).

Definition ch37x_writeBlockData (data : list Z) : M Z :=
  bind (emit (WriteBlock data)) (fun _ => bind pop (fun r => ret (c_ret r))).

Definition k_msleep (ms : Z) : M unit := emit (MSleep ms).
Definition k_busy_wait (us : Z) : M unit := emit (BusyWait us).

End Chip.

#[global] Instance chip_ret : MRet Chip.M := @Chip.ret.
#[global] Instance chip_bind : MBind Chip.M := fun A B k m => Chip.bind m k.

(** ** ch375_host.h: the device tables *)
Module Usb.

Definition USB_MAX_ENDPOINTS : Z := 4.
Definition USB_MAX_INTERFACES : Z := 4.
Definition CONTROL_SETUP_SIZE : Z := 8.

Definition CH37X_HOST_SUCCESS : Z := 0.
Definition CH37X_HOST_ERROR : Z := -1.
Definition CH37X_HOST_PARAM_INVALID : Z := -2.
Definition CH37X_HOST_TIMEOUT : Z := -3.
Definition CH37X_HOST_DEV_DISCONNECT : Z := -4.
Definition CH37X_HOST_STALL : Z := -5.

Record USB_Endpoint_t : Type := mkEndpoint {
  ep_addr : Z;
  attributes : Z;
  max_packet : Z;
  interval : Z;
  data_toggle : bool
}.

Record USB_Interface_t : Type := mkInterface {
  interface_number : Z;
  interface_class : Z;
  interface_subclass : Z;
  interface_protocol : Z;
  endpoint_count : Z;
  endpoints : list USB_Endpoint_t
}.

Definition set_data_toggle (e : USB_Endpoint_t) (t : bool) : USB_Endpoint_t :=
  mkEndpoint (ep_addr e) (attributes e) (max_packet e) (interval e) t.

End Usb.

(** ** hid_parser.c: the double report buffer *)
Module HidParser.
Import Cint Chip Usb.

Definition USBHID_SUCCESS : Z := 0.
Definition USBHID_ERROR : Z := -1.
Definition USBHID_PARAM_INVALID : Z := -2.
Definition USBHID_NO_DEV : Z := -3.
Definition USBHID_IO_ERROR : Z := -4.
Definition USBHID_NOT_SUPPORT : Z := -5.
Definition USBHID_BUFFER_NOT_ALLOC : Z := -7.
Definition USBHID_ALLOC_FAILED : Z := -8.

(** struct HID_DataDescriptor_t: a field located in a report. *)
Record HID_DataDescriptor_t : Type := mkDesc {
  physical_minimum : Z;
  physical_maximum : Z;
  logical_minimum : Z;
  logical_maximum : Z;
  size : Z;
  count : Z;
  report_buf_off : Z
}.

(** The fields of struct USBHID_Device_t that the report path uses.
    [endpoint] is the cached endpoint the device points to, [report_buffer]
    the heap block ([None] is NULL). *)
Record USBHID_Device_t : Type := mkHidDev {
  endpoint : option USB_Endpoint_t;
  report_buffer : option (list Z);
  report_len : Z;
  report_buff_len : Z;
  report_buffer_last_offset : Z
}.

Definition set_buffer (d : USBHID_Device_t) (b : list Z) : USBHID_Device_t :=
  mkHidDev (endpoint d) (Some b) (report_len d) (report_buff_len d)
           (report_buffer_last_offset d).

Definition set_endpoint (d : USBHID_Device_t) (e : USB_Endpoint_t) : USBHID_Device_t :=
  mkHidDev (Some e) (report_buffer d) (report_len d) (report_buff_len d)
           (report_buffer_last_offset d).

Definition set_last_offset (d : USBHID_Device_t) (o : Z) : USBHID_Device_t :=
  mkHidDev (endpoint d) (report_buffer d) (report_len d) (report_buff_len d) o.

(** get_report_buffer: the address of a half of the buffer, as an offset
    from [report_buffer]; [None] is the NULL result. *)
Definition get_report_buffer (d : USBHID_Device_t) (isLast : bool) : option Z :=
  match report_buffer d with
  | None => None
  | Some _ =>
      if isLast then Some (report_buffer_last_offset d)
      else Some (if decide (report_buffer_last_offset d <> 0) then 0 else report_len d)
  end.

(** USBHID_getReportBuffer: return code, *ppBuff and *pLen. *)
Definition USBHID_getReportBuffer (d : USBHID_Device_t) (isLast : bool)
  : Z * option Z * Z :=
  match get_report_buffer d isLast with
  | None => (USBHID_BUFFER_NOT_ALLOC, None, 0)
  | Some p => (USBHID_SUCCESS, Some p, report_len d)
  end.

(** USBHID_allocReportBuffer; [malloc_ok] says whether k_malloc returns a
    block. *)
Definition USBHID_allocReportBuffer (malloc_ok : bool) (d : USBHID_Device_t) (len : Z)
  : Z * USBHID_Device_t :=
  match report_buffer d with
  | Some _ => (USBHID_ERROR, d)
  | None =>
      let buffLen := to_u32 (len * 2) in
      if malloc_ok
      then (USBHID_SUCCESS,
            mkHidDev (endpoint d) (Some (repeat 0 (Z.to_nat buffLen))) len buffLen 0)
      else (USBHID_ALLOC_FAILED, d)
  end.

(** usbhid_read: one IN transaction on the cached endpoint into the block at
    [pBuff]. *)
Definition usbhid_read (d : USBHID_Device_t) (pBuff : Z) (len : Z)
  : M (Z * USBHID_Device_t) :=
  match endpoint d with
  | None => ret (USBHID_ERROR, d)
  | Some pEP =>
      r ← ch37x_setRetry CH37X_RETRY_TIMES_ZERO;
      if decide (r <> CH37X_SUCCESS) then ret (USBHID_IO_ERROR, d) else
      '(r, status) ← ch37x_sendToken (ep_addr pEP) (data_toggle pEP) USB_PID_IN;
      if decide (r <> CH37X_SUCCESS) then ret (USBHID_IO_ERROR, d) else
      if decide (status = CH37X_USB_INT_SUCCESS) then
        '(r, bytes) ← ch37x_readBlockData len;
        match report_buffer d with
        | None => undefined
        | Some buf =>
            buf' ← lift (store_n buf pBuff bytes);
            let d' := set_buffer d buf' in
            if decide (r <> CH37X_SUCCESS) then ret (USBHID_IO_ERROR, d')
            else ret (USBHID_SUCCESS,
                      set_endpoint d' (set_data_toggle pEP (negb (data_toggle pEP))))
        end
      else if decide (status = CH37X_PID2STATUS USB_PID_NAK) then ret (- EAGAIN, d)
      else if decide (status = CH37X_USB_INT_DISCONNECT) then ret (USBHID_NO_DEV, d)
      else ret (USBHID_IO_ERROR, d)
  end.

Definition USBHID_fetchReport (d : USBHID_Device_t) : M (Z * USBHID_Device_t) :=
  match get_report_buffer d true with
  | None => ret (USBHID_BUFFER_NOT_ALLOC, d)
  | Some pLastReportBuff =>
      '(r, d') ← usbhid_read d pLastReportBuff (report_len d);
      if decide (r = USBHID_SUCCESS) then
        if decide (report_buffer_last_offset d' <> 0)
        then ret (USBHID_SUCCESS, set_last_offset d' 0)
        else ret (USBHID_SUCCESS, set_last_offset d' (report_len d'))
      else ret (r, d')
  end.

(** The report a caller sees through an accessor: the [report_len] bytes at
    the address USBHID_getReportBuffer hands out. *)
Definition read_slot (d : USBHID_Device_t) (isLast : bool) : option (list Z) :=
  match report_buffer d, get_report_buffer d isLast with
  | Some buf, Some p => load_n buf p (Z.to_nat (report_len d))
  | _, _ => None
  end.

(** The state of a device whose double buffer is allocated (as
    USBHID_allocReportBuffer leaves it, and as every fetch keeps it). *)
Definition buffer_allocated (d : USBHID_Device_t) : Prop :=
  exists buf ep,
    report_buffer d = Some buf /\ endpoint d = Some ep /\
    0 < report_len d < 256 /\
    Z.of_nat (length buf) = 2 * report_len d /\
    (report_buffer_last_offset d = 0 \/ report_buffer_last_offset d = report_len d).

(** The chip's answers during one fetch that delivers the packet [pkt]. *)
Definition fetch_ok_script (pkt : list Z) : list chip_reply :=
  [ mkReply CH37X_SUCCESS 0 [];
    mkReply CH37X_SUCCESS CH37X_USB_INT_SUCCESS [];
    mkReply CH37X_SUCCESS 0 pkt ].

(** A device with 2-byte reports, as USBHID_allocReportBuffer leaves it
    (zero-filled, last offset 0), bound to the IN endpoint 0x81. *)
Definition device2 : USBHID_Device_t :=
  mkHidDev (Some (mkEndpoint 0x81 3 4 10 false)) (Some (repeat 0 4)) 2 4 0.

(** [k] fetches in a row, all of which must succeed. *)
Fixpoint fetch_all (d : USBHID_Device_t) (k : nat) : M USBHID_Device_t :=
  match k with
  | O => ret d
  | S k' =>
      '(r, d') ← USBHID_fetchReport d;
      if decide (r = USBHID_SUCCESS) then fetch_all d' k' else undefined
  end.

(** USBHID_freeReportBuffer. *)
Definition USBHID_freeReportBuffer (d : USBHID_Device_t) : USBHID_Device_t :=
  mkHidDev (endpoint d) None 0 0 0.

(** A device bound to the IN endpoint 0x81 that has no report buffer
    yet. *)
Definition unallocated_device : USBHID_Device_t :=
  mkHidDev (Some (mkEndpoint 0x81 3 4 10 false)) None 0 0 0.

End HidParser.

(** ** hid_parser.c: the item walker *)
Module HidItem.
Import Cint.

Definition HID_ITEM_TAG_LONG : Z := 15.

Inductive HID_ItemFormat_e : Type :=
| HID_ITEM_FORMAT_SHORT
| HID_ITEM_FORMAT_LONG.

(** The data union of struct HID_Item_t: the integer members share their
    low bytes (the target is little-endian), so a short item is its u32
    value; longdata is a pointer into the descriptor. *)
Inductive item_data : Type :=
| U32 (v : Z)
| LongData (p : Z).

Record HID_Item_t : Type := mkItem {
  format : HID_ItemFormat_e;
  size : Z;
  type : Z;
  tag : Z;
  data : item_data
}.

(** HID_fetchItem on the descriptor [desc], pointers being offsets into it:
    the returned pointer ([None] is NULL) and *pItem after the call. The
    outer [None] is a read outside [desc]. *)
Definition HID_fetchItem (desc : list Z) (pStart pEnd : Z) (pItem : HID_Item_t)
  : option (option Z * HID_Item_t) :=
  if decide (pEnd - pStart <= 0) then Some (None, pItem) else
  firstByte ← load desc pStart;
  let pStart := pStart + 1 in
  let type := Z.land (Z.shiftr firstByte 2) 0x03 in
  let tag := Z.land (Z.shiftr firstByte 4) 0x0F in
  if decide (HID_ITEM_TAG_LONG = tag) then
    if decide (pEnd - pStart < 2)
    then Some (None, mkItem (format pItem) (size pItem) type tag (U32 0))
    else
      size ← load desc pStart;
      tag ← load desc (pStart + 1);
      let pStart := pStart + 2 in
      if decide (pEnd - pStart < size)
      then Some (None, mkItem HID_ITEM_FORMAT_LONG size type tag (U32 0))
      else Some (Some (pStart + size),
                 mkItem HID_ITEM_FORMAT_LONG size type tag (LongData pStart))
  else
    let size := Z.land firstByte 0x03 in
    let item := mkItem HID_ITEM_FORMAT_SHORT size type tag in
    if decide (size = 0) then Some (Some pStart, item (U32 0))
    else if decide (size = 1) then
      if decide (pEnd - pStart < 1) then Some (None, item (U32 0))
      else
        b0 ← load desc pStart;
        Some (Some (pStart + 1), item (U32 (to_u8 b0)))
    else if decide (size = 2) then
      if decide (pEnd - pStart < 2) then Some (None, item (U32 0))
      else
        b0 ← load desc pStart;
        b1 ← load desc (pStart + 1);
        Some (Some (pStart + 2), item (U32 (le16 b0 b1)))
    else if decide (size = 3) then
      if decide (pEnd - pStart < 4) then Some (None, item (U32 0))
      else
        b0 ← load desc pStart;
        b1 ← load desc (pStart + 1);
        b2 ← load desc (pStart + 2);
        b3 ← load desc (pStart + 3);
        Some (Some (pStart + 4),
              mkItem HID_ITEM_FORMAT_SHORT 4 type tag (U32 (le32 b0 b1 b2 b3)))
    else Some (None, item (U32 0)).

(** The bytes of a short item as a report descriptor spells it: the prefix
    byte (tag in bits 4-7, type in bits 2-3, size code in bits 0-1) and the
    payload, least significant byte first. *)
Definition size_code (n : Z) : Z := if decide (n = 4) then 3 else n.

Definition short_item (tag type n v : Z) : list Z :=
  (tag * 16 + type * 4 + size_code n) ::
  map (fun k => byte_of (Z.of_nat k) v) (seq 0 (Z.to_nat n)).

(** The item walk of the fallback scan of HID_parseReportDescriptor,
    while (pCur < pEnd) { pCur = HID_fetchItem(pCur, pEnd, &item);
    if (!pCur) break; ... }: the items the body of the loop is handed, in
    order, and pCur on leaving the loop ([None] is NULL, after the break).
    [fuel] bounds the iterations; a loop that is still running when it is
    used up has no result. *)
Fixpoint fetch_all_items (fuel : nat) (desc : list Z) (pCur pEnd : Z) (pItem : HID_Item_t)
  : option (list HID_Item_t * option Z) :=
  if decide (pCur < pEnd) then
    match fuel with
    | O => None
    | S fuel' =>
        r ← HID_fetchItem desc pCur pEnd pItem;
        match r.1 with
        | None => Some ([], None)
        | Some pNext =>
            rest ← fetch_all_items fuel' desc pNext pEnd r.2;
            Some (r.2 :: rest.1, rest.2)
        end
    end
  else Some ([], Some pCur).

(** A short item as HID_fetchItem reports it, and the bytes that spell
    it. *)
Definition valid_short_item (i : HID_Item_t) : Prop :=
  format i = HID_ITEM_FORMAT_SHORT /\
  0 <= tag i < 15 /\ 0 <= type i < 4 /\
  (size i = 0 \/ size i = 1 \/ size i = 2 \/ size i = 4) /\
  exists v, data i = U32 v /\ 0 <= v < 2 ^ (8 * size i).

Definition encode_item (i : HID_Item_t) : list Z :=
  match data i with
  | U32 v => short_item (tag i) (type i) (size i) v
  | LongData _ => []
  end.

(** Items of the mouse descriptors of the tests: USAGE_PAGE (Generic
    Desktop), USAGE (Mouse), COLLECTION (Application), LOGICAL_MAXIMUM
    (32767), END_COLLECTION. *)
Definition sample_items : list HID_Item_t :=
  [ mkItem HID_ITEM_FORMAT_SHORT 1 1 0 (U32 1);
    mkItem HID_ITEM_FORMAT_SHORT 1 2 0 (U32 2);
    mkItem HID_ITEM_FORMAT_SHORT 1 0 10 (U32 1);
    mkItem HID_ITEM_FORMAT_SHORT 2 1 2 (U32 32767);
    mkItem HID_ITEM_FORMAT_SHORT 0 0 12 (U32 0) ].

(** Items of a descriptor without collections: REPORT_SIZE (8),
    REPORT_COUNT (4), LOGICAL_MAXIMUM (32767), INPUT (Data, Variable). *)
Definition input_only_items : list HID_Item_t :=
  [ mkItem HID_ITEM_FORMAT_SHORT 1 1 7 (U32 8);
    mkItem HID_ITEM_FORMAT_SHORT 1 1 9 (U32 4);
    mkItem HID_ITEM_FORMAT_SHORT 2 1 2 (U32 32767);
    mkItem HID_ITEM_FORMAT_SHORT 1 0 8 (U32 2) ].

Definition zero_item : HID_Item_t := mkItem HID_ITEM_FORMAT_SHORT 0 0 0 (U32 0).

End HidItem.

(** ** hid_mouse.c: field accessors *)
Module HidMouse.
Import Cint HidParser.

Definition MOUSE_REPORTID_BYTE : Z := 0x01.
Definition HID_MOUSE_AXIS_X : Z := 0.
Definition HID_MOUSE_AXIS_Y : Z := 1.
Definition HID_MOUSE_AXIS_WHEEL : Z := 2.

(** struct HID_Mouse_t without the device pointer: the device it points to
    is passed next to it. *)
Record HID_Mouse_t : Type := mkMouse {
  report_len : Z;
  has_report_id_declared : bool;
  report_id_offset : Z;
  button : HID_DataDescriptor_t;
  orientation : HID_DataDescriptor_t;
  wheel : HID_DataDescriptor_t;
  has_wheel : bool
}.

(** Bytes of the report buffer, read through the device. *)
Definition dev_load (d : USBHID_Device_t) (p : Z) : option Z :=
  match report_buffer d with
  | Some buf => load buf p
  | None => None
  end.

Definition dev_store (d : USBHID_Device_t) (p : Z) (v : Z) : option USBHID_Device_t :=
  match report_buffer d with
  | Some buf =>
      match store buf p v with
      | Some buf' => Some (set_buffer d buf')
      | None => None
      end
  | None => None
  end.

(** hidMouse_GetButton. The result is the return code and the content of
    *pValue after the call, [v0] being its content before. *)
Definition hidMouse_GetButton (m : HID_Mouse_t) (d : USBHID_Device_t)
    (buttonNum : Z) (v0 : Z) (isLast : bool) : option (Z * Z) :=
  let byteOff := to_u8 (buttonNum / 8) in
  let bitOff := to_u8 (buttonNum mod 8) in
  if decide (buttonNum >= count (button m)) then Some (USBHID_PARAM_INVALID, v0) else
  match USBHID_getReportBuffer d isLast with
  | (_, Some pReportBuff, _) =>
      let pFieldBuff := pReportBuff + report_buf_off (button m) in
      match dev_load d (pFieldBuff + byteOff) with
      | Some b =>
          Some (USBHID_SUCCESS,
                if decide (Z.land b (Z.shiftl 1 bitOff) <> 0) then 1 else 0)
      | None => None
      end
  | (r, None, _) => Some (r, v0)
  end.

(** hidMouse_GetOrientation, with *pValue threaded as for the buttons. *)
Definition hidMouse_GetOrientation (m : HID_Mouse_t) (d : USBHID_Device_t)
    (axisNum : Z) (v0 : Z) (isLast : bool) : option (Z * Z) :=
  if decide (axisNum = 2 /\ has_wheel m = true) then
    match USBHID_getReportBuffer d isLast with
    | (_, Some pReportBuff, _) =>
        let pFieldBuff := pReportBuff + report_buf_off (wheel m) in
        let valueByteSize := to_u8 (size (wheel m) / 8) in
        if decide (valueByteSize = 1) then
          match dev_load d pFieldBuff with
          | Some b => Some (USBHID_SUCCESS, to_s8 b)
          | None => None
          end
        else if decide (valueByteSize = 2) then
          match dev_load d pFieldBuff, dev_load d (pFieldBuff + 1) with
          | Some b0, Some b1 => Some (USBHID_SUCCESS, to_s16 (le16 b0 b1))
          | _, _ => None
          end
        else Some (USBHID_SUCCESS, 0)
    | (r, None, _) => Some (r, v0)
    end
  else
  if decide (axisNum >= count (orientation m)) then Some (USBHID_PARAM_INVALID, v0) else
  match USBHID_getReportBuffer d isLast with
  | (_, Some pReportBuff, _) =>
      let pFieldBuff := pReportBuff + report_buf_off (orientation m) in
      let valueByteSize := to_u8 (size (orientation m) / 8) in
      if decide (valueByteSize = 0) then Some (USBHID_ERROR, v0)
      else if decide (valueByteSize = 1) then
        match dev_load d (pFieldBuff + axisNum) with
        | Some b => Some (USBHID_SUCCESS, to_s8 b)
        | None => None
        end
      else if decide (valueByteSize = 2) then
        let pAxisStart := pFieldBuff + to_u32 (axisNum * 2) in
        match dev_load d pAxisStart, dev_load d (pAxisStart + 1) with
        | Some b0, Some b1 => Some (USBHID_SUCCESS, to_s16 (le16 b0 b1))
        | _, _ => None
        end
      else if decide (valueByteSize = 4) then
        let pAxisStart := pFieldBuff + to_u32 (axisNum * 4) in
        match dev_load d pAxisStart, dev_load d (pAxisStart + 1),
              dev_load d (pAxisStart + 2), dev_load d (pAxisStart + 3) with
        | Some b0, Some b1, Some b2, Some b3 =>
            Some (USBHID_SUCCESS, to_s32 (le32 b0 b1 b2 b3))
        | _, _, _, _ => None
        end
      else Some (USBHID_ERROR, v0)
  | (r, None, _) => Some (r, v0)
  end.

(** hidMouse_SetOrientation: the return code and the device after the
    call. *)
Definition hidMouse_SetOrientation (m : HID_Mouse_t) (d : USBHID_Device_t)
    (axisNum : Z) (value : Z) (isLast : bool) : option (Z * USBHID_Device_t) :=
  if decide (axisNum >= count (orientation m)) then Some (USBHID_PARAM_INVALID, d) else
  match USBHID_getReportBuffer d isLast with
  | (_, Some pReportBuff, _) =>
      let pFieldBuff := pReportBuff + report_buf_off (orientation m) in
      let valueByteSize := to_u8 (size (orientation m) / 8) in
      if decide (valueByteSize = 0) then Some (USBHID_ERROR, d)
      else if decide (valueByteSize = 1) then
        d1 ← dev_store d (pFieldBuff + axisNum) (to_u8 (to_s8 value));
        Some (USBHID_SUCCESS, d1)
      else if decide (valueByteSize = 2) then
        let pAxisStart := pFieldBuff + to_u32 (axisNum * 2) in
        let raw := to_u16 (to_s16 value) in
        d1 ← dev_store d pAxisStart (byte_of 0 raw);
        d2 ← dev_store d1 (pAxisStart + 1) (byte_of 1 raw);
        Some (USBHID_SUCCESS, d2)
      else if decide (valueByteSize = 4) then
        let pAxisStart := pFieldBuff + to_u32 (axisNum * 4) in
        let raw := to_u32 value in
        d1 ← dev_store d pAxisStart (byte_of 0 raw);
        d2 ← dev_store d1 (pAxisStart + 1) (byte_of 1 raw);
        d3 ← dev_store d2 (pAxisStart + 2) (byte_of 2 raw);
        d4 ← dev_store d3 (pAxisStart + 3) (byte_of 3 raw);
        Some (USBHID_SUCCESS, d4)
      else Some (USBHID_ERROR, d)
  | (r, None, _) => Some (r, d)
  end.

(** The value a signed field of [w] bits holds after [v] was stored in it:
    [v] cut to [w] bits and sign-extended. *)
Definition sign_extended_truncation (w : Z) (v : Z) : Z := to_s w v.

(** The bytes of the orientation field of axis [axisNum] lie inside the
    report buffer, for the half an accessor selects. *)
Definition orientation_in_buffer (m : HID_Mouse_t) (d : USBHID_Device_t)
    (axisNum : Z) (isLast : bool) : Prop :=
  exists buf p,
    report_buffer d = Some buf /\ get_report_buffer d isLast = Some p /\
    0 <= p + report_buf_off (orientation m) /\
    p + report_buf_off (orientation m) + (axisNum + 1) * (size (orientation m) / 8)
      <= Z.of_nat (length buf) /\
    Z.of_nat (length buf) < 2 ^ 32.

(** A 16-bit mouse (buttons in byte 0, X and Y in bytes 1-4) on a device
    with a 5-byte report. *)
Definition mouse16 : HID_Mouse_t :=
  mkMouse 5 false 0 (mkDesc 0 0 0 1 1 3 0) (mkDesc 0 0 (-32767) 32767 16 2 1)
          (mkDesc 0 0 0 0 0 0 0) false.

Definition device5 : USBHID_Device_t :=
  mkHidDev None (Some (repeat 0 10)) 5 10 0.

(** hidMouse_SetButton: the return code and the device after the call. The
    read-modify-write of pFieldBuff[byteOff] is done in int and stored back
    as a uint8_t. *)
Definition hidMouse_SetButton (m : HID_Mouse_t) (d : USBHID_Device_t)
    (buttonNum : Z) (value : Z) (isLast : bool) : option (Z * USBHID_Device_t) :=
  let byteOff := to_u8 (buttonNum / 8) in
  let bitOff := to_u8 (buttonNum mod 8) in
  if decide (buttonNum >= count (button m)) then Some (USBHID_PARAM_INVALID, d) else
  match USBHID_getReportBuffer d isLast with
  | (_, Some pReportBuff, _) =>
      let pFieldBuff := pReportBuff + report_buf_off (button m) in
      b ← dev_load d (pFieldBuff + byteOff);
      d' ← dev_store d (pFieldBuff + byteOff)
             (if decide (0 <> value)
              then to_u8 (Z.lor b (Z.shiftl 1 bitOff))
              else to_u8 (Z.land b (Z.lnot (Z.shiftl 1 bitOff))));
      Some (USBHID_SUCCESS, d')
  | (r, None, _) => Some (r, d)
  end.

(** The byte that holds button [buttonNum] lies inside the report buffer,
    for the half an accessor selects. *)
Definition button_in_buffer (m : HID_Mouse_t) (d : USBHID_Device_t)
    (buttonNum : Z) (isLast : bool) : Prop :=
  exists buf p b,
    report_buffer d = Some buf /\ get_report_buffer d isLast = Some p /\
    load buf (p + report_buf_off (button m) + buttonNum / 8) = Some b.

End HidMouse.

(** ** hid_output.c: the normalised mouse report *)
Module HidOutput.
Import Cint HidParser HidMouse.

Definition HID_OUTPUT_REPORT_SIZE : Z := 6.

(** The button loop of hidOutput_buildMouseReport: buttons [i], [i+1], ...
    while i < 8 and i < button.count; [n] bounds the iterations left. *)
Fixpoint collect_buttons (m : HID_Mouse_t) (d : USBHID_Device_t)
    (n : nat) (i : Z) (buttons : Z) : option Z :=
  match n with
  | O => Some buttons
  | S n' =>
      if decide (i < 8 /\ i < count (button m)) then
        match hidMouse_GetButton m d i 0 false with
        | Some (r, value) =>
            collect_buttons m d n' (i + 1)
              (if decide (0 <> value /\ USBHID_SUCCESS = r)
               then to_u8 (Z.lor buttons (Z.shiftl 1 i)) else buttons)
        | None => None
        end
      else Some buttons
  end.

(** hidOutput_buildMouseReport: the return code and the 6 bytes at
    pOutReport after the call, [out0] being their content before. *)
Definition hidOutput_buildMouseReport (m : HID_Mouse_t) (d : USBHID_Device_t)
    (out0 : list Z) : option (Z * list Z) :=
  let check :=
    if decide (has_report_id_declared m = true /\ report_id_offset m = 1) then
      match USBHID_getReportBuffer d false with
      | (r, Some pInputBuff, _) =>
          match dev_load d pInputBuff with
          | Some reportID =>
              if decide (MOUSE_REPORTID_BYTE <> reportID)
              then Some (Some (- EAGAIN)) else Some None
          | None => None
          end
      | (_, None, _) => Some (Some (- EIO))
      end
    else Some None in
  match check with
  | None => None
  | Some (Some r) => Some (r, out0)
  | Some None =>
      buttons ← collect_buttons m d 8 0 0;
      '(rx, xValue) ← hidMouse_GetOrientation m d HID_MOUSE_AXIS_X 0 false;
      if decide (USBHID_SUCCESS <> rx) then Some (- EIO, [buttons; 0; 0; 0; 0; 0]) else
      '(ry, yValue) ← hidMouse_GetOrientation m d HID_MOUSE_AXIS_Y 0 false;
      if decide (USBHID_SUCCESS <> ry) then Some (- EIO, [buttons; 0; 0; 0; 0; 0]) else
      let x16 := to_u16 xValue in
      let y16 := to_u16 yValue in
      if has_wheel m then
        '(rw, wheelValue) ← hidMouse_GetOrientation m d HID_MOUSE_AXIS_WHEEL 0 false;
        if decide (USBHID_SUCCESS <> rw)
        then Some (- EIO, [buttons; byte_of 0 x16; byte_of 1 x16;
                            byte_of 0 y16; byte_of 1 y16; 0])
        else
          let w1 := if decide (wheelValue > INT8_MAX) then INT8_MAX else wheelValue in
          let w2 := if decide (w1 < INT8_MIN) then INT8_MIN else w1 in
          Some (0, [buttons; byte_of 0 x16; byte_of 1 x16;
                    byte_of 0 y16; byte_of 1 y16; to_u8 (to_s8 w2)])
      else
        Some (0, [buttons; byte_of 0 x16; byte_of 1 x16;
                  byte_of 0 y16; byte_of 1 y16; to_u8 (to_s8 0)])
  end.

(** hidOutput_sendMouseReport. The sink usbhid_proxySendReport is outside
    this file: [sink_ret] is what it answers, [sent] the reports (interface
    number and bytes) it was given so far. *)
Definition hidOutput_sendMouseReport (sink_ret : Z) (m : HID_Mouse_t)
    (d : USBHID_Device_t) (sent : list (Z * list Z))
  : option (Z * list (Z * list Z)) :=
  '(r, pReportBuff) ← hidOutput_buildMouseReport m d (repeat 0 6);
  if decide (- EAGAIN = r) then Some (0, sent)
  else if decide (USBHID_SUCCESS <> r) then Some (r, sent)
  else
    let sent' := sent ++ [(0, pReportBuff)] in
    if decide (USBHID_SUCCESS <> sink_ret) then Some (sink_ret, sent')
    else Some (0, sent').

(** What the claim for the axes asks for: the value as a saturated int16,
    little-endian. *)
Definition saturated_le16 (v : Z) : list Z :=
  let s := to_u16 (sat_s 16 v) in [byte_of 0 s; byte_of 1 s].

(** A mouse with 32-bit axes: buttons in byte 0, X in bytes 1-4, Y in bytes
    5-8, an 8-bit wheel in byte 9. *)
Definition mouse32 : HID_Mouse_t :=
  mkMouse 10 false 0 (mkDesc 0 0 0 1 1 3 0)
          (mkDesc 0 0 (-2147483647) 2147483647 32 2 1)
          (mkDesc 0 0 (-127) 127 8 1 9) true.

(** Its device after one fetch: the current report (offset 0) has the left
    button down, X = 40000 (0x00009C40), Y = -5 and wheel = 2. *)
Definition device32 : USBHID_Device_t :=
  mkHidDev None
    (Some ([1; 0x40; 0x9C; 0; 0; 0xFB; 0xFF; 0xFF; 0xFF; 2] ++ repeat 0 10))
    10 20 10.

(** A mouse whose descriptor declares a Report-ID and whose reports carry
    it in byte 0: buttons in byte 1, 16-bit X and Y in bytes 2-5. *)
Definition mouse_with_report_id : HID_Mouse_t :=
  mkMouse 6 true 1 (mkDesc 0 0 0 1 1 5 1) (mkDesc 0 0 (-32767) 32767 16 2 2)
          (mkDesc 0 0 0 0 0 0 0) false.

(** Its device after one fetch of a report with Report-ID 2. *)
Definition device_report_2 : USBHID_Device_t :=
  mkHidDev None (Some ([2; 0; 0; 0; 0; 0] ++ repeat 0 6)) 6 12 6.

End HidOutput.

(** ** hid_keyboard.c: the key array *)
Module HidKeyboard.
Import Cint HidParser.

Definition HID_KBD_MAX_KEYS : Z := 6.
Definition HID_KBD_KEYS_OFFSET : Z := 2.

Record HID_Keyboard_t : Type := mkKeyboard {
  report_length : Z;
  modifier : HID_DataDescriptor_t;
  keys : HID_DataDescriptor_t
}.

(** The loops of hidKeyboard_SetKey work on pKeysField[0..5]; here that
    window of the report buffer is a list, [i] the loop index and [n] the
    iterations left. *)
Fixpoint add_key (n : nat) (i : nat) (pKeysField : list Z) (keyCode : Z) : list Z :=
  match n with
  | O => pKeysField
  | S n' =>
      match pKeysField !! i with
      | Some k =>
          if decide (0 = k) then <[i := to_u8 keyCode]> pKeysField
          else if decide (k = keyCode) then pKeysField
          else add_key n' (S i) pKeysField keyCode
      | None => pKeysField
      end
  end.

(** for (j = i; j < HID_KBD_MAX_KEYS - 1; j++) pKeysField[j] = pKeysField[j + 1] *)
Fixpoint shift_left (n : nat) (j : nat) (pKeysField : list Z) : list Z :=
  match n with
  | O => pKeysField
  | S n' =>
      match pKeysField !! S j with
      | Some next => shift_left n' (S j) (<[j := next]> pKeysField)
      | None => pKeysField
      end
  end.

Fixpoint delete_key (n : nat) (i : nat) (pKeysField : list Z) (keyCode : Z) : list Z :=
  match n with
  | O => pKeysField
  | S n' =>
      match pKeysField !! i with
      | Some k =>
          if decide (k = keyCode) then
            let cleared := <[i := 0]> pKeysField in
            let shifted := shift_left (Z.to_nat (HID_KBD_MAX_KEYS - 1) - i) i cleared in
            <[Z.to_nat (HID_KBD_MAX_KEYS - 1) := 0]> shifted
          else delete_key n' (S i) pKeysField keyCode
      | None => pKeysField
      end
  end.

(** The body of hidKeyboard_SetKey on the key window. *)
Definition set_key_window (pKeysField : list Z) (keyCode value : Z) : list Z :=
  if decide (0 <> value)
  then add_key (Z.to_nat HID_KBD_MAX_KEYS) 0 pKeysField keyCode
  else delete_key (Z.to_nat HID_KBD_MAX_KEYS) 0 pKeysField keyCode.

(** hidKeyboard_SetKey: the return code and the device after the call. *)
Definition hidKeyboard_SetKey (kbd : HID_Keyboard_t) (d : USBHID_Device_t)
    (keyCode value : Z) (isLast : bool) : option (Z * USBHID_Device_t) :=
  match USBHID_getReportBuffer d isLast, report_buffer d with
  | (_, Some pReportBuff, _), Some buf =>
      let pKeysField := pReportBuff + report_buf_off (keys kbd) in
      window ← load_n buf pKeysField (Z.to_nat HID_KBD_MAX_KEYS);
      buf' ← store_n buf pKeysField (set_key_window window keyCode value);
      Some (USBHID_SUCCESS, set_buffer d buf')
  | (r, _, _), _ => Some (r, d)
  end.

(** The key array of the current report. *)
Definition key_array (kbd : HID_Keyboard_t) (d : USBHID_Device_t) (isLast : bool)
  : option (list Z) :=
  match get_report_buffer d isLast, report_buffer d with
  | Some p, Some buf => load_n buf (p + report_buf_off (keys kbd)) (Z.to_nat HID_KBD_MAX_KEYS)
  | _, _ => None
  end.

(** A sequence of set_key calls; each must return USBHID_SUCCESS. *)
Fixpoint set_keys (kbd : HID_Keyboard_t) (d : USBHID_Device_t)
    (ops : list (Z * Z)) (isLast : bool) : option USBHID_Device_t :=
  match ops with
  | [] => Some d
  | (keyCode, value) :: ops' =>
      match hidKeyboard_SetKey kbd d keyCode value isLast with
      | Some (r, d') =>
          if decide (r = USBHID_SUCCESS) then set_keys kbd d' ops' isLast else None
      | None => None
      end
  end.

(** Shape of a key array. *)
Fixpoint all_zero (l : list Z) : Prop :=
  match l with
  | [] => True
  | k :: t => k = 0 /\ all_zero t
  end.

(** No non-zero entry follows a zero entry. *)
Fixpoint left_packed (l : list Z) : Prop :=
  match l with
  | [] => True
  | k :: t => (k = 0 -> all_zero t) /\ left_packed t
  end.

(** No key code occurs twice. *)
Fixpoint no_duplicate_keys (l : list Z) : Prop :=
  match l with
  | [] => True
  | k :: t => (k <> 0 -> ~ In k t) /\ no_duplicate_keys t
  end.

Definition packed_key_set (l : list Z) : Prop :=
  length l = 6%nat /\ left_packed l /\ no_duplicate_keys l /\
  Forall (fun k => 0 <= k < 256) l.

(** The insertion loop of [add_key] as a recursion on the array: it stops at
    the first empty slot or at the first slot holding [keyCode]. *)
Fixpoint add_first (l : list Z) (keyCode : Z) : list Z :=
  match l with
  | [] => []
  | k :: t =>
      if decide (0 = k) then to_u8 keyCode :: t
      else if decide (k = keyCode) then k :: t
      else k :: add_first t keyCode
  end.

(** The array with its first empty slot taken by [code]. *)
Fixpoint fill_first_empty (l : list Z) (code : Z) : list Z :=
  match l with
  | [] => []
  | k :: t => if decide (k = 0) then code :: t else k :: fill_first_empty t code
  end.

(** The array without the first [code], closed up and padded with a zero. *)
Fixpoint remove_and_compact (l : list Z) (code : Z) : list Z :=
  match l with
  | [] => []
  | k :: t => if decide (k = code) then t ++ [0] else k :: remove_and_compact t code
  end.

(** The boot keyboard of the tests: key array at byte 2 of an 8-byte
    report, buffer as USBHID_allocReportBuffer leaves it. *)
Definition boot_keyboard : HID_Keyboard_t :=
  mkKeyboard 8 (mkDesc 0 0 0 1 1 8 0) (mkDesc 0 0 0 255 8 6 2).

Definition boot_device : USBHID_Device_t :=
  mkHidDev None (Some (repeat 0 16)) 8 16 0.

(** The search loop of hidKeyboard_GetKey on the key window: *pVal when the
    loop is left. *)
Fixpoint find_key (n : nat) (i : nat) (pKeysField : list Z) (keyCode : Z) : Z :=
  match n with
  | O => 0
  | S n' =>
      match pKeysField !! i with
      | Some k => if decide (k = keyCode) then 1 else find_key n' (S i) pKeysField keyCode
      | None => 0
      end
  end.

(** hidKeyboard_GetKey: the return code and *pVal after the call, [v0]
    being its content before. As for hidKeyboard_SetKey the six bytes of
    the key window are taken together. *)
Definition hidKeyboard_GetKey (kbd : HID_Keyboard_t) (d : USBHID_Device_t)
    (keyCode : Z) (v0 : Z) (isLast : bool) : option (Z * Z) :=
  match USBHID_getReportBuffer d isLast, report_buffer d with
  | (_, Some pReportBuff, _), Some buf =>
      let pKeysField := pReportBuff + report_buf_off (keys kbd) in
      window ← load_n buf pKeysField (Z.to_nat HID_KBD_MAX_KEYS);
      Some (USBHID_SUCCESS, find_key (Z.to_nat HID_KBD_MAX_KEYS) 0 window keyCode)
  | (r, _, _), _ => Some (r, v0)
  end.

(** hidKeyboard_GetModifier. *)
Definition hidKeyboard_GetModifier (kbd : HID_Keyboard_t) (d : USBHID_Device_t)
    (modNum : Z) (v0 : Z) (isLast : bool) : option (Z * Z) :=
  if decide (modNum > 7) then Some (USBHID_PARAM_INVALID, v0) else
  match USBHID_getReportBuffer d isLast, report_buffer d with
  | (_, Some pReportBuff, _), Some buf =>
      b ← load buf (pReportBuff + report_buf_off (modifier kbd));
      Some (USBHID_SUCCESS,
            if decide (Z.land b (Z.shiftl 1 (Z.land modNum 0x07)) <> 0) then 1 else 0)
  | (r, _, _), _ => Some (r, v0)
  end.

(** hidKeyboard_SetModifier: the return code and the device after the
    call. *)
Definition hidKeyboard_SetModifier (kbd : HID_Keyboard_t) (d : USBHID_Device_t)
    (modNum : Z) (value : Z) (isLast : bool) : option (Z * USBHID_Device_t) :=
  if decide (modNum > 7) then Some (USBHID_PARAM_INVALID, d) else
  match USBHID_getReportBuffer d isLast, report_buffer d with
  | (_, Some pReportBuff, _), Some buf =>
      let pModField := pReportBuff + report_buf_off (modifier kbd) in
      b ← load buf pModField;
      buf' ← store buf pModField
               (if decide (0 <> value)
                then to_u8 (Z.lor b (Z.shiftl 1 (Z.land modNum 0x07)))
                else to_u8 (Z.land b (Z.lnot (Z.shiftl 1 (Z.land modNum 0x07)))));
      Some (USBHID_SUCCESS, set_buffer d buf')
  | (r, _, _), _ => Some (r, d)
  end.

End HidKeyboard.

(** ** The byte link under the chip layer *)
Module Link.

(** What goes over the wire: a command word and a data word of the 9-bit
    dialect (ch375_writeCmd, ch375_writeData), a bare byte of the 8-bit
    dialect (ch376s_writeByte). *)
Inductive wire_word : Type :=
| Cmd (b : Z)
| Data (b : Z)
| Byte (b : Z).

(** The platform callbacks are outside the chip layer: [answers] are the
    return codes of the coming write calls (success once the list is used
    up), [wire] the words written so far. A word the callback refuses does
    not reach the wire. *)
Record link_t : Type := mkLink { answers : list Z; wire : list wire_word }.

Definition link_write (w : wire_word) (l : link_t) : Z * link_t :=
  match answers l with
  | [] => (0, mkLink [] (wire l ++ [w]))
  | r :: rs => (r, mkLink rs (if decide (r = 0) then wire l ++ [w] else wire l))
  end.

End Link.

(** ** ch375.c: the baud-rate command of the 9-bit dialect *)
Module Ch375.
Import Link.

(** Modelled from the spec: ch375.h is not among the sources; the opcode is
    SET_BAUD (0x02) of the opcode table of the specification, the return
    codes are those of ch376s.h under the CH375_ names. *)
Definition CH375_CMD_SET_BAUDRATE : Z := 0x02.
Definition CH375_SUCCESS : Z := 0.
Definition CH375_PARAM_INVALID : Z := -2.
Definition CH375_WRITE_CMD_FAILED : Z := -3.

Definition ch375_writeCmd (cmd : Z) (l : link_t) : Z * link_t := link_write (Cmd cmd) l.
Definition ch375_writeData (data : Z) (l : link_t) : Z * link_t := link_write (Data data) l.

(** The entries of the switch in ch375_setBaudrate: a case label with the
    two bytes its own body assigns. *)
Definition baud_table : list (Z * (Z * Z)) :=
  [ (9600, (0x02, 0xB2)); (19200, (0x02, 0xD9)); (57600, (0x03, 0x98));
    (115200, (0x03, 0xCC)); (460800, (0x03, 0xF3)); (921600, (0x07, 0xF3));
    (100000, (0x03, 0xC4)); (1000000, (0x03, 0xFA)); (2000000, (0x03, 0xFD)) ].

(** The switch as C runs it: data1 and data2 on leaving it, or [None] for
    the default label, which returns. The body of case 921600 has no break
    and runs on into the body of case 100000. *)
Definition baud_switch (baudrate : Z) : option (Z * Z) :=
  let data1 := 0 in
  let data2 := 0 in
  if decide (baudrate = 9600) then Some (0x02, 0xB2)
  else if decide (baudrate = 19200) then Some (0x02, 0xD9)
  else if decide (baudrate = 57600) then Some (0x03, 0x98)
  else if decide (baudrate = 115200) then Some (0x03, 0xCC)
  else if decide (baudrate = 460800) then Some (0x03, 0xF3)
  else if decide (baudrate = 921600) then
    let data1 := 0x07 in
    let data2 := 0xF3 in
    (* falls through *)
    let data1 := 0x03 in
    let data2 := 0xC4 in
    Some (data1, data2)
  else if decide (baudrate = 100000) then Some (0x03, 0xC4)
  else if decide (baudrate = 1000000) then Some (0x03, 0xFA)
  else if decide (baudrate = 2000000) then Some (0x03, 0xFD)
  else None.

Definition ch375_setBaudrate (baudrate : Z) (l : link_t) : Z * link_t :=
  match baud_switch baudrate with
  | None => (CH375_PARAM_INVALID, l)
  | Some (data1, data2) =>
      let '(r, l1) := ch375_writeCmd CH375_CMD_SET_BAUDRATE l in
      if decide (CH375_SUCCESS <> r) then (CH375_WRITE_CMD_FAILED, l1) else
      let '(r, l2) := ch375_writeData data1 l1 in
      if decide (CH375_SUCCESS <> r) then (CH375_WRITE_CMD_FAILED, l2) else
      let '(r, l3) := ch375_writeData data2 l2 in
      if decide (CH375_SUCCESS <> r) then (CH375_WRITE_CMD_FAILED, l3) else
      (CH375_SUCCESS, l3)
  end.

(** The baud rates the interface table of the specification lists for this
    dialect. *)
Definition listed_baudrates : list Z :=
  [9600; 19200; 57600; 115200; 460800; 921600; 1000000; 2000000].

End Ch375.

(** ** ch376s.c: the baud-rate command of the 8-bit dialect *)
Module Ch376s.
Import Link.

Definition CH376S_CMD_SET_BAUDRATE : Z := 0x02.
Definition CH376S_SUCCESS : Z := 0.
Definition CH376S_PARAM_INVALID : Z := -2.
Definition CH376S_WRITE_CMD_FAILED : Z := -3.

Definition ch376s_writeByte (byte : Z) (l : link_t) : Z * link_t := link_write (Byte byte) l.

Definition baud_table : list (Z * (Z * Z)) :=
  [ (9600, (0x02, 0xB2)); (115200, (0x03, 0xCC)) ].

Definition baud_switch (baudrate : Z) : option (Z * Z) :=
  if decide (baudrate = 9600) then Some (0x02, 0xB2)
  else if decide (baudrate = 115200) then Some (0x03, 0xCC)
  else None.

Definition ch376s_setBaudrate (baudrate : Z) (l : link_t) : Z * link_t :=
  match baud_switch baudrate with
  | None => (CH376S_PARAM_INVALID, l)
  | Some (data1, data2) =>
      let '(r, l1) := ch376s_writeByte CH376S_CMD_SET_BAUDRATE l in
      if decide (CH376S_SUCCESS <> r) then (CH376S_WRITE_CMD_FAILED, l1) else
      let '(r, l2) := ch376s_writeByte data1 l1 in
      if decide (CH376S_SUCCESS <> r) then (CH376S_WRITE_CMD_FAILED, l2) else
      let '(r, l3) := ch376s_writeByte data2 l2 in
      if decide (CH376S_SUCCESS <> r) then (CH376S_WRITE_CMD_FAILED, l3) else
      (CH376S_SUCCESS, l3)
  end.

End Ch376s.

(** ** ch376s.c: the port of the 8-bit dialect *)
Module Ch376sPort.
Import Cint Link.

Definition CH376S_CMD_RD_USB_DATA : Z := 0x28.
Definition CH376S_CMD_WR_HOST_DATA : Z := 0x2C.
Definition CH376S_SUCCESS : Z := 0.
Definition CH376S_WRITE_CMD_FAILED : Z := -3.
Definition CH376S_READ_DATA_FAILED : Z := -4.
Definition CH376S_TIMEOUT : Z := -6.

(** One answer of the read_byte callback: its return code and the byte it
    stored through pByte, if it stored one. *)
Record read_reply : Type := mkRead { r_code : Z; r_byte : option Z }.

(** The port of a context: the write side, the answers of the coming
    read_byte calls and the number of times pCtx->lock is held. *)
Record port_t : Type := mkPort { p_link : link_t; p_reads : list read_reply; p_lock : nat }.

(** Computations on the port. [None]: the read script ran out, a loop ran
    out of fuel, or the C program left defined behaviour. *)
Definition P (A : Type) : Type := port_t -> option (A * port_t).

Definition ret {A} (a : A) : P A := fun p => Some (a, p).

Definition bind {A B} (m : P A) (k : A -> P B) : P B :=
  fun p => match m p with
           | Some (a, p') => k a p'
           | None => None
           end.

Definition undefined {A} : P A := fun _ => None.

Definition lift {A} (o : option A) : P A :=
  fun p => match o with Some a => Some (a, p) | None => None end.

Definition k_mutex_lock : P unit :=
  fun p => Some (tt, mkPort (p_link p) (p_reads p) (S (p_lock p))).

Definition k_mutex_unlock : P unit :=
  fun p => Some (tt, mkPort (p_link p) (p_reads p) (pred (p_lock p))).

(** ch376s_writeByte and ch376s_readByte on a non-NULL context: the
    write_byte and read_byte callbacks. *)
Definition write_byte (byte : Z) : P Z :=
  fun p => let '(r, l) := link_write (Byte byte) (p_link p) in
           Some (r, mkPort l (p_reads p) (p_lock p)).

Definition read_byte : P read_reply :=
  fun p => match p_reads p with
           | [] => None
           | r :: rs => Some (r, mkPort (p_link p) rs (p_lock p))
           end.

End Ch376sPort.

#[global] Instance port_ret : MRet Ch376sPort.P := @Ch376sPort.ret.
#[global] Instance port_bind : MBind Ch376sPort.P := fun A B k m => Ch376sPort.bind m k.

(** ** ch376s.c: block transfers of the 8-bit dialect *)
Module Ch376sBlock.
Import Cint Link Ch376sPort.

(** The while loop of ch376s_writeBlockData; [n] bounds the iterations
    left. The result is the code the function returned with from inside the
    loop, if it did. *)
Fixpoint write_loop (n : nat) (pBuff : list Z) (offset len : Z) : P (option Z) :=
  if decide (len > 0) then
    match n with
    | O => undefined
    | S n' =>
        b ← lift (load pBuff offset);
        r ← write_byte b;
        if decide (CH376S_SUCCESS <> r) then
          _ ← k_mutex_unlock;
          mret (Some CH376S_WRITE_CMD_FAILED)
        else write_loop n' pBuff (to_u8 (offset + 1)) (to_u8 (len - 1))
    end
  else mret None.

(** ch376s_writeBlockData with a non-NULL context and buffer; [len] is the
    uint8_t parameter. *)
Definition ch376s_writeBlockData (pBuff : list Z) (len : Z) : P Z :=
  _ ← k_mutex_lock;
  r ← write_byte CH376S_CMD_WR_HOST_DATA;
  if decide (CH376S_SUCCESS <> r) then
    _ ← k_mutex_unlock; mret CH376S_WRITE_CMD_FAILED
  else
  r ← write_byte len;
  if decide (CH376S_SUCCESS <> r) then
    _ ← k_mutex_unlock; mret CH376S_WRITE_CMD_FAILED
  else
  early ← write_loop 256 pBuff 0 len;
  match early with
  | Some code => mret code
  | None => _ ← k_mutex_unlock; mret CH376S_SUCCESS
  end.

(** The while loop of ch376s_readBlockData: the code the function returned
    with from inside the loop, if it did, the caller's buffer and offset. *)
Fixpoint read_loop (n : nat) (pBuff : list Z) (len resiLen offset : Z)
  : P (option Z * list Z * Z) :=
  if decide (resiLen > 0 /\ offset < len) then
    match n with
    | O => undefined
    | S n' =>
        r ← read_byte;
        pBuff' ← lift (match r_byte r with
                       | Some b => store pBuff offset b
                       | None => Some pBuff
                       end);
        if decide (CH376S_TIMEOUT = r_code r) then mret (None, pBuff', offset)
        else if decide (CH376S_SUCCESS <> r_code r) then
          _ ← k_mutex_unlock;
          mret (Some CH376S_READ_DATA_FAILED, pBuff', offset)
        else read_loop n' pBuff' len (to_u8 (resiLen - 1)) (to_u8 (offset + 1))
    end
  else mret (None, pBuff, offset).

(** ch376s_readBlockData with non-NULL arguments: the return code, the
    caller's buffer and *pActualLen when it is stored. A first read that
    succeeds without storing a byte leaves dataLen uninitialized. *)
Definition ch376s_readBlockData (pBuff : list Z) (len : Z) : P (Z * list Z * option Z) :=
  _ ← k_mutex_lock;
  r ← write_byte CH376S_CMD_RD_USB_DATA;
  if decide (CH376S_SUCCESS <> r) then
    _ ← k_mutex_unlock; mret (CH376S_WRITE_CMD_FAILED, pBuff, None)
  else
  r ← read_byte;
  if decide (CH376S_SUCCESS <> r_code r) then
    _ ← k_mutex_unlock; mret (CH376S_READ_DATA_FAILED, pBuff, None)
  else
  dataLen ← lift (r_byte r);
  '(early, pBuff', offset) ← read_loop 256 pBuff len dataLen 0;
  match early with
  | Some code => mret (code, pBuff', None)
  | None => _ ← k_mutex_unlock; mret (CH376S_SUCCESS, pBuff', Some offset)
  end.

(** The words of a block write: the command, the length and the first
    [len] bytes of the buffer. *)
Definition write_frame (pBuff : list Z) (len : Z) : list wire_word :=
  Byte CH376S_CMD_WR_HOST_DATA :: Byte len :: map Byte (firstn (Z.to_nat len) pBuff).

(** The words of [frame] that reach the wire when the write callback
    answers with [answers]: those before the first refusal. *)
Fixpoint sent (answers : list Z) (frame : list wire_word) : list wire_word :=
  match frame, answers with
  | [], _ => []
  | w :: ws, [] => w :: ws
  | w :: ws, r :: rs => if decide (r = 0) then w :: sent rs ws else []
  end.

(** A read callback that stores a byte whenever it reports success. *)
Definition stores_on_success (r : read_reply) : Prop :=
  r_code r = CH376S_SUCCESS -> exists b, r_byte r = Some b.

(** The bytes the read callback delivers before its first answer other
    than success. *)
Fixpoint delivered (replies : list read_reply) : list Z :=
  match replies with
  | r :: rs =>
      if decide (r_code r = CH376S_SUCCESS) then
        match r_byte r with
        | Some b => b :: delivered rs
        | None => []
        end
      else []
  | [] => []
  end.

(** The answers of a read callback that delivers one byte of a packet and
    then times out. *)
Definition short_packet_replies : list read_reply :=
  [mkRead CH376S_SUCCESS (Some 0xAA); mkRead CH376S_TIMEOUT None;
   mkRead CH376S_SUCCESS (Some 0xCC)].

End Ch376sBlock.

(** ** ch375_host.c: transfers and the configuration walk *)
Module Host.
Import Cint Chip Usb.

Definition USB_SREQ_GET_DESCRIPTOR : Z := 0x06.
Definition USB_DESC_INTERFACE : Z := 0x04.
Definition USB_DESC_ENDPOINT : Z := 0x05.

Definition SETUP_IN (x : Z) : Z := Z.land x 0x80.
Definition EP_IN (x : Z) : Z := Z.land x 0x80.

(** The fields of struct USB_Device_t the transfers and the walk use. The
    two tables are C arrays of USB_MAX_INTERFACES and USB_MAX_ENDPOINTS
    slots. *)
Record USB_Device_t : Type := mkDevice {
  ep0_max_packet : Z;
  raw_conf_desc : option (list Z);
  raw_conf_desc_len : Z;
  interface_count : Z;
  interfaces : list USB_Interface_t
}.

Definition zero_endpoint : USB_Endpoint_t := mkEndpoint 0 0 0 0 false.
Definition zero_interface : USB_Interface_t :=
  mkInterface 0 0 0 0 0 (repeat zero_endpoint (Z.to_nat USB_MAX_ENDPOINTS)).

(** The device after memset in ch375_hostUdevOpen, with the configuration
    descriptor [conf] fetched. *)
Definition fresh_device (ep0 : Z) (conf : list Z) : USB_Device_t :=
  mkDevice ep0 (Some conf) (Z.of_nat (length conf)) 0
           (repeat zero_interface (Z.to_nat USB_MAX_INTERFACES)).

Definition set_interfaces (u : USB_Device_t) (n : Z) (ifs : list USB_Interface_t)
  : USB_Device_t :=
  mkDevice (ep0_max_packet u) (raw_conf_desc u) (raw_conf_desc_len u) n ifs.

(** *** The configuration walk *)

(** A write of the walk that lands outside the table it indexes. *)
Inductive table_overrun : Type :=
| InterfaceSlot (index : Z)
| EndpointSlot (interface_index endpoint_index : Z).

Inductive walk_result : Type :=
| Parsed (u : USB_Device_t)         (* CH37X_HOST_SUCCESS *)
| HostError                         (* CH37X_HOST_ERROR *)
| OutOfBounds (w : table_overrun)   (* a store outside an array *)
| ReadPastEnd                       (* a descriptor field read outside the buffer *)
| OutOfFuel.

(** parse_interface_descriptor: fills interfaces[interface_count]. *)
Definition parse_interface_descriptor (u : USB_Device_t) (buf : list Z) (pDesc : Z)
  : walk_result :=
  match load buf (pDesc + 2), load buf (pDesc + 5),
        load buf (pDesc + 6), load buf (pDesc + 7) with
  | Some bInterfaceNumber, Some bInterfaceClass,
    Some bInterfaceSubClass, Some bInterfaceProtocol =>
      let index := interface_count u in
      if decide (0 <= index < USB_MAX_INTERFACES) then
        match interfaces u !! Z.to_nat index with
        | Some ifc =>
            let ifc' := mkInterface bInterfaceNumber bInterfaceClass bInterfaceSubClass
                                    bInterfaceProtocol (endpoint_count ifc) (endpoints ifc) in
            Parsed (set_interfaces u (to_u8 (interface_count u + 1))
                                   (<[Z.to_nat index := ifc']> (interfaces u)))
        | None => OutOfBounds (InterfaceSlot index)
        end
      else OutOfBounds (InterfaceSlot index)
  | _, _, _, _ => ReadPastEnd
  end.

(** parse_endpoint_descriptor on &interfaces[interface_count - 1]: fills
    endpoints[endpoint_count] of that interface. *)
Definition parse_endpoint_descriptor (u : USB_Device_t) (buf : list Z) (pDesc : Z)
  : walk_result :=
  match load buf (pDesc + 2), load buf (pDesc + 3), load buf (pDesc + 4),
        load buf (pDesc + 5), load buf (pDesc + 6) with
  | Some bEndpointAddress, Some bmAttributes, Some w0, Some w1, Some bInterval =>
      let index := interface_count u - 1 in
      if decide (0 <= index < USB_MAX_INTERFACES) then
        match interfaces u !! Z.to_nat index with
        | Some ifc =>
            let slot := endpoint_count ifc in
            if decide (0 <= slot < USB_MAX_ENDPOINTS) then
              let pEP := mkEndpoint bEndpointAddress bmAttributes (le16 w0 w1)
                                    bInterval false in
              let ifc' := mkInterface (interface_number ifc) (interface_class ifc)
                            (interface_subclass ifc) (interface_protocol ifc)
                            (to_u8 (endpoint_count ifc + 1))
                            (<[Z.to_nat slot := pEP]> (endpoints ifc)) in
              Parsed (set_interfaces u (interface_count u)
                                     (<[Z.to_nat index := ifc']> (interfaces u)))
            else OutOfBounds (EndpointSlot index slot)
        | None => OutOfBounds (InterfaceSlot index)
        end
      else OutOfBounds (InterfaceSlot index)
  | _, _, _, _, _ => ReadPastEnd
  end.

(** The while loop of parse_config_descriptor; [pDescStart] is an offset
    into the descriptor, [n] bounds the iterations left. *)
Fixpoint walk (n : nat) (u : USB_Device_t) (buf : list Z) (pDescStart : Z)
  : walk_result :=
  let pDescEnd := raw_conf_desc_len u in
  if decide (pDescStart + 2 <= pDescEnd) then
    match n with
    | O => OutOfFuel
    | S n' =>
        match load buf pDescStart, load buf (pDescStart + 1) with
        | Some bLength, Some bDescriptorType =>
            if decide (0 = bLength) then HostError
            else if decide (pDescStart + bLength > pDescEnd) then HostError
            else
              let after :=
                if decide (bDescriptorType = USB_DESC_INTERFACE)
                then parse_interface_descriptor u buf pDescStart
                else if decide (bDescriptorType = USB_DESC_ENDPOINT)
                then parse_endpoint_descriptor u buf pDescStart
                else Parsed u in
              match after with
              | Parsed u' => walk n' u' buf (pDescStart + bLength)
              | other => other
              end
        | _, _ => ReadPastEnd
        end
    end
  else Parsed u.

Definition parse_config_descriptor (u : USB_Device_t) : walk_result :=
  match raw_conf_desc u with
  | None => HostError
  | Some buf =>
      if decide (0 = raw_conf_desc_len u) then HostError
      else walk (length buf) u buf 0
  end.

(** *** Transfers *)

(** A stage of a transfer either returns from the function with a code or
    hands on to the code after it. *)
Inductive stage (A : Type) : Type :=
| Return (code : Z)
| Continue (a : A).
Arguments Return {A} code.
Arguments Continue {A} a.

(** The bytes of the caller's buffer [pData] from [offset] on that a block
    write sends. *)
Definition block_of (pData : list Z) (offset len : Z) : list Z :=
  firstn (Z.to_nat len) (skipn (Z.to_nat offset) pData).

(** What a failed transaction returns, by its status byte. *)
Definition status_error (status : Z) : Z :=
  if decide (CH37X_USB_INT_DISCONNECT = status) then CH37X_HOST_DEV_DISCONNECT
  else if decide (status = CH37X_PID2STATUS USB_PID_STALL) then CH37X_HOST_STALL
  else CH37X_HOST_ERROR.

(** The 8 bytes of the SETUP packet. *)
Definition setup_packet (reqType bRequest wValue wIndex wLength : Z) : list Z :=
  [to_u8 reqType; to_u8 bRequest;
   byte_of 0 (to_u16 wValue); byte_of 1 (to_u16 wValue);
   byte_of 0 (to_u16 wIndex); byte_of 1 (to_u16 wIndex);
   byte_of 0 (to_u16 wLength); byte_of 1 (to_u16 wLength)].

(** Retry setting and SETUP stage of ch375_hostControlTransfer. *)
Definition control_setup (reqType bRequest wValue wIndex wLength : Z) : M (stage unit) :=
  r ← (if decide (USB_SREQ_GET_DESCRIPTOR = bRequest)
       then ch37x_setRetry CH37X_RETRY_TIMES_2MS
       else ch37x_setRetry CH37X_RETRY_TIMES_INFINITY);
  if decide (CH37X_SUCCESS <> r) then mret (Return CH37X_HOST_ERROR) else
  r ← ch37x_writeBlockData (setup_packet reqType bRequest wValue wIndex wLength);
  if decide (CH37X_SUCCESS <> r) then mret (Return CH37X_HOST_ERROR) else
  _ ← k_busy_wait 200;
  '(r, status) ← ch37x_sendToken 0 false USB_PID_SETUP;
  if decide (CH37X_SUCCESS <> r) then mret (Return CH37X_HOST_ERROR) else
  if decide (CH37X_USB_INT_SUCCESS <> status) then mret (Return (status_error status))
  else mret (Continue tt).

(** The IN loop of the DATA stage: [n] bounds the iterations left; the
    result is totalReceived on leaving the loop, or the code the function
    returns with at once, and in both cases the caller's buffer with the
    packets stored so far. *)
Fixpoint control_data_in (n : nat) (ep0 : Z) (wLength : Z)
    (totalReceived : Z) (toggle : bool) (pData : list Z) : M (stage Z * list Z) :=
  if decide (totalReceived < wLength) then
    match n with
    | O => undefined
    | S n' =>
        '(r, status) ← ch37x_sendToken 0 toggle USB_PID_IN;
        if decide (CH37X_SUCCESS <> r) then mret (Return CH37X_HOST_ERROR, pData) else
        if decide (CH37X_USB_INT_SUCCESS <> status) then
          if decide (status = CH37X_PID2STATUS USB_PID_NAK) then
            _ ← (if decide (totalReceived > 0) then k_busy_wait 500 else k_busy_wait 100);
            control_data_in n' ep0 wLength totalReceived toggle pData
          else if decide (status = CH37X_PID2STATUS USB_PID_STALL)
          then mret (Return CH37X_HOST_STALL, pData)
          else if decide (CH37X_USB_INT_DISCONNECT = status)
          then mret (Return CH37X_HOST_DEV_DISCONNECT, pData)
          else if decide (totalReceived > 0) then mret (Continue totalReceived, pData)
          else mret (Return CH37X_HOST_ERROR, pData)
        else
          '(r, bytes) ← ch37x_readBlockData (wLength - totalReceived);
          pData' ← lift (store_n pData totalReceived bytes);
          if decide (CH37X_SUCCESS <> r) then
            if decide (totalReceived > 0) then mret (Continue totalReceived, pData')
            else mret (Return CH37X_HOST_ERROR, pData')
          else
            let packetLen := Z.of_nat (length bytes) in
            let totalReceived' :=
              if decide (packetLen > 0) then totalReceived + packetLen else totalReceived in
            let toggle' := if decide (packetLen > 0) then negb toggle else toggle in
            if decide (packetLen < ep0) then mret (Continue totalReceived', pData')
            else
              _ ← (if decide (totalReceived' < wLength) then k_busy_wait 100 else mret tt);
              control_data_in n' ep0 wLength totalReceived' toggle' pData'
    end
  else mret (Continue totalReceived, pData).

(** The OUT loop of the DATA stage; it reads the caller's buffer and
    leaves it as it is. *)
Fixpoint control_data_out (n : nat) (ep0 : Z) (wLength : Z)
    (totalReceived : Z) (toggle : bool) (pData : list Z) : M (stage Z * list Z) :=
  if decide (totalReceived < wLength) then
    match n with
    | O => undefined
    | S n' =>
        let toSend0 := to_u8 (wLength - totalReceived) in
        let toSend := if decide (toSend0 > ep0) then ep0 else toSend0 in
        r ← ch37x_writeBlockData (block_of pData totalReceived toSend);
        if decide (CH37X_SUCCESS <> r) then mret (Return CH37X_HOST_ERROR, pData) else
        '(r, status) ← ch37x_sendToken 0 toggle USB_PID_OUT;
        if decide (CH37X_SUCCESS <> r) then mret (Return CH37X_HOST_ERROR, pData) else
        if decide (CH37X_USB_INT_SUCCESS <> status)
        then mret (Return (status_error status), pData)
        else control_data_out n' ep0 wLength (totalReceived + toSend) (negb toggle) pData
    end
  else mret (Continue totalReceived, pData).

(** SETUP and DATA stages together: totalReceived when the function goes
    on to the STATUS stage, or the code it returns with before, and the
    caller's buffer at that point. *)
Definition control_stages (fuel : nat) (u : USB_Device_t)
    (reqType bRequest wValue wIndex : Z) (pData : list Z) (wLength : Z)
  : M (stage Z * list Z) :=
  s ← control_setup reqType bRequest wValue wIndex wLength;
  match s with
  | Return code => mret (Return code, pData)
  | Continue _ =>
      if decide (wLength > 0) then
        if decide (SETUP_IN reqType <> 0)
        then control_data_in fuel (ep0_max_packet u) wLength 0 true pData
        else control_data_out fuel (ep0_max_packet u) wLength 0 true pData
      else mret (Continue 0, pData)
  end.

(** What the function has received when it reaches the STATUS stage:
    totalReceived and the caller's buffer. *)
Definition control_setup_and_data (fuel : nat) (u : USB_Device_t)
    (reqType bRequest wValue wIndex : Z) (pData : list Z) (wLength : Z)
  : M (stage (Z * list Z)) :=
  '(s, pData') ← control_stages fuel u reqType bRequest wValue wIndex pData wLength;
  match s with
  | Return code => mret (Return code)
  | Continue totalReceived => mret (Continue (totalReceived, pData'))
  end.

(** The STATUS stage (from the comment "Status stage" to the end of the
    function): the return code and, when it is stored, *pActualLen. *)
Definition control_status (reqType : Z) (totalReceived : Z) : M (Z * option Z) :=
  if decide (SETUP_IN reqType <> 0) then
    r ← ch37x_writeBlockData [];
    if decide (CH37X_SUCCESS <> r) then
      if decide (totalReceived > 0) then mret (CH37X_HOST_SUCCESS, Some totalReceived)
      else mret (CH37X_HOST_ERROR, None)
    else
    '(r, status) ← ch37x_sendToken 0 true USB_PID_OUT;
    if decide (CH37X_SUCCESS <> r) then
      if decide (totalReceived > 0) then mret (CH37X_HOST_SUCCESS, Some totalReceived)
      else mret (CH37X_HOST_ERROR, None)
    else
    if decide (status <> CH37X_USB_INT_SUCCESS) then
      if decide (totalReceived > 0) then mret (CH37X_HOST_SUCCESS, Some totalReceived)
      else mret (status_error status, None)
    else mret (CH37X_HOST_SUCCESS, Some totalReceived)
  else
    '(r, status) ← ch37x_sendToken 0 true USB_PID_IN;
    if decide (CH37X_SUCCESS <> r) then mret (CH37X_HOST_ERROR, None) else
    if decide (CH37X_USB_INT_SUCCESS <> status) then mret (status_error status, None)
    else mret (CH37X_HOST_SUCCESS, Some totalReceived).

(** ch375_hostControlTransfer with a non-NULL device, context, buffer and
    pActualLen: the return code, the caller's buffer and *pActualLen. *)
Definition ch375_hostControlTransfer (fuel : nat) (u : USB_Device_t)
    (reqType bRequest wValue wIndex : Z) (pData : list Z) (wLength : Z)
  : M (Z * list Z * option Z) :=
  '(s, pData') ← control_stages fuel u reqType bRequest wValue wIndex pData wLength;
  match s with
  | Return code => mret (code, pData', None)
  | Continue totalReceived =>
      '(code, actual) ← control_status reqType totalReceived;
      mret (code, pData', actual)
  end.

(** How the STATUS stage of an IN transfer can fail, read off the next
    answers of the chip: the zero-length block write, the OUT token, or the
    status byte of the token. *)
Inductive status_failure : Type :=
| WriteFailed
| TokenFailed
| BadStatus (status : Z).

Definition status_out_failure (c : chip_t) : option status_failure :=
  match pending c with
  | r1 :: rest =>
      if decide (CH37X_SUCCESS <> c_ret r1) then Some WriteFailed
      else match rest with
           | r2 :: _ =>
               if decide (CH37X_SUCCESS <> c_ret r2) then Some TokenFailed
               else if decide (c_status r2 <> CH37X_USB_INT_SUCCESS)
                    then Some (BadStatus (c_status r2))
                    else None
           | [] => None
           end
  | [] => None
  end.

(** The error a STATUS-stage failure stands for. *)
Definition failure_code (k : status_failure) : Z :=
  match k with
  | WriteFailed => CH37X_HOST_ERROR
  | TokenFailed => CH37X_HOST_ERROR
  | BadStatus status => status_error status
  end.

(** get_endpoint: the place of the endpoint with address [epAddr] in the
    tables, as interface and endpoint index. *)
Fixpoint find_endpoint (eps : list USB_Endpoint_t) (j : nat) (n : nat) (epAddr : Z)
  : option nat :=
  match n, eps with
  | S n', e :: eps' =>
      if decide (ep_addr e = epAddr) then Some j else find_endpoint eps' (S j) n' epAddr
  | _, _ => None
  end.

Fixpoint find_interface (ifs : list USB_Interface_t) (i : nat) (n : nat) (epAddr : Z)
  : option (nat * nat) :=
  match n, ifs with
  | S n', ifc :: ifs' =>
      match find_endpoint (endpoints ifc) 0 (Z.to_nat (endpoint_count ifc)) epAddr with
      | Some j => Some (i, j)
      | None => find_interface ifs' (S i) n' epAddr
      end
  | _, _ => None
  end.

Definition get_endpoint (u : USB_Device_t) (epAddr : Z) : option (nat * nat) :=
  if decide (0 = epAddr) then None
  else find_interface (interfaces u) 0 (Z.to_nat (interface_count u)) epAddr.

Definition endpoint_at (u : USB_Device_t) (at_ : nat * nat) : option USB_Endpoint_t :=
  ifc ← interfaces u !! at_.1; endpoints ifc !! at_.2.

(** endpoint->data_toggle = !endpoint->data_toggle, through the pointer into
    the device table. *)
Definition flip_toggle (u : USB_Device_t) (at_ : nat * nat) : USB_Device_t :=
  set_interfaces u (interface_count u)
    (alter (fun ifc =>
              mkInterface (interface_number ifc) (interface_class ifc)
                (interface_subclass ifc) (interface_protocol ifc) (endpoint_count ifc)
                (alter (fun e => set_data_toggle e (negb (data_toggle e))) at_.2
                       (endpoints ifc)))
           at_.1 (interfaces u)).

(** The variables of the loop of ch375_hostBulkTransfer. *)
Record bulk_state : Type := mkBulk {
  b_dev : USB_Device_t;
  b_data : list Z;
  b_resiLen : Z;
  b_offset : Z;
  b_timeout : Z
}.

(** First half of the loop body: the token (and the block read or write);
    it yields the status byte and actualLen, or the code the function
    returns with at once, and in both cases the caller's buffer. *)
Definition bulk_transact (ep : Z) (e : USB_Endpoint_t) (st : bulk_state)
  : M (stage (Z * Z) * list Z) :=
  let len := to_u8 (if decide (b_resiLen st > max_packet e)
                    then max_packet e else b_resiLen st) in
  if decide (EP_IN ep <> 0) then
    '(r, status) ← ch37x_sendToken ep (data_toggle e) USB_PID_IN;
    if decide (CH37X_SUCCESS <> r) then mret (Return CH37X_HOST_ERROR, b_data st) else
    if decide (CH37X_USB_INT_SUCCESS = status) then
      '(r, bytes) ← ch37x_readBlockData len;
      pData' ← lift (store_n (b_data st) (b_offset st) bytes);
      if decide (CH37X_SUCCESS <> r) then mret (Return CH37X_HOST_ERROR, pData')
      else mret (Continue (status, Z.of_nat (length bytes)), pData')
    else mret (Continue (status, 0), b_data st)
  else
    r ← ch37x_writeBlockData (block_of (b_data st) (b_offset st) len);
    if decide (CH37X_SUCCESS <> r) then mret (Return CH37X_HOST_ERROR, b_data st) else
    '(r, status) ← ch37x_sendToken ep (data_toggle e) USB_PID_OUT;
    if decide (CH37X_SUCCESS <> r) then mret (Return CH37X_HOST_ERROR, b_data st) else
    if decide (CH37X_USB_INT_SUCCESS = status)
    then mret (Continue (status, len), b_data st)
    else mret (Continue (status, 0), b_data st).

(** Second half of the loop body: what the status byte leads to. The
    result is either the next loop state or the return code with
    *pActualLen (stored only on the Timeout path) and the state left
    behind. *)
Definition bulk_settle (at_ : nat * nat) (st : bulk_state)
    (status actualLen : Z) (pData' : list Z)
  : M (bulk_state + (Z * option Z * bulk_state)) :=
  if decide (CH37X_USB_INT_SUCCESS = status) then
    mret (inl (mkBulk (flip_toggle (b_dev st) at_) pData'
                      (b_resiLen st - actualLen) (b_offset st + actualLen)
                      (b_timeout st)))
  else
    let st' := mkBulk (b_dev st) pData' (b_resiLen st) (b_offset st) (b_timeout st) in
    if decide (status = CH37X_PID2STATUS USB_PID_NAK) then
      if decide (b_timeout st = 0)
      then mret (inr (CH37X_HOST_TIMEOUT, Some (b_offset st), st'))
      else
        _ ← k_msleep 1;
        mret (inl (mkBulk (b_dev st) pData' (b_resiLen st) (b_offset st)
                          (to_u32 (b_timeout st - 1))))
    else mret (inr (status_error status, None, st')).

(** One pass through the loop body. *)
Definition bulk_iteration (ep : Z) (at_ : nat * nat) (st : bulk_state)
  : M (bulk_state + (Z * option Z * bulk_state)) :=
  match endpoint_at (b_dev st) at_ with
  | None => undefined
  | Some e =>
      '(t, pData') ← bulk_transact ep e st;
      match t with
      | Return code =>
          mret (inr (code, None,
                     mkBulk (b_dev st) pData' (b_resiLen st) (b_offset st) (b_timeout st)))
      | Continue (status, actualLen) => bulk_settle at_ st status actualLen pData'
      end
  end.

Fixpoint bulk_loop (n : nat) (ep : Z) (at_ : nat * nat) (st : bulk_state)
  : M (Z * option Z * bulk_state) :=
  if decide (b_resiLen st > 0) then
    match n with
    | O => undefined
    | S n' =>
        next ← bulk_iteration ep at_ st;
        match next with
        | inl st' => bulk_loop n' ep at_ st'
        | inr result => mret result
        end
    end
  else mret (CH37X_HOST_SUCCESS, Some (b_offset st), st).

(** ch375_hostBulkTransfer with non-NULL pData and pActualLen: the return
    code, *pActualLen when stored, and the device and buffer afterwards. *)
Definition ch375_hostBulkTransfer (fuel : nat) (u : USB_Device_t) (ep : Z)
    (pData : list Z) (len : Z) (timeout : Z) : M (Z * option Z * bulk_state) :=
  let st := mkBulk u pData len 0 timeout in
  match get_endpoint u ep with
  | None => mret (CH37X_HOST_PARAM_INVALID, None, st)
  | Some at_ =>
      r ← ch37x_setRetry CH37X_RETRY_TIMES_ZERO;
      if decide (CH37X_SUCCESS <> r) then mret (CH37X_HOST_ERROR, None, st)
      else bulk_loop fuel ep at_ st
  end.

(** Where the endpoint of a transfer stands after a pass through the loop:
    in the next loop state or in the state the function returns with. *)
Definition device_after (out : bulk_state + (Z * option Z * bulk_state)) : USB_Device_t :=
  match out with
  | inl st' => b_dev st'
  | inr (_, _, st') => b_dev st'
  end.

(** The data toggle of the endpoint a transfer works on. *)
Definition toggle_at (u : USB_Device_t) (at_ : nat * nat) : option bool :=
  e ← endpoint_at u at_; Some (data_toggle e).

(** The device of the transfer tests: one interface with the interrupt IN
    endpoint 0x81 (max packet 4) and the bulk OUT endpoint 0x02. *)
Definition test_device : USB_Device_t :=
  mkDevice 8 None 0 1
    (mkInterface 0 3 1 2 2
       [mkEndpoint 0x81 3 4 10 false; mkEndpoint 0x02 2 64 0 false;
        zero_endpoint; zero_endpoint]
     :: repeat zero_interface 3).

Definition NAK : Z := CH37X_PID2STATUS USB_PID_NAK.
Definition STALL : Z := CH37X_PID2STATUS USB_PID_STALL.

(** Replies of the chip. *)
Definition ok : chip_reply := mkReply CH37X_SUCCESS 0 [].
Definition token (status : Z) : chip_reply := mkReply CH37X_SUCCESS status [].
Definition packet (bytes : list Z) : chip_reply := mkReply CH37X_SUCCESS 0 bytes.
Definition failed (code : Z) : chip_reply := mkReply code 0 [].

(** A configuration descriptor with five interface descriptors and no
    endpoint: 9 + 5 * 9 = 54 bytes, every item well formed. *)
Definition interface_item (number : Z) : list Z :=
  [0x09; 0x04; number; 0x00; 0x00; 0x03; 0x01; 0x02; 0x00].

Definition five_interfaces : list Z :=
  [0x09; 0x02; 0x36; 0x00; 0x05; 0x01; 0x00; 0xA0; 0x32]
  ++ interface_item 0 ++ interface_item 1 ++ interface_item 2
  ++ interface_item 3 ++ interface_item 4.

(** A configuration descriptor whose first item after the header is an
    endpoint descriptor. *)
Definition endpoint_item (address : Z) : list Z :=
  [0x07; 0x05; address; 0x03; 0x04; 0x00; 0x0A].

Definition endpoint_before_interface : list Z :=
  [0x09; 0x02; 0x10; 0x00; 0x01; 0x01; 0x00; 0xA0; 0x32] ++ endpoint_item 0x81.

(** One interface with five endpoints. *)
Definition five_endpoints : list Z :=
  [0x09; 0x02; 0x35; 0x00; 0x01; 0x01; 0x00; 0xA0; 0x32]
  ++ interface_item 0
  ++ endpoint_item 0x81 ++ endpoint_item 0x02 ++ endpoint_item 0x83
  ++ endpoint_item 0x04 ++ endpoint_item 0x85.

(** The mouse configuration of the descriptor tests. *)
Definition sampleMouseConfig : list Z :=
  [0x09; 0x02; 0x22; 0x00; 0x01; 0x01; 0x00; 0xA0; 0x32]
  ++ [0x09; 0x04; 0x00; 0x00; 0x01; 0x03; 0x01; 0x02; 0x00]
  ++ [0x09; 0x21; 0x11; 0x01; 0x00; 0x01; 0x22; 0x34; 0x00]
  ++ [0x07; 0x05; 0x81; 0x03; 0x04; 0x00; 0x0A].

(** The bytes by which a configuration descriptor spells table entries: an
    endpoint descriptor, an interface descriptor followed by class
    descriptors and by the descriptors of its endpoints, and any other
    descriptor (bLength, bDescriptorType, payload). *)
Definition other_item (d : Z * list Z) : list Z :=
  (2 + Z.of_nat (length d.2)) :: d.1 :: d.2.

Definition encode_endpoint (e : USB_Endpoint_t) : list Z :=
  [0x07; USB_DESC_ENDPOINT; ep_addr e; attributes e;
   byte_of 0 (max_packet e); byte_of 1 (max_packet e); interval e].

Definition encode_interface (entry : USB_Interface_t * list (Z * list Z)) : list Z :=
  let ifc := entry.1 in
  [0x09; USB_DESC_INTERFACE; interface_number ifc; 0x00; endpoint_count ifc;
   interface_class ifc; interface_subclass ifc; interface_protocol ifc; 0x00]
  ++ concat (map other_item entry.2)
  ++ concat (map encode_endpoint
               (firstn (Z.to_nat (endpoint_count ifc)) (endpoints ifc))).

(** A descriptor the walk skips. *)
Definition skipped_item (d : Z * list Z) : Prop :=
  d.1 <> USB_DESC_INTERFACE /\ d.1 <> USB_DESC_ENDPOINT.

(** A table entry as the walk can leave it: at most USB_MAX_ENDPOINTS
    endpoints with toggle DATA0 and a 16-bit packet size, the unused slots
    as memset left them. *)
Definition table_entry (ifc : USB_Interface_t) : Prop :=
  0 <= endpoint_count ifc <= USB_MAX_ENDPOINTS /\
  length (endpoints ifc) = Z.to_nat USB_MAX_ENDPOINTS /\
  (forall (j : nat) e, endpoints ifc !! j = Some e ->
     if decide (Z.of_nat j < endpoint_count ifc)
     then data_toggle e = false /\ 0 <= max_packet e < 65536
     else e = zero_endpoint).

(** What a call log shows of a transfer: the payload bytes of the block
    writes in order, and the tokens sent. *)
Definition written (lg : list chip_call) : list Z :=
  concat (map (fun call => match call with WriteBlock data => data | _ => [] end) lg).

Definition tokens_sent (lg : list chip_call) : list (Z * bool * Z) :=
  concat (map (fun call => match call with
                           | SendToken ep tog pid => [(ep, tog, pid)]
                           | _ => []
                           end) lg).

(** The answers of the chip to the IN transactions that deliver the packets
    [ps]: each token completes and the block read hands out the packet. *)
Definition in_script (ps : list (list Z)) : list chip_reply :=
  concat (map (fun p => [token CH37X_USB_INT_SUCCESS; packet p]) ps).

(** An answer of a chip that accepts the command and, for a token, reports
    the transaction complete. *)
Definition accepts (r : chip_reply) : Prop :=
  c_ret r = CH37X_SUCCESS /\ c_status r = CH37X_USB_INT_SUCCESS.

(** The number of packets of at most [mp] bytes that carry [len] bytes. *)
Definition packets_of (len mp : Z) : nat := Z.to_nat ((len + mp - 1) / mp).








(** The tokens and the sleeps of a call log, in order. *)
Definition bus_calls (lg : list chip_call) : list chip_call :=
  concat (map (fun call => match call with
                           | SendToken _ _ _ | MSleep _ => [call]
                           | _ => []
                           end) lg).



(** A configuration descriptor: leading descriptors the walk skips (the
    configuration header among them), then the interfaces. *)
Definition encode_configuration (pre : list (Z * list Z))
    (cfg : list (USB_Interface_t * list (Z * list Z))) : list Z :=
  concat (map other_item pre) ++ concat (map encode_interface cfg).

(** The number of descriptors an interface entry spells. *)
Definition item_count (entry : USB_Interface_t * list (Z * list Z)) : nat :=
  S (length entry.2 + Z.to_nat (endpoint_count entry.1)).

(** The interface of the mouse configuration of the tests with its HID
    class descriptor. *)
Definition sample_mouse_entry : USB_Interface_t * list (Z * list Z) :=
  (mkInterface 0 3 1 2 1 (mkEndpoint 0x81 3 4 10 false :: repeat zero_endpoint 3),
   [(0x21, [0x11; 0x01; 0x00; 0x01; 0x22; 0x34; 0x00])]).

End Host.

(** ** hid_parser.c: the endpoint of an interface *)
Module HidEndpoint.
Import Cint Usb Host.

(** get_ep_in: the return value and *pEP when it is stored. *)
Definition get_ep_in (u : USB_Device_t) (interfaceNum : Z) : option (Z * option Z) :=
  if decide (interfaceNum >= interface_count u) then Some (-1, None)
  else
    match interfaces u !! Z.to_nat interfaceNum with
    | None => None
    | Some iface =>
        if decide (endpoint_count iface < 1) then Some (-1, None)
        else
          match endpoints iface !! 0%nat with
          | Some e => Some (0, Some (ep_addr e))
          | None => None
          end
    end.

(** Two interface descriptors of one configuration: interface number 2
    with an OUT endpoint first, then interface number 0. *)
Definition out_first_configuration : list (USB_Interface_t * list (Z * list Z)) :=
  [(mkInterface 2 3 0 0 2
      (mkEndpoint 0x01 3 8 10 false :: mkEndpoint 0x82 3 8 10 false
       :: repeat zero_endpoint 2), []);
   (mkInterface 0 3 1 2 1 (mkEndpoint 0x81 3 4 10 false :: repeat zero_endpoint 3), [])].

End HidEndpoint.

(** ** input_patterns.c: the recoil sequencer *)
Module Recoil.
Import Cint.

Definition USB_REPORT_INTERVAL : Z := 8.
Definition RECOIL_COMP_PRESET_COUNT : Z := 3.
Definition RECOIL_COMP_DATA_GROUP_SIZE : Z := 3.
Definition RECOIL_COMP_STATE_INITIALIZED : Z := 1.
Definition RECOIL_COMP_STATE_PRESET_ACTIVE : Z := 2.
Definition RECOIL_COMP_STATE_ARRAYS_ALLOCATED : Z := 4.

(** C float arithmetic as the expansion uses it. The program is written
    against this interface; [binary32] below is IEEE 754 single precision. *)
Class FloatOps (F : Type) : Type := {
  f_of_int : Z -> F;            (* (float)i *)
  f_lit : Z -> nat -> F;        (* the decimal literal m * 10^-e *)
  f_add : F -> F -> F;
  f_sub : F -> F -> F;
  f_mul : F -> F -> F;
  f_div : F -> F -> F;
  f_le : F -> F -> bool;
  f_lt : F -> F -> bool;
  f_floor_i32 : F -> Z;         (* (int32_t)floorf(x) *)
  f_round_i32 : F -> Z          (* (int32_t)roundf(x) *)
}.

Section Sequencer.
Context {F : Type} {FO : FloatOps F}.

Definition RECOIL_COMP_DEFAULT_COEFF : F := f_lit 10 1.
Definition RECOIL_COMP_DEFAULT_SENS : F := f_lit 25 1.
Definition RECOIL_COMP_COEFF_MIN : F := f_lit 1 1.
Definition RECOIL_COMP_COEFF_MAX : F := f_lit 100 1.
Definition RECOIL_COMP_SENS_MIN : F := f_lit 1 1.
Definition RECOIL_COMP_SENS_MAX : F := f_lit 1000 1.

(** Zephyr's CLAMP(val, low, high): (val <= low) ? low : MIN(val, high). *)
Definition CLAMP (val low high : F) : F :=
  if f_le val low then low else if f_lt val high then val else high.

Record PresetCollection_t : Type := mkPreset {
  pData : option (list F);
  dataLen : Z;
  firerounds_sampling : Z
}.

Record RecoilComp_Context_t : Type := mkCtx {
  coefficient : F;
  sensitivity : F;
  stateFlags : Z;
  pCollect : option PresetCollection_t;
  pX : option (list Z);
  pY : option (list Z);
  pTs : option (list Z);
  arrLen : Z;
  arrIndex : Z;
  lastTickMs : Z
}.

(** The variables of the expansion loops. *)
Record gen_state : Type := mkGen {
  g_idx : Z;
  g_pX : list Z;
  g_pY : list Z;
  g_pTs : list Z;
  g_sumX : F;
  g_sumY : F;
  g_sumTs : F;
  g_sumX0 : F;
  g_sumY0 : F;
  g_sumTs0 : F
}.

(** What the head of the group loop computes for one group: the per-tick
    base values and the residuals to hand out. *)
Record group_plan : Type := mkPlan {
  sX : Z; sY : Z; sTimestamp : Z;
  fixX : Z; fixY : Z; fixTs : Z
}.

(** One store of the inner loop, with its correction: the value stored, the
    running sum and the residual afterwards. *)
Definition tick_store (s : Z) (sum : F) (fix_ : Z) : Z * F * Z :=
  if decide (fix_ > 0) then (to_s32 (s + 1), f_add sum (f_of_int 1), fix_ - 1)
  else (s, sum, fix_).

(** for (j = 0; j < firerounds_sampling; j++): [k] iterations left. *)
Fixpoint fill_ticks (k : nat) (len : Z) (p : group_plan) (st : gen_state) : gen_state :=
  match k with
  | O => st
  | S k' =>
      if decide (g_idx st >= len) then st
      else
        let idx := Z.to_nat (g_idx st) in
        let '(vx, sumX', fixX') := tick_store (sX p) (g_sumX st) (fixX p) in
        let '(vy, sumY', fixY') := tick_store (sY p) (g_sumY st) (fixY p) in
        let '(vt, sumTs', fixTs') := tick_store (sTimestamp p) (g_sumTs st) (fixTs p) in
        fill_ticks k' len
          (mkPlan (sX p) (sY p) (sTimestamp p) fixX' fixY' fixTs')
          (mkGen (g_idx st + 1)
                 (<[idx := vx]> (g_pX st)) (<[idx := vy]> (g_pY st))
                 (<[idx := vt]> (g_pTs st))
                 sumX' sumY' sumTs' (g_sumX0 st) (g_sumY0 st) (g_sumTs0 st))
  end.

(** The head of the loop over groups, for group [i]: the scaled values, the
    per-tick floors, the running sums and the rounded residuals. *)
Definition group_head (data : list F) (n : Z) (coeff sens : F) (i : Z) (st : gen_state)
  : option (group_plan * gen_state) :=
  let rawIdx := i * RECOIL_COMP_DATA_GROUP_SIZE in
  match data !! Z.to_nat (rawIdx + 0), data !! Z.to_nat (rawIdx + 1),
        data !! Z.to_nat (rawIdx + 2) with
  | Some d0, Some d1, Some d2 =>
      let x := f_div (f_mul d0 coeff) sens in
      let y := f_div (f_mul d1 coeff) sens in
      let timestamp := d2 in
      let sX := f_floor_i32 (f_div x (f_of_int n)) in
      let sY := f_floor_i32 (f_div y (f_of_int n)) in
      let sTimestamp := f_floor_i32 (f_div timestamp (f_of_int n)) in
      let sumX := f_add (g_sumX st) (f_of_int (to_s32 (sX * n))) in
      let sumY := f_add (g_sumY st) (f_of_int (to_s32 (sY * n))) in
      let sumTs := f_add (g_sumTs st) (f_of_int (to_s32 (sTimestamp * n))) in
      let sumX0 := f_add (g_sumX0 st) x in
      let sumY0 := f_add (g_sumY0 st) y in
      let sumTs0 := f_add (g_sumTs0 st) timestamp in
      let fixX := f_round_i32 (f_sub sumX0 sumX) in
      let fixY := f_round_i32 (f_sub sumY0 sumY) in
      let fixTs := f_round_i32 (f_sub sumTs0 sumTs) in
      Some (mkPlan sX sY sTimestamp fixX fixY fixTs,
            mkGen (g_idx st) (g_pX st) (g_pY st) (g_pTs st)
                  sumX sumY sumTs sumX0 sumY0 sumTs0)
  | _, _, _ => None
  end.

(** for (i = ...; i < groups; i++): [k] groups left, [i] the next one. *)
Fixpoint gen_groups (k : nat) (i : Z) (data : list F) (n : Z) (coeff sens : F)
    (len : Z) (st : gen_state) : option gen_state :=
  match k with
  | O => Some st
  | S k' =>
      match group_head data n coeff sens i st with
      | Some (p, st1) =>
          gen_groups k' (i + 1) data n coeff sens len
                     (fill_ticks (Z.to_nat n) len p st1)
      | None => None
      end
  end.

Definition gen_start (len : Z) : gen_state :=
  let a := repeat 0 (Z.to_nat len) in
  mkGen 0 a a a (f_of_int 0) (f_of_int 0) (f_of_int 0)
        (f_of_int 0) (f_of_int 0) (f_of_int 0).

(** recoilComp_cbGenerateDataLocked; [heap_ok] says whether the three
    k_malloc calls return blocks. A read outside the preset data is [None].
    The blocks come back from k_malloc with indeterminate content; every
    element is stored before the function returns. *)
Definition recoilComp_cbGenerateDataLocked (heap_ok : bool) (ctx : RecoilComp_Context_t)
  : option (Z * RecoilComp_Context_t) :=
  match pCollect ctx with
  | None => Some (- EINVAL, ctx)
  | Some pColl =>
      match pData pColl with
      | None => Some (- EINVAL, ctx)
      | Some data =>
          if decide (dataLen pColl <= 0 \/
                     0 <> Z.rem (dataLen pColl) RECOIL_COMP_DATA_GROUP_SIZE)
          then Some (- EINVAL, ctx)
          else if decide (firerounds_sampling pColl <= 0) then Some (- EINVAL, ctx)
          else
            let coeff := CLAMP (coefficient ctx) RECOIL_COMP_COEFF_MIN RECOIL_COMP_COEFF_MAX in
            let sens := CLAMP (sensitivity ctx) RECOIL_COMP_SENS_MIN RECOIL_COMP_SENS_MAX in
            let groups := Z.quot (dataLen pColl) RECOIL_COMP_DATA_GROUP_SIZE in
            let len := to_s32 (firerounds_sampling pColl * groups) in
            if negb heap_ok
            then Some (- ENOMEM,
                       mkCtx coeff sens (stateFlags ctx) (pCollect ctx) None None None
                             len (arrIndex ctx) (lastTickMs ctx))
            else
              match gen_groups (Z.to_nat groups) 0 data (firerounds_sampling pColl)
                               coeff sens len (gen_start len) with
              | Some st =>
                  Some (0, mkCtx coeff sens
                             (Z.lor (stateFlags ctx) RECOIL_COMP_STATE_ARRAYS_ALLOCATED)
                             (pCollect ctx)
                             (Some (g_pX st)) (Some (g_pY st)) (Some (g_pTs st))
                             len (arrIndex ctx) (lastTickMs ctx))
              | None => None
              end
      end
  end.

(** recoilComp_cbTimeElapsed. *)
Definition recoilComp_cbTimeElapsed (start now : Z) : Z :=
  if decide (now >= start) then now - start
  else to_u32 ((0xFFFFFFFF - start) + now + 1).

(** recoilComp_getNextData; [now] is what k_uptime_get_32 returns, [data0]
    the content of *pData before the call. The result is the return code,
    *pData and the context afterwards. *)
Definition recoilComp_getNextData (ctx : RecoilComp_Context_t) (now : Z) (data0 : Z * Z)
  : option (Z * (Z * Z) * RecoilComp_Context_t) :=
  if decide (0 = Z.land (stateFlags ctx) RECOIL_COMP_STATE_INITIALIZED)
  then Some (- EINVAL, data0, ctx)
  else if decide (0 = Z.land (stateFlags ctx) RECOIL_COMP_STATE_ARRAYS_ALLOCATED)
  then Some (- EINVAL, data0, ctx)
  else if decide (arrIndex ctx >= arrLen ctx) then Some (-1, data0, ctx)
  else
    let elapsed := recoilComp_cbTimeElapsed (lastTickMs ctx) now in
    match pX ctx, pY ctx, pTs ctx with
    | Some xs, Some ys, Some ts =>
        let i := arrIndex ctx in
        match load xs i, load ys i, load ts i with
        | Some x, Some y, Some t =>
            if decide (elapsed >= to_u32 t) then
              Some (0, (x, to_s32 (-1 * y)),
                    mkCtx (coefficient ctx) (sensitivity ctx) (stateFlags ctx)
                          (pCollect ctx) (pX ctx) (pY ctx) (pTs ctx) (arrLen ctx)
                          (arrIndex ctx + 1)
                          (to_u32 (lastTickMs ctx + to_u32 t)))
            else Some (-1, data0, ctx)
        | _, _, _ => None
        end
    | _, _, _ => None
    end.

(** The ticks of group [g] in an expanded array. *)
Definition group_ticks (arr : list Z) (n : Z) (g : Z) : list Z :=
  firstn (Z.to_nat n) (skipn (Z.to_nat (g * n)) arr).

Definition sum_ticks (l : list Z) : Z := fold_right Z.add 0 l.

(** Tick [j] of a group with base value [s] and residual [fix_]. *)
Definition tick_value (s fix_ : Z) (j : nat) : Z :=
  if decide (Z.of_nat j < fix_) then to_s32 (s + 1) else s.

(** The plan of group [g]: the head of the loop after the [g] groups
    before it. *)
Definition plan_of_group (data : list F) (n : Z) (coeff sens : F) (len : Z) (g : nat)
  : option group_plan :=
  st ← gen_groups g 0 data n coeff sens len (gen_start len);
  ph ← group_head data n coeff sens (Z.of_nat g) st;
  Some ph.1.

(** What the claim asks of the three sums of a group. *)
Definition claimed_group_sums (data : list F) (coeff sens : F) (g : Z)
  : option (Z * Z * Z) :=
  let rawIdx := g * RECOIL_COMP_DATA_GROUP_SIZE in
  match data !! Z.to_nat (rawIdx + 0), data !! Z.to_nat (rawIdx + 1),
        data !! Z.to_nat (rawIdx + 2) with
  | Some d0, Some d1, Some d2 =>
      Some (f_round_i32 (f_div (f_mul d0 coeff) sens),
            f_round_i32 (f_div (f_mul d1 coeff) sens),
            f_round_i32 (f_div (f_mul d2 coeff) sens))
  | _, _, _ => None
  end.




(** The three components of a tick, with the variables of the expansion
    that belong to each. *)
Inductive axis : Type := AxisX | AxisY | AxisT.



Definition a_arr (a : axis) (st : gen_state) : list Z :=
  match a with AxisX => g_pX st | AxisY => g_pY st | AxisT => g_pTs st end.



Definition array_of (a : axis) (ctx : RecoilComp_Context_t) : option (list Z) :=
  match a with AxisX => pX ctx | AxisY => pY ctx | AxisT => pTs ctx end.

(** The groups of a preset: x, y and t of each. *)
Fixpoint raw_groups (data : list F) : list (F * F * F) :=
  match data with
  | d0 :: d1 :: d2 :: rest => (d0, d1, d2) :: raw_groups rest
  | _ => []
  end.

(** Error diffusion as the amended specification words it. The target of
    a group is x_raw * coeff / sens for x, y_raw * coeff / sens for y and
    t_raw itself for t. *)
Definition target (coeff sens : F) (a : axis) (d : F * F * F) : F :=
  match a with
  | AxisX => f_div (f_mul d.1.1 coeff) sens
  | AxisY => f_div (f_mul d.1.2 coeff) sens
  | AxisT => d.2
  end.

Definition targets (coeff sens : F) (a : axis) (data : list F) : list F :=
  map (target coeff sens a) (raw_groups data).

(** The running sum of the targets of the groups 0..g, added up in float
    from 0 in the order of the groups. *)
Definition running_target (ts : list F) (g : nat) : F :=
  fold_left f_add (firstn (S g) ts) (f_of_int 0).

(** How many ticks of a group of n are raised by one for the residual. *)
Definition hand_out (fix_ n : Z) : Z := Z.max 0 (Z.min fix_ n).

(** k times sum = sum + 1 in float. *)
Fixpoint add_ones (k : nat) (s : F) : F :=
  match k with
  | O => s
  | S k' => add_ones k' (f_add s (f_of_int 1))
  end.

(** One group of one component: the quotient target / n and its floor,
    the base value of the group; the running sum of the targets through
    this group; the running float sum of what has been emitted, the n base
    values of this group included; the residual, the rounded difference of
    the two; the integer emitted before the residual is handed out, and
    the integer sum of all ticks through this group. *)
Record diffusion : Type := mkDiffusion {
  d_quot : F;
  d_base : Z;
  d_want : F;
  d_sent : F;
  d_fix : Z;
  d_before : Z;
  d_total : Z
}.

Definition diffuse_group (n : Z) (t want0 sent0 : F) (total0 : Z) : diffusion :=
  let q := f_div t (f_of_int n) in
  let b := f_floor_i32 q in
  let w := f_add want0 t in
  let s := f_add sent0 (f_of_int (b * n)) in
  let fx := f_round_i32 (f_sub w s) in
  mkDiffusion q b w s fx (total0 + n * b) (total0 + n * b + hand_out fx n).

Fixpoint diffuse (n : Z) (ts : list F) (want0 sent0 : F) (total0 : Z) : list diffusion :=
  match ts with
  | [] => []
  | t :: rest =>
      let d := diffuse_group n t want0 sent0 total0 in
      d :: diffuse n rest (d_want d)
             (add_ones (Z.to_nat (hand_out (d_fix d) n)) (d_sent d)) (d_total d)
  end.

(** The diffusion of one component of a preset, from sums at 0. *)
Definition diffusion_of (data : list F) (n : Z) (coeff sens : F) (a : axis)
  : list diffusion :=
  diffuse n (targets coeff sens a data) (f_of_int 0) (f_of_int 0) 0.




(** gRawPreset_OW2_Soldier76 and gRawPreset_OW2_Cassidy. *)
Definition gRawPreset_OW2_Soldier76 : list F :=
  concat (map (fun y => [f_lit 0 5; y; f_of_int 111])
    [ f_lit 0 5; f_lit (-145500) 5; f_lit 47045 5; f_lit (-136901) 5;
      f_lit 44265 5; f_lit (-85873) 5; f_lit 41649 5; f_lit (-80798) 5;
      f_lit 39187 5; f_lit (-38012) 5; f_lit 36871 5; f_lit (-35765) 5;
      f_lit 34692 5; f_lit (-33651) 5; f_lit 32642 5; f_lit (-18998) 5;
      f_lit 18428 5; f_lit 0 5; f_lit 17339 5; f_lit 0 5;
      f_lit 0 5; f_lit 0 5; f_lit 0 5; f_lit 0 5; f_lit 0 5;
      f_lit 0 5; f_lit 0 5; f_lit 0 5; f_lit 0 5; f_lit 0 5 ]).

Definition gRawPreset_OW2_Cassidy : list F :=
  concat (repeat [ f_lit 0 5; f_lit 0 5; f_of_int 50;
                   f_lit 0 5; f_lit (-2020000) 5; f_of_int 150;
                   f_lit 0 5; f_lit 0 5; f_of_int 300 ] 6).

(** sRecoilCollectArr; round(111/8) and round(500/8) are integer divisions
    rounded: 13 and 62. *)
Definition sRecoilCollectArr : list PresetCollection_t :=
  [ mkPreset None 0 0;
    mkPreset (Some gRawPreset_OW2_Soldier76)
             (Z.of_nat (length gRawPreset_OW2_Soldier76))
             (Z.quot 111 USB_REPORT_INTERVAL);
    mkPreset (Some gRawPreset_OW2_Cassidy)
             (Z.of_nat (length gRawPreset_OW2_Cassidy))
             (Z.quot 500 USB_REPORT_INTERVAL) ].

(** The context recoilComp_open returns: zeroed, then the default
    coefficient and sensitivity and the initialized flag. *)
Definition opened_context : RecoilComp_Context_t :=
  mkCtx RECOIL_COMP_DEFAULT_COEFF RECOIL_COMP_DEFAULT_SENS
        RECOIL_COMP_STATE_INITIALIZED None None None None 0 0 0.

(** The context recoilComp_open returns, with a preset selected as
    recoilComp_setPreset does before it generates. *)
Definition opened_with_preset (presetIndex : nat) : RecoilComp_Context_t :=
  mkCtx RECOIL_COMP_DEFAULT_COEFF RECOIL_COMP_DEFAULT_SENS
        RECOIL_COMP_STATE_INITIALIZED (sRecoilCollectArr !! presetIndex)
        None None None 0 0 0.

(** The sums of the x, y and t ticks of group [g] in the arrays that a
    successful expansion of the preset of [ctx] leaves behind. *)
Definition expanded_group_sums (ctx : RecoilComp_Context_t) (g : Z) : option (Z * Z * Z) :=
  match recoilComp_cbGenerateDataLocked true ctx with
  | Some (r, ctx') =>
      match pX ctx', pY ctx', pTs ctx', pCollect ctx' with
      | Some xs, Some ys, Some ts, Some coll =>
          if decide (r = 0) then
            let n := firerounds_sampling coll in
            Some (sum_ticks (group_ticks xs n g), sum_ticks (group_ticks ys n g),
                  sum_ticks (group_ticks ts n g))
          else None
      | _, _, _, _ => None
      end
  | None => None
  end.

(** Whether the sum of all ticks of groups 0..g of component [a], in the
    arrays that a successful expansion of the preset of [ctx] leaves
    behind, is the rounded running sum of the targets of groups 0..g. *)
Definition tracks_target (ctx : RecoilComp_Context_t) (a : axis) (g : nat) : bool :=
  match recoilComp_cbGenerateDataLocked true ctx with
  | Some (r, ctx') =>
      match array_of a ctx', pCollect ctx' with
      | Some arr, Some coll =>
          match pData coll with
          | Some data =>
              let n := firerounds_sampling coll in
              bool_decide (r = 0) &&
              (sum_ticks (firstn (Z.to_nat ((Z.of_nat g + 1) * n)) arr)
               =? f_round_i32
                    (running_target
                       (targets (coefficient ctx') (sensitivity ctx') a data) g))
          | None => false
          end
      | _, _ => false
      end
  | None => false
  end.

(** The sums the claim asks for, for the preset and the clamped parameters
    of [ctx]. *)
Definition claimed_sums_of (ctx : RecoilComp_Context_t) (g : Z) : option (Z * Z * Z) :=
  match pCollect ctx with
  | Some coll =>
      match pData coll with
      | Some data =>
          claimed_group_sums data
            (CLAMP (coefficient ctx) RECOIL_COMP_COEFF_MIN RECOIL_COMP_COEFF_MAX)
            (CLAMP (sensitivity ctx) RECOIL_COMP_SENS_MIN RECOIL_COMP_SENS_MAX) g
      | None => None
      end
  | None => None
  end.


(** recoilComp_cbFreeLocked. *)
Definition recoilComp_cbFreeLocked (ctx : RecoilComp_Context_t) : RecoilComp_Context_t :=
  mkCtx (coefficient ctx) (sensitivity ctx)
        (Z.land (stateFlags ctx) (Z.lnot RECOIL_COMP_STATE_ARRAYS_ALLOCATED))
        (pCollect ctx) None None None 0 0 (lastTickMs ctx).

(** recoilComp_restart; [now] is what k_uptime_get_32 returns. *)
Definition recoilComp_restart (ctx : RecoilComp_Context_t) (now : Z)
  : Z * RecoilComp_Context_t :=
  if decide (0 = Z.land (stateFlags ctx) RECOIL_COMP_STATE_INITIALIZED)
  then (- EINVAL, ctx)
  else if decide (0 = Z.land (stateFlags ctx) RECOIL_COMP_STATE_PRESET_ACTIVE)
  then (- EINVAL, ctx)
  else (0, mkCtx (coefficient ctx) (sensitivity ctx) (stateFlags ctx) (pCollect ctx)
                 (pX ctx) (pY ctx) (pTs ctx) (arrLen ctx) 0 now).

Definition set_pCollect (ctx : RecoilComp_Context_t) (c : option PresetCollection_t)
  : RecoilComp_Context_t :=
  mkCtx (coefficient ctx) (sensitivity ctx) (stateFlags ctx) c
        (pX ctx) (pY ctx) (pTs ctx) (arrLen ctx) (arrIndex ctx) (lastTickMs ctx).

Definition set_stateFlags (ctx : RecoilComp_Context_t) (flags : Z) : RecoilComp_Context_t :=
  mkCtx (coefficient ctx) (sensitivity ctx) flags (pCollect ctx)
        (pX ctx) (pY ctx) (pTs ctx) (arrLen ctx) (arrIndex ctx) (lastTickMs ctx).

(** recoilComp_setPreset; [presetIndex] is a uint32_t. *)
Definition recoilComp_setPreset (heap_ok : bool) (ctx : RecoilComp_Context_t)
    (presetIndex : Z) : option (Z * RecoilComp_Context_t) :=
  if decide (presetIndex >= RECOIL_COMP_PRESET_COUNT) then Some (- EINVAL, ctx)
  else if decide (0 = Z.land (stateFlags ctx) RECOIL_COMP_STATE_INITIALIZED)
  then Some (- EINVAL, ctx)
  else
    match sRecoilCollectArr !! Z.to_nat presetIndex with
    | None => None
    | Some coll =>
        let freed := recoilComp_cbFreeLocked ctx in
        match recoilComp_cbGenerateDataLocked heap_ok (set_pCollect freed (Some coll)) with
        | Some (ret, ctx') =>
            if decide (ret < 0) then Some (ret, set_pCollect ctx' None)
            else Some (0, set_stateFlags ctx'
                            (Z.lor (stateFlags ctx') RECOIL_COMP_STATE_PRESET_ACTIVE))
        | None => None
        end
    end.

(** A caller that polls recoilComp_getNextData at the clock readings
    [nows]: the tuples of the calls that returned 0, in the order of the
    calls, and the context after the last call. *)
Fixpoint poll (ctx : RecoilComp_Context_t) (nows : list Z)
  : option (list (Z * Z) * RecoilComp_Context_t) :=
  match nows with
  | [] => Some ([], ctx)
  | now :: rest =>
      match recoilComp_getNextData ctx now (0, 0) with
      | Some (r, data, ctx') =>
          match poll ctx' rest with
          | Some (out, ctx'') => Some (if decide (r = 0) then data :: out else out, ctx'')
          | None => None
          end
      | None => None
      end
  end.

(** Tick [i] as recoilComp_getNextData hands it out. *)
Definition tuple_at (xs ys : list Z) (i : nat) : option (Z * Z) :=
  match xs !! i, ys !! i with
  | Some x, Some y => Some (x, to_s32 (-1 * y))
  | _, _ => None
  end.

(** The context is initialized and holds three arrays of arrLen elements. *)
Definition sequence_ready (ctx : RecoilComp_Context_t) (xs ys ts : list Z) : Prop :=
  0 <> Z.land (stateFlags ctx) RECOIL_COMP_STATE_INITIALIZED /\
  0 <> Z.land (stateFlags ctx) RECOIL_COMP_STATE_ARRAYS_ALLOCATED /\
  pX ctx = Some xs /\ pY ctx = Some ys /\ pTs ctx = Some ts /\
  Z.of_nat (length xs) = arrLen ctx /\ Z.of_nat (length ys) = arrLen ctx /\
  Z.of_nat (length ts) = arrLen ctx /\
  0 <= arrIndex ctx <= arrLen ctx.

(** A context with a sequence of three ticks, the first already handed
    out, the last tick at 1000 ms. *)
Definition three_tick_context : RecoilComp_Context_t :=
  mkCtx RECOIL_COMP_DEFAULT_COEFF RECOIL_COMP_DEFAULT_SENS
        (Z.lor RECOIL_COMP_STATE_INITIALIZED
               (Z.lor RECOIL_COMP_STATE_PRESET_ACTIVE RECOIL_COMP_STATE_ARRAYS_ALLOCATED))
        None (Some [0; 1; 0]) (Some [-1; -2; 0]) (Some [2; 2; 1]) 3 1 1000.

End Sequencer.

Arguments PresetCollection_t F : clear implicits.
Arguments RecoilComp_Context_t F : clear implicits.
Arguments gen_state F : clear implicits.

(** The three arrays have [len] elements and the next store is not below
    their start. *)
Definition gen_ok {F : Type} (len : Z) (st : gen_state F) : Prop :=
  0 <= g_idx st /\
  Z.of_nat (length (g_pX st)) = len /\ Z.of_nat (length (g_pY st)) = len /\
  Z.of_nat (length (g_pTs st)) = len.

(** *** IEEE 754 binary32 *)

Definition prec32 : Z := 24.
Definition emax32 : Z := 128.

Definition b32_of_int (i : Z) : spec_float := binary_normalize prec32 emax32 i 0 false.

(** A decimal literal m * 10^-e with |m| < 2^24 and e <= 10: both operands
    of the division are exact, so the quotient is the binary32 nearest to
    the decimal. *)
Definition b32_lit (m : Z) (e : nat) : spec_float :=
  SFdiv prec32 emax32 (b32_of_int m) (b32_of_int (10 ^ Z.of_nat e)).

(** floorf and roundf (half away from zero) followed by the conversion to
    int32_t. The conversion of a value outside the int32 range, of an
    infinity or of a NaN is undefined in C; these functions are total and
    give the wrap-around there (0 for the non-finite values), which is not
    what a compiled program need return. The value of a conversion stands
    for the C program only where [floor_defined] or [round_defined] holds
    of the argument, and the properties of the expanded values assume it
    ([defined_group]). *)
Definition b32_floor_i32 (x : spec_float) : Z :=
  match x with
  | S754_finite s m e =>
      let v := if s then Z.neg m else Z.pos m in
      to_s32 (if decide (0 <= e) then v * 2 ^ e else v / 2 ^ (- e))
  | _ => 0
  end.

Definition b32_round_i32 (x : spec_float) : Z :=
  match x with
  | S754_finite s m e =>
      let a := if decide (0 <= e) then Z.pos m * 2 ^ e
               else (2 * Z.pos m + 2 ^ (- e)) / (2 * 2 ^ (- e)) in
      to_s32 (if s then - a else a)
  | _ => 0
  end.

#[global] Instance binary32 : FloatOps spec_float := {|
  f_of_int := b32_of_int;
  f_lit := b32_lit;
  f_add := SFadd prec32 emax32;
  f_sub := SFsub prec32 emax32;
  f_mul := SFmul prec32 emax32;
  f_div := SFdiv prec32 emax32;
  f_le := SFleb;
  f_lt := SFltb;
  f_floor_i32 := b32_floor_i32;
  f_round_i32 := b32_round_i32
|}.

End Recoil.

(* ===================================================================== *)
(** * Part II: properties *)
(* ===================================================================== *)

(** ** Integer and memory facts *)
Section CintFacts.
Import Cint.

Lemma to_u_range w x : 0 <= w -> 0 <= to_u w x < 2 ^ w.
Proof. intros Hw. unfold to_u. apply Z.mod_pos_bound. lia. Qed.

Lemma to_u_id w x : 0 <= x < 2 ^ w -> to_u w x = x.
Proof. intros H. unfold to_u. apply Z.mod_small; lia. Qed.

Lemma pow2_split w : 0 < w -> 2 ^ w = 2 * 2 ^ (w - 1).
Proof. intros Hw. rewrite <- Z.pow_succ_r by lia. f_equal. lia. Qed.

Lemma to_s_id w x : 0 < w -> in_s w x -> to_s w x = x.
Proof.
  intros Hw [Hl Hh]. unfold to_s. rewrite (pow2_split w Hw).
  rewrite Z.mod_small; lia.
Qed.

Lemma to_s_range w x : 0 < w -> in_s w (to_s w x).
Proof.
  intros Hw. unfold in_s, to_s.
  pose proof (pow2_split w Hw) as H2.
  assert (Hp : 0 < 2 ^ w) by lia.
  pose proof (Z.mod_pos_bound (x + 2 ^ (w - 1)) (2 ^ w) Hp). lia.
Qed.

Lemma to_s_to_u w x : to_s w (to_u w x) = to_s w x.
Proof.
  unfold to_s, to_u. f_equal. rewrite Zplus_mod_idemp_l. reflexivity.
Qed.

Lemma to_u_to_s w x : 0 < w -> to_u w (to_s w x) = to_u w x.
Proof.
  intros Hw. unfold to_s, to_u.
  rewrite Zminus_mod_idemp_l.
  f_equal. lia.
Qed.

Lemma load_store_same buf p v buf' :
  store buf p v = Some buf' -> load buf' p = Some v.
Proof.
  unfold store, load. intros H.
  destruct (decide (0 <= p < Z.of_nat (length buf))) as [Hr|]; [|discriminate].
  injection H as <-. destruct (decide (0 <= p)); [|lia].
  apply list_lookup_insert_eq. lia.
Qed.

Lemma load_store_other buf p q v buf' :
  store buf p v = Some buf' -> p <> q -> load buf' q = load buf q.
Proof.
  unfold store, load. intros H Hne.
  destruct (decide (0 <= p < Z.of_nat (length buf))) as [Hr|]; [|discriminate].
  injection H as <-. destruct (decide (0 <= q)); [|reflexivity].
  apply list_lookup_insert_ne. lia.
Qed.

Lemma store_length buf p v buf' :
  store buf p v = Some buf' -> length buf' = length buf.
Proof.
  unfold store. intros H.
  destruct (decide (0 <= p < Z.of_nat (length buf))); [|discriminate].
  injection H as <-. apply length_insert.
Qed.

Lemma store_in_bounds buf p v :
  0 <= p < Z.of_nat (length buf) -> exists buf', store buf p v = Some buf'.
Proof.
  intros H. unfold store. destruct (decide _); [eauto | lia].
Qed.

Lemma byte_of_range k x : 0 <= byte_of k x < 256.
Proof. unfold byte_of. apply Z.mod_pos_bound. lia. Qed.

Lemma le16_bytes x : 0 <= x < 65536 -> le16 (byte_of 0 x) (byte_of 1 x) = x.
Proof.
  intros Hx. unfold le16, to_u8.
  rewrite !to_u_id by (apply byte_of_range).
  unfold byte_of. change (2 ^ (8 * 0)) with 1. change (2 ^ (8 * 1)) with 256.
  rewrite Z.div_1_r.
  rewrite (Z.mod_small (x / 256)) by
    (split; [apply Z.div_pos; lia | apply Z.div_lt_upper_bound; lia]).
  pose proof (Z.div_mod x 256). lia.
Qed.

Lemma le32_bytes x :
  0 <= x < 4294967296 ->
  le32 (byte_of 0 x) (byte_of 1 x) (byte_of 2 x) (byte_of 3 x) = x.
Proof.
  intros Hx. unfold le32, to_u8.
  rewrite !to_u_id by (apply byte_of_range).
  unfold byte_of.
  change (2 ^ (8 * 0)) with 1. change (2 ^ (8 * 1)) with 256.
  change (2 ^ (8 * 2)) with 65536. change (2 ^ (8 * 3)) with 16777216.
  rewrite Z.div_1_r.
  pose proof (Z.div_mod x 256).
  pose proof (Z.div_mod (x / 256) 256).
  pose proof (Z.div_mod (x / 256 / 256) 256).
  assert (E2 : x / 65536 = x / 256 / 256) by (rewrite Z.div_div by lia; reflexivity).
  assert (E3 : x / 16777216 = x / 256 / 256 / 256) by (rewrite !Z.div_div by lia; reflexivity).
  rewrite E2, E3.
  assert (0 <= x / 256 / 256 / 256 < 256).
  { split; [repeat apply Z.div_pos; lia|].
    repeat (apply Z.div_lt_upper_bound; [lia|]). lia. }
  rewrite (Z.mod_small (x / 256 / 256 / 256)) by lia. lia.
Qed.

End CintFacts.

(** ** hid_mouse.c: orientation store and load *)
Section MouseFacts.
Import Cint HidParser HidMouse.

Lemma dev_store_in_bounds d buf p v :
  report_buffer d = Some buf -> 0 <= p < Z.of_nat (length buf) ->
  exists buf', store buf p v = Some buf' /\ length buf' = length buf /\
               dev_store d p v = Some (set_buffer d buf').
Proof.
  intros Hb Hp. destruct (store_in_bounds buf p v Hp) as [buf' Hs].
  exists buf'. repeat split; [exact Hs | eapply store_length; eauto |].
  unfold dev_store. rewrite Hb, Hs. reflexivity.
Qed.

Lemma get_report_buffer_set_buffer d b isLast :
  report_buffer d <> None ->
  get_report_buffer (set_buffer d b) isLast = get_report_buffer d isLast.
Proof.
  unfold get_report_buffer, set_buffer. simpl.
  destruct (report_buffer d); [reflexivity | congruence].
Qed.

Lemma getReportBuffer_some d isLast p :
  get_report_buffer d isLast = Some p ->
  USBHID_getReportBuffer d isLast = (USBHID_SUCCESS, Some p, HidParser.report_len d).
Proof. unfold USBHID_getReportBuffer. intros ->. reflexivity. Qed.

Ltac orient_head Hp Hsz :=
  try match goal with
      | |- context [decide (?a = 2 /\ has_wheel ?m = true)] =>
          destruct (decide (a = 2 /\ has_wheel m = true)) as [[? ?]|]; [tauto|]
      end;
  match goal with
  | |- context [decide (?a >= count ?o)] =>
      destruct (decide (a >= count o)); [lia|]
  end;
  rewrite (getReportBuffer_some _ _ _ Hp); rewrite Hsz.

Lemma dev_store_load_same d p v d' :
  dev_store d p v = Some d' -> dev_load d' p = Some v.
Proof.
  unfold dev_store, dev_load. destruct (report_buffer d) as [buf|]; [|discriminate].
  destruct (store buf p v) as [buf'|] eqn:Hs; [|discriminate].
  intros [= <-]. simpl. eapply load_store_same; eauto.
Qed.

Lemma dev_store_load_other d p q v d' :
  dev_store d p v = Some d' -> p <> q -> dev_load d' q = dev_load d q.
Proof.
  unfold dev_store, dev_load. destruct (report_buffer d) as [buf|]; [|discriminate].
  destruct (store buf p v) as [buf'|] eqn:Hs; [|discriminate].
  intros [= <-] Hne. simpl. eapply load_store_other; eauto.
Qed.

Lemma dev_store_some d buf p v isLast :
  report_buffer d = Some buf -> 0 <= p < Z.of_nat (length buf) ->
  exists d' buf',
    dev_store d p v = Some d' /\ report_buffer d' = Some buf' /\
    length buf' = length buf /\
    get_report_buffer d' isLast = get_report_buffer d isLast.
Proof.
  intros Hb Hp.
  destruct (dev_store_in_bounds d buf p v Hb Hp) as (buf' & Hs & Hl & Hd).
  exists (set_buffer d buf'), buf'. repeat split; auto.
  apply get_report_buffer_set_buffer. congruence.
Qed.

Lemma orientation_roundtrip_16 (m : HID_Mouse_t) (d : USBHID_Device_t) (axis v : Z) (isLast : bool) :
  size (orientation m) = 16 ->
  0 <= axis < count (orientation m) ->
  (has_wheel m = true -> axis <> 2) ->
  orientation_in_buffer m d axis isLast ->
  exists d',
    hidMouse_SetOrientation m d axis v isLast = Some (USBHID_SUCCESS, d') /\
    forall v0, hidMouse_GetOrientation m d' axis v0 isLast
               = Some (USBHID_SUCCESS, to_s 16 v).
Proof.
  intros Hsz Hax Hw (buf & p & Hb & Hp & Hlo & Hhi & Hlen).
  rewrite Hsz in Hhi. change (16 / 8) with 2 in Hhi.
  assert (Hu : to_u32 (axis * 2) = axis * 2) by (apply to_u_id; lia).
  unfold hidMouse_SetOrientation. orient_head Hp Hsz.
  change (to_u8 (16 / 8)) with 2. repeat (case_decide; try lia). rewrite Hu.
  set (q := p + report_buf_off (orientation m) + axis * 2).
  set (raw := to_u16 (to_s16 v)).
  destruct (dev_store_some d buf q (byte_of 0 raw) isLast Hb ltac:(unfold q; lia))
    as (d1 & buf1 & Hd1 & Hb1 & Hl1 & Hg1).
  destruct (dev_store_some d1 buf1 (q + 1) (byte_of 1 raw) isLast Hb1 ltac:(unfold q; lia))
    as (d2 & buf2 & Hd2 & Hb2 & Hl2 & Hg2).
  rewrite Hd1. simpl. rewrite Hd2. simpl.
  eexists. split; [reflexivity|].
  intros v0. unfold hidMouse_GetOrientation.
  assert (Hp2 : get_report_buffer d2 isLast = Some p) by congruence.
  orient_head Hp2 Hsz.
  change (to_u8 (16 / 8)) with 2. repeat (case_decide; try lia). rewrite Hu. fold q.
  rewrite (dev_store_load_other _ _ _ _ _ Hd2) by lia.
  rewrite (dev_store_load_same _ _ _ _ Hd1).
  rewrite (dev_store_load_same _ _ _ _ Hd2).
  f_equal. f_equal.
  rewrite le16_bytes by (apply (to_u_range 16); lia).
  unfold raw, to_u16, to_s16. rewrite to_s_to_u.
  apply to_s_id; [lia|]. apply to_s_range. lia.
Qed.

Lemma orientation_roundtrip_32 (m : HID_Mouse_t) (d : USBHID_Device_t) (axis v : Z) (isLast : bool) :
  size (orientation m) = 32 ->
  0 <= axis < count (orientation m) ->
  (has_wheel m = true -> axis <> 2) ->
  orientation_in_buffer m d axis isLast ->
  exists d',
    hidMouse_SetOrientation m d axis v isLast = Some (USBHID_SUCCESS, d') /\
    forall v0, hidMouse_GetOrientation m d' axis v0 isLast
               = Some (USBHID_SUCCESS, to_s 32 v).
Proof.
  intros Hsz Hax Hw (buf & p & Hb & Hp & Hlo & Hhi & Hlen).
  rewrite Hsz in Hhi. change (32 / 8) with 4 in Hhi.
  assert (Hu : to_u32 (axis * 4) = axis * 4) by (apply to_u_id; lia).
  unfold hidMouse_SetOrientation. orient_head Hp Hsz.
  change (to_u8 (32 / 8)) with 4. repeat (case_decide; try lia). rewrite Hu.
  set (q := p + report_buf_off (orientation m) + axis * 4).
  set (raw := to_u32 v).
  destruct (dev_store_some d buf q (byte_of 0 raw) isLast Hb ltac:(unfold q; lia))
    as (d1 & buf1 & Hd1 & Hb1 & Hl1 & Hg1).
  destruct (dev_store_some d1 buf1 (q + 1) (byte_of 1 raw) isLast Hb1 ltac:(unfold q; lia))
    as (d2 & buf2 & Hd2 & Hb2 & Hl2 & Hg2).
  destruct (dev_store_some d2 buf2 (q + 2) (byte_of 2 raw) isLast Hb2 ltac:(unfold q; lia))
    as (d3 & buf3 & Hd3 & Hb3 & Hl3 & Hg3).
  destruct (dev_store_some d3 buf3 (q + 3) (byte_of 3 raw) isLast Hb3 ltac:(unfold q; lia))
    as (d4 & buf4 & Hd4 & Hb4 & Hl4 & Hg4).
  rewrite Hd1. simpl. rewrite Hd2. simpl. rewrite Hd3. simpl. rewrite Hd4. simpl.
  eexists. split; [reflexivity|].
  intros v0. unfold hidMouse_GetOrientation.
  assert (Hp4 : get_report_buffer d4 isLast = Some p) by congruence.
  orient_head Hp4 Hsz.
  change (to_u8 (32 / 8)) with 4. repeat (case_decide; try lia). rewrite Hu. fold q.
  rewrite (dev_store_load_other _ _ q _ _ Hd4) by lia.
  rewrite (dev_store_load_other _ _ q _ _ Hd3) by lia.
  rewrite (dev_store_load_other _ _ q _ _ Hd2) by lia.
  rewrite (dev_store_load_same _ _ _ _ Hd1).
  rewrite (dev_store_load_other _ _ (q + 1) _ _ Hd4) by lia.
  rewrite (dev_store_load_other _ _ (q + 1) _ _ Hd3) by lia.
  rewrite (dev_store_load_same _ _ _ _ Hd2).
  rewrite (dev_store_load_other _ _ (q + 2) _ _ Hd4) by lia.
  rewrite (dev_store_load_same _ _ _ _ Hd3).
  rewrite (dev_store_load_same _ _ _ _ Hd4).
  f_equal. f_equal.
  rewrite le32_bytes by (apply (to_u_range 32); lia).
  unfold raw, to_u32, to_s32. apply to_s_to_u.
Qed.

Lemma orientation_roundtrip_8 (m : HID_Mouse_t) (d : USBHID_Device_t) (axis v : Z) (isLast : bool) :
  size (orientation m) = 8 ->
  0 <= axis < count (orientation m) ->
  (has_wheel m = true -> axis <> 2) ->
  orientation_in_buffer m d axis isLast ->
  exists d',
    hidMouse_SetOrientation m d axis v isLast = Some (USBHID_SUCCESS, d') /\
    forall v0, hidMouse_GetOrientation m d' axis v0 isLast
               = Some (USBHID_SUCCESS, to_s 8 v).
Proof.
  intros Hsz Hax Hw (buf & p & Hb & Hp & Hlo & Hhi & Hlen).
  rewrite Hsz in Hhi. change (8 / 8) with 1 in Hhi.
  unfold hidMouse_SetOrientation. orient_head Hp Hsz.
  change (to_u8 (8 / 8)) with 1. repeat (case_decide; try lia).
  set (q := p + report_buf_off (orientation m) + axis).
  destruct (dev_store_some d buf q (to_u8 (to_s8 v)) isLast Hb ltac:(unfold q; lia))
    as (d1 & buf1 & Hd1 & Hb1 & Hl1 & Hg1).
  rewrite Hd1. simpl. eexists. split; [reflexivity|].
  intros v0. unfold hidMouse_GetOrientation.
  assert (Hp1 : get_report_buffer d1 isLast = Some p) by congruence.
  orient_head Hp1 Hsz.
  change (to_u8 (8 / 8)) with 1. repeat (case_decide; try lia). fold q.
  rewrite (dev_store_load_same _ _ _ _ Hd1).
  f_equal. f_equal. unfold to_s8, to_u8. rewrite to_s_to_u.
  apply to_s_id; [lia|]. apply to_s_range. lia.
Qed.

(** C9. For a mouse whose orientation field is declared 8, 16 or 32 bits
    wide, an axis within the declared count and an int32 value [v]:
    hidMouse_SetOrientation followed by hidMouse_GetOrientation on the same
    buffer yields the sign-extended truncation of [v] to the declared width,
    which is [v] itself when [v] is representable in that width.
    parse_hid_report stores no orientation count but 2, so an axis within the
    count is 0 or 1 and never the wheel axis that GetOrientation serves from
    the wheel field; the field is taken to lie inside the report buffer. *)
Theorem set_then_get_orientation
    (m : HID_Mouse_t) (d : USBHID_Device_t) (axis v : Z) (isLast : bool) :
  size (orientation m) = 8 \/ size (orientation m) = 16 \/ size (orientation m) = 32 ->
  0 <= axis < count (orientation m) ->
  (has_wheel m = true -> axis <> 2) ->
  in_s 32 v ->
  orientation_in_buffer m d axis isLast ->
  exists d',
    hidMouse_SetOrientation m d axis v isLast = Some (USBHID_SUCCESS, d') /\
    (forall v0, hidMouse_GetOrientation m d' axis v0 isLast
                = Some (USBHID_SUCCESS,
                        sign_extended_truncation (size (orientation m)) v)) /\
    (in_s (size (orientation m)) v ->
     sign_extended_truncation (size (orientation m)) v = v).
Proof.
  intros Hsz Hax Hw _ Hin. unfold sign_extended_truncation.
  destruct Hsz as [Hsz|[Hsz|Hsz]]; rewrite Hsz.
  - destruct (orientation_roundtrip_8 m d axis v isLast Hsz Hax Hw Hin) as (d' & Hs & Hg).
    exists d'. repeat split; auto. intros Hr. apply to_s_id; [lia | exact Hr].
  - destruct (orientation_roundtrip_16 m d axis v isLast Hsz Hax Hw Hin) as (d' & Hs & Hg).
    exists d'. repeat split; auto. intros Hr. apply to_s_id; [lia | exact Hr].
  - destruct (orientation_roundtrip_32 m d axis v isLast Hsz Hax Hw Hin) as (d' & Hs & Hg).
    exists d'. repeat split; auto. intros Hr. apply to_s_id; [lia | exact Hr].
Qed.

(** The round trip on the Y axis of a 16-bit mouse, with a value outside
    the int16 range. *)
Lemma set_then_get_orientation_witness :
  exists d',
    hidMouse_SetOrientation mouse16 device5 1 40000 false = Some (USBHID_SUCCESS, d') /\
    (forall v0, hidMouse_GetOrientation mouse16 d' 1 v0 false
                = Some (USBHID_SUCCESS,
                        sign_extended_truncation (size (orientation mouse16)) 40000)) /\
    (in_s (size (orientation mouse16)) 40000 ->
     sign_extended_truncation (size (orientation mouse16)) 40000 = 40000).
Proof.
  apply (set_then_get_orientation mouse16 device5 1 40000 false).
  - right; left; reflexivity.
  - simpl; lia.
  - simpl; discriminate.
  - unfold in_s; lia.
  - exists (repeat 0 10), 5. simpl. repeat split; try reflexivity; try lia.
Defined.

Example orientation_40000_reads_back :
  sign_extended_truncation 16 40000 = -25536 /\
  sign_extended_truncation 8 (-200) = 56 /\
  sign_extended_truncation 32 (-7) = -7.
Proof. repeat split; reflexivity. Qed.

End MouseFacts.

(** ** hid_parser.c: the two halves of the report buffer *)
Section ReportBufferFacts.
Import Cint Chip Usb HidParser.

Lemma store_n_spec bs : forall buf p,
  0 <= p -> p + Z.of_nat (length bs) <= Z.of_nat (length buf) ->
  exists buf',
    store_n buf p bs = Some buf' /\ length buf' = length buf /\
    (forall q, q < p \/ p + Z.of_nat (length bs) <= q -> load buf' q = load buf q) /\
    load_n buf' p (length bs) = Some bs.
Proof.
  induction bs as [|b bs IH]; intros buf p Hp Hlen; simpl in *.
  - exists buf. repeat split; auto.
  - destruct (store_in_bounds buf p b ltac:(lia)) as [buf1 Hs1].
    rewrite Hs1.
    pose proof (store_length _ _ _ _ Hs1) as Hl1.
    destruct (IH buf1 (p + 1) ltac:(lia) ltac:(lia)) as (buf' & Hs & Hl & Hout & Hin).
    exists buf'. split; [exact Hs|]. split; [congruence|]. split.
    + intros q Hq. rewrite Hout by lia. eapply load_store_other; eauto. lia.
    + rewrite Hin. rewrite Hout by lia. rewrite (load_store_same _ _ _ _ Hs1).
      reflexivity.
Qed.

Lemma load_n_ext n : forall b1 b2 p,
  (forall q, p <= q < p + Z.of_nat n -> load b1 q = load b2 q) ->
  load_n b1 p n = load_n b2 p n.
Proof.
  induction n as [|n IH]; intros b1 b2 p H; simpl; [reflexivity|].
  rewrite (H p) by lia. rewrite (IH b1 b2 (p + 1)); [reflexivity|].
  intros q Hq. apply H. lia.
Qed.

Lemma fetch_step d pkt rest lg :
  buffer_allocated d ->
  Z.of_nat (length pkt) = report_len d ->
  exists d' lg',
    USBHID_fetchReport d (mkChip (fetch_ok_script pkt ++ rest) lg)
      = Some ((USBHID_SUCCESS, d'), mkChip rest lg') /\
    buffer_allocated d' /\ report_len d' = report_len d /\
    read_slot d' false = Some pkt /\
    read_slot d' true = read_slot d false /\
    get_report_buffer d' true = get_report_buffer d false /\
    get_report_buffer d' false = get_report_buffer d true.
Proof.
  intros (buf & ep & Hb & He & Hlen & Hbl & Hoff) Hpk.
  unfold USBHID_fetchReport, get_report_buffer. rewrite Hb.
  unfold usbhid_read. rewrite He.
  set (p := report_buffer_last_offset d).
  assert (Hfirst : firstn (Z.to_nat (to_u8 (report_len d))) pkt = pkt).
  { apply firstn_all2. unfold to_u8. rewrite to_u_id by (simpl; lia). lia. }
  destruct (store_n_spec pkt buf p ltac:(unfold p; lia) ltac:(unfold p; lia))
    as (buf' & Hs & Hl & Hout & Hin).
  unfold mbind, chip_bind, bind, ch37x_setRetry, ch37x_sendToken, ch37x_readBlockData,
    emit, pop, ret, lift, fetch_ok_script. simpl.
  rewrite Hb. rewrite Hfirst. rewrite Hs. simpl.
  fold p.
  destruct (decide (p <> 0)) as [Hne|Heq].
  - assert (Hpl : p = report_len d) by (unfold p in *; lia).
    eexists _, _. split; [reflexivity|].
    unfold buffer_allocated, read_slot, get_report_buffer. simpl.
    rewrite Hb. destruct (decide (0 <> 0)); [lia|].
    split; [|split; [reflexivity|]].
    { exists buf', (set_data_toggle ep (negb (data_toggle ep))). repeat split; auto; lia. }
    fold p. destruct (decide (p <> 0)); [|lia].
    replace (Z.to_nat (report_len d)) with (length pkt) by lia.
    rewrite <- Hpl. repeat split; auto.
    apply load_n_ext. intros q Hq. apply Hout. lia.
  - assert (Hp0 : p = 0) by lia.
    eexists _, _. split; [reflexivity|].
    unfold buffer_allocated, read_slot, get_report_buffer. simpl.
    rewrite Hb. fold p. destruct (decide (p <> 0)); [lia|].
    destruct (decide (report_len d <> 0)); [|lia].
    split; [|split; [reflexivity|]].
    { exists buf', (set_data_toggle ep (negb (data_toggle ep))). repeat split; auto; lia. }
    replace (Z.to_nat (report_len d)) with (length pkt) by lia.
    rewrite Hp0 in *. repeat split; auto.
    apply load_n_ext. intros q Hq. apply Hout. lia.
Qed.

Lemma slots_apart d :
  buffer_allocated d ->
  exists buf p q,
    report_buffer d = Some buf /\
    get_report_buffer d true = Some p /\ get_report_buffer d false = Some q /\
    0 <= p /\ p + report_len d <= Z.of_nat (length buf) /\
    0 <= q /\ q + report_len d <= Z.of_nat (length buf) /\
    (p + report_len d <= q \/ q + report_len d <= p).
Proof.
  intros (buf & ep & Hb & He & Hlen & Hbl & Hoff).
  unfold get_report_buffer. rewrite Hb.
  destruct (decide (report_buffer_last_offset d <> 0)).
  - exists buf, (report_buffer_last_offset d), 0. repeat split; auto; lia.
  - exists buf, (report_buffer_last_offset d), (report_len d). repeat split; auto; lia.
Qed.

Lemma fetch_all_spec pkts : forall d c0 lg,
  buffer_allocated d ->
  pkts <> [] ->
  Forall (fun pkt => Z.of_nat (length pkt) = report_len d) pkts ->
  read_slot d false = Some c0 ->
  exists d' lg',
    fetch_all d (length pkts) (mkChip (concat (map fetch_ok_script pkts)) lg)
      = Some (d', mkChip [] lg') /\
    buffer_allocated d' /\ report_len d' = report_len d /\
    read_slot d' false = (c0 :: pkts) !! length pkts /\
    read_slot d' true = (c0 :: pkts) !! (length pkts - 1)%nat.
Proof.
  induction pkts as [|pkt ps IH]; intros d c0 lg Hd Hne Hall Hc0; [congruence|].
  inversion Hall as [|? ? Hpk Hps]; subst.
  destruct (fetch_step d pkt (concat (map fetch_ok_script ps)) lg Hd Hpk)
    as (d1 & lg1 & Hf & Hd1 & Hlen1 & Hcur & Hprev & _ & _).
  change (concat (map fetch_ok_script (pkt :: ps)))
    with (fetch_ok_script pkt ++ concat (map fetch_ok_script ps)).
  change (fetch_all d (length (pkt :: ps)))
    with (mbind (fun x : Z * USBHID_Device_t =>
                   let '(r, d') := x in
                   if decide (r = USBHID_SUCCESS) then fetch_all d' (length ps)
                   else undefined)
                (USBHID_fetchReport d)).
  unfold mbind, chip_bind, bind. rewrite Hf.
  destruct (decide (USBHID_SUCCESS = USBHID_SUCCESS)); [|congruence].
  destruct ps as [|pkt2 ps'].
  - simpl. exists d1, lg1. unfold ret. repeat split; auto.
    rewrite Hprev. exact Hc0.
  - rewrite <- Hlen1 in Hps.
    destruct (IH d1 pkt lg1 Hd1 ltac:(discriminate) Hps Hcur)
      as (d' & lg' & Hrun & Hd' & Hlen' & Hc & Hp).
    exists d', lg'. split; [exact Hrun|]. split; [exact Hd'|].
    split; [congruence|]. split.
    + rewrite Hc. reflexivity.
    + rewrite Hp. simpl. rewrite Nat.sub_0_r. reflexivity.
Qed.

(** C2, as the code has it. For a device with an allocated double buffer
    and k >= 1 successful fetches delivering the full-length reports
    [pkts]: the accessor with isLast = false returns the k-th (most recently
    fetched) report; the accessor with isLast = true returns the report
    before it (for k = 1 what the buffer held before); the two slots lie
    inside the buffer and do not overlap. *)
Theorem report_buffer_after_fetches
    (d : USBHID_Device_t) (pkts : list (list Z)) (c0 : list Z) (lg : list chip_call) :
  buffer_allocated d ->
  pkts <> [] ->
  Forall (fun pkt => Z.of_nat (length pkt) = report_len d) pkts ->
  read_slot d false = Some c0 ->
  exists d' lg' buf p q,
    fetch_all d (length pkts) (mkChip (concat (map fetch_ok_script pkts)) lg)
      = Some (d', mkChip [] lg') /\
    read_slot d' false = (c0 :: pkts) !! length pkts /\
    read_slot d' true = (c0 :: pkts) !! (length pkts - 1)%nat /\
    report_buffer d' = Some buf /\
    get_report_buffer d' true = Some p /\ get_report_buffer d' false = Some q /\
    0 <= p /\ p + report_len d' <= Z.of_nat (length buf) /\
    0 <= q /\ q + report_len d' <= Z.of_nat (length buf) /\
    (p + report_len d' <= q \/ q + report_len d' <= p).
Proof.
  intros Hd Hne Hall Hc0.
  destruct (fetch_all_spec pkts d c0 lg Hd Hne Hall Hc0)
    as (d' & lg' & Hrun & Hd' & _ & Hc & Hp).
  destruct (slots_apart d' Hd') as (buf & p & q & H).
  exists d', lg', buf, p, q. tauto.
Qed.

Lemma device2_allocated : buffer_allocated device2.
Proof.
  exists (repeat 0 4), (mkEndpoint 0x81 3 4 10 false).
  simpl. repeat split; try reflexivity; try lia.
Qed.

(** Three fetches on the 2-byte device. *)
Lemma report_buffer_after_fetches_witness :
  exists d' lg' buf p q,
    fetch_all device2 (length [[0xAA; 0xBB]; [1; 2]; [3; 4]])
      (mkChip (concat (map fetch_ok_script [[0xAA; 0xBB]; [1; 2]; [3; 4]])) [])
      = Some (d', mkChip [] lg') /\
    read_slot d' false
      = ([0; 0] :: [[0xAA; 0xBB]; [1; 2]; [3; 4]])
          !! length [[0xAA; 0xBB]; [1; 2]; [3; 4]] /\
    read_slot d' true
      = ([0; 0] :: [[0xAA; 0xBB]; [1; 2]; [3; 4]])
          !! (length [[0xAA; 0xBB]; [1; 2]; [3; 4]] - 1)%nat /\
    report_buffer d' = Some buf /\
    get_report_buffer d' true = Some p /\ get_report_buffer d' false = Some q /\
    0 <= p /\ p + report_len d' <= Z.of_nat (length buf) /\
    0 <= q /\ q + report_len d' <= Z.of_nat (length buf) /\
    (p + report_len d' <= q \/ q + report_len d' <= p).
Proof.
  apply (report_buffer_after_fetches device2 [[0xAA; 0xBB]; [1; 2]; [3; 4]] [0; 0] []).
  - exists (repeat 0 4), (mkEndpoint 0x81 3 4 10 false).
    simpl. repeat split; try reflexivity; try lia.
  - discriminate.
  - repeat constructor.
  - reflexivity.
Defined.

Example three_fetches_slots :
  exists d' lg',
    fetch_all device2 3
      (mkChip (concat (map fetch_ok_script [[0xAA; 0xBB]; [1; 2]; [3; 4]])) [])
      = Some (d', mkChip [] lg') /\
    read_slot d' false = Some [3; 4] /\ read_slot d' true = Some [1; 2].
Proof. eexists _, _. repeat split; vm_compute; reflexivity. Qed.

(** C2 as the claim words it fails: after one fetch of the report AA BB the
    accessor with isLast = true still shows the zero-filled half, not the
    report just fetched. *)
Lemma last_accessor_is_not_newest :
  ~ (forall (d : USBHID_Device_t) (pkts : list (list Z)) (lg : list chip_call) d' lg',
       buffer_allocated d ->
       pkts <> [] ->
       Forall (fun pkt => Z.of_nat (length pkt) = report_len d) pkts ->
       fetch_all d (length pkts) (mkChip (concat (map fetch_ok_script pkts)) lg)
         = Some (d', mkChip [] lg') ->
       read_slot d' true = last pkts).
Proof.
  intros H.
  assert (Hall : Forall (fun pkt => Z.of_nat (length pkt) = report_len device2)
                        [[0xAA; 0xBB]]) by (repeat constructor).
  specialize (H device2 [[0xAA; 0xBB]] [] _ _ device2_allocated
                ltac:(discriminate) Hall eq_refl).
  vm_compute in H. discriminate H.
Qed.

End ReportBufferFacts.

(** ** hid_keyboard.c: the 6-key array *)
Section KeyboardFacts.
Import Cint HidParser HidKeyboard.

Lemma add_key_unfold rest : forall pre n keyCode,
  (length rest <= n)%nat ->
  add_key n (length pre) (pre ++ rest) keyCode = pre ++ add_first rest keyCode.
Proof.
  induction rest as [|k t IH]; intros pre n keyCode Hn.
  - destruct n; simpl; [reflexivity|].
    rewrite lookup_ge_None_2 by (rewrite length_app; simpl; lia). reflexivity.
  - destruct n as [|n]; [simpl in Hn; lia|]. simpl.
    rewrite list_lookup_middle by reflexivity.
    destruct (decide (0 = k)).
    + rewrite insert_app_r_alt by lia. rewrite Nat.sub_diag. reflexivity.
    + destruct (decide (k = keyCode)); [reflexivity|].
      replace (pre ++ k :: t) with ((pre ++ [k]) ++ t) by (rewrite <- app_assoc; reflexivity).
      replace (S (length pre)) with (length (pre ++ [k])) by (rewrite length_app; simpl; lia).
      rewrite IH by (simpl in Hn; lia). rewrite <- app_assoc. reflexivity.
Qed.

Lemma shift_left_unfold t : forall pre x,
  exists z, shift_left (length t) (length pre) (pre ++ x :: t) = pre ++ t ++ [z].
Proof.
  induction t as [|y t IH]; intros pre x; [exists x; reflexivity|].
  cbn [length shift_left].
  assert (Hl : (pre ++ x :: y :: t) !! S (length pre) = Some y).
  { rewrite lookup_app_r by lia.
    replace (S (length pre) - length pre)%nat with 1%nat by lia. reflexivity. }
  rewrite Hl.
  rewrite insert_app_r_alt by lia. rewrite Nat.sub_diag. cbn [insert list_insert].
  replace (pre ++ y :: y :: t) with ((pre ++ [y]) ++ y :: t)
    by (rewrite <- app_assoc; reflexivity).
  replace (S (length pre)) with (length (pre ++ [y])) by (rewrite length_app; simpl; lia).
  destruct (IH (pre ++ [y]) y) as [z Hz]. exists z.
  rewrite Hz. rewrite <- app_assoc. reflexivity.
Qed.

Lemma delete_key_unfold rest : forall pre n keyCode,
  (length rest <= n)%nat -> (length pre + length rest = 6)%nat ->
  delete_key n (length pre) (pre ++ rest) keyCode = pre ++ remove_and_compact rest keyCode.
Proof.
  induction rest as [|k t IH]; intros pre n keyCode Hn H6.
  - destruct n; simpl; [reflexivity|].
    rewrite lookup_ge_None_2 by (rewrite length_app; simpl; lia). reflexivity.
  - destruct n as [|n]; [simpl in Hn; lia|]. cbn [delete_key remove_and_compact].
    rewrite list_lookup_middle by reflexivity.
    destruct (decide (k = keyCode)).
    + rewrite insert_app_r_alt by lia. rewrite Nat.sub_diag. cbn [insert list_insert].
      simpl in H6.
      replace (Z.to_nat (HID_KBD_MAX_KEYS - 1) - length pre)%nat with (length t)
        by (change (Z.to_nat (HID_KBD_MAX_KEYS - 1)) with 5%nat; lia).
      destruct (shift_left_unfold t pre 0) as [z Hz]. rewrite Hz.
      change (Z.to_nat (HID_KBD_MAX_KEYS - 1)) with 5%nat.
      rewrite app_assoc.
      rewrite insert_app_r_alt by (rewrite length_app; lia).
      replace (5 - length (pre ++ t))%nat with 0%nat by (rewrite length_app; lia).
      simpl. rewrite <- app_assoc. reflexivity.
    + replace (pre ++ k :: t) with ((pre ++ [k]) ++ t) by (rewrite <- app_assoc; reflexivity).
      replace (S (length pre)) with (length (pre ++ [k])) by (rewrite length_app; simpl; lia).
      rewrite IH; [rewrite <- app_assoc; reflexivity | simpl in Hn; lia |].
      rewrite length_app. simpl in *. lia.
Qed.

Lemma set_key_window_eq ks keyCode value :
  length ks = 6%nat ->
  set_key_window ks keyCode value =
    if decide (0 <> value) then add_first ks keyCode else remove_and_compact ks keyCode.
Proof.
  intros H6. unfold set_key_window. change (Z.to_nat HID_KBD_MAX_KEYS) with 6%nat.
  destruct (decide (0 <> value)).
  - apply (add_key_unfold ks [] 6%nat keyCode). lia.
  - apply (delete_key_unfold ks [] 6%nat keyCode); simpl; lia.
Qed.

(** Shape lemmas. *)
Lemma all_zero_in l x : all_zero l -> In x l -> x = 0.
Proof. induction l as [|k t IH]; simpl; [tauto|]. intros [? ?] [?|?]; [lia | auto]. Qed.

Lemma all_zero_left_packed l : all_zero l -> left_packed l.
Proof. induction l as [|k t IH]; simpl; [tauto|]. intros [? ?]. auto. Qed.

Lemma all_zero_no_duplicates l : all_zero l -> no_duplicate_keys l.
Proof. induction l as [|k t IH]; simpl; [tauto|]. intros [? ?]. split; [lia | auto]. Qed.

Lemma all_zero_snoc l : all_zero l -> all_zero (l ++ [0]).
Proof. induction l as [|k t IH]; simpl; [tauto|]. intros [? ?]. auto. Qed.

Lemma add_first_length l c : length (add_first l c) = length l.
Proof.
  induction l as [|k t IH]; simpl; [reflexivity|].
  repeat case_decide; simpl; congruence.
Qed.

Lemma add_first_in l c x : In x (add_first l c) -> In x l \/ x = to_u8 c.
Proof.
  induction l as [|k t IH]; simpl; [tauto|].
  repeat case_decide; simpl; intros [?|?]; auto. destruct (IH H1); auto.
Qed.

Lemma add_first_packed l c :
  left_packed l -> left_packed (add_first l c).
Proof.
  induction l as [|k t IH]; simpl; [tauto|]. intros [Hz Hp].
  repeat case_decide; simpl; split; auto; try lia.
Qed.

Lemma add_first_no_duplicates l c :
  0 <= c < 256 -> left_packed l -> no_duplicate_keys l ->
  no_duplicate_keys (add_first l c).
Proof.
  intros Hc. assert (Hu : to_u8 c = c) by (apply to_u_id; simpl; lia).
  induction l as [|k t IH]; simpl; [tauto|]. intros [Hz Hp] [Hn Hd].
  repeat case_decide; simpl.
  - split; [|exact Hd]. intros Hne Hin.
    apply (all_zero_in t _ (Hz ltac:(lia))) in Hin. lia.
  - split; auto.
  - split; [|auto]. intros Hk Hin. apply add_first_in in Hin. destruct Hin; [tauto | lia].
Qed.

Lemma add_first_range l c :
  Forall (fun k => 0 <= k < 256) l -> Forall (fun k => 0 <= k < 256) (add_first l c).
Proof.
  induction 1 as [|k t Hk Ht IH]; simpl; [constructor|].
  repeat case_decide; constructor; auto.
  apply (to_u_range 8). lia.
Qed.

Lemma add_first_present l c :
  c <> 0 -> left_packed l -> In c l -> add_first l c = l.
Proof.
  intros Hc. induction l as [|k t IH]; simpl; [tauto|]. intros [Hz Hp] Hin.
  repeat case_decide; auto.
  - exfalso. destruct Hin as [?|Hin]; [lia|].
    apply (all_zero_in t _ (Hz ltac:(lia))) in Hin. lia.
  - f_equal. apply IH; auto. destruct Hin; [lia | auto].
Qed.

Lemma add_first_absent l c :
  0 <= c < 256 -> ~ In c l -> add_first l c = fill_first_empty l c.
Proof.
  intros Hc. assert (Hu : to_u8 c = c) by (apply to_u_id; simpl; lia).
  induction l as [|k t IH]; simpl; [reflexivity|]. intros Hin.
  repeat case_decide; try lia; try congruence; try tauto.
  f_equal. apply IH. tauto.
Qed.

Lemma fill_first_empty_full l c : ~ In 0 l -> fill_first_empty l c = l.
Proof.
  induction l as [|k t IH]; simpl; [reflexivity|]. intros Hin.
  case_decide; [exfalso; auto|]. f_equal. apply IH. tauto.
Qed.

Lemma remove_length l c : length (remove_and_compact l c) = length l.
Proof.
  induction l as [|k t IH]; simpl; [reflexivity|].
  case_decide; simpl; [rewrite length_app; simpl; lia | congruence].
Qed.

Lemma remove_in l c x : In x (remove_and_compact l c) -> In x l \/ x = 0.
Proof.
  induction l as [|k t IH]; simpl; [tauto|].
  case_decide; simpl.
  - rewrite in_app_iff. simpl. intros [?|[?|[]]]; auto.
  - intros [?|?]; auto. destruct (IH H0); auto.
Qed.

Lemma left_packed_snoc l : left_packed l -> left_packed (l ++ [0]).
Proof.
  induction l as [|k t IH]; simpl; [tauto|]. intros [Hz Hp]. split; auto.
  intros Hk. apply all_zero_snoc. auto.
Qed.

Lemma remove_all_zero l c : all_zero l -> all_zero (remove_and_compact l c).
Proof.
  induction l as [|k t IH]; simpl; [tauto|]. intros [? ?].
  case_decide; simpl; [apply all_zero_snoc; auto | auto].
Qed.

Lemma remove_packed l c : left_packed l -> left_packed (remove_and_compact l c).
Proof.
  induction l as [|k t IH]; simpl; [tauto|]. intros [Hz Hp].
  case_decide; simpl; [apply left_packed_snoc; auto|].
  split; auto. intros Hk. apply remove_all_zero. auto.
Qed.

Lemma no_duplicates_snoc l : no_duplicate_keys l -> no_duplicate_keys (l ++ [0]).
Proof.
  induction l as [|k t IH]; simpl; [tauto|]. intros [Hn Hd]. split; auto.
  intros Hk. rewrite in_app_iff. simpl. intros [?|[?|[]]]; [tauto | lia].
Qed.

Lemma remove_no_duplicates l c :
  no_duplicate_keys l -> no_duplicate_keys (remove_and_compact l c).
Proof.
  induction l as [|k t IH]; simpl; [tauto|]. intros [Hn Hd].
  case_decide; simpl; [apply no_duplicates_snoc; auto|].
  split; auto. intros Hk Hin. apply remove_in in Hin. destruct Hin; [tauto | lia].
Qed.

Lemma remove_range l c :
  Forall (fun k => 0 <= k < 256) l ->
  Forall (fun k => 0 <= k < 256) (remove_and_compact l c).
Proof.
  induction 1 as [|k t Hk Ht IH]; simpl; [constructor|].
  case_decide; [|constructor; auto].
  apply Forall_app. split; [auto | repeat constructor; lia].
Qed.

Lemma remove_gone l c :
  c <> 0 -> no_duplicate_keys l -> ~ In c (remove_and_compact l c).
Proof.
  intros Hc. induction l as [|k t IH]; simpl; [tauto|]. intros [Hn Hd].
  case_decide; simpl.
  - subst k. rewrite in_app_iff. simpl. intros [?|[?|[]]]; [tauto | lia].
  - intros [?|?]; [lia | tauto].
Qed.

Lemma remove_absent l c : ~ In c l -> remove_and_compact l c = l.
Proof.
  induction l as [|k t IH]; simpl; [reflexivity|]. intros Hin.
  case_decide; [tauto|]. f_equal. apply IH. tauto.
Qed.

Lemma set_key_window_packed ks code v :
  packed_key_set ks -> 0 <= code < 256 ->
  packed_key_set (set_key_window ks code v).
Proof.
  intros (Hlen & Hp & Hd & Hr) Hc. rewrite set_key_window_eq by exact Hlen.
  unfold packed_key_set. case_decide.
  - rewrite add_first_length.
    auto using add_first_packed, add_first_no_duplicates, add_first_range.
  - rewrite remove_length.
    auto using remove_packed, remove_no_duplicates, remove_range.
Qed.

Lemma load_n_bounds n : forall buf p l,
  load_n buf p n = Some l ->
  length l = n /\ (n <> 0%nat -> 0 <= p /\ p + Z.of_nat n <= Z.of_nat (length buf)).
Proof.
  induction n as [|n IH]; intros buf p l; simpl.
  - intros [= <-]. split; [reflexivity | congruence].
  - destruct (load buf p) as [b|] eqn:Hb; [|discriminate].
    destruct (load_n buf (p + 1) n) as [bs|] eqn:Hbs; [|discriminate].
    intros [= <-]. destruct (IH _ _ _ Hbs) as [Hl Hbd]. split; [simpl; congruence|].
    intros _. unfold load in Hb. destruct (decide (0 <= p)); [|discriminate].
    apply lookup_lt_Some in Hb.
    destruct n as [|n']; [lia|]. specialize (Hbd ltac:(discriminate)). lia.
Qed.

Lemma setKey_on_window kbd d isLast ks keyCode value :
  key_array kbd d isLast = Some ks ->
  exists d',
    hidKeyboard_SetKey kbd d keyCode value isLast = Some (USBHID_SUCCESS, d') /\
    key_array kbd d' isLast = Some (set_key_window ks keyCode value).
Proof.
  unfold key_array, hidKeyboard_SetKey, USBHID_getReportBuffer.
  destruct (get_report_buffer d isLast) as [p|] eqn:Hp; [|discriminate].
  destruct (report_buffer d) as [buf|] eqn:Hb; [|discriminate].
  intros Hks. rewrite Hks. cbn [mbind option_bind].
  destruct (load_n_bounds _ _ _ _ Hks) as [Hl Hbd].
  change (Z.to_nat HID_KBD_MAX_KEYS) with 6%nat in *.
  specialize (Hbd ltac:(discriminate)).
  assert (Hl' : length (set_key_window ks keyCode value) = 6%nat).
  { rewrite set_key_window_eq by exact Hl.
    case_decide; [rewrite add_first_length | rewrite remove_length]; exact Hl. }
  destruct (store_n_spec (set_key_window ks keyCode value) buf
              (p + report_buf_off (keys kbd)) ltac:(lia) ltac:(lia))
    as (buf' & Hs & Hlen & _ & Hin).
  rewrite Hs. cbn [mbind option_bind]. eexists. split; [reflexivity|].
  rewrite get_report_buffer_set_buffer by congruence. rewrite Hp. simpl.
  rewrite Hl' in Hin. exact Hin.
Qed.

Lemma zero_array_packed : packed_key_set (repeat 0 6).
Proof.
  unfold packed_key_set. simpl. repeat split; try lia; try tauto.
  repeat constructor; lia.
Qed.

Lemma set_keys_packed kbd isLast ops : forall d ks,
  key_array kbd d isLast = Some ks -> packed_key_set ks ->
  Forall (fun op : Z * Z => 0 <= fst op < 256) ops ->
  exists d' ks',
    set_keys kbd d ops isLast = Some d' /\
    key_array kbd d' isLast = Some ks' /\ packed_key_set ks'.
Proof.
  induction ops as [|[code v] ops IH]; intros d ks Hk Hp Hall.
  - exists d, ks. auto.
  - inversion Hall as [|? ? Hc Hops]; subst. simpl in Hc.
    destruct (setKey_on_window kbd d isLast ks code v Hk) as (d1 & Hs & Hk1).
    cbn [set_keys]. rewrite Hs. case_decide; [|congruence].
    apply (IH d1 _ Hk1); [apply set_key_window_packed; auto | exact Hops].
Qed.

(** C8, for key codes that fit a byte. Starting from an all-zero key array,
    every sequence of hidKeyboard_SetKey calls leaves a left-packed array
    without duplicates; on such an array a press puts the code into the
    first empty slot, leaves the array alone when the code is already there
    or when no slot is empty, and a release removes the code and closes the
    gap. *)
Theorem key_array_stays_packed
    (kbd : HID_Keyboard_t) (d : USBHID_Device_t) (isLast : bool) (ops : list (Z * Z)) :
  key_array kbd d isLast = Some (repeat 0 6) ->
  Forall (fun op : Z * Z => 0 <= fst op < 256) ops ->
  exists d' ks,
    set_keys kbd d ops isLast = Some d' /\
    key_array kbd d' isLast = Some ks /\ packed_key_set ks /\
    forall code, 0 < code < 256 ->
      (exists d1,
          hidKeyboard_SetKey kbd d' code 1 isLast = Some (USBHID_SUCCESS, d1) /\
          (In code ks -> key_array kbd d1 isLast = Some ks) /\
          (~ In code ks ->
           key_array kbd d1 isLast = Some (fill_first_empty ks code))) /\
      (~ In 0 ks -> fill_first_empty ks code = ks) /\
      (exists d0,
          hidKeyboard_SetKey kbd d' code 0 isLast = Some (USBHID_SUCCESS, d0) /\
          key_array kbd d0 isLast = Some (remove_and_compact ks code) /\
          ~ In code (remove_and_compact ks code) /\
          packed_key_set (remove_and_compact ks code)).
Proof.
  intros Hk Hall.
  destruct (set_keys_packed kbd isLast ops d _ Hk zero_array_packed Hall)
    as (d' & ks & Hrun & Hks & Hp).
  exists d', ks. split; [exact Hrun|]. split; [exact Hks|]. split; [exact Hp|].
  destruct Hp as (Hlen & Hlp & Hnd & Hr).
  intros code Hc. split; [|split].
  - destruct (setKey_on_window kbd d' isLast ks code 1 Hks) as (d1 & Hs & Hk1).
    exists d1. split; [exact Hs|].
    rewrite set_key_window_eq in Hk1 by exact Hlen.
    destruct (decide (0 <> 1)); [|lia]. split; intros Hin.
    + rewrite add_first_present in Hk1 by (auto; lia). exact Hk1.
    + rewrite add_first_absent in Hk1 by (auto; lia). exact Hk1.
  - apply fill_first_empty_full.
  - destruct (setKey_on_window kbd d' isLast ks code 0 Hks) as (d0 & Hs & Hk0).
    exists d0. split; [exact Hs|].
    rewrite set_key_window_eq in Hk0 by exact Hlen.
    destruct (decide (0 <> 0)); [lia|]. split; [exact Hk0|]. split.
    + apply remove_gone; [lia | exact Hnd].
    + unfold packed_key_set. rewrite remove_length.
      auto using remove_packed, remove_no_duplicates, remove_range.
Qed.

(** A press and release sequence on the boot keyboard. *)
Lemma key_array_stays_packed_witness :
  exists d' ks,
    set_keys boot_keyboard boot_device
      [(4, 1); (5, 1); (6, 1); (7, 1); (8, 1); (9, 1); (10, 1); (5, 0); (4, 1)] false
      = Some d' /\
    key_array boot_keyboard d' false = Some ks /\ packed_key_set ks /\
    forall code, 0 < code < 256 ->
      (exists d1,
          hidKeyboard_SetKey boot_keyboard d' code 1 false = Some (USBHID_SUCCESS, d1) /\
          (In code ks -> key_array boot_keyboard d1 false = Some ks) /\
          (~ In code ks ->
           key_array boot_keyboard d1 false = Some (fill_first_empty ks code))) /\
      (~ In 0 ks -> fill_first_empty ks code = ks) /\
      (exists d0,
          hidKeyboard_SetKey boot_keyboard d' code 0 false = Some (USBHID_SUCCESS, d0) /\
          key_array boot_keyboard d0 false = Some (remove_and_compact ks code) /\
          ~ In code (remove_and_compact ks code) /\
          packed_key_set (remove_and_compact ks code)).
Proof.
  apply (key_array_stays_packed boot_keyboard boot_device false
           [(4, 1); (5, 1); (6, 1); (7, 1); (8, 1); (9, 1); (10, 1); (5, 0); (4, 1)]).
  - reflexivity.
  - repeat constructor; simpl; lia.
Defined.

(** Scenario 6 of the specification: a b c d e f, then g, then release b. *)
Example six_key_rollover :
  (d ← set_keys boot_keyboard boot_device
         [(4, 1); (5, 1); (6, 1); (7, 1); (8, 1); (9, 1)] false;
   key_array boot_keyboard d false) = Some [4; 5; 6; 7; 8; 9] /\
  (d ← set_keys boot_keyboard boot_device
         [(4, 1); (5, 1); (6, 1); (7, 1); (8, 1); (9, 1); (10, 1)] false;
   key_array boot_keyboard d false) = Some [4; 5; 6; 7; 8; 9] /\
  (d ← set_keys boot_keyboard boot_device
         [(4, 1); (5, 1); (6, 1); (7, 1); (8, 1); (9, 1); (10, 1); (5, 0)] false;
   key_array boot_keyboard d false) = Some [4; 6; 7; 8; 9; 0].
Proof. repeat split; vm_compute; reflexivity. Qed.

(** C8 as the claim words it fails for a key code that does not fit a byte:
    260 is stored as 4 and compared as 260, so pressing it twice leaves
    4 4 0 0 0 0 in the array. *)
Lemma key_code_above_255_is_duplicated :
  ~ (forall (ops : list (Z * Z)) (d' : USBHID_Device_t),
       Forall (fun op : Z * Z => 0 <= fst op < 2 ^ 32) ops ->
       set_keys boot_keyboard boot_device ops false = Some d' ->
       exists ks, key_array boot_keyboard d' false = Some ks /\ packed_key_set ks).
Proof.
  intros H.
  destruct (H [(260, 1); (260, 1)] _ ltac:(repeat constructor; simpl; lia) eq_refl)
    as (ks & Hk & _ & _ & Hnd & _).
  vm_compute in Hk. injection Hk as <-.
  simpl in Hnd. destruct Hnd as [Hnd _]. apply Hnd; [lia | left; reflexivity].
Qed.

End KeyboardFacts.

(** ** hid_output.c: the 6-byte report *)
Section OutputFacts.
Import Cint HidParser HidMouse HidOutput.

(** C1 (at the failing input). On a mouse with 32-bit axes whose current
    report holds X = 40000, hidOutput_buildMouseReport succeeds and writes
    bytes 1-2 = 0x40 0x9C, the low 16 bits of X (-25536 as an int16); the
    saturated int16 the claim asks for would be 0xFF 0x7F (32767).  The
    wheel in the same function is clamped; the axes are not. *)
Theorem buildMouseReport_truncates_x :
  hidMouse_GetOrientation mouse32 device32 HID_MOUSE_AXIS_X 0 false
    = Some (USBHID_SUCCESS, 40000) /\
  hidOutput_buildMouseReport mouse32 device32 (repeat 0 6)
    = Some (0, [1; 0x40; 0x9C; 0xFB; 0xFF; 2]) /\
  saturated_le16 40000 = [0xFF; 0x7F] /\
  to_s16 (le16 0x40 0x9C) = -25536.
Proof. repeat split; vm_compute; reflexivity. Qed.

End OutputFacts.

(** ** ch375.c, ch376s.c: the baud-rate command *)
Section BaudFacts.
Import Link.

(** C6 (at the failing input). For 921600 ch375_setBaudrate sends the
    command 0x02 followed by 0x03 0xC4, the bytes of the entry for 100000:
    the body of case 921600 has no break. The entry of 921600 itself is
    0x07 0xF3. *)
Theorem ch375_setBaudrate_921600 :
  Ch375.ch375_setBaudrate 921600 (mkLink [] [])
    = (Ch375.CH375_SUCCESS, mkLink [] [Cmd 0x02; Data 0x03; Data 0xC4]) /\
  In (921600, (0x07, 0xF3)) Ch375.baud_table /\
  Ch375.ch375_setBaudrate 100000 (mkLink [] [])
    = (Ch375.CH375_SUCCESS, mkLink [] [Cmd 0x02; Data 0x03; Data 0xC4]).
Proof.
  split; [reflexivity|]. split; [|reflexivity].
  simpl. tauto.
Qed.

(** Every other entry of the table of the 9-bit dialect is sent as it
    stands, and a baud rate outside the table is refused before anything is
    written. *)
Lemma ch375_setBaudrate_table (baudrate data1 data2 : Z) (w : list wire_word) :
  In (baudrate, (data1, data2)) Ch375.baud_table ->
  baudrate <> 921600 ->
  Ch375.ch375_setBaudrate baudrate (mkLink [] w)
    = (Ch375.CH375_SUCCESS,
       mkLink [] (w ++ [Cmd Ch375.CH375_CMD_SET_BAUDRATE; Data data1; Data data2])).
Proof.
  intros Hin Hne. simpl in Hin.
  repeat (destruct Hin as [[= <- <- <-]|Hin];
          [first [congruence | unfold Ch375.ch375_setBaudrate; simpl;
                               rewrite <- !app_assoc; reflexivity]|]).
  destruct Hin.
Qed.

Lemma ch375_setBaudrate_unsupported (baudrate : Z) (l : link_t) :
  (forall d, ~ In (baudrate, d) Ch375.baud_table) ->
  Ch375.ch375_setBaudrate baudrate l = (Ch375.CH375_PARAM_INVALID, l).
Proof.
  intros Hout. unfold Ch375.ch375_setBaudrate, Ch375.baud_switch.
  repeat (case_decide;
          [exfalso; subst baudrate; eapply Hout; simpl; eauto 12|]).
  reflexivity.
Qed.

(** The 8-bit dialect: both entries are sent as they stand, anything else is
    refused with nothing written. *)
Lemma ch376s_setBaudrate_table (baudrate data1 data2 : Z) (w : list wire_word) :
  In (baudrate, (data1, data2)) Ch376s.baud_table ->
  Ch376s.ch376s_setBaudrate baudrate (mkLink [] w)
    = (Ch376s.CH376S_SUCCESS,
       mkLink [] (w ++ [Byte Ch376s.CH376S_CMD_SET_BAUDRATE; Byte data1; Byte data2])).
Proof.
  intros Hin. simpl in Hin.
  repeat (destruct Hin as [[= <- <- <-]|Hin];
          [unfold Ch376s.ch376s_setBaudrate; simpl;
           rewrite <- !app_assoc; reflexivity|]).
  destruct Hin.
Qed.

Lemma ch376s_setBaudrate_unsupported (baudrate : Z) (l : link_t) :
  baudrate <> 9600 -> baudrate <> 115200 ->
  Ch376s.ch376s_setBaudrate baudrate l = (Ch376s.CH376S_PARAM_INVALID, l).
Proof.
  intros H1 H2. unfold Ch376s.ch376s_setBaudrate, Ch376s.baud_switch.
  repeat (case_decide; [congruence|]). reflexivity.
Qed.

End BaudFacts.

(** ** ch375_host.c: the configuration walk *)
Section WalkFacts.
Import Cint Usb Host.

(** The walk on the mouse configuration of the tests: one interface (HID,
    boot, mouse) with the IN endpoint 0x81, max packet 4, toggle DATA0. *)
Example walk_sample_mouse :
  exists u,
    parse_config_descriptor (fresh_device 8 sampleMouseConfig) = Parsed u /\
    interface_count u = 1 /\
    interfaces u !! 0%nat
      = Some (mkInterface 0 3 1 2 1
                (mkEndpoint 0x81 3 4 10 false :: repeat zero_endpoint 3)).
Proof. eexists. split; [vm_compute; reflexivity|]. split; reflexivity. Qed.

(** C7 (at the failing inputs). The walk has no bound on the slots it
    fills. On a well-formed descriptor with five interface descriptors the
    fifth is stored into interfaces[4], outside the table of 4; an endpoint
    descriptor met before any interface descriptor is stored through
    interfaces[-1]; a fifth endpoint of one interface goes to endpoints[4].
    None of the three is stopped by the bLength checks. *)
Theorem walk_writes_outside_tables :
  parse_config_descriptor (fresh_device 8 five_interfaces)
    = OutOfBounds (InterfaceSlot 4) /\
  parse_config_descriptor (fresh_device 8 endpoint_before_interface)
    = OutOfBounds (InterfaceSlot (-1)) /\
  parse_config_descriptor (fresh_device 8 five_endpoints)
    = OutOfBounds (EndpointSlot 0 4).
Proof. repeat split; vm_compute; reflexivity. Qed.

End WalkFacts.

(** Steps a computation against the chip whose next answers are known. *)
Ltac run_chip :=
  cbv beta iota delta
    [mbind mret chip_bind chip_ret Chip.bind Chip.ret Chip.ch37x_setRetry
     Chip.ch37x_sendToken Chip.ch37x_readBlockData Chip.ch37x_writeBlockData
     Chip.k_msleep Chip.k_busy_wait Chip.emit Chip.pop Chip.lift
     Chip.pending Chip.log].

(** ** ch375_host.c: control transfers *)
Section ControlFacts.
Import Cint Chip Usb Host.

Lemma control_status_fails reqType total c k :
  SETUP_IN reqType <> 0 ->
  status_out_failure c = Some k ->
  exists c2,
    control_status reqType total c
      = Some (if decide (total > 0) then (CH37X_HOST_SUCCESS, Some total)
              else (failure_code k, None), c2).
Proof.
  intros Hin Hk. unfold control_status, status_out_failure in *.
  destruct (decide (SETUP_IN reqType <> 0)); [|tauto].
  destruct c as [[|r1 rest] lg]; cbn [pending] in Hk; [discriminate|].
  run_chip.
  destruct (decide (CH37X_SUCCESS <> c_ret r1)).
  - injection Hk as <-. eexists. destruct (decide (total > 0)); reflexivity.
  - destruct rest as [|r2 rest]; [discriminate|]. cbn [pending].
    destruct (decide (CH37X_SUCCESS <> c_ret r2)).
    + injection Hk as <-. eexists. destruct (decide (total > 0)); reflexivity.
    + destruct (decide (c_status r2 <> CH37X_USB_INT_SUCCESS)); [|discriminate].
      injection Hk as <-. eexists. destruct (decide (total > 0)); reflexivity.
Qed.

Lemma control_transfer_by_stages fuel u reqType bRequest wValue wIndex pData wLength
    c c1 c2 total pData' code actual :
  control_stages fuel u reqType bRequest wValue wIndex pData wLength c
    = Some (Continue total, pData', c1) ->
  control_status reqType total c1 = Some (code, actual, c2) ->
  ch375_hostControlTransfer fuel u reqType bRequest wValue wIndex pData wLength c
    = Some (code, pData', actual, c2).
Proof.
  intros Hst Hs. unfold ch375_hostControlTransfer.
  unfold mbind at 1, chip_bind at 1, bind at 1. rewrite Hst.
  unfold mbind, chip_bind, bind. rewrite Hs. reflexivity.
Qed.

Lemma control_transfer_stages fuel u reqType bRequest wValue wIndex pData wLength
    c c1 c2 total pData' code actual :
  control_setup_and_data fuel u reqType bRequest wValue wIndex pData wLength c
    = Some (Continue (total, pData'), c1) ->
  control_status reqType total c1 = Some (code, actual, c2) ->
  ch375_hostControlTransfer fuel u reqType bRequest wValue wIndex pData wLength c
    = Some (code, pData', actual, c2).
Proof.
  intros Hdata Hs. eapply control_transfer_by_stages; [|exact Hs].
  unfold control_setup_and_data, mbind, chip_bind, bind in Hdata.
  destruct (control_stages fuel u reqType bRequest wValue wIndex pData wLength c)
    as [[[[code'|t] buf] c']|]; [discriminate | | discriminate].
  cbn in Hdata. injection Hdata as -> -> ->. reflexivity.
Qed.

(** C5. A control IN transfer that reaches its STATUS stage with
    totalReceived bytes from the DATA stage, and whose STATUS stage fails
    (the zero-length block write fails, the OUT token fails, or the status
    byte is not IntSuccess): with totalReceived > 0 the transfer returns
    Success and reports totalReceived as the actual length; with no byte
    received it returns the error of the failure, which for a status byte is
    Disconnected for IntDisconnect, Stall for the STALL PID, and the general
    error otherwise. *)
Theorem status_failure_after_data
    (fuel : nat) (u : USB_Device_t) (reqType bRequest wValue wIndex : Z)
    (pData : list Z) (wLength : Z) (c c1 : chip_t)
    (totalReceived : Z) (pData' : list Z) (k : status_failure) :
  SETUP_IN reqType <> 0 ->
  control_setup_and_data fuel u reqType bRequest wValue wIndex pData wLength c
    = Some (Continue (totalReceived, pData'), c1) ->
  status_out_failure c1 = Some k ->
  exists c2,
    (totalReceived > 0 ->
     ch375_hostControlTransfer fuel u reqType bRequest wValue wIndex pData wLength c
       = Some (CH37X_HOST_SUCCESS, pData', Some totalReceived, c2)) /\
    (~ totalReceived > 0 ->
     ch375_hostControlTransfer fuel u reqType bRequest wValue wIndex pData wLength c
       = Some (failure_code k, pData', None, c2)) /\
    failure_code WriteFailed = CH37X_HOST_ERROR /\
    failure_code TokenFailed = CH37X_HOST_ERROR /\
    failure_code (BadStatus CH37X_USB_INT_DISCONNECT) = CH37X_HOST_DEV_DISCONNECT /\
    failure_code (BadStatus (CH37X_PID2STATUS USB_PID_STALL)) = CH37X_HOST_STALL /\
    (forall status, status <> CH37X_USB_INT_DISCONNECT ->
                    status <> CH37X_PID2STATUS USB_PID_STALL ->
                    failure_code (BadStatus status) = CH37X_HOST_ERROR).
Proof.
  intros Hin Hdata Hk.
  destruct (control_status_fails reqType totalReceived c1 k Hin Hk) as [c2 Hs].
  exists c2. repeat split.
  - intros Hpos. destruct (decide (totalReceived > 0)); [|tauto].
    eapply control_transfer_stages; eauto.
  - intros Hz. destruct (decide (totalReceived > 0)); [tauto|].
    eapply control_transfer_stages; eauto.
  - intros status H1 H2. unfold failure_code, status_error.
    repeat case_decide; congruence.
Qed.

(** GET_DESCRIPTOR(DEVICE, 8): eight bytes arrive, then the STATUS stage
    stalls. *)
Lemma status_failure_after_data_witness :
  exists c2,
    (8 > 0 ->
     ch375_hostControlTransfer 4 test_device 0x80 6 0x0100 0 (repeat 0 8) 8
       (mkChip [ok; ok; token 0x14; token 0x14; packet [18; 1; 0; 2; 0; 0; 0; 8];
                ok; token STALL] [])
       = Some (CH37X_HOST_SUCCESS, [18; 1; 0; 2; 0; 0; 0; 8], Some 8, c2)) /\
    (~ 8 > 0 ->
     ch375_hostControlTransfer 4 test_device 0x80 6 0x0100 0 (repeat 0 8) 8
       (mkChip [ok; ok; token 0x14; token 0x14; packet [18; 1; 0; 2; 0; 0; 0; 8];
                ok; token STALL] [])
       = Some (failure_code (BadStatus STALL), [18; 1; 0; 2; 0; 0; 0; 8], None, c2)) /\
    failure_code WriteFailed = CH37X_HOST_ERROR /\
    failure_code TokenFailed = CH37X_HOST_ERROR /\
    failure_code (BadStatus CH37X_USB_INT_DISCONNECT) = CH37X_HOST_DEV_DISCONNECT /\
    failure_code (BadStatus (CH37X_PID2STATUS USB_PID_STALL)) = CH37X_HOST_STALL /\
    (forall status, status <> CH37X_USB_INT_DISCONNECT ->
                    status <> CH37X_PID2STATUS USB_PID_STALL ->
                    failure_code (BadStatus status) = CH37X_HOST_ERROR).
Proof.
  eapply (status_failure_after_data 4 test_device 0x80 6 0x0100 0 (repeat 0 8) 8).
  - vm_compute. discriminate.
  - vm_compute. reflexivity.
  - vm_compute. reflexivity.
Defined.

(** Zero bytes delivered: a GET_DESCRIPTOR whose first IN packet is empty,
    then a stalled STATUS stage. *)
Example status_stall_without_data :
  exists c2,
    ch375_hostControlTransfer 4 test_device 0x80 6 0x0100 0 (repeat 0 8) 8
      (mkChip [ok; ok; token 0x14; token 0x14; packet []; ok; token STALL] [])
      = Some (CH37X_HOST_STALL, repeat 0 8, None, c2).
Proof. eexists. vm_compute. reflexivity. Qed.

(** A DATA stage that fails after a packet: the first eight bytes of an
    18-byte descriptor arrive, the next IN token is answered with STALL, and
    the function returns Stall with the eight bytes in the caller's
    buffer. *)
Example data_stall_after_packet :
  exists c2,
    ch375_hostControlTransfer 4 test_device 0x80 6 0x0200 0 (repeat 0 18) 18
      (mkChip [ok; ok; token 0x14; token 0x14; packet [9; 2; 34; 0; 1; 1; 0; 160];
               token STALL] [])
      = Some (CH37X_HOST_STALL, [9; 2; 34; 0; 1; 1; 0; 160] ++ repeat 0 10, None, c2).
Proof. eexists. vm_compute. reflexivity. Qed.

End ControlFacts.

(** ** ch375_host.c: bulk and interrupt transfers *)
Section BulkFacts.
Import Cint Chip Usb Host.

Lemma toggle_at_flip u at_ e :
  endpoint_at u at_ = Some e ->
  toggle_at (flip_toggle u at_) at_ = Some (negb (data_toggle e)).
Proof.
  unfold toggle_at, endpoint_at, flip_toggle. destruct at_ as [i j]. simpl.
  destruct (interfaces u !! i) as [ifc|] eqn:Hi; [|discriminate]. simpl.
  intros He. rewrite list_lookup_alter_eq, Hi. simpl.
  rewrite list_lookup_alter_eq, He. reflexivity.
Qed.

Lemma nak_is_not_success : CH37X_PID2STATUS USB_PID_NAK <> CH37X_USB_INT_SUCCESS.
Proof. vm_compute. discriminate. Qed.

Lemma bulk_iteration_unfold ep at_ st e c t pData' c1 :
  endpoint_at (b_dev st) at_ = Some e ->
  bulk_transact ep e st c = Some (t, pData', c1) ->
  bulk_iteration ep at_ st c =
    match t with
    | Return code =>
        Some (inr (code, None,
                   mkBulk (b_dev st) pData' (b_resiLen st) (b_offset st) (b_timeout st)),
              c1)
    | Continue (status, actualLen) => bulk_settle at_ st status actualLen pData' c1
    end.
Proof.
  intros He Ht. unfold bulk_iteration. rewrite He.
  unfold mbind, chip_bind, bind. rewrite Ht. destruct t as [code|[status actualLen]]; reflexivity.
Qed.

(** One pass through the loop of ch375_hostBulkTransfer whose
    transaction ends with the status byte [status]. On NAK with a non-zero
    timeout the pass leaves the device (and so the data toggle), the offset
    and the residue alone, takes 1 off the timeout, sleeps 1 ms and goes
    round again; on NAK with timeout 0 the function returns Timeout with the
    offset reached so far as the actual length, toggle untouched. No status
    other than IntSuccess changes the device; IntSuccess flips the toggle
    and advances the offset by the bytes of the packet. *)
Lemma bulk_iteration_by_status
    (ep : Z) (at_ : nat * nat) (st : bulk_state) (e : USB_Endpoint_t)
    (c c1 : chip_t) (status actualLen : Z) (pData' : list Z) :
  endpoint_at (b_dev st) at_ = Some e ->
  0 <= b_timeout st < 2 ^ 32 ->
  bulk_transact ep e st c = Some (Continue (status, actualLen), pData', c1) ->
  (status = CH37X_PID2STATUS USB_PID_NAK -> b_timeout st <> 0 ->
   bulk_iteration ep at_ st c
     = Some (inl (mkBulk (b_dev st) pData' (b_resiLen st) (b_offset st)
                         (b_timeout st - 1)),
             mkChip (pending c1) (log c1 ++ [MSleep 1]))) /\
  (status = CH37X_PID2STATUS USB_PID_NAK -> b_timeout st = 0 ->
   bulk_iteration ep at_ st c
     = Some (inr (CH37X_HOST_TIMEOUT, Some (b_offset st),
                  mkBulk (b_dev st) pData' (b_resiLen st) (b_offset st) 0),
             c1)) /\
  (status <> CH37X_USB_INT_SUCCESS ->
   exists out c2, bulk_iteration ep at_ st c = Some (out, c2) /\
                  device_after out = b_dev st) /\
  (status = CH37X_USB_INT_SUCCESS ->
   exists st', bulk_iteration ep at_ st c = Some (inl st', c1) /\
               toggle_at (b_dev st') at_ = Some (negb (data_toggle e)) /\
               b_offset st' = b_offset st + actualLen /\
               b_resiLen st' = b_resiLen st - actualLen /\
               b_timeout st' = b_timeout st).
Proof.
  intros He Ht Htr.
  rewrite (bulk_iteration_unfold ep at_ st e c _ pData' c1 He Htr).
  unfold bulk_settle. repeat split.
  - intros -> Hne.
    destruct (decide (CH37X_USB_INT_SUCCESS = CH37X_PID2STATUS USB_PID_NAK)) as [Heq|_];
      [symmetry in Heq; destruct (nak_is_not_success Heq)|].
    destruct (decide (CH37X_PID2STATUS USB_PID_NAK = CH37X_PID2STATUS USB_PID_NAK)); [|congruence].
    destruct (decide (b_timeout st = 0)); [tauto|].
    run_chip. rewrite (to_u_id 32) by lia. reflexivity.
  - intros -> Hz.
    destruct (decide (CH37X_USB_INT_SUCCESS = CH37X_PID2STATUS USB_PID_NAK)) as [Heq|_];
      [symmetry in Heq; destruct (nak_is_not_success Heq)|].
    destruct (decide (CH37X_PID2STATUS USB_PID_NAK = CH37X_PID2STATUS USB_PID_NAK)); [|congruence].
    destruct (decide (b_timeout st = 0)); [|tauto].
    run_chip. rewrite Hz. reflexivity.
  - intros Hns.
    destruct (decide (CH37X_USB_INT_SUCCESS = status)); [congruence|].
    destruct (decide (status = CH37X_PID2STATUS USB_PID_NAK)).
    + destruct (decide (b_timeout st = 0)); run_chip; eexists _, _; split; reflexivity.
    + run_chip. eexists _, _; split; reflexivity.
  - intros Hs. destruct (decide (CH37X_USB_INT_SUCCESS = status)); [|congruence].
    run_chip. eexists. split; [reflexivity|]. cbn [b_dev b_offset b_resiLen b_timeout].
    split; [apply toggle_at_flip; exact He|]. auto.
Qed.

Lemma bulk_loop_step n ep at_ st c out c1 :
  b_resiLen st > 0 ->
  bulk_iteration ep at_ st c = Some (out, c1) ->
  bulk_loop (S n) ep at_ st c =
    match out with
    | inl st' => bulk_loop n ep at_ st' c1
    | inr result => Some (result, c1)
    end.
Proof.
  intros Hres Hit. cbn [bulk_loop]. destruct (decide (b_resiLen st > 0)); [|tauto].
  unfold mbind, chip_bind, bind. rewrite Hit. destruct out; reflexivity.
Qed.

Lemma bulk_transact_in_nak ep e st rest lg :
  EP_IN ep <> 0 ->
  bulk_transact ep e st (mkChip (token NAK :: rest) lg)
    = Some (Continue (NAK, 0), b_data st,
            mkChip rest (lg ++ [SendToken ep (data_toggle e) USB_PID_IN])).
Proof.
  intros Hin. unfold bulk_transact. destruct (decide (EP_IN ep <> 0)); [|tauto].
  run_chip. reflexivity.
Qed.

(** A pass of the loop whose IN token is answered with NAK. *)
Lemma bulk_iteration_in_nak ep at_ st e rest lg :
  EP_IN ep <> 0 ->
  endpoint_at (b_dev st) at_ = Some e ->
  0 <= b_timeout st < 2 ^ 32 ->
  bulk_iteration ep at_ st (mkChip (token NAK :: rest) lg)
    = if decide (b_timeout st = 0)
      then Some (inr (CH37X_HOST_TIMEOUT, Some (b_offset st),
                      mkBulk (b_dev st) (b_data st) (b_resiLen st) (b_offset st) 0),
                 mkChip rest (lg ++ [SendToken ep (data_toggle e) USB_PID_IN]))
      else Some (inl (mkBulk (b_dev st) (b_data st) (b_resiLen st) (b_offset st)
                             (b_timeout st - 1)),
                 mkChip rest (lg ++ [SendToken ep (data_toggle e) USB_PID_IN]
                                 ++ [MSleep 1])).
Proof.
  intros Hin He Ht.
  rewrite (bulk_iteration_unfold ep at_ st e _ _ _ _ He
             (bulk_transact_in_nak ep e st rest lg Hin)).
  unfold bulk_settle.
  destruct (decide (CH37X_USB_INT_SUCCESS = NAK)) as [Heq|_];
    [symmetry in Heq; destruct (nak_is_not_success Heq)|].
  destruct (decide (NAK = CH37X_PID2STATUS USB_PID_NAK)) as [_|Hn];
    [|destruct Hn; reflexivity].
  destruct (decide (b_timeout st = 0)) as [Hz|Hnz].
  - run_chip. rewrite Hz. reflexivity.
  - run_chip. rewrite (to_u_id 32) by lia. rewrite <- app_assoc. reflexivity.
Qed.

(** A run of NAKs on an IN endpoint: with timeout T the transfer sleeps T
    times 1 ms, and the NAK that finds the budget at 0 ends it with Timeout,
    the bytes moved so far and the toggle as it was. *)
Lemma bulk_nak_run (T : nat) : forall ep at_ st e rest lg extra,
  EP_IN ep <> 0 ->
  endpoint_at (b_dev st) at_ = Some e ->
  b_resiLen st > 0 ->
  b_timeout st = Z.of_nat T -> Z.of_nat T < 2 ^ 32 ->
  bulk_loop (S T + extra) ep at_ st (mkChip (repeat (token NAK) (S T) ++ rest) lg)
    = Some (CH37X_HOST_TIMEOUT, Some (b_offset st),
            mkBulk (b_dev st) (b_data st) (b_resiLen st) (b_offset st) 0,
            mkChip rest
              (lg ++ concat (repeat [SendToken ep (data_toggle e) USB_PID_IN; MSleep 1] T)
                  ++ [SendToken ep (data_toggle e) USB_PID_IN])).
Proof.
  induction T as [|T IH]; intros ep at_ st e rest lg extra Hin He Hres Ht Hb.
  - change (1 + extra)%nat with (S extra). cbn [repeat app concat].
    pose proof (bulk_iteration_in_nak ep at_ st e rest lg Hin He ltac:(lia)) as H0.
    destruct (decide (b_timeout st = 0)); [|lia].
    rewrite (bulk_loop_step _ _ _ _ _ _ _ Hres H0). reflexivity.
  - change (S (S T) + extra)%nat with (S (S T + extra)).
    change (repeat (token NAK) (S (S T))) with (token NAK :: repeat (token NAK) (S T)).
    cbn [app].
    pose proof (bulk_iteration_in_nak ep at_ st e (repeat (token NAK) (S T) ++ rest) lg
                  Hin He ltac:(lia)) as H1.
    destruct (decide (b_timeout st = 0)); [lia|].
    rewrite (bulk_loop_step _ _ _ _ _ _ _ Hres H1).
    rewrite app_assoc.
    rewrite (IH ep at_ _ e rest _ extra Hin); cbn [b_dev b_resiLen b_timeout b_offset b_data];
      auto; try lia.
    f_equal. f_equal. f_equal.
    change (repeat [SendToken ep (data_toggle e) USB_PID_IN; MSleep 1] (S T))
      with ([SendToken ep (data_toggle e) USB_PID_IN; MSleep 1]
            :: repeat [SendToken ep (data_toggle e) USB_PID_IN; MSleep 1] T).
    cbn [concat]. rewrite <- !app_assoc. reflexivity.
Qed.

(** Scenario 2 of the specification: NAK, NAK, then the 4-byte report. *)
Example bulk_nak_then_success :
  exists st c,
    ch375_hostBulkTransfer 8 test_device 0x81 (repeat 0 4) 4 100
      (mkChip [ok; token NAK; token NAK; token CH37X_USB_INT_SUCCESS;
               packet [0x11; 0x22; 0x33; 0x44]] [])
      = Some (CH37X_HOST_SUCCESS, Some 4, st, c) /\
    b_data st = [0x11; 0x22; 0x33; 0x44] /\
    toggle_at (b_dev st) (0%nat, 0%nat) = Some true /\
    b_timeout st = 98 /\
    log c = [SetRetry 0; SendToken 0x81 false USB_PID_IN; MSleep 1;
             SendToken 0x81 false USB_PID_IN; MSleep 1;
             SendToken 0x81 false USB_PID_IN; ReadBlock 4].
Proof. eexists _, _. split; [vm_compute; reflexivity|]. repeat split. Qed.

End BulkFacts.

(** ** input_patterns.c: the expansion of a preset, for any float arithmetic *)
Section ExpansionFacts.
Import Cint Recoil.
Context {F : Type} {FO : FloatOps F}.

Lemma tick_value_next s fix_ j :
  tick_value s fix_ (S j) = tick_value (s) (snd (tick_store (F:=F) s (f_of_int 0) fix_)) j.
Proof.
  unfold tick_value, tick_store. destruct (decide (fix_ > 0)); simpl;
    repeat case_decide; try reflexivity; lia.
Qed.

Lemma tick_store_value s (sum : F) fix_ :
  fst (fst (tick_store s sum fix_)) = tick_value s fix_ 0.
Proof.
  unfold tick_value, tick_store. destruct (decide (fix_ > 0)); simpl;
    case_decide; try reflexivity; lia.
Qed.

Lemma tick_store_fix s (sum sum' : F) fix_ :
  snd (tick_store s sum fix_) = snd (tick_store s sum' fix_).
Proof. unfold tick_store. destruct (decide (fix_ > 0)); reflexivity. Qed.

Lemma fill_ticks_spec k : forall len p (st : gen_state F),
  gen_ok len st -> g_idx st + Z.of_nat k <= len ->
  let st' := fill_ticks k len p st in
  gen_ok len st' /\ g_idx st' = g_idx st + Z.of_nat k /\
  (forall q : nat, Z.of_nat q < g_idx st ->
     g_pX st' !! q = g_pX st !! q /\ g_pY st' !! q = g_pY st !! q /\
     g_pTs st' !! q = g_pTs st !! q) /\
  (forall j : nat, (j < k)%nat ->
     g_pX st' !! (Z.to_nat (g_idx st) + j)%nat = Some (tick_value (sX p) (fixX p) j) /\
     g_pY st' !! (Z.to_nat (g_idx st) + j)%nat = Some (tick_value (sY p) (fixY p) j) /\
     g_pTs st' !! (Z.to_nat (g_idx st) + j)%nat
       = Some (tick_value (sTimestamp p) (fixTs p) j)).
Proof.
  induction k as [|k IH]; intros len p st Hok Hlen.
  - simpl. split; [exact Hok|]. split; [lia|]. split; [intros; auto | intros; lia].
  - cbn [fill_ticks]. destruct Hok as (Hi & Hx & Hy & Ht).
    destruct (decide (g_idx st >= len)); [lia|].
    destruct (tick_store (sX p) (g_sumX st) (fixX p)) as [[vx sx'] fx'] eqn:Ex.
    destruct (tick_store (sY p) (g_sumY st) (fixY p)) as [[vy sy'] fy'] eqn:Ey.
    destruct (tick_store (sTimestamp p) (g_sumTs st) (fixTs p)) as [[vt st_'] ft'] eqn:Et.
    set (p1 := mkPlan (sX p) (sY p) (sTimestamp p) fx' fy' ft').
    set (st1 := mkGen (g_idx st + 1) _ _ _ _ _ _ _ _ _).
    assert (Hok1 : gen_ok len st1).
    { unfold gen_ok, st1; cbn [g_idx g_pX g_pY g_pTs]. rewrite !length_insert. lia. }
    destruct (IH len p1 st1 Hok1 ltac:(unfold st1; cbn [g_idx]; lia))
      as (Hok' & Hidx & Hlow & Hval).
    cbv zeta. split; [exact Hok'|]. split; [rewrite Hidx; unfold st1; cbn [g_idx]; lia|].
    split.
    + intros q Hq.
      destruct (Hlow q ltac:(unfold st1; cbn [g_idx]; lia)) as (H1 & H2 & H3).
      rewrite H1, H2, H3. unfold st1; cbn [g_pX g_pY g_pTs].
      rewrite !list_lookup_insert_ne by lia. auto.
    + intros j Hj. destruct j as [|j].
      * rewrite Nat.add_0_r.
        destruct (Hlow (Z.to_nat (g_idx st)) ltac:(unfold st1; cbn [g_idx]; lia))
          as (H1 & H2 & H3).
        rewrite H1, H2, H3. unfold st1; cbn [g_pX g_pY g_pTs].
        rewrite !list_lookup_insert_eq by lia.
        rewrite <- (tick_store_value (sX p) (g_sumX st)), Ex.
        rewrite <- (tick_store_value (sY p) (g_sumY st)), Ey.
        rewrite <- (tick_store_value (sTimestamp p) (g_sumTs st)), Et. auto.
      * destruct (Hval j ltac:(lia)) as (H1 & H2 & H3).
        replace (Z.to_nat (g_idx st) + S j)%nat with (Z.to_nat (g_idx st1) + j)%nat
          by (unfold st1; cbn [g_idx]; lia).
        rewrite H1, H2, H3. unfold p1; cbn [sX sY sTimestamp fixX fixY fixTs].
        rewrite !tick_value_next.
        rewrite (tick_store_fix (sX p) _ (g_sumX st)), Ex.
        rewrite (tick_store_fix (sY p) _ (g_sumY st)), Ey.
        rewrite (tick_store_fix (sTimestamp p) _ (g_sumTs st)), Et. auto.
Qed.

Lemma group_head_keeps data n coeff sens i (st : gen_state F) p st1 :
  group_head data n coeff sens i st = Some (p, st1) ->
  g_idx st1 = g_idx st /\ g_pX st1 = g_pX st /\ g_pY st1 = g_pY st /\ g_pTs st1 = g_pTs st.
Proof.
  unfold group_head.
  destruct (data !! _); [|discriminate]. destruct (data !! _); [|discriminate].
  destruct (data !! _); [|discriminate]. intros [= <- <-]. auto.
Qed.


Lemma group_head_some (data : list F) n coeff sens i (st : gen_state F) :
  0 <= i -> i * 3 + 2 < Z.of_nat (length data) ->
  exists p st1, group_head data n coeff sens i st = Some (p, st1).
Proof.
  intros Hi Hlen. unfold group_head, RECOIL_COMP_DATA_GROUP_SIZE.
  destruct (lookup_lt_is_Some_2 data (Z.to_nat (i * 3 + 0)) ltac:(lia)) as [d0 ->].
  destruct (lookup_lt_is_Some_2 data (Z.to_nat (i * 3 + 1)) ltac:(lia)) as [d1 ->].
  destruct (lookup_lt_is_Some_2 data (Z.to_nat (i * 3 + 2)) ltac:(lia)) as [d2 ->].
  eauto.
Qed.

Lemma gen_groups_spec k : forall i data n coeff sens len (st : gen_state F),
  0 <= n -> 0 <= i ->
  (i + Z.of_nat k) * 3 <= Z.of_nat (length data) ->
  gen_ok len st -> g_idx st + Z.of_nat k * n <= len ->
  exists st',
    gen_groups k i data n coeff sens len st = Some st' /\
    gen_ok len st' /\ g_idx st' = g_idx st + Z.of_nat k * n /\
    (forall q : nat, Z.of_nat q < g_idx st ->
       g_pX st' !! q = g_pX st !! q /\ g_pY st' !! q = g_pY st !! q /\
       g_pTs st' !! q = g_pTs st !! q).
Proof.
  induction k as [|k IH]; intros i data n coeff sens len st Hn Hi Hdata Hok Hlen.
  - exists st. simpl. repeat split; auto; try lia; apply Hok.
  - cbn [gen_groups].
    destruct (group_head_some data n coeff sens i st Hi ltac:(lia)) as (p & st1 & Hh).
    rewrite Hh. destruct (group_head_keeps _ _ _ _ _ _ _ _ Hh) as (E1 & E2 & E3 & E4).
    assert (Hok1 : gen_ok len st1).
    { unfold gen_ok in *. rewrite E1, E2, E3, E4. exact Hok. }
    destruct (fill_ticks_spec (Z.to_nat n) len p st1 Hok1 ltac:(nia))
      as (Hok2 & Hidx2 & Hlow2 & _).
    destruct (IH (i + 1) data n coeff sens len (fill_ticks (Z.to_nat n) len p st1)
                Hn ltac:(lia) ltac:(lia) Hok2 ltac:(nia))
      as (st' & Hrun & Hok' & Hidx' & Hlow').
    exists st'. split; [exact Hrun|]. split; [exact Hok'|]. split; [nia|].
    intros q Hq.
    destruct (Hlow' q ltac:(nia)) as (H1 & H2 & H3).
    destruct (Hlow2 q ltac:(lia)) as (H4 & H5 & H6).
    rewrite H1, H2, H3, H4, H5, H6, E2, E3, E4. auto.
Qed.







End ExpansionFacts.

(** ** input_patterns.c: the presets of the program in binary32 *)
Section ExpansionBinary32.
Import Cint Recoil.



(** The y sums of the Soldier76 preset at the defaults: the residual of a
    group carries what the groups before it left over, so group 2 sums to 1
    where the rounding of the group alone gives 0. *)
Example soldier76_group_2_carries_residual :
  expanded_group_sums (opened_with_preset (F:=spec_float) 1) 2 = Some (0, 1, 111) /\
  claimed_sums_of (opened_with_preset (F:=spec_float) 1) 2 = Some (0, 0, 44).
Proof. split; vm_compute; reflexivity. Qed.

(** The x and y sums of the Cassidy preset at the defaults are the rounded
    scaled values: -20.2 / 2.5 rounds to -8. *)
Example cassidy_group_1 :
  expanded_group_sums (opened_with_preset (F:=spec_float) 2) 1 = Some (0, -8, 150) /\
  claimed_sums_of (opened_with_preset (F:=spec_float) 2) 1 = Some (0, -8, 60) /\
  plan_of_group (F:=spec_float) gRawPreset_OW2_Cassidy 62
    RECOIL_COMP_DEFAULT_COEFF RECOIL_COMP_DEFAULT_SENS (62 * 18) 1
    = Some (mkPlan 0 (-1) 2 0 54 26).
Proof. repeat split; vm_compute; reflexivity. Qed.

End ExpansionBinary32.

(** ** input_patterns.c: the next tick *)
Section SequencerFacts.
Import Cint Recoil.
Context {F : Type} {FO : FloatOps F}.

Lemma load_in_bounds (l : list Z) (i : Z) :
  0 <= i < Z.of_nat (length l) -> exists v, load l i = Some v.
Proof.
  intros Hi. unfold load. destruct (decide (0 <= i)); [|lia].
  destruct (lookup_lt_is_Some_2 l (Z.to_nat i) ltac:(lia)) as [v Hv]. eauto.
Qed.

Lemma to_u_add_to_u w a b : to_u w (a + to_u w b) = to_u w (a + b).
Proof. unfold to_u. apply Zplus_mod_idemp_r. Qed.

Lemma to_s32_neg y : in_s 32 y -> y <> - 2 ^ 31 -> to_s32 (-1 * y) = - y.
Proof.
  intros [Hl Hh] Hne. unfold to_s32. rewrite to_s_id; [lia | lia |].
  unfold in_s. simpl in *. lia.
Qed.

(** C10.  In an initialized context with allocated tick arrays of arrLen
    elements and an index that is not negative, recoilComp_getNextData
    returns -1 and leaves *pData and the whole context as they were when the
    index has reached arrLen or when the elapsed time is below
    pTs[arrIndex]; otherwise it returns 0 with (pX[arrIndex],
    -pY[arrIndex]), adds pTs[arrIndex] to lastTickMs (in uint32_t, whatever
    the current time is), adds one to arrIndex and changes nothing else. *)
Theorem getNextData_emits_or_keeps
    (ctx : RecoilComp_Context_t F) (now : Z) (data0 : Z * Z) (xs ys ts : list Z) :
  0 <> Z.land (stateFlags ctx) RECOIL_COMP_STATE_INITIALIZED ->
  0 <> Z.land (stateFlags ctx) RECOIL_COMP_STATE_ARRAYS_ALLOCATED ->
  pX ctx = Some xs -> pY ctx = Some ys -> pTs ctx = Some ts ->
  Z.of_nat (length xs) = arrLen ctx -> Z.of_nat (length ys) = arrLen ctx ->
  Z.of_nat (length ts) = arrLen ctx ->
  0 <= arrIndex ctx ->
  (arrIndex ctx >= arrLen ctx ->
   recoilComp_getNextData ctx now data0 = Some (-1, data0, ctx)) /\
  (arrIndex ctx < arrLen ctx ->
   exists x y t,
     load xs (arrIndex ctx) = Some x /\ load ys (arrIndex ctx) = Some y /\
     load ts (arrIndex ctx) = Some t /\
     (recoilComp_cbTimeElapsed (lastTickMs ctx) now < to_u32 t ->
      recoilComp_getNextData ctx now data0 = Some (-1, data0, ctx)) /\
     (recoilComp_cbTimeElapsed (lastTickMs ctx) now >= to_u32 t ->
      recoilComp_getNextData ctx now data0
        = Some (0, (x, to_s32 (- y)),
                mkCtx (coefficient ctx) (sensitivity ctx) (stateFlags ctx)
                      (pCollect ctx) (Some xs) (Some ys) (Some ts) (arrLen ctx)
                      (arrIndex ctx + 1) (to_u32 (lastTickMs ctx + t)))) /\
     (in_s 32 y -> y <> - 2 ^ 31 -> to_s32 (- y) = - y)).
Proof.
  intros Hi Ha Hx Hy Ht Lx Ly Lt H0.
  unfold recoilComp_getNextData.
  destruct (decide (0 = Z.land (stateFlags ctx) RECOIL_COMP_STATE_INITIALIZED)); [tauto|].
  destruct (decide (0 = Z.land (stateFlags ctx) RECOIL_COMP_STATE_ARRAYS_ALLOCATED)); [tauto|].
  split.
  - intros Hge. destruct (decide (arrIndex ctx >= arrLen ctx)); [reflexivity | lia].
  - intros Hlt. destruct (decide (arrIndex ctx >= arrLen ctx)); [lia|].
    destruct (load_in_bounds xs (arrIndex ctx) ltac:(lia)) as [x Ex].
    destruct (load_in_bounds ys (arrIndex ctx) ltac:(lia)) as [y Ey].
    destruct (load_in_bounds ts (arrIndex ctx) ltac:(lia)) as [t Et].
    exists x, y, t. rewrite Hx, Hy, Ht, Ex, Ey, Et. cbv zeta.
    split; [reflexivity|]. split; [reflexivity|]. split; [reflexivity|].
    split; [|split].
    + intros Hs. destruct (decide (_ >= _)) as [Hge|_]; [lia | reflexivity].
    + intros Hs. destruct (decide (_ >= _)); [|lia].
      unfold to_u32. rewrite to_u_add_to_u.
      replace (-1 * y) with (- y) by lia. reflexivity.
    + intros Hr Hne. replace (- y) with (-1 * y) by lia. exact (to_s32_neg y Hr Hne).
Qed.

End SequencerFacts.

Section SequencerBinary32.
Import Cint Recoil.

(** A context with three ticks at index 1, last tick at 1000 ms, asked at
    1003 ms. *)
Lemma getNextData_emits_or_keeps_witness :
  let ctx := mkCtx (F:=spec_float) RECOIL_COMP_DEFAULT_COEFF RECOIL_COMP_DEFAULT_SENS
               (Z.lor RECOIL_COMP_STATE_INITIALIZED RECOIL_COMP_STATE_ARRAYS_ALLOCATED)
               None (Some [0; 1; 0]) (Some [-1; -2; 0]) (Some [2; 2; 1]) 3 1 1000 in
  (0 <> Z.land (stateFlags ctx) RECOIL_COMP_STATE_INITIALIZED /\
   0 <> Z.land (stateFlags ctx) RECOIL_COMP_STATE_ARRAYS_ALLOCATED /\
   Z.of_nat (length [0; 1; 0]) = arrLen ctx /\ 0 <= arrIndex ctx) /\
  (arrIndex ctx >= arrLen ctx ->
   recoilComp_getNextData ctx 1003 (7, 7) = Some (-1, (7, 7), ctx)) /\
  (arrIndex ctx < arrLen ctx ->
   exists x y t,
     load [0; 1; 0] (arrIndex ctx) = Some x /\ load [-1; -2; 0] (arrIndex ctx) = Some y /\
     load [2; 2; 1] (arrIndex ctx) = Some t /\
     (recoilComp_cbTimeElapsed (lastTickMs ctx) 1003 < to_u32 t ->
      recoilComp_getNextData ctx 1003 (7, 7) = Some (-1, (7, 7), ctx)) /\
     (recoilComp_cbTimeElapsed (lastTickMs ctx) 1003 >= to_u32 t ->
      recoilComp_getNextData ctx 1003 (7, 7)
        = Some (0, (x, to_s32 (- y)),
                mkCtx (coefficient ctx) (sensitivity ctx) (stateFlags ctx)
                      (pCollect ctx) (Some [0; 1; 0]) (Some [-1; -2; 0]) (Some [2; 2; 1])
                      (arrLen ctx) (arrIndex ctx + 1) (to_u32 (lastTickMs ctx + t)))) /\
     (in_s 32 y -> y <> - 2 ^ 31 -> to_s32 (- y) = - y)).
Proof.
  intros ctx.
  split; [repeat split; vm_compute; congruence|].
  refine (getNextData_emits_or_keeps ctx 1003 (7, 7) [0; 1; 0] [-1; -2; 0] [2; 2; 1]
            _ _ _ _ _ _ _ _ _);
    vm_compute; congruence.
Defined.

(** The same call, evaluated: the tuple is (1, 2) and lastTickMs becomes
    1002, not 1003; one millisecond earlier nothing moves. *)
Example getNextData_at_1003_and_1001 :
  let ctx := mkCtx (F:=spec_float) RECOIL_COMP_DEFAULT_COEFF RECOIL_COMP_DEFAULT_SENS
               (Z.lor RECOIL_COMP_STATE_INITIALIZED RECOIL_COMP_STATE_ARRAYS_ALLOCATED)
               None (Some [0; 1; 0]) (Some [-1; -2; 0]) (Some [2; 2; 1]) 3 1 1000 in
  recoilComp_getNextData ctx 1003 (7, 7)
    = Some (0, (1, 2),
            mkCtx RECOIL_COMP_DEFAULT_COEFF RECOIL_COMP_DEFAULT_SENS
               (Z.lor RECOIL_COMP_STATE_INITIALIZED RECOIL_COMP_STATE_ARRAYS_ALLOCATED)
               None (Some [0; 1; 0]) (Some [-1; -2; 0]) (Some [2; 2; 1]) 3 2 1002) /\
  recoilComp_getNextData ctx 1001 (7, 7) = Some (-1, (7, 7), ctx).
Proof. split; vm_compute; reflexivity. Qed.

End SequencerBinary32.

(** ** input_patterns.c: the life of a sequence *)
Section ScheduleFacts.
Import Cint Recoil.
Context {F : Type} {FO : FloatOps F}.

(** X1. The elapsed time is measured on the wrapping 32-bit millisecond
    clock: whatever the start reading, a clock read [d] ms later (d below
    2^32) gives back exactly [d], also when the counter wrapped in between. *)
Theorem timeElapsed_recovers_interval (start d : Z) :
  0 <= start < 2 ^ 32 -> 0 <= d < 2 ^ 32 ->
  recoilComp_cbTimeElapsed start (to_u32 (start + d)) = d.
Proof.
  intros Hs Hd. unfold recoilComp_cbTimeElapsed, to_u32, to_u.
  destruct (decide (start + d < 2 ^ 32)) as [Hlt|Hge].
  - rewrite Z.mod_small by lia. case_decide; [lia|lia].
  - replace ((start + d) mod 2 ^ 32) with (start + d - 2 ^ 32).
    + case_decide; [lia|].
      replace (4294967295 - start + (start + d - 2 ^ 32) + 1) with d by lia.
      apply Z.mod_small. lia.
    + symmetry. rewrite <- (Z.mod_small (start + d - 2 ^ 32) (2 ^ 32)) by lia.
      rewrite <- Zminus_mod_idemp_r, Z.mod_same by lia. f_equal. lia.
Qed.

Lemma timeElapsed_recovers_interval_witness :
  (0 <= 4294967290 < 2 ^ 32 /\ 0 <= 20 < 2 ^ 32) /\
  recoilComp_cbTimeElapsed 4294967290 (to_u32 (4294967290 + 20)) = 20.
Proof.
  split; [lia|]. apply timeElapsed_recovers_interval; lia.
Defined.

Lemma getNextData_step (ctx : RecoilComp_Context_t F) xs ys ts now data0 :
  sequence_ready ctx xs ys ts ->
  recoilComp_getNextData ctx now data0 = Some (-1, data0, ctx) \/
  exists x y t,
    arrIndex ctx < arrLen ctx /\
    xs !! Z.to_nat (arrIndex ctx) = Some x /\ ys !! Z.to_nat (arrIndex ctx) = Some y /\
    ts !! Z.to_nat (arrIndex ctx) = Some t /\
    recoilComp_getNextData ctx now data0
      = Some (0, (x, to_s32 (-1 * y)),
              mkCtx (coefficient ctx) (sensitivity ctx) (stateFlags ctx) (pCollect ctx)
                    (Some xs) (Some ys) (Some ts) (arrLen ctx) (arrIndex ctx + 1)
                    (to_u32 (lastTickMs ctx + t))).
Proof.
  intros (Hi & Ha & Hx & Hy & Ht & Lx & Ly & Lt & H0).
  unfold recoilComp_getNextData.
  destruct (decide (0 = Z.land (stateFlags ctx) RECOIL_COMP_STATE_INITIALIZED)); [tauto|].
  destruct (decide (0 = Z.land (stateFlags ctx) RECOIL_COMP_STATE_ARRAYS_ALLOCATED)); [tauto|].
  destruct (decide (arrIndex ctx >= arrLen ctx)); [left; reflexivity|].
  destruct (lookup_lt_is_Some_2 xs (Z.to_nat (arrIndex ctx)) ltac:(lia)) as [x Ex].
  destruct (lookup_lt_is_Some_2 ys (Z.to_nat (arrIndex ctx)) ltac:(lia)) as [y Ey].
  destruct (lookup_lt_is_Some_2 ts (Z.to_nat (arrIndex ctx)) ltac:(lia)) as [t Et].
  rewrite Hx, Hy, Ht. unfold load.
  destruct (decide (0 <= arrIndex ctx)); [|lia]. rewrite Ex, Ey, Et. cbv zeta.
  destruct (decide (_ >= _)); [|left; reflexivity].
  right. exists x, y, t. repeat (split; [first [lia | reflexivity]|]).
  unfold to_u32, to_u. rewrite Zplus_mod_idemp_r. reflexivity.
Qed.

Lemma to_u32_add_l a b : to_u32 (to_u32 a + b) = to_u32 (a + b).
Proof. unfold to_u32, to_u. apply Zplus_mod_idemp_l. Qed.

Lemma poll_run (nows : list Z) : forall (ctx : RecoilComp_Context_t F) xs ys ts,
  sequence_ready ctx xs ys ts ->
  0 <= lastTickMs ctx < 2 ^ 32 ->
  exists out ctx',
    poll ctx nows = Some (out, ctx') /\
    sequence_ready ctx' xs ys ts /\
    arrIndex ctx' = arrIndex ctx + Z.of_nat (length out) /\
    (forall j : nat, (j < length out)%nat ->
       out !! j = tuple_at xs ys (Z.to_nat (arrIndex ctx) + j)) /\
    lastTickMs ctx'
      = to_u32 (lastTickMs ctx
                + sum_ticks (take (length out) (drop (Z.to_nat (arrIndex ctx)) ts))) /\
    coefficient ctx' = coefficient ctx /\ sensitivity ctx' = sensitivity ctx /\
    stateFlags ctx' = stateFlags ctx /\ pCollect ctx' = pCollect ctx.
Proof.
  induction nows as [|now rest IH]; intros ctx xs ys ts Hr Hl.
  - exists [], ctx. cbn [poll length take sum_ticks fold_right].
    split; [reflexivity|]. split; [exact Hr|]. split; [lia|].
    split; [intros j Hj; inversion Hj|].
    split; [|auto]. rewrite Z.add_0_r. unfold to_u32. rewrite to_u_id; [reflexivity | lia].
  - cbn [poll].
    destruct (getNextData_step ctx xs ys ts now (0, 0) Hr) as [E | (x & y & t & Hlt & Ex & Ey & Et & E)];
      rewrite E.
    + destruct (IH ctx xs ys ts Hr Hl) as (out & ctx' & Hp & Hrest).
      exists out, ctx'. rewrite Hp. destruct (decide (-1 = 0)); [lia|].
      split; [reflexivity | exact Hrest].
    + set (ctx1 := mkCtx _ _ _ _ _ _ _ _ _ _) in *.
      assert (Hr1 : sequence_ready ctx1 xs ys ts).
      { destruct Hr as (Hi & Ha & Hx & Hy & Ht & Lx & Ly & Lt & H0).
        unfold sequence_ready, ctx1; cbn. repeat split; auto; lia. }
      assert (Hl1 : 0 <= lastTickMs ctx1 < 2 ^ 32).
      { unfold ctx1; cbn. unfold to_u32, to_u. apply Z.mod_pos_bound. lia. }
      destruct (IH ctx1 xs ys ts Hr1 Hl1) as (out & ctx' & Hp & Hr' & Hidx & Hout & Hlast & Hsame).
      exists ((x, to_s32 (-1 * y)) :: out), ctx'. rewrite Hp.
      destruct (decide (0 = 0)); [|lia].
      split; [reflexivity|]. split; [exact Hr'|].
      assert (Hi1 : Z.to_nat (arrIndex ctx1) = S (Z.to_nat (arrIndex ctx))).
      { unfold ctx1; cbn. destruct Hr as (_ & _ & _ & _ & _ & _ & _ & _ & H0). lia. }
      split; [rewrite Hidx; unfold ctx1; cbn [arrIndex length]; lia|].
      split.
      { intros [|j] Hj; cbn [length] in Hj.
        - cbn. rewrite Nat.add_0_r. unfold tuple_at. rewrite Ex, Ey. reflexivity.
        - change (((x, to_s32 (-1 * y)) :: out) !! S j) with (out !! j).
          rewrite (Hout j ltac:(lia)), Hi1. f_equal. lia. }
      split; [|exact Hsame].
      rewrite Hlast, Hi1. unfold ctx1 at 1; cbn [lastTickMs].
      rewrite to_u32_add_l. f_equal.
      rewrite (drop_S ts t (Z.to_nat (arrIndex ctx)) Et).
      cbn [length take sum_ticks fold_right]. unfold sum_ticks. lia.
Qed.

(** X2. Whatever the clock readings of a polling caller, the calls that
    return 0 hand out the ticks of the arrays in array order from arrIndex
    on, none skipped or repeated, each as (pX[i], -pY[i]); the index grows
    by the number of tuples handed out and never passes arrLen; lastTickMs
    moves by the sum of the durations of the ticks handed out (in
    uint32_t), and nothing else in the context changes. *)
Theorem poll_emits_ticks_in_order
    (ctx : RecoilComp_Context_t F) (xs ys ts : list Z) (nows : list Z) :
  sequence_ready ctx xs ys ts ->
  0 <= lastTickMs ctx < 2 ^ 32 ->
  exists out ctx',
    poll ctx nows = Some (out, ctx') /\
    sequence_ready ctx' xs ys ts /\
    arrIndex ctx' = arrIndex ctx + Z.of_nat (length out) /\
    (forall j : nat, (j < length out)%nat ->
       out !! j = tuple_at xs ys (Z.to_nat (arrIndex ctx) + j)) /\
    lastTickMs ctx'
      = to_u32 (lastTickMs ctx
                + sum_ticks (take (length out) (drop (Z.to_nat (arrIndex ctx)) ts))) /\
    coefficient ctx' = coefficient ctx /\ sensitivity ctx' = sensitivity ctx /\
    stateFlags ctx' = stateFlags ctx /\ pCollect ctx' = pCollect ctx.
Proof. intros Hr Hl. exact (poll_run nows ctx xs ys ts Hr Hl). Qed.

(** X3. recoilComp_restart is refused with -EINVAL, the context
    untouched, on a context that is not initialized or has no active
    preset, whatever else it holds; on an initialized context with an
    active preset it returns 0 and sets arrIndex to 0 and lastTickMs to the
    current time, nothing else. When the context holds no arrays the next
    recoilComp_getNextData still answers -EINVAL; when it holds a sequence
    the sequence starts over: a caller polling after the restart is handed
    the ticks from index 0 on, and lastTickMs is the restart time plus the
    durations handed out. *)
Theorem restart_replays_from_start
    (ctx : RecoilComp_Context_t F) (now : Z) (nows : list Z) :
  0 <= now < 2 ^ 32 ->
  (0 = Z.land (stateFlags ctx) RECOIL_COMP_STATE_INITIALIZED \/
   0 = Z.land (stateFlags ctx) RECOIL_COMP_STATE_PRESET_ACTIVE ->
   recoilComp_restart ctx now = (- EINVAL, ctx)) /\
  (0 <> Z.land (stateFlags ctx) RECOIL_COMP_STATE_INITIALIZED ->
   0 <> Z.land (stateFlags ctx) RECOIL_COMP_STATE_PRESET_ACTIVE ->
   recoilComp_restart ctx now
     = (0, mkCtx (coefficient ctx) (sensitivity ctx) (stateFlags ctx) (pCollect ctx)
                 (pX ctx) (pY ctx) (pTs ctx) (arrLen ctx) 0 now) /\
   (0 = Z.land (stateFlags ctx) RECOIL_COMP_STATE_ARRAYS_ALLOCATED ->
    forall now' data0,
      recoilComp_getNextData (recoilComp_restart ctx now).2 now' data0
        = Some (- EINVAL, data0, (recoilComp_restart ctx now).2)) /\
   (forall xs ys ts,
      sequence_ready ctx xs ys ts ->
      exists out ctx',
        poll (recoilComp_restart ctx now).2 nows = Some (out, ctx') /\
        arrIndex ctx' = Z.of_nat (length out) /\ arrIndex ctx' <= arrLen ctx /\
        (forall j : nat, (j < length out)%nat -> out !! j = tuple_at xs ys j) /\
        lastTickMs ctx' = to_u32 (now + sum_ticks (take (length out) ts)))).
Proof.
  intros Hnow. unfold recoilComp_restart. split.
  - intros [H|H].
    + destruct (decide (0 = Z.land (stateFlags ctx) RECOIL_COMP_STATE_INITIALIZED));
        [reflexivity|contradiction].
    + destruct (decide (0 = Z.land (stateFlags ctx) RECOIL_COMP_STATE_INITIALIZED));
        [reflexivity|].
      destruct (decide (0 = Z.land (stateFlags ctx) RECOIL_COMP_STATE_PRESET_ACTIVE));
        [reflexivity|contradiction].
  - intros Hi Hp.
    destruct (decide (0 = Z.land (stateFlags ctx) RECOIL_COMP_STATE_INITIALIZED));
      [contradiction|].
    destruct (decide (0 = Z.land (stateFlags ctx) RECOIL_COMP_STATE_PRESET_ACTIVE));
      [contradiction|].
    cbn [snd]. set (ctx0 := mkCtx _ _ _ _ _ _ _ _ _ _).
    split; [reflexivity|]. split.
    + intros Ha now' data0. unfold recoilComp_getNextData. cbn [stateFlags ctx0].
      destruct (decide (0 = Z.land (stateFlags ctx) RECOIL_COMP_STATE_INITIALIZED));
        [contradiction|].
      destruct (decide (0 = Z.land (stateFlags ctx) RECOIL_COMP_STATE_ARRAYS_ALLOCATED));
        [reflexivity|contradiction].
    + intros xs ys ts Hr.
      pose proof Hr as (_ & Ha & Hx & Hy & Ht & Lx & Ly & Lt & H0).
      assert (Hr0 : sequence_ready ctx0 xs ys ts).
      { unfold sequence_ready, ctx0; cbn. repeat split; auto; lia. }
      destruct (poll_run nows ctx0 xs ys ts Hr0 Hnow)
        as (out & ctx' & Hpoll & Hr' & Hidx & Hout & Hlast & _).
      exists out, ctx'. split; [exact Hpoll|].
      cbn [ctx0 arrIndex lastTickMs] in Hidx, Hout, Hlast.
      change (Z.to_nat 0) with 0%nat in *. rewrite drop_0 in Hlast.
      split; [lia|]. split.
      { destruct Hr' as (_ & _ & _ & _ & _ & Lx' & _ & _ & H0'). lia. }
      split; [exact Hout | exact Hlast].
Qed.

Lemma land_bit (f k : Z) :
  0 <= k -> Z.land f (2 ^ k) = if Z.testbit f k then 2 ^ k else 0.
Proof.
  intros Hk. apply Z.bits_inj'. intros n Hn.
  rewrite Z.land_spec, Z.pow2_bits_eqb by lia.
  destruct (Z.eqb_spec k n) as [->|Hne].
  - destruct (Z.testbit f n); [rewrite Z.pow2_bits_true by lia | rewrite Z.bits_0]; reflexivity.
  - rewrite andb_false_r.
    destruct (Z.testbit f k); [rewrite Z.pow2_bits_false by lia | rewrite Z.bits_0]; reflexivity.
Qed.

Lemma flag_is_bit (f k : Z) : 0 <= k -> (0 <> Z.land f (2 ^ k) <-> Z.testbit f k = true).
Proof.
  intros Hk. rewrite (land_bit f k Hk).
  destruct (Z.testbit f k); split; intros H; try congruence; try lia.
Qed.

Lemma generate_succeeds
    (ctx : RecoilComp_Context_t F) (coll : PresetCollection_t F) (data : list F) :
  pCollect ctx = Some coll -> pData coll = Some data ->
  dataLen coll = Z.of_nat (length data) ->
  0 < dataLen coll -> Z.rem (dataLen coll) 3 = 0 ->
  0 < firerounds_sampling coll ->
  firerounds_sampling coll * Z.quot (dataLen coll) 3 < 2 ^ 31 ->
  exists xs ys ts,
    recoilComp_cbGenerateDataLocked true ctx
      = Some (0, mkCtx (CLAMP (coefficient ctx) RECOIL_COMP_COEFF_MIN RECOIL_COMP_COEFF_MAX)
                       (CLAMP (sensitivity ctx) RECOIL_COMP_SENS_MIN RECOIL_COMP_SENS_MAX)
                       (Z.lor (stateFlags ctx) RECOIL_COMP_STATE_ARRAYS_ALLOCATED)
                       (pCollect ctx) (Some xs) (Some ys) (Some ts)
                       (firerounds_sampling coll * Z.quot (dataLen coll) 3)
                       (arrIndex ctx) (lastTickMs ctx)) /\
    Z.of_nat (length xs) = firerounds_sampling coll * Z.quot (dataLen coll) 3 /\
    Z.of_nat (length ys) = firerounds_sampling coll * Z.quot (dataLen coll) 3 /\
    Z.of_nat (length ts) = firerounds_sampling coll * Z.quot (dataLen coll) 3.
Proof.
  intros Hc Hd Hlen Hpos Hrem Hn Hov.
  set (n := firerounds_sampling coll) in *.
  set (groups := Z.quot (dataLen coll) 3) in *.
  set (len := n * groups).
  assert (Hq : dataLen coll = 3 * groups).
  { pose proof (Z.quot_rem' (dataLen coll) 3). unfold groups. lia. }
  assert (Hlen32 : to_s32 (n * groups) = len).
  { apply to_s_id; [lia|]. unfold in_s. simpl. unfold len. nia. }
  assert (Hok0 : gen_ok len (gen_start (F:=F) len)).
  { unfold gen_ok, gen_start; cbn [g_idx g_pX g_pY g_pTs]. rewrite repeat_length.
    unfold len. nia. }
  destruct (gen_groups_spec (Z.to_nat groups) 0 data n
              (CLAMP (coefficient ctx) RECOIL_COMP_COEFF_MIN RECOIL_COMP_COEFF_MAX)
              (CLAMP (sensitivity ctx) RECOIL_COMP_SENS_MIN RECOIL_COMP_SENS_MAX)
              len (gen_start len)
              ltac:(lia) ltac:(lia) ltac:(lia) Hok0
              ltac:(unfold gen_start; cbn [g_idx]; unfold len; nia))
    as (st & Hrun & (_ & Lx & Ly & Lt) & _).
  exists (g_pX st), (g_pY st), (g_pTs st).
  split; [|auto].
  unfold recoilComp_cbGenerateDataLocked. rewrite Hc, Hd.
  unfold RECOIL_COMP_DATA_GROUP_SIZE. fold groups. fold n.
  destruct (decide (dataLen coll <= 0 \/ 0 <> Z.rem (dataLen coll) 3)) as [[?|?]|_];
    [lia | lia |].
  destruct (decide (n <= 0)); [lia|].
  rewrite Hlen32. cbn [negb]. rewrite Hrun. reflexivity.
Qed.

Lemma flags_after_setPreset (f : Z) :
  0 <> Z.land f RECOIL_COMP_STATE_INITIALIZED ->
  let f' := Z.lor (Z.lor (Z.land f (Z.lnot RECOIL_COMP_STATE_ARRAYS_ALLOCATED))
                         RECOIL_COMP_STATE_ARRAYS_ALLOCATED)
                  RECOIL_COMP_STATE_PRESET_ACTIVE in
  0 <> Z.land f' RECOIL_COMP_STATE_INITIALIZED /\
  0 <> Z.land f' RECOIL_COMP_STATE_ARRAYS_ALLOCATED /\
  0 <> Z.land f' RECOIL_COMP_STATE_PRESET_ACTIVE.
Proof.
  intros Hi f'. subst f'.
  apply (proj1 (flag_is_bit f 0 ltac:(lia))) in Hi.
  split; [|split].
  - apply (proj2 (flag_is_bit _ 0 ltac:(lia))).
    rewrite !Z.lor_spec, Z.land_spec, Hi. reflexivity.
  - apply (proj2 (flag_is_bit _ 2 ltac:(lia))).
    rewrite !Z.lor_spec, Z.land_spec.
    destruct (Z.testbit f 2); reflexivity.
  - apply (proj2 (flag_is_bit _ 1 ltac:(lia))).
    rewrite !Z.lor_spec, Z.land_spec.
    destruct (Z.testbit f 1); reflexivity.
Qed.

Lemma flags_after_free (f : Z) :
  let f' := Z.land f (Z.lnot RECOIL_COMP_STATE_ARRAYS_ALLOCATED) in
  0 = Z.land f' RECOIL_COMP_STATE_ARRAYS_ALLOCATED /\
  Z.land f' RECOIL_COMP_STATE_INITIALIZED = Z.land f RECOIL_COMP_STATE_INITIALIZED /\
  Z.land f' RECOIL_COMP_STATE_PRESET_ACTIVE = Z.land f RECOIL_COMP_STATE_PRESET_ACTIVE.
Proof.
  intros f'. subst f'.
  rewrite <- !Z.land_assoc.
  change (Z.land (Z.lnot RECOIL_COMP_STATE_ARRAYS_ALLOCATED) RECOIL_COMP_STATE_ARRAYS_ALLOCATED)
    with 0.
  change (Z.land (Z.lnot RECOIL_COMP_STATE_ARRAYS_ALLOCATED) RECOIL_COMP_STATE_INITIALIZED)
    with RECOIL_COMP_STATE_INITIALIZED.
  change (Z.land (Z.lnot RECOIL_COMP_STATE_ARRAYS_ALLOCATED) RECOIL_COMP_STATE_PRESET_ACTIVE)
    with RECOIL_COMP_STATE_PRESET_ACTIVE.
  rewrite Z.land_0_r. auto.
Qed.

(** X4. recoilComp_setPreset with one of the two recoil presets on an
    initialized context: with the three blocks granted it returns 0 and
    leaves a context that is ready to be polled (all three state flags set,
    three arrays of arrLen = firerounds_sampling * dataLen / 3 elements,
    arrIndex 0) with the preset selected; lastTickMs is not touched.  When
    k_malloc fails it returns -ENOMEM with no array, no preset selected and
    the arrays flag clear. *)
Theorem setPreset_loads_sequence (ctx : RecoilComp_Context_t F) (presetIndex : Z) :
  0 <> Z.land (stateFlags ctx) RECOIL_COMP_STATE_INITIALIZED ->
  presetIndex = 1 \/ presetIndex = 2 ->
  (exists coll ctx' xs ys ts,
     sRecoilCollectArr !! Z.to_nat presetIndex = Some coll /\
     recoilComp_setPreset true ctx presetIndex = Some (0, ctx') /\
     sequence_ready ctx' xs ys ts /\
     0 <> Z.land (stateFlags ctx') RECOIL_COMP_STATE_PRESET_ACTIVE /\
     pCollect ctx' = Some coll /\ arrIndex ctx' = 0 /\
     arrLen ctx'
       = firerounds_sampling coll * Z.quot (dataLen coll) RECOIL_COMP_DATA_GROUP_SIZE /\
     lastTickMs ctx' = lastTickMs ctx) /\
  (exists ctx',
     recoilComp_setPreset false ctx presetIndex = Some (- ENOMEM, ctx') /\
     pX ctx' = None /\ pY ctx' = None /\ pTs ctx' = None /\ pCollect ctx' = None /\
     0 = Z.land (stateFlags ctx') RECOIL_COMP_STATE_ARRAYS_ALLOCATED).
Proof.
  intros Hi Hp.
  assert (Hc : exists coll data,
             sRecoilCollectArr (F:=F) !! Z.to_nat presetIndex = Some coll /\
             pData coll = Some data /\ dataLen coll = Z.of_nat (length data) /\
             0 < dataLen coll /\ Z.rem (dataLen coll) 3 = 0 /\
             0 < firerounds_sampling coll /\
             firerounds_sampling coll * Z.quot (dataLen coll) 3 < 2 ^ 31).
  { destruct Hp as [-> | ->]; eexists _, _;
      (split; [reflexivity|]); (split; [reflexivity|]); (split; [reflexivity|]);
      vm_compute; repeat split; congruence. }
  destruct Hc as (coll & data & Hl & Hd & Hlen & Hpos & Hrem & Hn & Hov).
  destruct (flags_after_free (stateFlags ctx)) as (Hf4 & Hf1 & Hf2).
  unfold recoilComp_setPreset.
  destruct (decide (presetIndex >= RECOIL_COMP_PRESET_COUNT));
    [unfold RECOIL_COMP_PRESET_COUNT in *; lia|].
  destruct (decide (0 = Z.land (stateFlags ctx) RECOIL_COMP_STATE_INITIALIZED)); [tauto|].
  rewrite Hl. split.
  - destruct (generate_succeeds (set_pCollect (recoilComp_cbFreeLocked ctx) (Some coll))
                coll data eq_refl Hd Hlen Hpos Hrem Hn Hov) as (xs & ys & ts & Hg & Lx & Ly & Lt).
    rewrite Hg. destruct (decide (0 < 0)); [lia|].
    exists coll. eexists. exists xs, ys, ts.
    split; [reflexivity|]. split; [reflexivity|].
    destruct (flags_after_setPreset (stateFlags ctx) Hi) as (G1 & G4 & G2).
    unfold sequence_ready, set_stateFlags, set_pCollect, recoilComp_cbFreeLocked.
    cbn [stateFlags pX pY pTs arrLen arrIndex pCollect lastTickMs coefficient sensitivity].
    unfold RECOIL_COMP_DATA_GROUP_SIZE.
    repeat split; try assumption; try reflexivity; nia.
  - unfold recoilComp_cbGenerateDataLocked.
    cbn [set_pCollect recoilComp_cbFreeLocked pCollect]. rewrite Hd.
    unfold RECOIL_COMP_DATA_GROUP_SIZE.
    destruct (decide (dataLen coll <= 0 \/ 0 <> Z.rem (dataLen coll) 3)) as [[?|?]|_];
      [lia | lia |].
    destruct (decide (firerounds_sampling coll <= 0)); [lia|].
    cbn [negb]. destruct (decide (- ENOMEM < 0)); [|unfold ENOMEM in *; lia].
    eexists. split; [reflexivity|].
    cbn [set_pCollect pX pY pTs pCollect stateFlags]. repeat split. exact Hf4.
Qed.

(** X5. recoilComp_setPreset refuses an index of 3 or more, and any index
    on a context that is not initialized, with -EINVAL and the context
    untouched.  Index 0 (TEMPLATE_NONE, a preset without data) on an
    initialized context also returns -EINVAL, but only after the old
    sequence is gone: no array, arrLen and arrIndex 0, no preset selected,
    the arrays flag clear and the preset-active flag as it was, so the next
    recoilComp_getNextData returns -EINVAL. *)
Theorem setPreset_rejects (heap_ok : bool) (ctx : RecoilComp_Context_t F) (presetIndex : Z) :
  0 <= presetIndex ->
  (presetIndex >= RECOIL_COMP_PRESET_COUNT \/
   0 = Z.land (stateFlags ctx) RECOIL_COMP_STATE_INITIALIZED ->
   recoilComp_setPreset heap_ok ctx presetIndex = Some (- EINVAL, ctx)) /\
  (presetIndex = 0 ->
   0 <> Z.land (stateFlags ctx) RECOIL_COMP_STATE_INITIALIZED ->
   exists ctx',
     recoilComp_setPreset heap_ok ctx presetIndex = Some (- EINVAL, ctx') /\
     pX ctx' = None /\ pY ctx' = None /\ pTs ctx' = None /\ pCollect ctx' = None /\
     arrLen ctx' = 0 /\ arrIndex ctx' = 0 /\
     0 = Z.land (stateFlags ctx') RECOIL_COMP_STATE_ARRAYS_ALLOCATED /\
     Z.land (stateFlags ctx') RECOIL_COMP_STATE_PRESET_ACTIVE
       = Z.land (stateFlags ctx) RECOIL_COMP_STATE_PRESET_ACTIVE /\
     forall now data0,
       recoilComp_getNextData ctx' now data0 = Some (- EINVAL, data0, ctx')).
Proof.
  intros H0. unfold recoilComp_setPreset. split.
  - intros [Hge | Hu].
    + destruct (decide (presetIndex >= RECOIL_COMP_PRESET_COUNT)); [reflexivity | lia].
    + destruct (decide (presetIndex >= RECOIL_COMP_PRESET_COUNT)); [reflexivity|].
      destruct (decide (0 = Z.land (stateFlags ctx) RECOIL_COMP_STATE_INITIALIZED));
        [reflexivity | tauto].
  - intros -> Hi.
    destruct (decide (0 >= RECOIL_COMP_PRESET_COUNT));
      [unfold RECOIL_COMP_PRESET_COUNT in *; lia|].
    destruct (decide (0 = Z.land (stateFlags ctx) RECOIL_COMP_STATE_INITIALIZED)); [tauto|].
    destruct (flags_after_free (stateFlags ctx)) as (Hf4 & Hf1 & Hf2).
    cbn. destruct (decide (- EINVAL < 0)); [|unfold EINVAL in *; lia].
    eexists. split; [reflexivity|].
    unfold set_pCollect, recoilComp_cbFreeLocked.
    cbn [pX pY pTs pCollect arrLen arrIndex stateFlags].
    repeat (split; [first [reflexivity | assumption]|]).
    intros now data0. unfold recoilComp_getNextData. cbn [stateFlags].
    destruct (decide (0 = Z.land (Z.land (stateFlags ctx)
                (Z.lnot RECOIL_COMP_STATE_ARRAYS_ALLOCATED)) RECOIL_COMP_STATE_INITIALIZED));
      [reflexivity|].
    destruct (decide (0 = Z.land (Z.land (stateFlags ctx)
                (Z.lnot RECOIL_COMP_STATE_ARRAYS_ALLOCATED)) RECOIL_COMP_STATE_ARRAYS_ALLOCATED));
      [reflexivity | tauto].
Qed.

End ScheduleFacts.

Section ScheduleBinary32.
Import Cint Recoil.


(** Three polls of the three-tick context, at 1001, 1002 and 1003 ms. *)
Lemma poll_emits_ticks_in_order_witness :
  let ctx := three_tick_context (F:=spec_float) in
  (sequence_ready ctx [0; 1; 0] [-1; -2; 0] [2; 2; 1] /\ 0 <= lastTickMs ctx < 2 ^ 32) /\
  exists out ctx',
    poll ctx [1001; 1002; 1003] = Some (out, ctx') /\
    sequence_ready ctx' [0; 1; 0] [-1; -2; 0] [2; 2; 1] /\
    arrIndex ctx' = arrIndex ctx + Z.of_nat (length out) /\
    (forall j : nat, (j < length out)%nat ->
       out !! j = tuple_at [0; 1; 0] [-1; -2; 0] (Z.to_nat (arrIndex ctx) + j)) /\
    lastTickMs ctx'
      = to_u32 (lastTickMs ctx
                + sum_ticks (take (length out) (drop (Z.to_nat (arrIndex ctx)) [2; 2; 1]))) /\
    coefficient ctx' = coefficient ctx /\ sensitivity ctx' = sensitivity ctx /\
    stateFlags ctx' = stateFlags ctx /\ pCollect ctx' = pCollect ctx.
Proof.
  intros ctx.
  assert (Hr : sequence_ready ctx [0; 1; 0] [-1; -2; 0] [2; 2; 1])
    by (repeat split; vm_compute; congruence).
  assert (Hl : 0 <= lastTickMs ctx < 2 ^ 32) by (vm_compute; split; congruence).
  split; [split; assumption|].
  exact (poll_emits_ticks_in_order ctx _ _ _ [1001; 1002; 1003] Hr Hl).
Defined.

(** The same polls, evaluated: nothing at 1001, tick 1 at 1002 (lastTickMs
    1002), tick 2 at 1003 (lastTickMs 1003). *)
Example poll_three_tick_context :
  exists ctx',
    poll (three_tick_context (F:=spec_float)) [1001; 1002; 1003]
      = Some ([(1, 2); (0, 0)], ctx') /\
    arrIndex ctx' = 3 /\ lastTickMs ctx' = 1003.
Proof. eexists. split; [vm_compute; reflexivity|]. split; reflexivity. Qed.

(** A restart of the context recoilComp_open returns, which has no preset,
    and a restart of the three-tick context at 5000 ms, polled at 5002 and
    5010 ms. *)
Lemma restart_replays_from_start_witness :
  recoilComp_restart (opened_context (F:=spec_float)) 5000
    = (- EINVAL, opened_context) /\
  recoilComp_restart (three_tick_context (F:=spec_float)) 5000
    = (0, mkCtx RECOIL_COMP_DEFAULT_COEFF RECOIL_COMP_DEFAULT_SENS 7 None
                (Some [0; 1; 0]) (Some [-1; -2; 0]) (Some [2; 2; 1]) 3 0 5000) /\
  exists out ctx',
    poll (recoilComp_restart (three_tick_context (F:=spec_float)) 5000).2 [5002; 5010]
      = Some (out, ctx') /\
    arrIndex ctx' = Z.of_nat (length out) /\ arrIndex ctx' <= 3 /\
    (forall j : nat, (j < length out)%nat ->
       out !! j = tuple_at [0; 1; 0] [-1; -2; 0] j) /\
    lastTickMs ctx' = to_u32 (5000 + sum_ticks (take (length out) [2; 2; 1])).
Proof.
  split.
  - apply (proj1 (restart_replays_from_start (opened_context (F:=spec_float)) 5000 []
                    ltac:(lia))).
    right. reflexivity.
  - assert (Hi : 0 <> Z.land (stateFlags (three_tick_context (F:=spec_float)))
                          RECOIL_COMP_STATE_INITIALIZED) by (vm_compute; congruence).
    assert (Hp : 0 <> Z.land (stateFlags (three_tick_context (F:=spec_float)))
                          RECOIL_COMP_STATE_PRESET_ACTIVE) by (vm_compute; congruence).
    assert (Hr : sequence_ready (three_tick_context (F:=spec_float))
                   [0; 1; 0] [-1; -2; 0] [2; 2; 1])
      by (repeat split; vm_compute; congruence).
    pose proof (proj2 (restart_replays_from_start (three_tick_context (F:=spec_float))
                         5000 [5002; 5010] ltac:(lia)) Hi Hp) as (Hret & _ & Hreplay).
    split; [exact Hret|]. exact (Hreplay _ _ _ Hr).
Defined.

(** The context recoilComp_open returns, given the Soldier76 preset. *)
Lemma setPreset_loads_sequence_witness :
  let ctx := opened_with_preset (F:=spec_float) 0 in
  (0 <> Z.land (stateFlags ctx) RECOIL_COMP_STATE_INITIALIZED /\ (1 = 1 \/ 1 = 2)) /\
  (exists coll ctx' xs ys ts,
     sRecoilCollectArr !! Z.to_nat 1 = Some coll /\
     recoilComp_setPreset true ctx 1 = Some (0, ctx') /\
     sequence_ready ctx' xs ys ts /\
     0 <> Z.land (stateFlags ctx') RECOIL_COMP_STATE_PRESET_ACTIVE /\
     pCollect ctx' = Some coll /\ arrIndex ctx' = 0 /\
     arrLen ctx'
       = firerounds_sampling coll * Z.quot (dataLen coll) RECOIL_COMP_DATA_GROUP_SIZE /\
     lastTickMs ctx' = lastTickMs ctx) /\
  (exists ctx',
     recoilComp_setPreset false ctx 1 = Some (- ENOMEM, ctx') /\
     pX ctx' = None /\ pY ctx' = None /\ pTs ctx' = None /\ pCollect ctx' = None /\
     0 = Z.land (stateFlags ctx') RECOIL_COMP_STATE_ARRAYS_ALLOCATED).
Proof.
  intros ctx.
  assert (Hi : 0 <> Z.land (stateFlags ctx) RECOIL_COMP_STATE_INITIALIZED)
    by (vm_compute; congruence).
  split; [split; [assumption | left; reflexivity]|].
  exact (setPreset_loads_sequence ctx 1 Hi (or_introl eq_refl)).
Defined.

(** The three-tick context, given TEMPLATE_NONE. *)
Lemma setPreset_rejects_witness :
  let ctx := three_tick_context (F:=spec_float) in
  0 <= 0 /\
  (0 >= RECOIL_COMP_PRESET_COUNT \/
   0 = Z.land (stateFlags ctx) RECOIL_COMP_STATE_INITIALIZED ->
   recoilComp_setPreset true ctx 0 = Some (- EINVAL, ctx)) /\
  (0 = 0 ->
   0 <> Z.land (stateFlags ctx) RECOIL_COMP_STATE_INITIALIZED ->
   exists ctx',
     recoilComp_setPreset true ctx 0 = Some (- EINVAL, ctx') /\
     pX ctx' = None /\ pY ctx' = None /\ pTs ctx' = None /\ pCollect ctx' = None /\
     arrLen ctx' = 0 /\ arrIndex ctx' = 0 /\
     0 = Z.land (stateFlags ctx') RECOIL_COMP_STATE_ARRAYS_ALLOCATED /\
     Z.land (stateFlags ctx') RECOIL_COMP_STATE_PRESET_ACTIVE
       = Z.land (stateFlags ctx) RECOIL_COMP_STATE_PRESET_ACTIVE /\
     forall now data0,
       recoilComp_getNextData ctx' now data0 = Some (- EINVAL, data0, ctx')).
Proof.
  intros ctx. split; [lia|].
  exact (setPreset_rejects true ctx 0 ltac:(lia)).
Defined.

End ScheduleBinary32.

(** ** hid_mouse.c, hid_keyboard.c: buttons, modifiers and keys *)
Section BitFieldFacts.
Import Cint HidParser HidMouse.

Lemma shiftl_1 k : 0 <= k -> Z.shiftl 1 k = 2 ^ k.
Proof. intros Hk. rewrite Z.shiftl_1_l. reflexivity. Qed.

Lemma bit_flag (b k : Z) :
  0 <= k -> (Z.land b (Z.shiftl 1 k) <> 0 <-> Z.testbit b k = true).
Proof.
  intros Hk. rewrite shiftl_1 by lia. rewrite (land_bit b k Hk).
  destruct (Z.testbit b k); split; intros H; try congruence; try lia.
Qed.

Lemma flag_value (b k : Z) :
  0 <= k ->
  (if decide (Z.land b (Z.shiftl 1 k) <> 0) then 1 else 0) = Z.b2z (Z.testbit b k).
Proof.
  intros Hk. pose proof (bit_flag b k Hk) as H.
  destruct (decide (Z.land b (Z.shiftl 1 k) <> 0)) as [Hn|Hn].
  - rewrite (proj1 H Hn). reflexivity.
  - destruct (Z.testbit b k); [exfalso; apply Hn, H; reflexivity | reflexivity].
Qed.

Lemma testbit_to_u8 x j : 0 <= j < 8 -> Z.testbit (to_u8 x) j = Z.testbit x j.
Proof. intros Hj. unfold to_u8, to_u. apply Z.mod_pow2_bits_low. lia. Qed.

Lemma testbit_set_bit b k j :
  0 <= k < 8 -> 0 <= j < 8 ->
  Z.testbit (to_u8 (Z.lor b (Z.shiftl 1 k))) j = if decide (j = k) then true else Z.testbit b j.
Proof.
  intros Hk Hj. rewrite testbit_to_u8 by lia.
  rewrite Z.lor_spec, shiftl_1, Z.pow2_bits_eqb by lia.
  case_decide.
  - subst. rewrite Z.eqb_refl. apply orb_true_r.
  - destruct (Z.eqb_spec k j); [congruence|]. apply orb_false_r.
Qed.

Lemma testbit_clear_bit b k j :
  0 <= k < 8 -> 0 <= j < 8 ->
  Z.testbit (to_u8 (Z.land b (Z.lnot (Z.shiftl 1 k)))) j
    = if decide (j = k) then false else Z.testbit b j.
Proof.
  intros Hk Hj. rewrite testbit_to_u8 by lia.
  rewrite Z.land_spec, Z.lnot_spec, shiftl_1, Z.pow2_bits_eqb by lia.
  case_decide.
  - subst. rewrite Z.eqb_refl. apply andb_false_r.
  - destruct (Z.eqb_spec k j); [congruence|]. apply andb_true_r.
Qed.

Lemma testbit_written_bit b k j (value : Z) :
  0 <= k < 8 -> 0 <= j < 8 ->
  Z.testbit (if decide (0 <> value)
             then to_u8 (Z.lor b (Z.shiftl 1 k))
             else to_u8 (Z.land b (Z.lnot (Z.shiftl 1 k)))) j
    = if decide (j = k) then (if decide (0 <> value) then true else false)
      else Z.testbit b j.
Proof.
  intros Hk Hj. destruct (decide (0 <> value)).
  - apply testbit_set_bit; lia.
  - apply testbit_clear_bit; lia.
Qed.

Lemma load_some_bounds buf p b : load buf p = Some b -> 0 <= p < Z.of_nat (length buf).
Proof.
  unfold load. destruct (decide (0 <= p)); [|discriminate].
  intros H. apply lookup_lt_Some in H. lia.
Qed.

(** X6. hidMouse_SetButton followed by hidMouse_GetButton. For a button
    number below the count of the button field (and below 2048, byteOff
    being a uint8_t) whose byte lies in the report buffer, the set call
    succeeds, the same button then reads 1 for any non-zero value and 0 for
    0, and every other button reads what it read before. A button number
    at or above the count is refused with USBHID_PARAM_INVALID and nothing
    is written. *)
Theorem setButton_then_getButton
    (m : HID_Mouse_t) (d : USBHID_Device_t) (buttonNum value : Z) (isLast : bool) :
  0 <= buttonNum < 2048 ->
  (buttonNum >= count (button m) ->
   hidMouse_SetButton m d buttonNum value isLast = Some (USBHID_PARAM_INVALID, d)) /\
  (buttonNum < count (button m) ->
   button_in_buffer m d buttonNum isLast ->
   exists d',
     hidMouse_SetButton m d buttonNum value isLast = Some (USBHID_SUCCESS, d') /\
     (forall v0, hidMouse_GetButton m d' buttonNum v0 isLast
                 = Some (USBHID_SUCCESS, if decide (0 <> value) then 1 else 0)) /\
     (forall other v0, 0 <= other < 2048 -> other <> buttonNum ->
        hidMouse_GetButton m d' other v0 isLast = hidMouse_GetButton m d other v0 isLast)).
Proof.
  intros Hn. split.
  - intros Hge. unfold hidMouse_SetButton.
    destruct (decide (buttonNum >= count (button m))); [reflexivity | lia].
  - intros Hlt (buf & p & b & Hbuf & Hp & Hb).
    assert (Hbyte : to_u8 (buttonNum / 8) = buttonNum / 8).
    { apply to_u_id. pose proof (Z.div_pos buttonNum 8).
      assert (buttonNum / 8 < 256) by (apply Z.div_lt_upper_bound; lia). simpl. lia. }
    assert (Hbit : to_u8 (buttonNum mod 8) = buttonNum mod 8).
    { apply to_u_id. pose proof (Z.mod_pos_bound buttonNum 8). simpl. lia. }
    pose proof (Z.mod_pos_bound buttonNum 8 ltac:(lia)) as Hk.
    set (addr := p + report_buf_off (button m) + buttonNum / 8) in *.
    set (nb := if decide (0 <> value)
               then to_u8 (Z.lor b (Z.shiftl 1 (buttonNum mod 8)))
               else to_u8 (Z.land b (Z.lnot (Z.shiftl 1 (buttonNum mod 8))))).
    destruct (dev_store_some d buf addr nb isLast Hbuf (load_some_bounds _ _ _ Hb))
      as (d' & buf' & Hst & Hbuf' & Hlen & Hget).
    exists d'.
    assert (Hset : hidMouse_SetButton m d buttonNum value isLast = Some (USBHID_SUCCESS, d')).
    { unfold hidMouse_SetButton.
      destruct (decide (buttonNum >= count (button m))); [lia|].
      rewrite (getReportBuffer_some d isLast p Hp), Hbyte, Hbit.
      fold addr. unfold dev_load at 1. rewrite Hbuf, Hb. cbn [mbind option_bind].
      fold nb. rewrite Hst. reflexivity. }
    split; [exact Hset|].
    assert (Hp' : get_report_buffer d' isLast = Some p) by congruence.
    split.
    + intros v0. unfold hidMouse_GetButton.
      destruct (decide (buttonNum >= count (button m))); [lia|].
      rewrite (getReportBuffer_some d' isLast p Hp'), Hbyte, Hbit. fold addr.
      rewrite (dev_store_load_same d addr nb d' Hst).
      rewrite flag_value by lia. unfold nb. rewrite testbit_written_bit by lia.
      destruct (decide (buttonNum mod 8 = buttonNum mod 8)); [|congruence].
      destruct (decide (0 <> value)); reflexivity.
    + intros other v0 Ho Hne. unfold hidMouse_GetButton.
      destruct (decide (other >= count (button m))); [reflexivity|].
      rewrite (getReportBuffer_some d' isLast p Hp'), (getReportBuffer_some d isLast p Hp).
      assert (Hobyte : to_u8 (other / 8) = other / 8).
      { apply to_u_id. pose proof (Z.div_pos other 8).
        assert (other / 8 < 256) by (apply Z.div_lt_upper_bound; lia). simpl. lia. }
      assert (Hobit : to_u8 (other mod 8) = other mod 8).
      { apply to_u_id. pose proof (Z.mod_pos_bound other 8). simpl. lia. }
      pose proof (Z.mod_pos_bound other 8 ltac:(lia)) as Hj.
      rewrite Hobyte, Hobit.
      destruct (decide (other / 8 = buttonNum / 8)) as [Hsame|Hdiff].
      * rewrite Hsame. fold addr.
        rewrite (dev_store_load_same d addr nb d' Hst).
        unfold dev_load. rewrite Hbuf, Hb.
        rewrite !flag_value by lia. unfold nb. rewrite testbit_written_bit by lia.
        destruct (decide (other mod 8 = buttonNum mod 8)) as [Hm|_]; [|reflexivity].
        exfalso. apply Hne.
        rewrite (Z.div_mod other 8), (Z.div_mod buttonNum 8) by lia. congruence.
      * rewrite (dev_store_load_other d addr _ nb d' Hst) by (unfold addr; lia).
        reflexivity.
Qed.

End BitFieldFacts.

Section KeyboardAccessFacts.
Import Cint HidParser HidKeyboard.

Lemma land_7 n : 0 <= n <= 7 -> Z.land n 7 = n.
Proof.
  intros Hn. change 7 with (Z.ones 3). rewrite Z.land_ones by lia.
  apply Z.mod_small. simpl. lia.
Qed.

(** X7. The modifier bits. A modifier number above 7 is refused by both
    accessors with USBHID_PARAM_INVALID, nothing written. For a number
    0..7 and a modifier byte inside the report buffer, SetModifier succeeds,
    the same modifier then reads 1 for any non-zero value and 0 for 0,
    every other modifier reads what it read before, and no other byte of
    the buffer changes. *)
Theorem setModifier_then_getModifier
    (kbd : HID_Keyboard_t) (d : USBHID_Device_t) (modNum value : Z) (isLast : bool) :
  0 <= modNum ->
  (modNum > 7 ->
   hidKeyboard_SetModifier kbd d modNum value isLast = Some (USBHID_PARAM_INVALID, d) /\
   forall v0, hidKeyboard_GetModifier kbd d modNum v0 isLast
              = Some (USBHID_PARAM_INVALID, v0)) /\
  (modNum <= 7 ->
   forall buf p b,
     report_buffer d = Some buf -> get_report_buffer d isLast = Some p ->
     load buf (p + report_buf_off (modifier kbd)) = Some b ->
     exists d' buf',
       hidKeyboard_SetModifier kbd d modNum value isLast = Some (USBHID_SUCCESS, d') /\
       report_buffer d' = Some buf' /\
       (forall v0, hidKeyboard_GetModifier kbd d' modNum v0 isLast
                   = Some (USBHID_SUCCESS, if decide (0 <> value) then 1 else 0)) /\
       (forall other v0, 0 <= other <= 7 -> other <> modNum ->
          hidKeyboard_GetModifier kbd d' other v0 isLast
            = hidKeyboard_GetModifier kbd d other v0 isLast) /\
       (forall q, q <> p + report_buf_off (modifier kbd) -> load buf' q = load buf q)).
Proof.
  intros H0. split.
  - intros Hgt. unfold hidKeyboard_SetModifier, hidKeyboard_GetModifier.
    destruct (decide (modNum > 7)); [|lia]. split; reflexivity.
  - intros Hle buf p b Hbuf Hp Hb.
    set (addr := p + report_buf_off (modifier kbd)) in *.
    set (nb := if decide (0 <> value)
               then to_u8 (Z.lor b (Z.shiftl 1 (Z.land modNum 7)))
               else to_u8 (Z.land b (Z.lnot (Z.shiftl 1 (Z.land modNum 7))))).
    destruct (store_in_bounds buf addr nb (load_some_bounds _ _ _ Hb)) as [buf' Hst].
    exists (set_buffer d buf'), buf'.
    assert (Hp' : get_report_buffer (set_buffer d buf') isLast = Some p).
    { rewrite get_report_buffer_set_buffer by congruence. exact Hp. }
    split.
    { unfold hidKeyboard_SetModifier. destruct (decide (modNum > 7)); [lia|].
      rewrite (getReportBuffer_some d isLast p Hp), Hbuf. fold addr.
      rewrite Hb. cbn [mbind option_bind]. fold nb. rewrite Hst. reflexivity. }
    split; [reflexivity|].
    split; [|split].
    + intros v0. unfold hidKeyboard_GetModifier. destruct (decide (modNum > 7)); [lia|].
      rewrite (getReportBuffer_some _ isLast p Hp'). cbn [set_buffer report_buffer].
      fold addr. rewrite (load_store_same buf addr nb buf' Hst). cbn [mbind option_bind].
      rewrite land_7 by lia. rewrite flag_value by lia.
      unfold nb. rewrite land_7 by lia. rewrite testbit_written_bit by lia.
      destruct (decide (modNum = modNum)); [|congruence].
      destruct (decide (0 <> value)); reflexivity.
    + intros other v0 Ho Hne. unfold hidKeyboard_GetModifier.
      destruct (decide (other > 7)); [lia|].
      rewrite (getReportBuffer_some _ isLast p Hp'), (getReportBuffer_some d isLast p Hp).
      cbn [set_buffer report_buffer]. rewrite Hbuf. fold addr.
      rewrite (load_store_same buf addr nb buf' Hst), Hb. cbn [mbind option_bind].
      rewrite (land_7 other) by lia. rewrite !flag_value by lia.
      unfold nb. rewrite land_7 by lia. rewrite testbit_written_bit by lia.
      destruct (decide (other = modNum)); [congruence | reflexivity].
    + intros q Hq. apply (load_store_other buf addr q nb buf' Hst). congruence.
Qed.

Lemma find_key_spec rest : forall pre n code,
  (length rest <= n)%nat ->
  find_key n (length pre) (pre ++ rest) code = 1 /\ In code rest \/
  find_key n (length pre) (pre ++ rest) code = 0 /\ ~ In code rest.
Proof.
  induction rest as [|k t IH]; intros pre n code Hn.
  - right. split; [|intros []]. destruct n; cbn [find_key]; [reflexivity|].
    rewrite lookup_ge_None_2 by (rewrite length_app; simpl; lia). reflexivity.
  - destruct n as [|n]; [simpl in Hn; lia|]. cbn [find_key].
    rewrite list_lookup_middle by reflexivity.
    destruct (decide (k = code)) as [->|Hne]; [left; split; [reflexivity | left; reflexivity]|].
    specialize (IH (pre ++ [k]) n code ltac:(simpl in Hn; lia)).
    rewrite <- app_assoc in IH. cbn [app] in IH.
    rewrite length_app in IH. cbn [length] in IH.
    replace (length pre + 1)%nat with (S (length pre)) in IH by lia.
    destruct IH as [[E Hin] | [E Hin]]; [left | right]; (split; [exact E|]).
    + right. exact Hin.
    + intros [?|?]; [congruence | tauto].
Qed.

Lemma getKey_on_window kbd d isLast ks code v0 :
  key_array kbd d isLast = Some ks ->
  hidKeyboard_GetKey kbd d code v0 isLast
    = Some (USBHID_SUCCESS, find_key 6 0 ks code).
Proof.
  unfold key_array, hidKeyboard_GetKey, USBHID_getReportBuffer.
  destruct (get_report_buffer d isLast) as [p|]; [|discriminate].
  destruct (report_buffer d) as [buf|]; [|discriminate].
  intros ->. reflexivity.
Qed.

Lemma add_first_has l c :
  0 < c < 256 -> (In c (add_first l c) <-> In c l \/ In 0 l).
Proof.
  intros Hc. assert (Hu : to_u8 c = c) by (apply to_u_id; simpl; lia).
  induction l as [|k t IH]; simpl; [tauto|].
  repeat case_decide; simpl; rewrite ?Hu; try tauto; try lia.
  rewrite IH. intuition lia.
Qed.

(** X8. hidKeyboard_GetKey against the key array. On a packed key array
    and for a key code 1..255, GetKey reads 1 exactly when the code is in
    the array; after a press it reads 1 unless the array was full without
    the code (the press was dropped); after a release it reads 0. *)
Theorem getKey_follows_setKey
    (kbd : HID_Keyboard_t) (d : USBHID_Device_t) (isLast : bool) (ks : list Z) (code : Z) :
  key_array kbd d isLast = Some ks -> packed_key_set ks -> 0 < code < 256 ->
  (forall v0,
     (In code ks -> hidKeyboard_GetKey kbd d code v0 isLast = Some (USBHID_SUCCESS, 1)) /\
     (~ In code ks -> hidKeyboard_GetKey kbd d code v0 isLast = Some (USBHID_SUCCESS, 0))) /\
  (exists d1,
     hidKeyboard_SetKey kbd d code 1 isLast = Some (USBHID_SUCCESS, d1) /\
     forall v0,
       (In code ks \/ In 0 ks ->
        hidKeyboard_GetKey kbd d1 code v0 isLast = Some (USBHID_SUCCESS, 1)) /\
       (~ In code ks -> ~ In 0 ks ->
        hidKeyboard_GetKey kbd d1 code v0 isLast = Some (USBHID_SUCCESS, 0))) /\
  (exists d0,
     hidKeyboard_SetKey kbd d code 0 isLast = Some (USBHID_SUCCESS, d0) /\
     forall v0, hidKeyboard_GetKey kbd d0 code v0 isLast = Some (USBHID_SUCCESS, 0)).
Proof.
  intros Hk (Hlen & Hp & Hd & Hr) Hc.
  assert (Hfind : forall l, length l = 6%nat ->
            (In code l -> find_key 6 0 l code = 1) /\ (~ In code l -> find_key 6 0 l code = 0)).
  { intros l Hl. destruct (find_key_spec l [] 6%nat code ltac:(lia)) as [[E Hin]|[E Hin]];
      cbn [length app] in E; rewrite E; tauto. }
  split; [|split].
  - intros v0. rewrite (getKey_on_window kbd d isLast ks code v0 Hk).
    destruct (Hfind ks Hlen) as [H1 H2]. split; intros H; [rewrite H1 | rewrite H2]; auto.
  - destruct (setKey_on_window kbd d isLast ks code 1 Hk) as (d1 & Hs & Hk1).
    exists d1. split; [exact Hs|]. intros v0.
    rewrite (getKey_on_window kbd d1 isLast _ code v0 Hk1).
    rewrite set_key_window_eq by exact Hlen.
    destruct (decide (0 <> 1)); [|lia].
    destruct (Hfind (add_first ks code) ltac:(rewrite add_first_length; exact Hlen)) as [H1 H2].
    split.
    + intros H. rewrite H1; [reflexivity|]. apply add_first_has; [lia | exact H].
    + intros Ha Hb. rewrite H2; [reflexivity|]. rewrite add_first_has by lia. tauto.
  - destruct (setKey_on_window kbd d isLast ks code 0 Hk) as (d0 & Hs & Hk0).
    exists d0. split; [exact Hs|]. intros v0.
    rewrite (getKey_on_window kbd d0 isLast _ code v0 Hk0).
    rewrite set_key_window_eq by exact Hlen.
    destruct (decide (0 <> 0)); [lia|].
    destruct (Hfind (remove_and_compact ks code) ltac:(rewrite remove_length; exact Hlen))
      as [_ H2].
    rewrite H2; [reflexivity|]. apply remove_gone; [lia | exact Hd].
Qed.

End KeyboardAccessFacts.

Section AccessWitnesses.
Import Cint HidParser HidMouse HidKeyboard.

(** Button 1 of the 16-bit mouse, pressed in the current report. *)
Lemma setButton_then_getButton_witness :
  0 <= 1 < 2048 /\
  (1 >= count (button mouse16) ->
   hidMouse_SetButton mouse16 device5 1 1 false = Some (USBHID_PARAM_INVALID, device5)) /\
  (1 < count (button mouse16) ->
   button_in_buffer mouse16 device5 1 false ->
   exists d',
     hidMouse_SetButton mouse16 device5 1 1 false = Some (USBHID_SUCCESS, d') /\
     (forall v0, hidMouse_GetButton mouse16 d' 1 v0 false
                 = Some (USBHID_SUCCESS, if decide (0 <> 1) then 1 else 0)) /\
     (forall other v0, 0 <= other < 2048 -> other <> 1 ->
        hidMouse_GetButton mouse16 d' other v0 false
          = hidMouse_GetButton mouse16 device5 other v0 false)).
Proof.
  split; [lia|]. exact (setButton_then_getButton mouse16 device5 1 1 false ltac:(lia)).
Defined.

Example button_1_of_mouse16 :
  button_in_buffer mouse16 device5 1 false /\
  (d ← hidMouse_SetButton mouse16 device5 1 1 false;
   hidMouse_GetButton mouse16 d.2 1 0 false) = Some (USBHID_SUCCESS, 1) /\
  (d ← hidMouse_SetButton mouse16 device5 1 1 false;
   hidMouse_GetButton mouse16 d.2 0 0 false) = Some (USBHID_SUCCESS, 0) /\
  hidMouse_SetButton mouse16 device5 3 1 false = Some (USBHID_PARAM_INVALID, device5).
Proof.
  split; [eexists _, _, _; repeat split; reflexivity|].
  repeat split; vm_compute; reflexivity.
Qed.

(** Left shift (modifier 1) of the boot keyboard. *)
Lemma setModifier_then_getModifier_witness :
  0 <= 1 /\
  (1 > 7 ->
   hidKeyboard_SetModifier boot_keyboard boot_device 1 1 false
     = Some (USBHID_PARAM_INVALID, boot_device) /\
   forall v0, hidKeyboard_GetModifier boot_keyboard boot_device 1 v0 false
              = Some (USBHID_PARAM_INVALID, v0)) /\
  (1 <= 7 ->
   forall buf p b,
     report_buffer boot_device = Some buf -> get_report_buffer boot_device false = Some p ->
     load buf (p + report_buf_off (modifier boot_keyboard)) = Some b ->
     exists d' buf',
       hidKeyboard_SetModifier boot_keyboard boot_device 1 1 false
         = Some (USBHID_SUCCESS, d') /\
       report_buffer d' = Some buf' /\
       (forall v0, hidKeyboard_GetModifier boot_keyboard d' 1 v0 false
                   = Some (USBHID_SUCCESS, if decide (0 <> 1) then 1 else 0)) /\
       (forall other v0, 0 <= other <= 7 -> other <> 1 ->
          hidKeyboard_GetModifier boot_keyboard d' other v0 false
            = hidKeyboard_GetModifier boot_keyboard boot_device other v0 false) /\
       (forall q, q <> p + report_buf_off (modifier boot_keyboard) ->
          load buf' q = load buf q)).
Proof.
  split; [lia|].
  exact (setModifier_then_getModifier boot_keyboard boot_device 1 1 false ltac:(lia)).
Defined.

Example left_shift_of_boot_keyboard :
  (d ← hidKeyboard_SetModifier boot_keyboard boot_device 1 1 false;
   hidKeyboard_GetModifier boot_keyboard d.2 1 0 false) = Some (USBHID_SUCCESS, 1) /\
  (d ← hidKeyboard_SetModifier boot_keyboard boot_device 1 1 false;
   d' ← hidKeyboard_SetModifier boot_keyboard d.2 1 0 false;
   hidKeyboard_GetModifier boot_keyboard d'.2 1 0 false) = Some (USBHID_SUCCESS, 0) /\
  hidKeyboard_SetModifier boot_keyboard boot_device 8 1 false
    = Some (USBHID_PARAM_INVALID, boot_device).
Proof. repeat split; vm_compute; reflexivity. Qed.

(** Key code 4 on the empty array of the boot keyboard. *)
Lemma getKey_follows_setKey_witness :
  (key_array boot_keyboard boot_device false = Some (repeat 0 6) /\
   packed_key_set (repeat 0 6) /\ 0 < 4 < 256) /\
  (forall v0,
     (In 4 (repeat 0 6) ->
      hidKeyboard_GetKey boot_keyboard boot_device 4 v0 false = Some (USBHID_SUCCESS, 1)) /\
     (~ In 4 (repeat 0 6) ->
      hidKeyboard_GetKey boot_keyboard boot_device 4 v0 false = Some (USBHID_SUCCESS, 0))) /\
  (exists d1,
     hidKeyboard_SetKey boot_keyboard boot_device 4 1 false = Some (USBHID_SUCCESS, d1) /\
     forall v0,
       (In 4 (repeat 0 6) \/ In 0 (repeat 0 6) ->
        hidKeyboard_GetKey boot_keyboard d1 4 v0 false = Some (USBHID_SUCCESS, 1)) /\
       (~ In 4 (repeat 0 6) -> ~ In 0 (repeat 0 6) ->
        hidKeyboard_GetKey boot_keyboard d1 4 v0 false = Some (USBHID_SUCCESS, 0))) /\
  (exists d0,
     hidKeyboard_SetKey boot_keyboard boot_device 4 0 false = Some (USBHID_SUCCESS, d0) /\
     forall v0, hidKeyboard_GetKey boot_keyboard d0 4 v0 false = Some (USBHID_SUCCESS, 0)).
Proof.
  assert (Hk : key_array boot_keyboard boot_device false = Some (repeat 0 6)) by reflexivity.
  split; [split; [exact Hk | split; [exact zero_array_packed | lia]]|].
  exact (getKey_follows_setKey boot_keyboard boot_device false (repeat 0 6) 4
           Hk zero_array_packed ltac:(lia)).
Defined.

End AccessWitnesses.

(** ** hid_output.c: what a normalised report carries *)
Section OutputReportFacts.
Import Cint HidParser HidMouse HidOutput.

Lemma to_s16_le16_bytes v :
  to_s16 (le16 (byte_of 0 (to_u16 v)) (byte_of 1 (to_u16 v))) = to_s16 v.
Proof.
  rewrite le16_bytes by (apply (to_u_range 16); lia).
  apply to_s_to_u.
Qed.

Ltac bad_code H := exfalso; revert H; vm_compute; congruence.

Lemma orientation_fits_int16 m d axis v0 isLast x :
  axis = HID_MOUSE_AXIS_X \/ axis = HID_MOUSE_AXIS_Y ->
  size (orientation m) = 8 \/ size (orientation m) = 16 ->
  hidMouse_GetOrientation m d axis v0 isLast = Some (USBHID_SUCCESS, x) ->
  in_s 16 x.
Proof.
  intros Hax Hsz. unfold hidMouse_GetOrientation, HID_MOUSE_AXIS_X, HID_MOUSE_AXIS_Y in *.
  destruct (decide (axis = 2 /\ has_wheel m = true)) as [[? _]|_]; [lia|].
  destruct (decide (axis >= count (orientation m))); [intros [= H _]; bad_code H|].
  unfold USBHID_getReportBuffer.
  destruct (get_report_buffer d isLast) as [p|]; [|intros [= H _]; bad_code H].
  destruct Hsz as [-> | ->].
  - change (to_u8 (8 / 8)) with 1.
    destruct (decide (1 = 0)); [lia|]. destruct (decide (1 = 1)); [|lia].
    destruct (dev_load d _) as [b|]; [|discriminate]. intros [= <-].
    pose proof (to_s_range 8 b ltac:(lia)) as Hr. unfold to_s8, in_s in *.
    change (2 ^ (8 - 1)) with 128 in Hr. change (2 ^ (16 - 1)) with 32768. lia.
  - change (to_u8 (16 / 8)) with 2.
    destruct (decide (2 = 0)); [lia|]. destruct (decide (2 = 1)); [lia|].
    destruct (decide (2 = 2)); [|lia].
    destruct (dev_load d _) as [b0|]; [|discriminate].
    destruct (dev_load d _) as [b1|]; [|discriminate]. intros [= <-].
    apply (to_s_range 16). lia.
Qed.

Lemma build_success_inv m d out0 out :
  hidOutput_buildMouseReport m d out0 = Some (0, out) ->
  exists buttons x y w,
    collect_buttons m d 8 0 0 = Some buttons /\
    hidMouse_GetOrientation m d HID_MOUSE_AXIS_X 0 false = Some (USBHID_SUCCESS, x) /\
    hidMouse_GetOrientation m d HID_MOUSE_AXIS_Y 0 false = Some (USBHID_SUCCESS, y) /\
    (has_wheel m = false -> w = 0) /\
    (has_wheel m = true ->
     exists wv,
       hidMouse_GetOrientation m d HID_MOUSE_AXIS_WHEEL 0 false
         = Some (USBHID_SUCCESS, wv) /\
       w = Z.max INT8_MIN (Z.min INT8_MAX wv)) /\
    out = [buttons; byte_of 0 (to_u16 x); byte_of 1 (to_u16 x);
           byte_of 0 (to_u16 y); byte_of 1 (to_u16 y); to_u8 (to_s8 w)].
Proof.
  unfold hidOutput_buildMouseReport.
  set (check := if decide (has_report_id_declared m = true /\ report_id_offset m = 1)
                then _ else _).
  destruct check as [[r|]|] eqn:Hcheck; [|clear Hcheck|discriminate].
  { intros [= Hr _]. exfalso. subst check.
    destruct (decide (has_report_id_declared m = true /\ report_id_offset m = 1));
      [|discriminate].
    destruct (USBHID_getReportBuffer d false) as [[r' [p|]] len].
    - destruct (dev_load d p) as [b|]; [|discriminate].
      destruct (decide (MOUSE_REPORTID_BYTE <> b)); [|discriminate].
      injection Hcheck as <-. bad_code Hr.
    - injection Hcheck as <-. bad_code Hr. }
  destruct (collect_buttons m d 8 0 0) as [buttons|]; [|discriminate].
  cbn [mbind option_bind].
  destruct (hidMouse_GetOrientation m d HID_MOUSE_AXIS_X 0 false) as [[rx x]|] eqn:Hx;
    [|discriminate].
  cbn [mbind option_bind].
  destruct (decide (USBHID_SUCCESS <> rx)) as [|Hrx]; [intros [= H _]; bad_code H|].
  destruct (hidMouse_GetOrientation m d HID_MOUSE_AXIS_Y 0 false) as [[ry y]|] eqn:Hy;
    [|discriminate].
  cbn [mbind option_bind].
  destruct (decide (USBHID_SUCCESS <> ry)) as [|Hry]; [intros [= H _]; bad_code H|].
  assert (rx = USBHID_SUCCESS) as ->
    by (destruct (decide (rx = USBHID_SUCCESS)) as [?|Hn]; [assumption | exfalso; auto]).
  assert (ry = USBHID_SUCCESS) as ->
    by (destruct (decide (ry = USBHID_SUCCESS)) as [?|Hn]; [assumption | exfalso; auto]).
  destruct (has_wheel m) eqn:Hw.
  - destruct (hidMouse_GetOrientation m d HID_MOUSE_AXIS_WHEEL 0 false) as [[rw w]|] eqn:Hwh;
      [|discriminate].
    cbn [mbind option_bind].
    destruct (decide (USBHID_SUCCESS <> rw)) as [|Hrw]; [intros [= H _]; bad_code H|].
    assert (rw = USBHID_SUCCESS) as ->
      by (destruct (decide (rw = USBHID_SUCCESS)) as [?|Hn]; [assumption | exfalso; auto]).
    intros [= <-].
    exists buttons, x, y, (Z.max INT8_MIN (Z.min INT8_MAX w)).
    repeat (split; [first [reflexivity | discriminate]|]).
    split; [intros _; exists w; split; reflexivity|].
    repeat f_equal. unfold INT8_MAX, INT8_MIN. repeat case_decide; lia.
  - intros [= <-]. exists buttons, x, y, 0.
    repeat (split; [first [reflexivity | discriminate]|]). reflexivity.
Qed.

(** X9. The layout of a normalised mouse report. Whenever
    hidOutput_buildMouseReport returns 0, the six bytes are the button
    byte, X and Y as little-endian 16-bit words and the wheel byte, where X
    and Y are what hidMouse_GetOrientation reads from the current report:
    read back as int16 the words give (int16_t)X and (int16_t)Y, hence X
    and Y themselves whenever they lie in the int16 range, which they always
    do for orientation fields of 8 or 16 bits.  The wheel byte is the wheel
    value clamped to -128..127, and 0 for a mouse without wheel. *)
Theorem buildMouseReport_layout
    (m : HID_Mouse_t) (d : USBHID_Device_t) (out0 out : list Z) :
  hidOutput_buildMouseReport m d out0 = Some (0, out) ->
  exists buttons x0 x1 y0 y1 wb x y,
    out = [buttons; x0; x1; y0; y1; wb] /\
    hidMouse_GetOrientation m d HID_MOUSE_AXIS_X 0 false = Some (USBHID_SUCCESS, x) /\
    hidMouse_GetOrientation m d HID_MOUSE_AXIS_Y 0 false = Some (USBHID_SUCCESS, y) /\
    0 <= x0 < 256 /\ 0 <= x1 < 256 /\ 0 <= y0 < 256 /\ 0 <= y1 < 256 /\ 0 <= wb < 256 /\
    to_s16 (le16 x0 x1) = to_s16 x /\ to_s16 (le16 y0 y1) = to_s16 y /\
    (in_s 16 x -> to_s16 (le16 x0 x1) = x) /\
    (in_s 16 y -> to_s16 (le16 y0 y1) = y) /\
    (size (orientation m) = 8 \/ size (orientation m) = 16 -> in_s 16 x /\ in_s 16 y) /\
    (has_wheel m = false -> wb = 0) /\
    (has_wheel m = true ->
     exists w,
       hidMouse_GetOrientation m d HID_MOUSE_AXIS_WHEEL 0 false = Some (USBHID_SUCCESS, w) /\
       to_s8 wb = Z.max INT8_MIN (Z.min INT8_MAX w)).
Proof.
  intros Hb.
  destruct (build_success_inv m d out0 out Hb) as (buttons & x & y & w & _ & Hx & Hy & Hw0 & Hw1 & ->).
  assert (Hwr : INT8_MIN <= w <= INT8_MAX).
  { destruct (has_wheel m); [destruct (Hw1 eq_refl) as (wv & _ & ->) | rewrite (Hw0 eq_refl)];
      unfold INT8_MIN, INT8_MAX; lia. }
  assert (Hs8 : to_s8 w = w).
  { apply (to_s_id 8); [lia|]. unfold in_s, INT8_MIN, INT8_MAX in *. simpl. lia. }
  eexists buttons, _, _, _, _, _, x, y.
  split; [reflexivity|]. split; [exact Hx|]. split; [exact Hy|].
  rewrite !to_s16_le16_bytes.
  repeat (split; [first [apply byte_of_range | apply (to_u_range 8); lia | reflexivity]|]).
  split; [intros H; apply (to_s_id 16); [lia | exact H]|].
  split; [intros H; apply (to_s_id 16); [lia | exact H]|].
  split.
  { intros Hsz. split.
    - exact (orientation_fits_int16 m d _ 0 false x (or_introl eq_refl) Hsz Hx).
    - exact (orientation_fits_int16 m d _ 0 false y (or_intror eq_refl) Hsz Hy). }
  split.
  { intros Hf. rewrite (Hw0 Hf). reflexivity. }
  intros Ht. destruct (Hw1 Ht) as (wv & Hwv & Hweq). exists wv. split; [exact Hwv|].
  unfold to_s8 at 1. rewrite to_s_to_u. fold to_s8. rewrite !Hs8. exact Hweq.
Qed.

Lemma getButton_value m d j r v :
  hidMouse_GetButton m d j 0 false = Some (r, v) ->
  (0 <> v /\ USBHID_SUCCESS = r) <->
  hidMouse_GetButton m d j 0 false = Some (USBHID_SUCCESS, 1).
Proof.
  intros H. rewrite H. revert H. unfold hidMouse_GetButton.
  destruct (decide (j >= count (button m))).
  { intros [= <- <-]. split; [lia | intros [= H _]; bad_code H]. }
  unfold USBHID_getReportBuffer. destruct (get_report_buffer d false) as [p|].
  - destruct (dev_load d _) as [b|]; [|discriminate].
    destruct (decide (Z.land b _ <> 0)); intros [= <- <-];
      (split; [intros [? _]; first [reflexivity | lia]
              | intros H; split; [first [lia | injection H; lia] | reflexivity]]).
  - intros [= <- <-]. split; [lia | intros [= H _]; bad_code H].
Qed.

Lemma collect_buttons_bits m d n : forall i acc r,
  0 <= i -> i + Z.of_nat n <= 8 -> 0 <= acc < 256 ->
  (forall j, i <= j < 8 -> Z.testbit acc j = false) ->
  collect_buttons m d n i acc = Some r ->
  0 <= r < 256 /\
  forall j, 0 <= j < 8 ->
    Z.testbit r j =
      if decide (i <= j < i + Z.of_nat n /\ j < count (button m))
      then bool_decide (hidMouse_GetButton m d j 0 false = Some (USBHID_SUCCESS, 1))
      else Z.testbit acc j.
Proof.
  induction n as [|n IH]; intros i acc r Hi Hn Hacc Hhi; cbn [collect_buttons].
  - intros [= <-]. split; [exact Hacc|]. intros j Hj. case_decide; [lia | reflexivity].
  - destruct (decide (i < 8 /\ i < count (button m))) as [[H8 Hc]|Hstop].
    + destruct (hidMouse_GetButton m d i 0 false) as [[rb v]|] eqn:Hb; [|discriminate].
      intros Hrun.
      pose proof (getButton_value m d i rb v Hb) as Hv.
      set (acc' := if decide (0 <> v /\ USBHID_SUCCESS = rb)
                   then to_u8 (Z.lor acc (Z.shiftl 1 i)) else acc) in *.
      assert (Hacc' : 0 <= acc' < 256).
      { unfold acc'. case_decide; [apply (to_u_range 8); lia | exact Hacc]. }
      assert (Hbit' : forall j, 0 <= j < 8 -> j <> i -> Z.testbit acc' j = Z.testbit acc j).
      { intros j Hj Hne. unfold acc'. case_decide; [|reflexivity].
        rewrite testbit_set_bit by lia. destruct (decide (j = i)); [lia | reflexivity]. }
      assert (Hhi' : forall j, i + 1 <= j < 8 -> Z.testbit acc' j = false).
      { intros j Hj. rewrite Hbit' by lia. apply Hhi. lia. }
      destruct (IH (i + 1) acc' r ltac:(lia) ltac:(lia) Hacc' Hhi' Hrun) as [Hr Hbits].
      split; [exact Hr|]. intros j Hj. rewrite (Hbits j Hj).
      destruct (decide (i + 1 <= j < i + 1 + Z.of_nat n /\ j < count (button m)))
        as [Hin|Hout].
      * destruct (decide (i <= j < i + Z.of_nat (S n) /\ j < count (button m)));
          [reflexivity | lia].
      * destruct (decide (j = i)) as [->|Hne].
        -- destruct (decide (i <= i < i + Z.of_nat (S n) /\ i < count (button m))); [|lia].
           unfold acc'. destruct (decide (0 <> v /\ USBHID_SUCCESS = rb)) as [Hp|Hp].
           ++ rewrite testbit_set_bit by lia. destruct (decide (i = i)); [|lia].
              symmetry. apply bool_decide_eq_true. apply Hv, Hp.
           ++ rewrite (Hhi i ltac:(lia)). symmetry. apply bool_decide_eq_false. tauto.
        -- destruct (decide (i <= j < i + Z.of_nat (S n) /\ j < count (button m))); [lia|].
           apply Hbit'; lia.
    + intros [= <-]. split; [exact Hacc|]. intros j Hj.
      destruct (decide (i <= j < i + Z.of_nat (S n) /\ j < count (button m))) as [Hin|];
        [|reflexivity].
      rewrite (Hhi j ltac:(lia)). lia.
Qed.

(** X10. The button byte of a normalised mouse report. Whenever
    hidOutput_buildMouseReport returns 0, bit j (0..7) of byte 0 is set
    exactly when j is below the count of the button field and
    hidMouse_GetButton reads button j of the current report as 1. *)
Theorem buildMouseReport_buttons
    (m : HID_Mouse_t) (d : USBHID_Device_t) (out0 out : list Z) :
  hidOutput_buildMouseReport m d out0 = Some (0, out) ->
  exists b,
    out !! 0%nat = Some b /\ 0 <= b < 256 /\
    forall j, 0 <= j < 8 ->
      (Z.testbit b j = true <->
       j < count (button m) /\
       hidMouse_GetButton m d j 0 false = Some (USBHID_SUCCESS, 1)).
Proof.
  intros Hb.
  destruct (build_success_inv m d out0 out Hb) as (buttons & x & y & w & Hcb & _ & _ & _ & _ & ->).
  destruct (collect_buttons_bits m d 8 0 0 buttons ltac:(lia) ltac:(lia) ltac:(lia)
              ltac:(intros; apply Z.bits_0) Hcb) as [Hr Hbits].
  exists buttons. split; [reflexivity|]. split; [exact Hr|].
  intros j Hj. rewrite (Hbits j Hj). rewrite Z.bits_0.
  destruct (decide (0 <= j < 0 + Z.of_nat 8 /\ j < count (button m))) as [[_ Hc]|Hn].
  - rewrite bool_decide_eq_true. tauto.
  - split; [discriminate | lia].
Qed.

(** X11. hidOutput_sendMouseReport hands the sink at most one report per
    call, on interface 0 and of exactly six bytes, and only a report that
    hidOutput_buildMouseReport completed; the return code is then the
    answer of the sink.  Nothing is sent when the report is dropped by the
    Report-ID filter, which counts as success, or when the build fails,
    whose code is returned. *)
Theorem sendMouseReport_outcomes
    (sink_ret : Z) (m : HID_Mouse_t) (d : USBHID_Device_t) (sent sent' : list (Z * list Z))
    (r : Z) :
  hidOutput_sendMouseReport sink_ret m d sent = Some (r, sent') ->
  (sent' = sent /\
   exists rb out, hidOutput_buildMouseReport m d (repeat 0 6) = Some (rb, out) /\
                  rb <> 0 /\ (rb = - EAGAIN -> r = 0) /\ (rb <> - EAGAIN -> r = rb)) \/
  (exists out,
     hidOutput_buildMouseReport m d (repeat 0 6) = Some (0, out) /\
     length out = 6%nat /\ sent' = sent ++ [(0, out)] /\ r = sink_ret).
Proof.
  unfold hidOutput_sendMouseReport.
  destruct (hidOutput_buildMouseReport m d (repeat 0 6)) as [[rb out]|] eqn:Hb;
    [|discriminate].
  cbn [mbind option_bind].
  destruct (decide (- EAGAIN = rb)) as [<-|Hne].
  { intros [= <- <-]. left. split; [reflexivity|]. exists (- EAGAIN), out.
    split; [reflexivity|]. split; [unfold EAGAIN; lia|]. split; [reflexivity | congruence]. }
  destruct (decide (USBHID_SUCCESS <> rb)) as [Hfail|Hok].
  { intros [= <- <-]. left. split; [reflexivity|]. exists rb, out.
    split; [reflexivity|]. split; [unfold USBHID_SUCCESS in Hfail; lia|].
    split; [congruence | reflexivity]. }
  assert (rb = 0) as ->
    by (destruct (decide (rb = 0)) as [?|Hn]; [assumption | exfalso; apply Hok;
        unfold USBHID_SUCCESS; congruence]).
  intros Hs. right. exists out. split; [reflexivity|].
  destruct (build_success_inv m d (repeat 0 6) out Hb)
    as (buttons & x & y & w & _ & _ & _ & _ & _ & ->).
  split; [reflexivity|].
  destruct (decide (USBHID_SUCCESS <> sink_ret)) as [|Hn]; injection Hs as <- <-.
  - split; reflexivity.
  - split; [reflexivity|]. destruct (decide (USBHID_SUCCESS = sink_ret)); [assumption | tauto].
Qed.

(** X12. The Report-ID filter of hidOutput_buildMouseReport. For a mouse
    whose descriptor declares a Report-ID and whose report_id_offset is 1,
    a current report whose first byte is not MOUSE_REPORTID_BYTE is
    dropped with -EAGAIN and the output bytes are left as they were; with
    no report buffer the result is -EIO; and a report that starts with
    MOUSE_REPORTID_BYTE is built exactly as for the same mouse without the
    declaration. *)
Theorem buildMouseReport_report_id_filter
    (m : HID_Mouse_t) (d : USBHID_Device_t) (out0 : list Z) :
  has_report_id_declared m = true -> report_id_offset m = 1 ->
  (get_report_buffer d false = None ->
   hidOutput_buildMouseReport m d out0 = Some (- EIO, out0)) /\
  (forall p id,
     get_report_buffer d false = Some p -> dev_load d p = Some id ->
     (id <> MOUSE_REPORTID_BYTE ->
      hidOutput_buildMouseReport m d out0 = Some (- EAGAIN, out0)) /\
     (id = MOUSE_REPORTID_BYTE ->
      hidOutput_buildMouseReport m d out0
        = hidOutput_buildMouseReport
            (mkMouse (HidMouse.report_len m) false (report_id_offset m) (button m)
                     (orientation m) (wheel m) (has_wheel m)) d out0)).
Proof.
  intros Hdecl Hoff. split.
  - intros Hnone. unfold hidOutput_buildMouseReport, USBHID_getReportBuffer.
    destruct (decide (has_report_id_declared m = true /\ report_id_offset m = 1)); [|tauto].
    rewrite Hnone. reflexivity.
  - intros p id Hp Hid. split; intros Hcase.
    + unfold hidOutput_buildMouseReport.
      destruct (decide (has_report_id_declared m = true /\ report_id_offset m = 1)); [|tauto].
      rewrite (getReportBuffer_some d false p Hp), Hid.
      destruct (decide (MOUSE_REPORTID_BYTE <> id)) as [|Hn]; [reflexivity|].
      exfalso. apply Hn. congruence.
    + unfold hidOutput_buildMouseReport at 1.
      destruct (decide (has_report_id_declared m = true /\ report_id_offset m = 1)); [|tauto].
      rewrite (getReportBuffer_some d false p Hp), Hid.
      destruct (decide (MOUSE_REPORTID_BYTE <> id)); [congruence|].
      reflexivity.
Qed.

End OutputReportFacts.

Section OutputReportWitnesses.
Import Cint HidParser HidMouse HidOutput.

(** The report of the 32-bit mouse: left button, X = 40000, Y = -5,
    wheel 2. *)
Lemma buildMouseReport_layout_witness :
  hidOutput_buildMouseReport mouse32 device32 (repeat 0 6)
    = Some (0, [1; 0x40; 0x9C; 0xFB; 0xFF; 2]) /\
  exists buttons x0 x1 y0 y1 wb x y,
    [1; 0x40; 0x9C; 0xFB; 0xFF; 2] = [buttons; x0; x1; y0; y1; wb] /\
    hidMouse_GetOrientation mouse32 device32 HID_MOUSE_AXIS_X 0 false
      = Some (USBHID_SUCCESS, x) /\
    hidMouse_GetOrientation mouse32 device32 HID_MOUSE_AXIS_Y 0 false
      = Some (USBHID_SUCCESS, y) /\
    0 <= x0 < 256 /\ 0 <= x1 < 256 /\ 0 <= y0 < 256 /\ 0 <= y1 < 256 /\ 0 <= wb < 256 /\
    to_s16 (le16 x0 x1) = to_s16 x /\ to_s16 (le16 y0 y1) = to_s16 y /\
    (in_s 16 x -> to_s16 (le16 x0 x1) = x) /\
    (in_s 16 y -> to_s16 (le16 y0 y1) = y) /\
    (size (orientation mouse32) = 8 \/ size (orientation mouse32) = 16 ->
     in_s 16 x /\ in_s 16 y) /\
    (has_wheel mouse32 = false -> wb = 0) /\
    (has_wheel mouse32 = true ->
     exists w,
       hidMouse_GetOrientation mouse32 device32 HID_MOUSE_AXIS_WHEEL 0 false
         = Some (USBHID_SUCCESS, w) /\
       to_s8 wb = Z.max INT8_MIN (Z.min INT8_MAX w)).
Proof.
  assert (Hb : hidOutput_buildMouseReport mouse32 device32 (repeat 0 6)
               = Some (0, [1; 0x40; 0x9C; 0xFB; 0xFF; 2])) by (vm_compute; reflexivity).
  split; [exact Hb|].
  exact (buildMouseReport_layout mouse32 device32 (repeat 0 6) _ Hb).
Defined.

Lemma buildMouseReport_buttons_witness :
  hidOutput_buildMouseReport mouse32 device32 (repeat 0 6)
    = Some (0, [1; 0x40; 0x9C; 0xFB; 0xFF; 2]) /\
  exists b,
    [1; 0x40; 0x9C; 0xFB; 0xFF; 2] !! 0%nat = Some b /\ 0 <= b < 256 /\
    forall j, 0 <= j < 8 ->
      (Z.testbit b j = true <->
       j < count (button mouse32) /\
       hidMouse_GetButton mouse32 device32 j 0 false = Some (USBHID_SUCCESS, 1)).
Proof.
  assert (Hb : hidOutput_buildMouseReport mouse32 device32 (repeat 0 6)
               = Some (0, [1; 0x40; 0x9C; 0xFB; 0xFF; 2])) by (vm_compute; reflexivity).
  split; [exact Hb|].
  exact (buildMouseReport_buttons mouse32 device32 (repeat 0 6) _ Hb).
Defined.

(** The same report, sent to a sink that answers -5. *)
Lemma sendMouseReport_outcomes_witness :
  hidOutput_sendMouseReport (-5) mouse32 device32 []
    = Some (-5, [(0, [1; 0x40; 0x9C; 0xFB; 0xFF; 2])]) /\
  ([(0, [1; 0x40; 0x9C; 0xFB; 0xFF; 2])] = [] /\
   exists rb out, hidOutput_buildMouseReport mouse32 device32 (repeat 0 6) = Some (rb, out) /\
                  rb <> 0 /\ (rb = - EAGAIN -> -5 = 0) /\ (rb <> - EAGAIN -> -5 = rb)) \/
  (exists out,
     hidOutput_buildMouseReport mouse32 device32 (repeat 0 6) = Some (0, out) /\
     length out = 6%nat /\ [(0, [1; 0x40; 0x9C; 0xFB; 0xFF; 2])] = [] ++ [(0, out)] /\
     -5 = -5).
Proof.
  assert (Hs : hidOutput_sendMouseReport (-5) mouse32 device32 []
               = Some (-5, [(0, [1; 0x40; 0x9C; 0xFB; 0xFF; 2])]))
    by (vm_compute; reflexivity).
  pose proof (sendMouseReport_outcomes (-5) mouse32 device32 [] _ (-5) Hs) as H.
  tauto.
Defined.

(** A mouse that declares a Report-ID, on a device whose current report
    starts with 0x02. *)
Lemma buildMouseReport_report_id_filter_witness :
  (has_report_id_declared mouse_with_report_id = true /\
   report_id_offset mouse_with_report_id = 1) /\
  (get_report_buffer device_report_2 false = None ->
   hidOutput_buildMouseReport mouse_with_report_id device_report_2 (repeat 7 6)
     = Some (- EIO, repeat 7 6)) /\
  (forall p id,
     get_report_buffer device_report_2 false = Some p ->
     dev_load device_report_2 p = Some id ->
     (id <> MOUSE_REPORTID_BYTE ->
      hidOutput_buildMouseReport mouse_with_report_id device_report_2 (repeat 7 6)
        = Some (- EAGAIN, repeat 7 6)) /\
     (id = MOUSE_REPORTID_BYTE ->
      hidOutput_buildMouseReport mouse_with_report_id device_report_2 (repeat 7 6)
        = hidOutput_buildMouseReport
            (mkMouse (HidMouse.report_len mouse_with_report_id) false
                     (report_id_offset mouse_with_report_id) (button mouse_with_report_id)
                     (orientation mouse_with_report_id) (wheel mouse_with_report_id)
                     (has_wheel mouse_with_report_id)) device_report_2 (repeat 7 6))).
Proof.
  split; [split; reflexivity|].
  exact (buildMouseReport_report_id_filter mouse_with_report_id device_report_2 (repeat 7 6)
           eq_refl eq_refl).
Defined.

Example report_2_is_dropped :
  hidOutput_buildMouseReport mouse_with_report_id device_report_2 (repeat 7 6)
    = Some (- EAGAIN, repeat 7 6) /\
  hidOutput_sendMouseReport 0 mouse_with_report_id device_report_2 [] = Some (0, []).
Proof. split; vm_compute; reflexivity. Qed.

End OutputReportWitnesses.

(** ** hid_parser.c: HID_fetchItem *)
Section ItemFacts.
Import Cint HidItem.

Lemma load_in_range desc p :
  0 <= p < Z.of_nat (length desc) -> exists b, load desc p = Some b.
Proof.
  intros Hp. unfold load. destruct (decide (0 <= p)); [|lia].
  destruct (lookup_lt_is_Some_2 desc (Z.to_nat p) ltac:(lia)) as [b Hb]. eauto.
Qed.

Lemma land_3_range x : 0 <= Z.land x 3 < 4.
Proof.
  change 3 with (Z.ones 2). rewrite Z.land_ones by lia. apply Z.mod_pos_bound. lia.
Qed.

(** X13. HID_fetchItem stays inside the descriptor and makes progress. For
    0 <= pStart and pEnd within the descriptor it never reads outside it;
    when it returns a pointer, that pointer is beyond pStart and not beyond
    pEnd; and it returns NULL when pStart is not below pEnd.  The sizes it
    reports for short items are 0, 1, 2 or 4. *)
Theorem fetchItem_advances_within_bounds
    (desc : list Z) (pStart pEnd : Z) (pItem : HID_Item_t) :
  0 <= pStart -> pEnd <= Z.of_nat (length desc) ->
  Forall (fun b => 0 <= b < 256) desc ->
  exists r item,
    HID_fetchItem desc pStart pEnd pItem = Some (r, item) /\
    (pEnd <= pStart -> r = None /\ item = pItem) /\
    (forall q, r = Some q ->
       pStart < q <= pEnd /\
       (format item = HID_ITEM_FORMAT_SHORT ->
        q = pStart + 1 + size item /\
        (size item = 0 \/ size item = 1 \/ size item = 2 \/ size item = 4)) /\
       (format item = HID_ITEM_FORMAT_LONG ->
        q = pStart + 3 + size item /\ data item = LongData (pStart + 3))).
Proof.
  intros H0 Hend Hbytes. unfold HID_fetchItem.
  destruct (decide (pEnd - pStart <= 0)).
  { exists None, pItem. split; [reflexivity|]. split; [auto | discriminate]. }
  destruct (load_in_range desc pStart ltac:(lia)) as [fb Hfb]. rewrite Hfb.
  cbn [mbind option_bind].
  destruct (decide (HID_ITEM_TAG_LONG = Z.land (Z.shiftr fb 4) 15)).
  - destruct (decide (pEnd - (pStart + 1) < 2)).
    { eexists None, _. split; [reflexivity|]. split; [lia | discriminate]. }
    destruct (load_in_range desc (pStart + 1) ltac:(lia)) as [sz Hsz].
    destruct (load_in_range desc (pStart + 1 + 1) ltac:(lia)) as [tg Htg].
    rewrite Hsz, Htg. cbn [mbind option_bind].
    assert (Hszr : 0 <= sz < 256).
    { unfold load in Hsz. destruct (decide (0 <= pStart + 1)); [|lia].
      exact (Forall_lookup_1 _ _ _ _ Hbytes Hsz). }
    destruct (decide (pEnd - (pStart + 1 + 2) < sz)).
    { eexists None, _. split; [reflexivity|]. split; [lia | discriminate]. }
    eexists (Some _), _. split; [reflexivity|]. split; [lia|].
    intros q [= <-]. cbn [format size data]. split; [lia|].
    split; [discriminate|]. intros _. split; [lia | f_equal; lia].
  - pose proof (land_3_range fb) as Hc.
    destruct (decide (Z.land fb 3 = 0)) as [E0|].
    { eexists (Some _), _. split; [reflexivity|]. split; [lia|].
      intros q [= <-]. cbn [format size]. split; [lia|].
      split; [intros _; split; [lia | left; exact E0] | discriminate]. }
    destruct (decide (Z.land fb 3 = 1)) as [E1|].
    { destruct (decide (pEnd - (pStart + 1) < 1)).
      { eexists None, _. split; [reflexivity|]. split; [lia | discriminate]. }
      destruct (load_in_range desc (pStart + 1) ltac:(lia)) as [b0 Hb0]. rewrite Hb0.
      cbn [mbind option_bind].
      eexists (Some _), _. split; [reflexivity|]. split; [lia|].
      intros q [= <-]. cbn [format size]. split; [lia|].
      split; [intros _; split; [lia | right; left; exact E1] | discriminate]. }
    destruct (decide (Z.land fb 3 = 2)) as [E2|].
    { destruct (decide (pEnd - (pStart + 1) < 2)).
      { eexists None, _. split; [reflexivity|]. split; [lia | discriminate]. }
      destruct (load_in_range desc (pStart + 1) ltac:(lia)) as [b0 Hb0].
      destruct (load_in_range desc (pStart + 1 + 1) ltac:(lia)) as [b1 Hb1].
      rewrite Hb0, Hb1. cbn [mbind option_bind].
      eexists (Some _), _. split; [reflexivity|]. split; [lia|].
      intros q [= <-]. cbn [format size]. split; [lia|].
      split; [intros _; split; [lia | right; right; left; exact E2] | discriminate]. }
    destruct (decide (Z.land fb 3 = 3)) as [E3|]; [|lia].
    destruct (decide (pEnd - (pStart + 1) < 4)).
    { eexists None, _. split; [reflexivity|]. split; [lia | discriminate]. }
    destruct (load_in_range desc (pStart + 1) ltac:(lia)) as [b0 Hb0].
    destruct (load_in_range desc (pStart + 1 + 1) ltac:(lia)) as [b1 Hb1].
    destruct (load_in_range desc (pStart + 1 + 2) ltac:(lia)) as [b2 Hb2].
    destruct (load_in_range desc (pStart + 1 + 3) ltac:(lia)) as [b3 Hb3].
    rewrite Hb0, Hb1, Hb2, Hb3. cbn [mbind option_bind].
    eexists (Some _), _. split; [reflexivity|]. split; [lia|].
    intros q [= <-]. cbn [format size]. split; [lia|].
    split; [intros _; split; [lia | right; right; right; reflexivity] | discriminate].
Qed.

Lemma prefix_fields tag type c :
  0 <= tag < 16 -> 0 <= type < 4 -> 0 <= c < 4 ->
  Z.land (Z.shiftr (tag * 16 + type * 4 + c) 2) 3 = type /\
  Z.land (Z.shiftr (tag * 16 + type * 4 + c) 4) 15 = tag /\
  Z.land (tag * 16 + type * 4 + c) 3 = c.
Proof.
  intros Ht Hy Hc.
  change 3 with (Z.ones 2). change 15 with (Z.ones 4).
  rewrite !Z.land_ones, !Z.shiftr_div_pow2 by lia.
  change (2 ^ 2) with 4. change (2 ^ 4) with 16.
  replace ((tag * 16 + type * 4 + c) / 4) with (tag * 4 + type)
    by (apply (Z.div_unique _ 4 _ c); lia).
  replace ((tag * 16 + type * 4 + c) / 16) with tag
    by (apply (Z.div_unique _ 16 _ (type * 4 + c)); lia).
  split; [symmetry; apply (Z.mod_unique _ 4 tag type); lia|].
  split; [apply Z.mod_small; lia|].
  symmetry; apply (Z.mod_unique _ 4 (tag * 4 + type) c); lia.
Qed.

Lemma load_middle (pre l post : list Z) (k : nat) :
  load (pre ++ l ++ post) (Z.of_nat (length pre) + Z.of_nat k) = (l ++ post) !! k.
Proof.
  unfold load. destruct (decide (0 <= Z.of_nat (length pre) + Z.of_nat k)); [|lia].
  replace (Z.to_nat (Z.of_nat (length pre) + Z.of_nat k)) with (length pre + k)%nat by lia.
  rewrite lookup_app_r by lia. f_equal. lia.
Qed.

Lemma byte_of_0_small v : 0 <= v < 256 -> to_u8 (byte_of 0 v) = v.
Proof.
  intros Hv. unfold byte_of. change (2 ^ (8 * 0)) with 1. rewrite Z.div_1_r.
  rewrite Z.mod_small by lia. apply to_u_id. simpl. lia.
Qed.

Lemma fetch_short_item (pre post : list Z) (i pItem : HID_Item_t) (pEnd : Z) :
  valid_short_item i ->
  Z.of_nat (length (encode_item i)) = 1 + size i /\
  (Z.of_nat (length pre) + 1 + size i <= pEnd ->
   HID_fetchItem (pre ++ encode_item i ++ post) (Z.of_nat (length pre)) pEnd pItem
     = Some (Some (Z.of_nat (length pre) + 1 + size i), i)) /\
  (Z.of_nat (length pre) < pEnd < Z.of_nat (length pre) + 1 + size i ->
   HID_fetchItem (pre ++ encode_item i ++ post) (Z.of_nat (length pre)) pEnd pItem
     = Some (None, mkItem HID_ITEM_FORMAT_SHORT (size_code (size i)) (type i) (tag i) (U32 0))).
Proof.
  destruct i as [fmt n ty tg dt]. unfold valid_short_item; cbn [format size type tag data].
  intros (-> & Htg & Hty & Hn & v & -> & Hv).
  set (desc := pre ++ encode_item (mkItem HID_ITEM_FORMAT_SHORT n ty tg (U32 v)) ++ post).
  set (p := Z.of_nat (length pre)).
  assert (Hcode : 0 <= size_code n < 4).
  { unfold size_code. case_decide; lia. }
  destruct (prefix_fields tg ty (size_code n) ltac:(lia) Hty Hcode) as (Ety & Etg & Ec).
  assert (Hl0 : load desc p = Some (tg * 16 + ty * 4 + size_code n)).
  { unfold desc, p. rewrite <- (Z.add_0_r (Z.of_nat (length pre))).
    change 0 with (Z.of_nat 0). rewrite load_middle. reflexivity. }
  assert (Hlk : forall k : nat, load desc (p + 1 + Z.of_nat k)
                  = (encode_item (mkItem HID_ITEM_FORMAT_SHORT n ty tg (U32 v)) ++ post) !! S k).
  { intros k. unfold desc, p. rewrite <- Z.add_assoc.
    change 1 with (Z.of_nat 1) at 1. rewrite <- Nat2Z.inj_add. rewrite load_middle.
    reflexivity. }
  unfold HID_fetchItem. unfold encode_item, short_item in *. cbn [data tag type size] in *.
  split.
  { cbn [length]. rewrite length_map, length_seq. lia. }
  assert (Hnl : HID_ITEM_TAG_LONG <> tg) by (unfold HID_ITEM_TAG_LONG; lia).
  split; intros Hend.
  - destruct (decide (pEnd - p <= 0)); [lia|].
    rewrite Hl0. cbn [mbind option_bind]. rewrite Ety, Etg, Ec.
    destruct (decide (HID_ITEM_TAG_LONG = tg)); [congruence|].
    destruct Hn as [-> | [-> | [-> | ->]]]; cbn [size_code] in *.
    + change (size_code 0) with 0. destruct (decide (0 = 0)); [|lia].
      replace v with 0 by (change (2 ^ (8 * 0)) with 1 in Hv; lia).
      rewrite Z.add_0_r. reflexivity.
    + change (size_code 1) with 1.
      destruct (decide (1 = 0)); [lia|]. destruct (decide (1 = 1)); [|lia].
      destruct (decide (pEnd - (p + 1) < 1)); [lia|].
      pose proof (Hlk 0%nat) as H0. rewrite Z.add_0_r in H0. rewrite H0.
      change (_ !! 1%nat) with (Some (byte_of 0 v)). cbn [mbind option_bind].
      rewrite byte_of_0_small by (change (2 ^ (8 * 1)) with 256 in Hv; lia).
      reflexivity.
    + change (size_code 2) with 2.
      destruct (decide (2 = 0)); [lia|]. destruct (decide (2 = 1)); [lia|].
      destruct (decide (2 = 2)); [|lia].
      destruct (decide (pEnd - (p + 1) < 2)); [lia|].
      pose proof (Hlk 0%nat) as H0. rewrite Z.add_0_r in H0. rewrite H0.
      pose proof (Hlk 1%nat) as H1. change (Z.of_nat 1) with 1 in H1. rewrite H1.
      change (_ !! 1%nat) with (Some (byte_of 0 v)).
      change (_ !! 2%nat) with (Some (byte_of 1 v)). cbn [mbind option_bind].
      rewrite le16_bytes by (change (2 ^ (8 * 2)) with 65536 in Hv; lia).
      reflexivity.
    + change (size_code 4) with 3.
      destruct (decide (3 = 0)); [lia|]. destruct (decide (3 = 1)); [lia|].
      destruct (decide (3 = 2)); [lia|]. destruct (decide (3 = 3)); [|lia].
      destruct (decide (pEnd - (p + 1) < 4)); [lia|].
      pose proof (Hlk 0%nat) as H0. rewrite Z.add_0_r in H0. rewrite H0.
      pose proof (Hlk 1%nat) as H1. change (Z.of_nat 1) with 1 in H1. rewrite H1.
      pose proof (Hlk 2%nat) as H2. change (Z.of_nat 2) with 2 in H2. rewrite H2.
      pose proof (Hlk 3%nat) as H3. change (Z.of_nat 3) with 3 in H3. rewrite H3.
      change (_ !! 1%nat) with (Some (byte_of 0 v)).
      change (_ !! 2%nat) with (Some (byte_of 1 v)).
      change (_ !! 3%nat) with (Some (byte_of 2 v)).
      change (_ !! 4%nat) with (Some (byte_of 3 v)). cbn [mbind option_bind].
      rewrite le32_bytes by (change (2 ^ (8 * 4)) with 4294967296 in Hv; lia).
      reflexivity.
  - destruct (decide (pEnd - p <= 0)); [lia|].
    rewrite Hl0. cbn [mbind option_bind]. rewrite Ety, Etg, Ec.
    destruct (decide (HID_ITEM_TAG_LONG = tg)); [congruence|].
    destruct Hn as [-> | [-> | [-> | ->]]].
    + lia.
    + change (size_code 1) with 1.
      destruct (decide (1 = 0)); [lia|]. destruct (decide (1 = 1)); [|lia].
      destruct (decide (pEnd - (p + 1) < 1)); [reflexivity | lia].
    + change (size_code 2) with 2.
      destruct (decide (2 = 0)); [lia|]. destruct (decide (2 = 1)); [lia|].
      destruct (decide (2 = 2)); [|lia].
      destruct (decide (pEnd - (p + 1) < 2)); [reflexivity | lia].
    + change (size_code 4) with 3.
      destruct (decide (3 = 0)); [lia|]. destruct (decide (3 = 1)); [lia|].
      destruct (decide (3 = 2)); [lia|]. destruct (decide (3 = 3)); [|lia].
      destruct (decide (pEnd - (p + 1) < 4)); [reflexivity | lia].
Qed.

(** X14. HID_fetchItem reads back a short item. On a descriptor that holds,
    at pStart, the bytes that spell a short item (prefix byte with the tag
    in bits 4-7, the type in bits 2-3 and the size code in bits 0-1, then
    0, 1, 2 or 4 payload bytes, least significant first), the call returns
    the pointer behind the item and reports the item's tag, type, size (4
    for size code 3) and value, whatever precedes and follows, provided
    the item ends at or before pEnd; when pEnd cuts the payload it returns
    NULL. *)
Theorem fetchItem_reads_short_item
    (pre post : list Z) (i pItem : HID_Item_t) (pEnd : Z) :
  valid_short_item i ->
  (Z.of_nat (length pre) + 1 + size i <= pEnd ->
   HID_fetchItem (pre ++ encode_item i ++ post) (Z.of_nat (length pre)) pEnd pItem
     = Some (Some (Z.of_nat (length pre) + 1 + size i), i)) /\
  (Z.of_nat (length pre) < pEnd < Z.of_nat (length pre) + 1 + size i ->
   exists item,
     HID_fetchItem (pre ++ encode_item i ++ post) (Z.of_nat (length pre)) pEnd pItem
       = Some (None, item)).
Proof.
  intros Hv. destruct (fetch_short_item pre post i pItem pEnd Hv) as (_ & Hok & Hcut).
  split; [exact Hok|]. intros Hc. eexists. exact (Hcut Hc).
Qed.

Lemma fetch_all_run (items : list HID_Item_t) : forall (pre : list Z) (fuel : nat) pItem,
  Forall valid_short_item items ->
  (length items <= fuel)%nat ->
  fetch_all_items fuel (pre ++ concat (map encode_item items))
    (Z.of_nat (length pre))
    (Z.of_nat (length (pre ++ concat (map encode_item items)))) pItem
    = Some (items, Some (Z.of_nat (length (pre ++ concat (map encode_item items))))).
Proof.
  induction items as [|i rest IH]; intros pre fuel pItem Hall Hfuel.
  - cbn [map concat]. rewrite app_nil_r.
    destruct fuel; cbn [fetch_all_items];
      (destruct (decide (Z.of_nat (length pre) < Z.of_nat (length pre))); [lia | reflexivity]).
  - inversion Hall as [|? ? Hi Hrest]; subst.
    destruct fuel as [|fuel]; [cbn in Hfuel; lia|].
    cbn [map concat fetch_all_items].
    destruct (fetch_short_item pre (concat (map encode_item rest)) i pItem
                (Z.of_nat (length (pre ++ encode_item i ++ concat (map encode_item rest)))) Hi)
      as (Hlen & Hok & _).
    assert (Hend : Z.of_nat (length pre) + 1 + size i
                   <= Z.of_nat (length (pre ++ encode_item i ++ concat (map encode_item rest)))).
    { rewrite !length_app. lia. }
    destruct (decide (Z.of_nat (length pre)
               < Z.of_nat (length (pre ++ encode_item i ++ concat (map encode_item rest)))));
      [|destruct Hi as (_ & _ & _ & Hn & _); lia].
    rewrite (Hok Hend). cbn [mbind option_bind fst snd].
    specialize (IH (pre ++ encode_item i) fuel i Hrest ltac:(cbn in Hfuel; lia)).
    rewrite <- app_assoc in IH. rewrite length_app in IH at 1.
    replace (Z.of_nat (length pre) + 1 + size i)
      with (Z.of_nat (length pre + length (encode_item i))) by lia.
    rewrite IH. reflexivity.
Qed.

(** X15. The fallback scan of HID_parseReportDescriptor reads back a whole
    descriptor: on a descriptor that is the concatenation of the spellings
    of short items the loop ends after one iteration per item (any bound on
    the iterations that is at least the number of items is enough), it
    leaves with pCur = pEnd and not through the break, and the items its
    body is handed are exactly the items spelled, in order. *)
Theorem fetch_all_items_reads_descriptor (items : list HID_Item_t) (pItem : HID_Item_t)
    (fuel : nat) :
  Forall valid_short_item items ->
  (length items <= fuel)%nat ->
  fetch_all_items fuel (concat (map encode_item items)) 0
    (Z.of_nat (length (concat (map encode_item items)))) pItem
    = Some (items, Some (Z.of_nat (length (concat (map encode_item items))))).
Proof.
  intros Hall Hfuel. exact (fetch_all_run items [] fuel pItem Hall Hfuel).
Qed.

End ItemFacts.

Section ItemWitnesses.
Import Cint HidItem.

Lemma sample_items_valid : Forall valid_short_item sample_items.
Proof.
  unfold sample_items.
  repeat (apply List.Forall_cons;
          [unfold valid_short_item; cbn [format tag type size data];
           split; [reflexivity|]; split; [lia|]; split; [lia|];
           split; [tauto|]; eexists; split; [reflexivity|]; simpl; lia|]).
  apply List.Forall_nil.
Qed.

(** The spelling of the sample items is the byte sequence of the test
    descriptors. *)
Example sample_items_bytes :
  concat (map encode_item sample_items)
    = [0x05; 0x01; 0x09; 0x02; 0xA1; 0x01; 0x26; 0xFF; 0x7F; 0xC0].
Proof. vm_compute. reflexivity. Qed.

(** The LOGICAL_MAXIMUM item at offset 6 of the sample bytes. *)
Lemma fetchItem_advances_within_bounds_witness :
  (0 <= 6 /\ 10 <= Z.of_nat (length (concat (map encode_item sample_items))) /\
   Forall (fun b => 0 <= b < 256) (concat (map encode_item sample_items))) /\
  exists r item,
    HID_fetchItem (concat (map encode_item sample_items)) 6 10 zero_item
      = Some (r, item) /\
    (10 <= 6 -> r = None /\ item = zero_item) /\
    (forall q, r = Some q ->
       6 < q <= 10 /\
       (format item = HID_ITEM_FORMAT_SHORT ->
        q = 6 + 1 + size item /\
        (size item = 0 \/ size item = 1 \/ size item = 2 \/ size item = 4)) /\
       (format item = HID_ITEM_FORMAT_LONG ->
        q = 6 + 3 + size item /\ data item = LongData (6 + 3))).
Proof.
  assert (Hb : Forall (fun b => 0 <= b < 256) (concat (map encode_item sample_items)))
    by (rewrite sample_items_bytes; repeat (apply List.Forall_cons; [lia|]);
        apply List.Forall_nil).
  assert (Hl : 10 <= Z.of_nat (length (concat (map encode_item sample_items))))
    by (rewrite sample_items_bytes; simpl; lia).
  split; [split; [lia | split; [exact Hl | exact Hb]]|].
  exact (fetchItem_advances_within_bounds _ 6 10 zero_item ltac:(lia) Hl Hb).
Defined.

(** LOGICAL_MAXIMUM (32767) after two bytes and before one. *)
Lemma fetchItem_reads_short_item_witness :
  valid_short_item (mkItem HID_ITEM_FORMAT_SHORT 2 1 2 (U32 32767)) /\
  (Z.of_nat (length [0x05; 0x01]) + 1 + size (mkItem HID_ITEM_FORMAT_SHORT 2 1 2 (U32 32767))
     <= 6 ->
   HID_fetchItem ([0x05; 0x01] ++ encode_item (mkItem HID_ITEM_FORMAT_SHORT 2 1 2 (U32 32767))
                    ++ [0xC0])
     (Z.of_nat (length [0x05; 0x01])) 6 zero_item
     = Some (Some (Z.of_nat (length [0x05; 0x01]) + 1
                   + size (mkItem HID_ITEM_FORMAT_SHORT 2 1 2 (U32 32767))),
             mkItem HID_ITEM_FORMAT_SHORT 2 1 2 (U32 32767))) /\
  (Z.of_nat (length [0x05; 0x01]) < 6
     < Z.of_nat (length [0x05; 0x01]) + 1
       + size (mkItem HID_ITEM_FORMAT_SHORT 2 1 2 (U32 32767)) ->
   exists item,
     HID_fetchItem ([0x05; 0x01] ++ encode_item (mkItem HID_ITEM_FORMAT_SHORT 2 1 2 (U32 32767))
                      ++ [0xC0])
       (Z.of_nat (length [0x05; 0x01])) 6 zero_item
       = Some (None, item)).
Proof.
  assert (Hv : valid_short_item (mkItem HID_ITEM_FORMAT_SHORT 2 1 2 (U32 32767))).
  { unfold valid_short_item; cbn [format tag type size data].
    split; [reflexivity|]. split; [lia|]. split; [lia|]. split; [tauto|].
    eexists. split; [reflexivity|]. simpl. lia. }
  split; [exact Hv|].
  exact (fetchItem_reads_short_item [0x05; 0x01] [0xC0] _ zero_item 6 Hv).
Defined.

Lemma input_only_items_valid : Forall valid_short_item input_only_items.
Proof.
  unfold input_only_items.
  repeat (apply List.Forall_cons;
          [unfold valid_short_item; cbn [format tag type size data];
           split; [reflexivity|]; split; [lia|]; split; [lia|];
           split; [tauto|]; eexists; split; [reflexivity|]; simpl; lia|]).
  apply List.Forall_nil.
Qed.

Lemma fetch_all_items_reads_descriptor_witness :
  concat (map encode_item input_only_items)
    = [0x75; 0x08; 0x95; 0x04; 0x26; 0xFF; 0x7F; 0x81; 0x02] /\
  fetch_all_items 4 (concat (map encode_item input_only_items)) 0
    (Z.of_nat (length (concat (map encode_item input_only_items)))) zero_item
    = Some (input_only_items,
            Some (Z.of_nat (length (concat (map encode_item input_only_items))))).
Proof.
  split; [reflexivity|].
  apply (fetch_all_items_reads_descriptor input_only_items zero_item 4).
  - exact input_only_items_valid.
  - cbn [length input_only_items]. lia.
Defined.

(** The scan leaves through the break when pEnd cuts the last item, and has
    no result when the bound on the iterations is below the number of
    items. *)
Example fetch_all_items_cut_and_bound :
  fetch_all_items 4 (concat (map encode_item input_only_items)) 0 8 zero_item
    = Some (firstn 3 input_only_items, None) /\
  fetch_all_items 3 (concat (map encode_item input_only_items)) 0 9 zero_item = None.
Proof. split; reflexivity. Qed.

End ItemWitnesses.

(** ** hid_parser.c: the life of the report buffer *)
Section ReportBufferLifeFacts.
Import Cint Chip Usb HidParser.

Lemma lookup_repeat {A} (x : A) (k : nat) : forall i : nat,
  (i < k)%nat -> repeat x k !! i = Some x.
Proof.
  induction k as [|k IH]; intros i Hi; [lia|].
  destruct i as [|i]; cbn; [reflexivity | apply IH; lia].
Qed.

Lemma load_n_zeros (n : nat) : forall (k : nat) p,
  0 <= p -> (Z.to_nat p + n <= k)%nat ->
  load_n (repeat 0 k) p n = Some (repeat 0 n).
Proof.
  induction n as [|n IH]; intros k p Hp Hk; cbn [load_n repeat]; [reflexivity|].
  unfold load. destruct (decide (0 <= p)); [|lia].
  rewrite lookup_repeat by lia.
  rewrite (IH k (p + 1)) by lia. reflexivity.
Qed.

(** X16. The life of the double report buffer. USBHID_allocReportBuffer on
    a device without buffer and with 0 < len < 2^31 gives a zero-filled
    buffer of 2 * len bytes whose two accessors point at its two halves
    (isLast at offset 0, the other at offset len), both reading as len
    zeros; on a device that has a buffer it returns USBHID_ERROR and
    changes nothing; when k_malloc fails it returns USBHID_ALLOC_FAILED and
    changes nothing.  After USBHID_freeReportBuffer both accessors return
    USBHID_BUFFER_NOT_ALLOC, USBHID_fetchReport returns it too without
    talking to the chip, and a new allocation succeeds. *)
Theorem report_buffer_lifecycle (d : USBHID_Device_t) (len : Z) (c : chip_t) :
  0 < len < 2 ^ 31 ->
  (report_buffer d <> None ->
   forall malloc_ok, USBHID_allocReportBuffer malloc_ok d len = (USBHID_ERROR, d)) /\
  (report_buffer d = None ->
   USBHID_allocReportBuffer false d len = (USBHID_ALLOC_FAILED, d) /\
   exists d',
     USBHID_allocReportBuffer true d len = (USBHID_SUCCESS, d') /\
     report_buffer d' = Some (repeat 0 (Z.to_nat (2 * len))) /\
     endpoint d' = endpoint d /\
     USBHID_getReportBuffer d' true = (USBHID_SUCCESS, Some 0, len) /\
     USBHID_getReportBuffer d' false = (USBHID_SUCCESS, Some len, len) /\
     read_slot d' true = Some (repeat 0 (Z.to_nat len)) /\
     read_slot d' false = Some (repeat 0 (Z.to_nat len))) /\
  (forall isLast,
     USBHID_getReportBuffer (USBHID_freeReportBuffer d) isLast
       = (USBHID_BUFFER_NOT_ALLOC, None, 0)) /\
  USBHID_fetchReport (USBHID_freeReportBuffer d) c
    = Some ((USBHID_BUFFER_NOT_ALLOC, USBHID_freeReportBuffer d), c) /\
  (USBHID_allocReportBuffer true (USBHID_freeReportBuffer d) len).1 = USBHID_SUCCESS.
Proof.
  intros Hlen.
  assert (H2 : to_u32 (len * 2) = 2 * len).
  { unfold to_u32. rewrite to_u_id; [lia|]. change (2 ^ 32) with (2 * 2 ^ 31). lia. }
  split; [|split; [|split; [|split]]].
  - intros Hb malloc_ok. unfold USBHID_allocReportBuffer.
    destruct (report_buffer d); [reflexivity | congruence].
  - intros Hb. unfold USBHID_allocReportBuffer. rewrite Hb, H2.
    split; [reflexivity|]. eexists. split; [reflexivity|].
    cbn [report_buffer endpoint].
    split; [reflexivity|]. split; [reflexivity|].
    unfold USBHID_getReportBuffer, read_slot, get_report_buffer.
    cbn [report_buffer report_buffer_last_offset report_len].
    destruct (decide (0 <> 0)); [lia|].
    split; [reflexivity|]. split; [reflexivity|].
    split; apply load_n_zeros; lia.
  - intros isLast. reflexivity.
  - reflexivity.
  - reflexivity.
Qed.

Lemma report_buffer_lifecycle_witness :
  0 < 2 < 2 ^ 31 /\
  (report_buffer unallocated_device <> None ->
   forall malloc_ok,
     USBHID_allocReportBuffer malloc_ok unallocated_device 2
       = (USBHID_ERROR, unallocated_device)) /\
  (report_buffer unallocated_device = None ->
   USBHID_allocReportBuffer false unallocated_device 2
     = (USBHID_ALLOC_FAILED, unallocated_device) /\
   exists d',
     USBHID_allocReportBuffer true unallocated_device 2 = (USBHID_SUCCESS, d') /\
     report_buffer d' = Some (repeat 0 (Z.to_nat (2 * 2))) /\
     endpoint d' = endpoint unallocated_device /\
     USBHID_getReportBuffer d' true = (USBHID_SUCCESS, Some 0, 2) /\
     USBHID_getReportBuffer d' false = (USBHID_SUCCESS, Some 2, 2) /\
     read_slot d' true = Some (repeat 0 (Z.to_nat 2)) /\
     read_slot d' false = Some (repeat 0 (Z.to_nat 2))) /\
  (forall isLast,
     USBHID_getReportBuffer (USBHID_freeReportBuffer unallocated_device) isLast
       = (USBHID_BUFFER_NOT_ALLOC, None, 0)) /\
  USBHID_fetchReport (USBHID_freeReportBuffer unallocated_device) (mkChip [] [])
    = Some ((USBHID_BUFFER_NOT_ALLOC, USBHID_freeReportBuffer unallocated_device),
            mkChip [] []) /\
  (USBHID_allocReportBuffer true (USBHID_freeReportBuffer unallocated_device) 2).1
    = USBHID_SUCCESS.
Proof.
  split; [lia|].
  exact (report_buffer_lifecycle unallocated_device 2 (mkChip [] []) ltac:(lia)).
Defined.

(** Allocation on the unallocated device gives the device of the fetch
    examples. *)
Example alloc_gives_device2 :
  USBHID_allocReportBuffer true unallocated_device 2 = (USBHID_SUCCESS, device2).
Proof. reflexivity. Qed.

(** X17. A fetch that does not complete changes nothing. On a device with
    a report buffer and a cached endpoint, when the chip accepts the retry
    setting and the IN token and reports a status other than IntSuccess,
    USBHID_fetchReport returns -EAGAIN for the NAK status, USBHID_NO_DEV
    for IntDisconnect and USBHID_IO_ERROR otherwise; the device (buffer,
    last offset, data toggle) is as before, and the chip was asked for the
    retry setting 0 and one IN token with the endpoint's toggle, and for no
    block read. *)
Theorem fetchReport_without_data
    (d : USBHID_Device_t) (e : USB_Endpoint_t) (status : Z)
    (rest : list chip_reply) (lg : list chip_call) (x y : list Z) (s0 : Z) :
  report_buffer d <> None -> endpoint d = Some e ->
  status <> CH37X_USB_INT_SUCCESS ->
  USBHID_fetchReport d
    (mkChip (mkReply CH37X_SUCCESS s0 x :: mkReply CH37X_SUCCESS status y :: rest) lg)
    = Some ((if decide (status = CH37X_PID2STATUS USB_PID_NAK) then - EAGAIN
             else if decide (status = CH37X_USB_INT_DISCONNECT) then USBHID_NO_DEV
             else USBHID_IO_ERROR, d),
            mkChip rest (lg ++ [SetRetry CH37X_RETRY_TIMES_ZERO;
                                SendToken (ep_addr e) (data_toggle e) USB_PID_IN])).
Proof.
  intros Hb He Hs. unfold USBHID_fetchReport, get_report_buffer.
  destruct (report_buffer d) as [buf|] eqn:Hbuf; [|congruence].
  unfold usbhid_read. rewrite He. run_chip. cbn [c_ret c_status].
  destruct (decide (CH37X_SUCCESS <> CH37X_SUCCESS)); [congruence|].
  run_chip. cbn [c_ret c_status].
  destruct (decide (CH37X_SUCCESS <> CH37X_SUCCESS)); [congruence|].
  destruct (decide (status = CH37X_USB_INT_SUCCESS)); [congruence|].
  rewrite <- app_assoc. cbn [app].
  destruct (decide (status = CH37X_PID2STATUS USB_PID_NAK)).
  - destruct (decide (- EAGAIN = USBHID_SUCCESS)) as [H|_]; [revert H; vm_compute; congruence|].
    reflexivity.
  - destruct (decide (status = CH37X_USB_INT_DISCONNECT)).
    + destruct (decide (USBHID_NO_DEV = USBHID_SUCCESS)) as [H|_];
        [revert H; vm_compute; congruence|]. reflexivity.
    + destruct (decide (USBHID_IO_ERROR = USBHID_SUCCESS)) as [H|_];
        [revert H; vm_compute; congruence|]. reflexivity.
Qed.

(** An idle mouse: the endpoint answers NAK. *)
Lemma fetchReport_without_data_witness :
  (report_buffer device2 <> None /\ endpoint device2 = Some (mkEndpoint 0x81 3 4 10 false) /\
   CH37X_PID2STATUS USB_PID_NAK <> CH37X_USB_INT_SUCCESS) /\
  USBHID_fetchReport device2
    (mkChip (mkReply CH37X_SUCCESS 0 []
             :: mkReply CH37X_SUCCESS (CH37X_PID2STATUS USB_PID_NAK) [] :: []) [])
    = Some ((if decide (CH37X_PID2STATUS USB_PID_NAK = CH37X_PID2STATUS USB_PID_NAK)
             then - EAGAIN
             else if decide (CH37X_PID2STATUS USB_PID_NAK = CH37X_USB_INT_DISCONNECT)
                  then USBHID_NO_DEV
                  else USBHID_IO_ERROR, device2),
            mkChip [] ([] ++ [SetRetry CH37X_RETRY_TIMES_ZERO;
                              SendToken (ep_addr (mkEndpoint 0x81 3 4 10 false))
                                        (data_toggle (mkEndpoint 0x81 3 4 10 false))
                                        USB_PID_IN])).
Proof.
  assert (Hb : report_buffer device2 <> None) by discriminate.
  assert (Hs : CH37X_PID2STATUS USB_PID_NAK <> CH37X_USB_INT_SUCCESS)
    by (vm_compute; congruence).
  split; [split; [exact Hb | split; [reflexivity | exact Hs]]|].
  exact (fetchReport_without_data device2 _ _ [] [] [] [] 0 Hb eq_refl Hs).
Defined.

End ReportBufferLifeFacts.

(** ** ch375_host.c: the configuration walk on well-formed and malformed descriptors *)
Section WalkReadsBack.
Import Cint Usb Host.

Lemma load_at (front block back : list Z) (k : nat) (b : Z) :
  block !! k = Some b ->
  load (front ++ block ++ back) (Z.of_nat (length front) + Z.of_nat k) = Some b.
Proof.
  intros Hb. rewrite load_middle. apply lookup_app_l_Some. exact Hb.
Qed.

Lemma walk_unfold n u buf p :
  walk (S n) u buf p =
    if decide (p + 2 <= raw_conf_desc_len u) then
      match load buf p, load buf (p + 1) with
      | Some bLength, Some bDescriptorType =>
          if decide (0 = bLength) then HostError
          else if decide (p + bLength > raw_conf_desc_len u) then HostError
          else
            match (if decide (bDescriptorType = USB_DESC_INTERFACE)
                   then parse_interface_descriptor u buf p
                   else if decide (bDescriptorType = USB_DESC_ENDPOINT)
                   then parse_endpoint_descriptor u buf p
                   else Parsed u) with
            | Parsed u' => walk n u' buf (p + bLength)
            | other => other
            end
      | _, _ => ReadPastEnd
      end
    else Parsed u.
Proof.
  cbn [walk]. cbv zeta.
  destruct (decide (p + 2 <= raw_conf_desc_len u)); [|reflexivity].
  destruct (load buf p) as [bLength|]; [|reflexivity].
  destruct (load buf (p + 1)) as [bDescriptorType|]; [|reflexivity].
  destruct (decide (0 = bLength)); [reflexivity|].
  destruct (decide (p + bLength > raw_conf_desc_len u)); [reflexivity|].
  destruct (if decide (bDescriptorType = USB_DESC_INTERFACE)
            then parse_interface_descriptor u buf p
            else if decide (bDescriptorType = USB_DESC_ENDPOINT)
            then parse_endpoint_descriptor u buf p
            else Parsed u); reflexivity.
Qed.

Lemma walk_done n u buf p :
  raw_conf_desc_len u < p + 2 -> walk n u buf p = Parsed u.
Proof.
  intros H. destruct n; cbn [walk]; destruct (decide (p + 2 <= raw_conf_desc_len u));
    first [lia | reflexivity].
Qed.

Lemma walk_other n u buf front d back :
  buf = front ++ other_item d ++ back ->
  raw_conf_desc_len u = Z.of_nat (length buf) ->
  skipped_item d ->
  walk (S n) u buf (Z.of_nat (length front))
    = walk n u buf (Z.of_nat (length (front ++ other_item d))).
Proof.
  intros -> Hlen [H4 H5]. rewrite walk_unfold.
  set (p := Z.of_nat (length front)).
  assert (Hblk : Z.of_nat (length (other_item d)) = 2 + Z.of_nat (length d.2)).
  { unfold other_item. cbn [length]. lia. }
  rewrite !length_app in Hlen. rewrite length_app.
  destruct (decide (p + 2 <= raw_conf_desc_len u)); [|unfold p in *; lia].
  pose proof (load_at front (other_item d) back 0 _ eq_refl) as L0.
  pose proof (load_at front (other_item d) back 1 _ eq_refl) as L1.
  rewrite Z.add_0_r in L0. change (Z.of_nat 1) with 1 in L1. fold p in L0, L1.
  rewrite L0, L1.
  destruct (decide (0 = 2 + Z.of_nat (length d.2))); [lia|].
  destruct (decide (p + (2 + Z.of_nat (length d.2)) > raw_conf_desc_len u));
    [unfold p in *; lia|].
  destruct (decide (d.1 = USB_DESC_INTERFACE)); [tauto|].
  destruct (decide (d.1 = USB_DESC_ENDPOINT)); [tauto|].
  f_equal. unfold p. lia.
Qed.

Lemma walk_others (ds : list (Z * list Z)) : forall n u buf front back,
  buf = front ++ concat (map other_item ds) ++ back ->
  raw_conf_desc_len u = Z.of_nat (length buf) ->
  Forall skipped_item ds ->
  walk (length ds + n) u buf (Z.of_nat (length front))
    = walk n u buf (Z.of_nat (length (front ++ concat (map other_item ds)))).
Proof.
  induction ds as [|d ds IH]; intros n u buf front back Hbuf Hlen Hall.
  - cbn [map concat length plus]. rewrite app_nil_r. reflexivity.
  - inversion Hall as [|d0 l0 Hd Hds Heq]; clear Hall.
    cbn [map concat length plus] in *.
    assert (E1 : buf = front ++ other_item d ++ (concat (map other_item ds) ++ back))
      by (rewrite Hbuf, <- !app_assoc; reflexivity).
    assert (E2 : buf = (front ++ other_item d) ++ concat (map other_item ds) ++ back)
      by (rewrite Hbuf, <- !app_assoc; reflexivity).
    rewrite (walk_other _ u buf front d _ E1 Hlen Hd).
    rewrite (IH n u buf (front ++ other_item d) back E2 Hlen Hds).
    rewrite <- !app_assoc. reflexivity.
Qed.

Lemma set_interfaces_twice u c1 t1 c2 t2 :
  set_interfaces (set_interfaces u c1 t1) c2 t2 = set_interfaces u c2 t2.
Proof. reflexivity. Qed.

Lemma set_interfaces_same u : set_interfaces u (interface_count u) (interfaces u) = u.
Proof. destruct u; reflexivity. Qed.

Lemma insert_middle {A} (pre post : list A) (x y : A) :
  <[length pre := y]> (pre ++ x :: post) = pre ++ y :: post.
Proof.
  rewrite insert_app_r_alt by lia. rewrite Nat.sub_diag. reflexivity.
Qed.

Lemma walk_endpoint_step n u buf front back e pre post ifc :
  buf = front ++ encode_endpoint e ++ back ->
  raw_conf_desc_len u = Z.of_nat (length buf) ->
  interface_count u = Z.of_nat (length pre) + 1 -> (length pre < 4)%nat ->
  interfaces u = pre ++ ifc :: post ->
  0 <= endpoint_count ifc < 4 ->
  walk (S n) u buf (Z.of_nat (length front))
    = walk n
        (set_interfaces u (interface_count u)
           (pre ++ mkInterface (interface_number ifc) (interface_class ifc)
                     (interface_subclass ifc) (interface_protocol ifc)
                     (endpoint_count ifc + 1)
                     (<[Z.to_nat (endpoint_count ifc) :=
                          mkEndpoint (ep_addr e) (attributes e)
                            (le16 (byte_of 0 (max_packet e)) (byte_of 1 (max_packet e)))
                            (interval e) false]> (endpoints ifc))
                :: post))
        buf (Z.of_nat (length (front ++ encode_endpoint e))).
Proof.
  intros -> Hlen Hcnt Hpre Hifs Hslot. rewrite walk_unfold.
  set (p := Z.of_nat (length front)).
  rewrite !length_app in Hlen. rewrite length_app.
  change (length (encode_endpoint e)) with 7%nat in *.
  destruct (decide (p + 2 <= raw_conf_desc_len u)); [|unfold p in *; lia].
  pose proof (fun k b H => load_at front (encode_endpoint e) back k b H) as L.
  pose proof (L 0%nat _ eq_refl) as L0. rewrite Z.add_0_r in L0.
  pose proof (L 1%nat _ eq_refl) as L1. change (Z.of_nat 1) with 1 in L1.
  pose proof (L 2%nat _ eq_refl) as L2. change (Z.of_nat 2) with 2 in L2.
  pose proof (L 3%nat _ eq_refl) as L3. change (Z.of_nat 3) with 3 in L3.
  pose proof (L 4%nat _ eq_refl) as L4. change (Z.of_nat 4) with 4 in L4.
  pose proof (L 5%nat _ eq_refl) as L5. change (Z.of_nat 5) with 5 in L5.
  pose proof (L 6%nat _ eq_refl) as L6. change (Z.of_nat 6) with 6 in L6.
  fold p in L0, L1, L2, L3, L4, L5, L6. clear L.
  rewrite L0, L1.
  destruct (decide (0 = 7)); [lia|].
  destruct (decide (p + 7 > raw_conf_desc_len u)); [unfold p in *; lia|].
  destruct (decide (USB_DESC_ENDPOINT = USB_DESC_INTERFACE)) as [H|_];
    [revert H; vm_compute; congruence|].
  destruct (decide (USB_DESC_ENDPOINT = USB_DESC_ENDPOINT)); [|congruence].
  unfold parse_endpoint_descriptor. rewrite L2, L3, L4, L5, L6.
  rewrite Hcnt. replace (Z.of_nat (length pre) + 1 - 1) with (Z.of_nat (length pre)) by lia.
  unfold USB_MAX_INTERFACES, USB_MAX_ENDPOINTS.
  destruct (decide (0 <= Z.of_nat (length pre) < 4)); [|lia].
  rewrite Nat2Z.id, Hifs, list_lookup_middle by reflexivity.
  destruct (decide (0 <= endpoint_count ifc < 4)); [|lia].
  rewrite insert_middle.
  rewrite (to_u_id 8) by (simpl; lia).
  f_equal. unfold p. lia.
Qed.

Lemma insert_next_slot {A} (done : list A) (z x : A) (k : nat) :
  <[length done := x]> (done ++ repeat z (S k)) = (done ++ [x]) ++ repeat z k.
Proof.
  cbn [repeat]. rewrite insert_middle, <- app_assoc. reflexivity.
Qed.

Lemma walk_endpoints (es : list USB_Endpoint_t) :
  forall n u buf front back pre post num cls sub proto done,
  buf = front ++ concat (map encode_endpoint es) ++ back ->
  raw_conf_desc_len u = Z.of_nat (length buf) ->
  interface_count u = Z.of_nat (length pre) + 1 -> (length pre < 4)%nat ->
  interfaces u
    = pre ++ mkInterface num cls sub proto (Z.of_nat (length done))
               (done ++ repeat zero_endpoint (4 - length done)) :: post ->
  (length done + length es <= 4)%nat ->
  Forall (fun e => data_toggle e = false /\ 0 <= max_packet e < 65536) es ->
  walk (length es + n) u buf (Z.of_nat (length front))
    = walk n
        (set_interfaces u (interface_count u)
           (pre ++ mkInterface num cls sub proto (Z.of_nat (length (done ++ es)))
                     ((done ++ es) ++ repeat zero_endpoint (4 - length (done ++ es)))
                :: post))
        buf (Z.of_nat (length (front ++ concat (map encode_endpoint es)))).
Proof.
  induction es as [|e es IH];
    intros n u buf front back pre post num cls sub proto done Hbuf Hlen Hcnt Hpre Hifs Hroom Hall.
  - cbn [map concat length plus]. rewrite !app_nil_r. rewrite <- Hifs.
    rewrite set_interfaces_same. reflexivity.
  - inversion Hall as [|e0 l0 [Htog Hmp] Hes Heq]; clear Hall.
    cbn [map concat length plus] in *.
    assert (E1 : buf = front ++ encode_endpoint e ++ (concat (map encode_endpoint es) ++ back))
      by (rewrite Hbuf, <- !app_assoc; reflexivity).
    assert (E2 : buf = (front ++ encode_endpoint e) ++ concat (map encode_endpoint es) ++ back)
      by (rewrite Hbuf, <- !app_assoc; reflexivity).
    change (S (length es) + n)%nat with (S (length es + n)).
    rewrite (walk_endpoint_step (length es + n) u buf front _ e pre post _ E1 Hlen Hcnt Hpre Hifs
               ltac:(cbn [endpoint_count]; lia)).
    cbn [interface_number interface_class interface_subclass interface_protocol
         endpoint_count endpoints].
    rewrite le16_bytes by lia.
    replace (mkEndpoint (ep_addr e) (attributes e) (max_packet e) (interval e) false) with e
      by (destruct e; cbn in *; congruence).
    rewrite Nat2Z.id.
    replace (4 - length done)%nat with (S (4 - length (done ++ [e]))%nat)
      by (rewrite length_app; cbn [length]; lia).
    rewrite insert_next_slot.
    replace (Z.of_nat (length done) + 1) with (Z.of_nat (length (done ++ [e])))
      by (rewrite length_app; cbn [length]; lia).
    match goal with
    | |- walk _ ?u1 _ _ = _ =>
        rewrite (IH n u1 buf (front ++ encode_endpoint e) back pre post num cls sub proto
                   (done ++ [e]) E2 Hlen Hcnt Hpre eq_refl
                   ltac:(rewrite length_app; cbn [length]; lia) Hes)
    end.
    rewrite set_interfaces_twice. cbn [interface_count set_interfaces].
    rewrite <- !app_assoc. reflexivity.
Qed.

Lemma walk_interface_step n u buf front back num cnt cls sub proto pre slot post :
  buf = front ++ [0x09; USB_DESC_INTERFACE; num; 0x00; cnt; cls; sub; proto; 0x00] ++ back ->
  raw_conf_desc_len u = Z.of_nat (length buf) ->
  interface_count u = Z.of_nat (length pre) -> (length pre < 4)%nat ->
  interfaces u = pre ++ slot :: post ->
  walk (S n) u buf (Z.of_nat (length front))
    = walk n
        (set_interfaces u (Z.of_nat (length pre) + 1)
           (pre ++ mkInterface num cls sub proto (endpoint_count slot) (endpoints slot)
                :: post))
        buf (Z.of_nat (length front) + 9).
Proof.
  intros -> Hlen Hcnt Hpre Hifs. rewrite walk_unfold.
  set (p := Z.of_nat (length front)).
  set (block := [0x09; USB_DESC_INTERFACE; num; 0x00; cnt; cls; sub; proto; 0x00]) in *.
  rewrite !length_app in Hlen.
  change (length block) with 9%nat in *.
  destruct (decide (p + 2 <= raw_conf_desc_len u)); [|unfold p in *; lia].
  pose proof (fun k b H => load_at front block back k b H) as L.
  pose proof (L 0%nat _ eq_refl) as L0. rewrite Z.add_0_r in L0.
  pose proof (L 1%nat _ eq_refl) as L1. change (Z.of_nat 1) with 1 in L1.
  pose proof (L 2%nat _ eq_refl) as L2. change (Z.of_nat 2) with 2 in L2.
  pose proof (L 5%nat _ eq_refl) as L5. change (Z.of_nat 5) with 5 in L5.
  pose proof (L 6%nat _ eq_refl) as L6. change (Z.of_nat 6) with 6 in L6.
  pose proof (L 7%nat _ eq_refl) as L7. change (Z.of_nat 7) with 7 in L7.
  fold p in L0, L1, L2, L5, L6, L7. clear L.
  rewrite L0, L1.
  destruct (decide (0 = 9)); [lia|].
  destruct (decide (p + 9 > raw_conf_desc_len u)); [unfold p in *; lia|].
  destruct (decide (USB_DESC_INTERFACE = USB_DESC_INTERFACE)); [|congruence].
  unfold parse_interface_descriptor. rewrite L2, L5, L6, L7.
  rewrite Hcnt. unfold USB_MAX_INTERFACES.
  destruct (decide (0 <= Z.of_nat (length pre) < 4)); [|lia].
  rewrite Nat2Z.id, Hifs, list_lookup_middle by reflexivity.
  rewrite insert_middle.
  rewrite (to_u_id 8) by (simpl; lia).
  reflexivity.
Qed.

Lemma table_entry_shape ifc :
  table_entry ifc ->
  let es := firstn (Z.to_nat (endpoint_count ifc)) (endpoints ifc) in
  length es = Z.to_nat (endpoint_count ifc) /\
  endpoints ifc = es ++ repeat zero_endpoint (4 - length es) /\
  Forall (fun e => data_toggle e = false /\ 0 <= max_packet e < 65536) es.
Proof.
  intros (Hc & Hl & He). cbv zeta. unfold USB_MAX_ENDPOINTS in *.
  set (c := Z.to_nat (endpoint_count ifc)).
  assert (Hlen : length (firstn c (endpoints ifc)) = c)
    by (rewrite length_firstn; lia).
  split; [exact Hlen|]. split.
  - rewrite Hlen. rewrite <- (firstn_skipn c (endpoints ifc)) at 1. f_equal.
    apply list_eq. intros j.
    change (skipn c (endpoints ifc)) with (drop c (endpoints ifc)).
    rewrite lookup_drop.
    destruct (decide (j < 4 - c)%nat) as [Hj|Hj].
    + rewrite lookup_repeat by lia.
      destruct (lookup_lt_is_Some_2 (endpoints ifc) (c + j) ltac:(lia)) as [e Hej].
      rewrite Hej. pose proof (He _ _ Hej) as H.
      destruct (decide (Z.of_nat (c + j) < endpoint_count ifc)); [lia|]. congruence.
    + rewrite lookup_ge_None_2 by lia.
      symmetry. apply lookup_ge_None_2. rewrite repeat_length. lia.
  - apply Forall_lookup_2. intros j e Hj.
    change (firstn c (endpoints ifc)) with (take c (endpoints ifc)) in Hj.
    apply lookup_take_Some in Hj. destruct Hj as [Hj Hlt].
    pose proof (He _ _ Hj) as H.
    destruct (decide (Z.of_nat j < endpoint_count ifc)); [exact H|lia].
Qed.

Lemma walk_interface (entry : USB_Interface_t * list (Z * list Z)) :
  forall n u buf front back pre post,
  buf = front ++ encode_interface entry ++ back ->
  raw_conf_desc_len u = Z.of_nat (length buf) ->
  interface_count u = Z.of_nat (length pre) -> (length pre < 4)%nat ->
  interfaces u = pre ++ zero_interface :: post ->
  table_entry entry.1 -> Forall skipped_item entry.2 ->
  walk (item_count entry + n) u buf (Z.of_nat (length front))
    = walk n (set_interfaces u (Z.of_nat (length pre) + 1) (pre ++ entry.1 :: post))
        buf (Z.of_nat (length (front ++ encode_interface entry))).
Proof.
  intros n u buf front back pre post Hbuf Hlen Hcnt Hpre Hifs Htab Hskip.
  destruct entry as [ifc others]. unfold item_count. cbn [fst snd] in *.
  replace (S (length others + Z.to_nat (endpoint_count ifc)) + n)%nat
    with (S (length others + (Z.to_nat (endpoint_count ifc) + n))) by lia.
  destruct (table_entry_shape ifc Htab) as (Hes & Heps & Hall). cbv zeta in *.
  set (es := firstn (Z.to_nat (endpoint_count ifc)) (endpoints ifc)) in *.
  set (hdr := [0x09; USB_DESC_INTERFACE; interface_number ifc; 0x00; endpoint_count ifc;
               interface_class ifc; interface_subclass ifc; interface_protocol ifc; 0x00]).
  assert (Henc : encode_interface (ifc, others)
                 = hdr ++ concat (map other_item others) ++ concat (map encode_endpoint es))
    by reflexivity.
  rewrite Henc in *. clear Henc.
  assert (E1 : buf = front ++ hdr
                 ++ (concat (map other_item others) ++ concat (map encode_endpoint es) ++ back))
    by (rewrite Hbuf, <- !app_assoc; reflexivity).
  rewrite (walk_interface_step _ u buf front _ _ _ _ _ _ pre zero_interface post
             E1 Hlen Hcnt Hpre Hifs).
  set (u1 := set_interfaces u _ _).
  assert (E2 : buf = (front ++ hdr) ++ concat (map other_item others)
                 ++ (concat (map encode_endpoint es) ++ back))
    by (rewrite Hbuf, <- !app_assoc; reflexivity).
  replace (Z.of_nat (length front) + 9) with (Z.of_nat (length (front ++ hdr)))
    by (rewrite length_app; change (length hdr) with 9%nat; lia).
  rewrite (walk_others others _ u1 buf (front ++ hdr) _ E2 Hlen Hskip).
  assert (E3 : buf = ((front ++ hdr) ++ concat (map other_item others))
                 ++ concat (map encode_endpoint es) ++ back)
    by (rewrite Hbuf, <- !app_assoc; reflexivity).
  assert (Hle : (length es <= 4)%nat)
    by (destruct Htab as [Hc _]; unfold USB_MAX_ENDPOINTS in Hc; lia).
  rewrite <- Hes.
  rewrite (walk_endpoints es n u1 buf _ back pre post (interface_number ifc)
             (interface_class ifc) (interface_subclass ifc) (interface_protocol ifc) []
             E3 Hlen eq_refl Hpre eq_refl Hle Hall).
  cbn [app]. rewrite <- Heps.
  unfold u1. rewrite set_interfaces_twice. cbn [interface_count set_interfaces].
  rewrite Hes, Z2Nat.id by (destruct Htab; lia).
  replace (mkInterface (interface_number ifc) (interface_class ifc) (interface_subclass ifc)
             (interface_protocol ifc) (endpoint_count ifc) (endpoints ifc)) with ifc
    by (destruct ifc; reflexivity).
  rewrite <- !app_assoc. reflexivity.
Qed.

Lemma walk_interfaces (cfg : list (USB_Interface_t * list (Z * list Z))) :
  forall n u buf front back done,
  buf = front ++ concat (map encode_interface cfg) ++ back ->
  raw_conf_desc_len u = Z.of_nat (length buf) ->
  interface_count u = Z.of_nat (length done) ->
  interfaces u = done ++ repeat zero_interface (4 - length done) ->
  (length done + length cfg <= 4)%nat ->
  Forall (fun entry => table_entry entry.1 /\ Forall skipped_item entry.2) cfg ->
  walk (list_sum (map item_count cfg) + n) u buf (Z.of_nat (length front))
    = walk n
        (set_interfaces u (Z.of_nat (length (done ++ map fst cfg)))
           ((done ++ map fst cfg)
              ++ repeat zero_interface (4 - length (done ++ map fst cfg))))
        buf (Z.of_nat (length (front ++ concat (map encode_interface cfg)))).
Proof.
  induction cfg as [|entry cfg IH];
    intros n u buf front back done Hbuf Hlen Hcnt Hifs Hroom Hall.
  - change (list_sum (map item_count []) + n)%nat with n.
    cbn [map concat length]. rewrite !app_nil_r.
    rewrite <- Hcnt, <- Hifs, set_interfaces_same. reflexivity.
  - inversion Hall as [|e0 l0 [Htab Hskip] Hrest Heq]; clear Hall.
    change (list_sum (map item_count (entry :: cfg)))
      with (item_count entry + list_sum (map item_count cfg))%nat.
    cbn [map concat length] in *.
    assert (E1 : buf = front ++ encode_interface entry
                   ++ (concat (map encode_interface cfg) ++ back))
      by (rewrite Hbuf, <- !app_assoc; reflexivity).
    assert (E2 : buf = (front ++ encode_interface entry)
                   ++ concat (map encode_interface cfg) ++ back)
      by (rewrite Hbuf, <- !app_assoc; reflexivity).
    assert (Hslot : interfaces u
                    = done ++ zero_interface :: repeat zero_interface (4 - length (done ++ [entry.1])))
      by (rewrite Hifs, length_app; cbn [length];
          replace (4 - length done)%nat with (S (4 - (length done + 1))) by lia;
          reflexivity).
    rewrite <- Nat.add_assoc.
    rewrite (walk_interface entry _ u buf front _ done _ E1 Hlen Hcnt ltac:(lia) Hslot
               Htab Hskip).
    match goal with
    | |- walk _ ?u1 _ _ = _ =>
        rewrite (IH n u1 buf (front ++ encode_interface entry) back (done ++ [entry.1])
                   E2 Hlen
                   ltac:(cbn [interface_count set_interfaces]; rewrite length_app;
                         cbn [length]; lia)
                   ltac:(cbn [interfaces set_interfaces]; rewrite <- app_assoc; reflexivity)
                   ltac:(rewrite length_app; cbn [length]; lia) Hrest)
    end.
    rewrite set_interfaces_twice. rewrite <- !app_assoc. reflexivity.
Qed.

Lemma length_concat_ge {A B} (f : A -> list B) (l : list A) :
  (forall x, 1 <= length (f x))%nat -> (length l <= length (concat (map f l)))%nat.
Proof.
  intros Hf. induction l as [|x l IH]; cbn [map concat length]; [lia|].
  rewrite length_app. pose proof (Hf x). lia.
Qed.

Lemma item_count_le_length entry :
  table_entry entry.1 -> (item_count entry <= length (encode_interface entry))%nat.
Proof.
  intros Htab. destruct (table_entry_shape _ Htab) as (Hes & _ & _). cbv zeta in Hes.
  unfold item_count, encode_interface. cbv zeta.
  rewrite !length_app.
  pose proof (length_concat_ge other_item entry.2 ltac:(intros; cbn; lia)).
  pose proof (length_concat_ge encode_endpoint
                (firstn (Z.to_nat (endpoint_count entry.1)) (endpoints entry.1))
                ltac:(intros; cbn; lia)).
  cbn [length]. lia.
Qed.

Lemma items_le_length cfg :
  Forall (fun entry => table_entry entry.1 /\ Forall skipped_item entry.2) cfg ->
  (list_sum (map item_count cfg) <= length (concat (map encode_interface cfg)))%nat.
Proof.
  induction 1 as [|entry cfg [Htab _] _ IH]; [cbn; lia|].
  change (list_sum (map item_count (entry :: cfg)))
    with (item_count entry + list_sum (map item_count cfg))%nat.
  cbn [map concat]. rewrite length_app. pose proof (item_count_le_length entry Htab). lia.
Qed.

Lemma prefix_items_le_length pre cfg :
  Forall (fun entry => table_entry entry.1 /\ Forall skipped_item entry.2) cfg ->
  (length pre + list_sum (map item_count cfg) <= length (encode_configuration pre cfg))%nat.
Proof.
  intros Hcfg. unfold encode_configuration. rewrite length_app.
  pose proof (length_concat_ge other_item pre ltac:(intros; cbn; lia)).
  pose proof (items_le_length cfg Hcfg). lia.
Qed.

(** The walk over the well-formed part of a descriptor. *)
Lemma walk_prefix ep0 pre cfg tail conf n :
  conf = encode_configuration pre cfg ++ tail ->
  Forall skipped_item pre ->
  (length cfg <= 4)%nat ->
  Forall (fun entry => table_entry entry.1 /\ Forall skipped_item entry.2) cfg ->
  walk (length pre + (list_sum (map item_count cfg) + n)) (fresh_device ep0 conf) conf 0
    = walk n
        (mkDevice ep0 (Some conf) (Z.of_nat (length conf)) (Z.of_nat (length cfg))
           (map fst cfg ++ repeat zero_interface (4 - length cfg)))
        conf (Z.of_nat (length (encode_configuration pre cfg))).
Proof.
  intros Hconf Hpre Hn Hcfg. unfold encode_configuration in *.
  unfold fresh_device. set (u := mkDevice _ _ _ _ _).
  assert (E1 : conf = [] ++ concat (map other_item pre)
                 ++ (concat (map encode_interface cfg) ++ tail))
    by (rewrite Hconf, <- !app_assoc; reflexivity).
  change 0 with (Z.of_nat (length (@nil Z))).
  rewrite (walk_others pre _ u conf [] _ E1 eq_refl Hpre).
  assert (E2 : conf = ([] ++ concat (map other_item pre))
                 ++ concat (map encode_interface cfg) ++ tail)
    by (rewrite Hconf, <- !app_assoc; reflexivity).
  rewrite (walk_interfaces cfg _ u conf _ tail [] E2 eq_refl eq_refl eq_refl
             ltac:(cbn [length]; lia) Hcfg).
  unfold set_interfaces, u. cbn [app ep0_max_packet raw_conf_desc raw_conf_desc_len].
  rewrite length_map. reflexivity.
Qed.

Lemma split_fuel (a b : nat) : (a <= b)%nat -> b = (a + (b - a))%nat.
Proof. lia. Qed.

(** X18. parse_config_descriptor reads back what a well-formed
    configuration descriptor spells: for a descriptor made of descriptors
    of other types followed by at most USB_MAX_INTERFACES interfaces, each
    an interface descriptor, class descriptors and bNumEndpoints (at most
    USB_MAX_ENDPOINTS) endpoint descriptors, the walk on the device as
    memset left it returns CH37X_HOST_SUCCESS with interface_count the
    number of interfaces, the table holding exactly the interfaces spelled,
    in order, with their endpoints in order (address, attributes, packet
    size read little-endian, interval, toggle DATA0), and the unused slots
    still zero. *)
Theorem parse_reads_back_configuration (ep0 : Z) (pre : list (Z * list Z))
    (cfg : list (USB_Interface_t * list (Z * list Z))) :
  Forall skipped_item pre ->
  (length cfg <= Z.to_nat USB_MAX_INTERFACES)%nat ->
  Forall (fun entry => table_entry entry.1 /\ Forall skipped_item entry.2) cfg ->
  encode_configuration pre cfg <> [] ->
  parse_config_descriptor (fresh_device ep0 (encode_configuration pre cfg))
    = Parsed (mkDevice ep0 (Some (encode_configuration pre cfg))
                (Z.of_nat (length (encode_configuration pre cfg)))
                (Z.of_nat (length cfg))
                (map fst cfg
                   ++ repeat zero_interface (Z.to_nat USB_MAX_INTERFACES - length cfg))).
Proof.
  intros Hpre Hn Hcfg Hne. unfold USB_MAX_INTERFACES in *.
  change (Z.to_nat 4) with 4%nat in *.
  set (conf := encode_configuration pre cfg) in *.
  unfold parse_config_descriptor.
  cbn [fresh_device raw_conf_desc raw_conf_desc_len].
  destruct (decide (0 = Z.of_nat (length conf))) as [H0|_];
    [destruct conf; [congruence | cbn [length] in H0; lia]|].
  pose proof (prefix_items_le_length pre cfg Hcfg) as Hle. fold conf in Hle.
  rewrite (f_equal (fun k => walk k _ _ _) (split_fuel _ _ Hle)).
  rewrite <- Nat.add_assoc.
  rewrite (walk_prefix ep0 pre cfg [] conf _ (eq_sym (app_nil_r _)) Hpre Hn Hcfg).
  fold conf. apply walk_done. cbn [raw_conf_desc_len]. lia.
Qed.

(** X19. How the walk ends on what follows the well-formed part of a
    descriptor: a single trailing byte is not looked at and the result is
    CH37X_HOST_SUCCESS with the table of the well-formed part; a descriptor
    whose bLength is 0, or whose bLength reaches beyond raw_conf_desc_len,
    ends the walk with CH37X_HOST_ERROR whatever its type. *)
Theorem walk_ends_at_malformed_item (ep0 : Z) (pre : list (Z * list Z))
    (cfg : list (USB_Interface_t * list (Z * list Z))) :
  Forall skipped_item pre ->
  (length cfg <= Z.to_nat USB_MAX_INTERFACES)%nat ->
  Forall (fun entry => table_entry entry.1 /\ Forall skipped_item entry.2) cfg ->
  (forall b,
     parse_config_descriptor (fresh_device ep0 (encode_configuration pre cfg ++ [b]))
       = Parsed (mkDevice ep0 (Some (encode_configuration pre cfg ++ [b]))
                   (Z.of_nat (length (encode_configuration pre cfg)) + 1)
                   (Z.of_nat (length cfg))
                   (map fst cfg
                      ++ repeat zero_interface (Z.to_nat USB_MAX_INTERFACES - length cfg))))
  /\
  (forall bLength bDescriptorType rest,
     bLength = 0 \/ 2 + Z.of_nat (length rest) < bLength ->
     parse_config_descriptor
       (fresh_device ep0 (encode_configuration pre cfg ++ bLength :: bDescriptorType :: rest))
       = HostError).
Proof.
  intros Hpre Hn Hcfg. unfold USB_MAX_INTERFACES in *.
  change (Z.to_nat 4) with 4%nat in *.
  pose proof (prefix_items_le_length pre cfg Hcfg) as Hle.
  set (enc := encode_configuration pre cfg) in *.
  split.
  - intros b. set (conf := enc ++ [b]).
    unfold parse_config_descriptor.
    cbn [fresh_device raw_conf_desc raw_conf_desc_len].
    assert (Hlen : length conf = S (length enc))
      by (unfold conf; rewrite length_app; cbn [length]; lia).
    destruct (decide (0 = Z.of_nat (length conf))) as [H0|_]; [lia|].
    assert (Hle' : (length pre + list_sum (map item_count cfg) <= length conf)%nat) by lia.
    rewrite (f_equal (fun k => walk k _ _ _) (split_fuel _ _ Hle')).
    rewrite <- Nat.add_assoc.
    rewrite (walk_prefix ep0 pre cfg [b] conf _ eq_refl Hpre Hn Hcfg).
    fold enc. rewrite walk_done by (cbn [raw_conf_desc_len]; lia).
    do 2 f_equal. lia.
  - intros bLength ty rest Hbad. set (conf := enc ++ bLength :: ty :: rest).
    unfold parse_config_descriptor.
    cbn [fresh_device raw_conf_desc raw_conf_desc_len].
    assert (Hlen : length conf = S (S (length enc + length rest)))
      by (unfold conf; rewrite length_app; cbn [length]; lia).
    destruct (decide (0 = Z.of_nat (length conf))) as [H0|_]; [lia|].
    assert (Hle' : (length pre + list_sum (map item_count cfg) <= length conf)%nat) by lia.
    rewrite (f_equal (fun k => walk k _ _ _) (split_fuel _ _ Hle')).
    rewrite <- Nat.add_assoc.
    rewrite (walk_prefix ep0 pre cfg (bLength :: ty :: rest) conf _ eq_refl Hpre Hn Hcfg).
    fold enc.
    replace (length conf - (length pre + list_sum (map item_count cfg)))%nat
      with (S (length conf - (length pre + list_sum (map item_count cfg)) - 1)) by lia.
    rewrite walk_unfold. cbn [raw_conf_desc_len].
    destruct (decide (Z.of_nat (length enc) + 2 <= Z.of_nat (length conf))); [|lia].
    pose proof (load_at enc (bLength :: ty :: rest) [] 0 bLength eq_refl) as L0.
    pose proof (load_at enc (bLength :: ty :: rest) [] 1 ty eq_refl) as L1.
    rewrite app_nil_r, Z.add_0_r in L0. rewrite app_nil_r in L1.
    change (Z.of_nat 1) with 1 in L1. fold conf in L0, L1.
    rewrite L0, L1.
    destruct (decide (0 = bLength)); [reflexivity|].
    destruct (decide (Z.of_nat (length enc) + bLength > Z.of_nat (length conf)));
      [reflexivity|lia].
Qed.

(** X20. parse_interface_descriptor reads the interface fields up to
    offset 7 without looking at bLength: when the descriptor ends with an
    interface descriptor of fewer than 8 bytes whose bLength is its true
    length, the walk accepts the item and then reads beyond the
    raw_conf_desc_len bytes of the descriptor. *)
Theorem walk_reads_past_short_interface (ep0 : Z) (pre : list (Z * list Z))
    (cfg : list (USB_Interface_t * list (Z * list Z))) (rest : list Z) :
  Forall skipped_item pre ->
  (length cfg <= Z.to_nat USB_MAX_INTERFACES)%nat ->
  Forall (fun entry => table_entry entry.1 /\ Forall skipped_item entry.2) cfg ->
  (length rest < 6)%nat ->
  parse_config_descriptor
    (fresh_device ep0 (encode_configuration pre cfg
                         ++ other_item (USB_DESC_INTERFACE, rest)))
    = ReadPastEnd.
Proof.
  intros Hpre Hn Hcfg Hrest. unfold USB_MAX_INTERFACES in *.
  change (Z.to_nat 4) with 4%nat in *.
  pose proof (prefix_items_le_length pre cfg Hcfg) as Hle.
  set (enc := encode_configuration pre cfg) in *.
  set (item := other_item (USB_DESC_INTERFACE, rest)).
  set (conf := enc ++ item).
  unfold parse_config_descriptor.
  cbn [fresh_device raw_conf_desc raw_conf_desc_len].
  assert (Hlen : length conf = S (S (length enc + length rest)))
    by (unfold conf, item, other_item; rewrite length_app; cbn [length snd]; lia).
  destruct (decide (0 = Z.of_nat (length conf))) as [H0|_]; [lia|].
  assert (Hle' : (length pre + list_sum (map item_count cfg) <= length conf)%nat) by lia.
  rewrite (f_equal (fun k => walk k _ _ _) (split_fuel _ _ Hle')).
  rewrite <- Nat.add_assoc.
  rewrite (walk_prefix ep0 pre cfg item conf _ eq_refl Hpre Hn Hcfg).
  fold enc.
  replace (length conf - (length pre + list_sum (map item_count cfg)))%nat
    with (S (length conf - (length pre + list_sum (map item_count cfg)) - 1)) by lia.
  rewrite walk_unfold. cbn [raw_conf_desc_len].
  destruct (decide (Z.of_nat (length enc) + 2 <= Z.of_nat (length conf))); [|lia].
  pose proof (load_at enc item [] 0 _ eq_refl) as L0.
  pose proof (load_at enc item [] 1 _ eq_refl) as L1.
  rewrite app_nil_r, Z.add_0_r in L0. rewrite app_nil_r in L1.
  change (Z.of_nat 1) with 1 in L1. fold conf in L0, L1.
  rewrite L0, L1. cbn [fst snd].
  destruct (decide (0 = 2 + Z.of_nat (length rest))); [lia|].
  destruct (decide (Z.of_nat (length enc) + (2 + Z.of_nat (length rest))
                    > Z.of_nat (length conf))); [lia|].
  destruct (decide (USB_DESC_INTERFACE = USB_DESC_INTERFACE)); [|congruence].
  unfold parse_interface_descriptor.
  assert (L7 : load conf (Z.of_nat (length enc) + 7) = None).
  { unfold load. destruct (decide (0 <= Z.of_nat (length enc) + 7)); [|reflexivity].
    apply lookup_ge_None_2. lia. }
  rewrite L7.
  destruct (load conf (Z.of_nat (length enc) + 2)); [|reflexivity].
  destruct (load conf (Z.of_nat (length enc) + 5)); [|reflexivity].
  destruct (load conf (Z.of_nat (length enc) + 6)); reflexivity.
Qed.

End WalkReadsBack.

Section WalkReadsBackWitness.
Import Cint Usb Host.

Lemma sample_mouse_entry_valid :
  table_entry sample_mouse_entry.1 /\ Forall skipped_item sample_mouse_entry.2.
Proof.
  split.
  - split; [vm_compute; split; congruence|]. split; [reflexivity|].
    intros j e Hj.
    destruct j as [|[|[|[|j]]]]; cbn in Hj; inversion Hj; subst e; clear Hj;
      vm_compute; repeat split; congruence.
  - apply List.Forall_cons; [|apply List.Forall_nil].
    split; vm_compute; congruence.
Qed.

Lemma parse_reads_back_configuration_witness :
  encode_configuration [(0x02, [0x22; 0x00; 0x01; 0x01; 0x00; 0xA0; 0x32])]
                       [sample_mouse_entry]
    = [0x09; 0x02; 0x22; 0x00; 0x01; 0x01; 0x00; 0xA0; 0x32;
       0x09; 0x04; 0x00; 0x00; 0x01; 0x03; 0x01; 0x02; 0x00;
       0x09; 0x21; 0x11; 0x01; 0x00; 0x01; 0x22; 0x34; 0x00;
       0x07; 0x05; 0x81; 0x03; 0x04; 0x00; 0x0A] /\
  parse_config_descriptor
    (fresh_device 8
       (encode_configuration [(0x02, [0x22; 0x00; 0x01; 0x01; 0x00; 0xA0; 0x32])]
                             [sample_mouse_entry]))
    = Parsed (mkDevice 8
                (Some (encode_configuration
                         [(0x02, [0x22; 0x00; 0x01; 0x01; 0x00; 0xA0; 0x32])]
                         [sample_mouse_entry]))
                34 1
                (sample_mouse_entry.1 :: repeat zero_interface 3)).
Proof.
  split; [reflexivity|].
  apply (parse_reads_back_configuration 8
           [(0x02, [0x22; 0x00; 0x01; 0x01; 0x00; 0xA0; 0x32])] [sample_mouse_entry]).
  - apply List.Forall_cons; [|apply List.Forall_nil]. split; vm_compute; congruence.
  - vm_compute. lia.
  - apply List.Forall_cons; [|apply List.Forall_nil]. exact sample_mouse_entry_valid.
  - vm_compute. congruence.
Defined.

Lemma walk_ends_at_malformed_item_witness :
  (forall b,
     parse_config_descriptor (fresh_device 8 (encode_configuration [] [sample_mouse_entry] ++ [b]))
       = Parsed (mkDevice 8 (Some (encode_configuration [] [sample_mouse_entry] ++ [b]))
                   (Z.of_nat (length (encode_configuration [] [sample_mouse_entry])) + 1)
                   (Z.of_nat (length [sample_mouse_entry]))
                   (map fst [sample_mouse_entry]
                      ++ repeat zero_interface
                           (Z.to_nat USB_MAX_INTERFACES - length [sample_mouse_entry]))))
  /\
  (forall bLength bDescriptorType rest,
     bLength = 0 \/ 2 + Z.of_nat (length rest) < bLength ->
     parse_config_descriptor
       (fresh_device 8 (encode_configuration [] [sample_mouse_entry]
                          ++ bLength :: bDescriptorType :: rest))
       = HostError).
Proof.
  apply (walk_ends_at_malformed_item 8 [] [sample_mouse_entry]).
  - apply List.Forall_nil.
  - vm_compute. lia.
  - apply List.Forall_cons; [|apply List.Forall_nil]. exact sample_mouse_entry_valid.
Defined.

Lemma walk_reads_past_short_interface_witness :
  parse_config_descriptor
    (fresh_device 8 (encode_configuration [] [sample_mouse_entry]
                       ++ other_item (USB_DESC_INTERFACE, [0x01; 0x00])))
    = ReadPastEnd.
Proof.
  apply (walk_reads_past_short_interface 8 [] [sample_mouse_entry] [0x01; 0x00]).
  - apply List.Forall_nil.
  - vm_compute. lia.
  - apply List.Forall_cons; [|apply List.Forall_nil]. exact sample_mouse_entry_valid.
  - cbn [length]. lia.
Defined.

End WalkReadsBackWitness.

Section WalkTerminates.
Import Cint Usb Host.

Lemma parse_interface_keeps_len u buf p u' :
  parse_interface_descriptor u buf p = Parsed u' ->
  raw_conf_desc_len u' = raw_conf_desc_len u.
Proof.
  unfold parse_interface_descriptor. intros H.
  repeat match type of H with
         | match ?x with _ => _ end = _ => destruct x; try discriminate
         | (if ?c then _ else _) = _ => destruct c; try discriminate
         end.
  injection H as <-. reflexivity.
Qed.

Lemma parse_endpoint_keeps_len u buf p u' :
  parse_endpoint_descriptor u buf p = Parsed u' ->
  raw_conf_desc_len u' = raw_conf_desc_len u.
Proof.
  unfold parse_endpoint_descriptor. intros H.
  repeat match type of H with
         | match ?x with _ => _ end = _ => destruct x; try discriminate
         | (if ?c then _ else _) = _ => destruct c; try discriminate
         end.
  injection H as <-. reflexivity.
Qed.

Lemma walk_within_fuel (n : nat) : forall u buf p,
  Forall (fun b => 0 <= b) buf ->
  raw_conf_desc_len u - p <= Z.of_nat n ->
  walk n u buf p <> OutOfFuel.
Proof.
  induction n as [|n IH]; intros u buf p Hbytes Hfuel.
  - cbn [walk]. cbv zeta. destruct (decide (p + 2 <= raw_conf_desc_len u)); [lia|discriminate].
  - rewrite walk_unfold.
    destruct (decide (p + 2 <= raw_conf_desc_len u)); [|discriminate].
    destruct (load buf p) as [bLength|] eqn:L0; [|discriminate].
    destruct (load buf (p + 1)) as [ty|]; [|discriminate].
    destruct (decide (0 = bLength)); [discriminate|].
    destruct (decide (p + bLength > raw_conf_desc_len u)); [discriminate|].
    assert (Hpos : 0 <= bLength).
    { unfold load in L0. destruct (decide (0 <= p)); [|discriminate].
      exact (Forall_lookup_1 _ _ _ _ Hbytes L0). }
    destruct (decide (ty = USB_DESC_INTERFACE)).
    + destruct (parse_interface_descriptor u buf p) as [u'| | | |] eqn:E; try discriminate.
      * apply IH; [assumption|]. rewrite (parse_interface_keeps_len _ _ _ _ E). lia.
      * unfold parse_interface_descriptor in E.
        repeat match type of E with
               | match ?x with _ => _ end = _ => destruct x; try discriminate
               | (if ?c then _ else _) = _ => destruct c; try discriminate
               end.
    + destruct (decide (ty = USB_DESC_ENDPOINT)).
      * destruct (parse_endpoint_descriptor u buf p) as [u'| | | |] eqn:E; try discriminate.
        -- apply IH; [assumption|]. rewrite (parse_endpoint_keeps_len _ _ _ _ E). lia.
        -- unfold parse_endpoint_descriptor in E.
           repeat match type of E with
                  | match ?x with _ => _ end = _ => destruct x; try discriminate
                  | (if ?c then _ else _) = _ => destruct c; try discriminate
                  end.
      * apply IH; [assumption|lia].
Qed.

(** X21. The walk of parse_config_descriptor always ends: on a descriptor
    of bytes it makes at most raw_conf_desc_len iterations, whatever the
    bytes are, because an item with bLength 0 ends it with an error and any
    other item moves the cursor forward. *)
Theorem parse_config_descriptor_terminates (u : USB_Device_t) (buf : list Z) :
  raw_conf_desc u = Some buf ->
  Forall (fun b => 0 <= b < 256) buf ->
  raw_conf_desc_len u <= Z.of_nat (length buf) ->
  parse_config_descriptor u <> OutOfFuel.
Proof.
  intros Hbuf Hbytes Hlen. unfold parse_config_descriptor. rewrite Hbuf.
  destruct (decide (0 = raw_conf_desc_len u)); [discriminate|].
  apply walk_within_fuel; [|lia].
  eapply Forall_impl; [exact Hbytes|]. intros b Hb. cbv beta in Hb. lia.
Qed.

End WalkTerminates.

Section WalkTerminatesWitness.
Import Cint Usb Host.

Lemma parse_config_descriptor_terminates_witness :
  parse_config_descriptor (fresh_device 8 sampleMouseConfig) <> OutOfFuel.
Proof.
  apply (parse_config_descriptor_terminates (fresh_device 8 sampleMouseConfig)
           sampleMouseConfig).
  - reflexivity.
  - unfold sampleMouseConfig. cbn [app].
    repeat (apply List.Forall_cons; [lia|]). apply List.Forall_nil.
  - cbn. lia.
Defined.

End WalkTerminatesWitness.

(** ** ch375_host.c: get_endpoint *)
Section EndpointLookupFacts.
Import Cint Usb Host.

Lemma find_endpoint_spec (eps : list USB_Endpoint_t) : forall (j n : nat) epAddr,
  match find_endpoint eps j n epAddr with
  | Some r =>
      exists (k : nat) e, r = (j + k)%nat /\ (k < n)%nat /\ eps !! k = Some e /\
        ep_addr e = epAddr /\
        forall (k' : nat) e', (k' < k)%nat -> eps !! k' = Some e' -> ep_addr e' <> epAddr
  | None => forall (k : nat) e, (k < n)%nat -> eps !! k = Some e -> ep_addr e <> epAddr
  end.
Proof.
  induction eps as [|e0 eps IH]; intros j n epAddr.
  - destruct n; cbn [find_endpoint]; intros k e _ H; rewrite lookup_nil in H; discriminate.
  - destruct n as [|n]; cbn [find_endpoint]; [intros k e Hk; lia|].
    destruct (decide (ep_addr e0 = epAddr)) as [Heq|Hne].
    + exists 0%nat, e0. repeat split; [lia|lia|assumption|]. intros k' e' Hk'. lia.
    + specialize (IH (S j) n epAddr).
      destruct (find_endpoint eps (S j) n epAddr) as [r|].
      * destruct IH as (k & e & -> & Hk & He & Ha & Hfirst).
        exists (S k), e. repeat split; [lia|lia|exact He|exact Ha|].
        intros [|k'] e' Hk' He'; cbn in He'; [congruence|].
        apply (Hfirst k' e'); [lia|exact He'].
      * intros [|k] e Hk He; cbn in He; [congruence|].
        apply (IH k e); [lia|exact He].
Qed.

Lemma find_interface_spec (ifs : list USB_Interface_t) : forall (i n : nat) epAddr,
  match find_interface ifs i n epAddr with
  | Some (ri, rj) =>
      exists (k : nat) ifc e, ri = (i + k)%nat /\ (k < n)%nat /\ ifs !! k = Some ifc /\
        endpoints ifc !! rj = Some e /\ Z.of_nat rj < endpoint_count ifc /\
        ep_addr e = epAddr /\
        forall (k' j' : nat) ifc' e',
          ifs !! k' = Some ifc' -> endpoints ifc' !! j' = Some e' ->
          Z.of_nat j' < endpoint_count ifc' ->
          (k' < k)%nat \/ (k' = k /\ (j' < rj)%nat) -> ep_addr e' <> epAddr
  | None =>
      forall (k j' : nat) ifc e, (k < n)%nat -> ifs !! k = Some ifc ->
        endpoints ifc !! j' = Some e -> Z.of_nat j' < endpoint_count ifc ->
        ep_addr e <> epAddr
  end.
Proof.
  induction ifs as [|ifc0 ifs IH]; intros i n epAddr.
  - destruct n; cbn [find_interface]; intros k j' ifc e _ H; rewrite lookup_nil in H;
      discriminate.
  - destruct n as [|n]; cbn [find_interface]; [intros k j' ifc e Hk; lia|].
    pose proof (find_endpoint_spec (endpoints ifc0) 0 (Z.to_nat (endpoint_count ifc0)) epAddr)
      as He.
    destruct (find_endpoint (endpoints ifc0) 0 (Z.to_nat (endpoint_count ifc0)) epAddr)
      as [rj|].
    + destruct He as (k & e & -> & Hk & Hl & Ha & Hfirst). cbn [Nat.add].
      exists 0%nat, ifc0, e. repeat split; [lia|lia|exact Hl|lia|exact Ha|].
      intros k' j' ifc' e' Hi' He' Hj' [Hlt|[-> Hlt]]; [lia|].
      cbn in Hi'. injection Hi' as <-. apply (Hfirst j' e'); assumption.
    + specialize (IH (S i) n epAddr).
      destruct (find_interface ifs (S i) n epAddr) as [[ri rj]|].
      * destruct IH as (k & ifc & e & -> & Hk & Hi & Hl & Hj & Ha & Hfirst).
        exists (S k), ifc, e. repeat split; [lia|lia|exact Hi|exact Hl|exact Hj|exact Ha|].
        intros [|k'] j' ifc' e' Hi' He' Hj' Hord; cbn in Hi'.
        -- injection Hi' as <-. apply (He j' e'); [lia|exact He'].
        -- apply (Hfirst k' j' ifc' e' Hi' He' Hj'). lia.
      * intros [|k] j' ifc e Hk Hi Hl Hj; cbn in Hi.
        -- injection Hi as <-. apply (He j' e); [lia|exact Hl].
        -- apply (IH k j' ifc e); [lia|assumption..].
Qed.

(** X22. get_endpoint looks an endpoint address up in the tables: address
    0 is never found; otherwise the result is the first slot, by interface
    and then by endpoint index, among the interface_count interfaces and
    the endpoint_count endpoints of each, whose ep_addr is the address
    asked for; slots beyond the counts are not looked at, and the lookup
    fails exactly when no slot in use has the address. *)
Theorem get_endpoint_finds_first (u : USB_Device_t) (epAddr : Z) :
  0 <= interface_count u <= Z.of_nat (length (interfaces u)) ->
  (forall (i : nat) ifc, interfaces u !! i = Some ifc -> Z.of_nat i < interface_count u ->
     0 <= endpoint_count ifc <= Z.of_nat (length (endpoints ifc))) ->
  match get_endpoint u epAddr with
  | Some (i, j) =>
      epAddr <> 0 /\
      exists ifc e,
        interfaces u !! i = Some ifc /\ Z.of_nat i < interface_count u /\
        endpoints ifc !! j = Some e /\ Z.of_nat j < endpoint_count ifc /\
        ep_addr e = epAddr /\
        forall (i' j' : nat) ifc' e',
          interfaces u !! i' = Some ifc' -> endpoints ifc' !! j' = Some e' ->
          Z.of_nat j' < endpoint_count ifc' ->
          (i' < i)%nat \/ (i' = i /\ (j' < j)%nat) -> ep_addr e' <> epAddr
  | None =>
      epAddr = 0 \/
      forall (i j : nat) ifc e,
        interfaces u !! i = Some ifc -> Z.of_nat i < interface_count u ->
        endpoints ifc !! j = Some e -> Z.of_nat j < endpoint_count ifc ->
        ep_addr e <> epAddr
  end.
Proof.
  intros Hcount Hslots. unfold get_endpoint.
  destruct (decide (0 = epAddr)) as [H0|H0]; [left; congruence|].
  pose proof (find_interface_spec (interfaces u) 0 (Z.to_nat (interface_count u)) epAddr)
    as H.
  destruct (find_interface (interfaces u) 0 (Z.to_nat (interface_count u)) epAddr)
    as [[i j]|].
  - destruct H as (k & ifc & e & -> & Hk & Hi & Hl & Hj & Ha & Hfirst). cbn [Nat.add].
    split; [congruence|]. exists ifc, e.
    split; [exact Hi|]. split; [lia|]. split; [exact Hl|]. split; [exact Hj|].
    split; [exact Ha|]. exact Hfirst.
  - right. intros i j ifc e Hi Hlt Hl Hj. apply (H i j ifc e); [lia|assumption..].
Qed.

End EndpointLookupFacts.

Section EndpointLookupWitness.
Import Cint Usb Host.

Lemma get_endpoint_finds_first_witness :
  match get_endpoint test_device 0x02 with
  | Some (i, j) =>
      0x02 <> 0 /\
      exists ifc e,
        interfaces test_device !! i = Some ifc /\ Z.of_nat i < interface_count test_device /\
        endpoints ifc !! j = Some e /\ Z.of_nat j < endpoint_count ifc /\
        ep_addr e = 0x02 /\
        forall (i' j' : nat) ifc' e',
          interfaces test_device !! i' = Some ifc' -> endpoints ifc' !! j' = Some e' ->
          Z.of_nat j' < endpoint_count ifc' ->
          (i' < i)%nat \/ (i' = i /\ (j' < j)%nat) -> ep_addr e' <> 0x02
  | None =>
      0x02 = 0 \/
      forall (i j : nat) ifc e,
        interfaces test_device !! i = Some ifc -> Z.of_nat i < interface_count test_device ->
        endpoints ifc !! j = Some e -> Z.of_nat j < endpoint_count ifc ->
        ep_addr e <> 0x02
  end.
Proof.
  apply (get_endpoint_finds_first test_device 0x02).
  - vm_compute. split; congruence.
  - intros i ifc Hi Hlt. change (interface_count test_device) with 1 in Hlt.
    destruct i as [|i]; [|lia]. cbn in Hi. injection Hi as <-.
    vm_compute. split; congruence.
Defined.

End EndpointLookupWitness.

(** ** ch375_host.c: bulk OUT transfers *)
Section BulkOutFacts.
Import Cint Chip Usb Host.

Lemma endpoint_at_flip u at_ e :
  endpoint_at u at_ = Some e ->
  endpoint_at (flip_toggle u at_) at_ = Some (set_data_toggle e (negb (data_toggle e))).
Proof.
  unfold endpoint_at, flip_toggle. destruct at_ as [i j]. simpl.
  destruct (interfaces u !! i) as [ifc|] eqn:Hi; [|discriminate]. simpl.
  intros He. rewrite list_lookup_alter_eq, Hi. simpl.
  rewrite list_lookup_alter_eq, He. reflexivity.
Qed.

Lemma written_app a b : written (a ++ b) = written a ++ written b.
Proof. unfold written. rewrite map_app, concat_app. reflexivity. Qed.

Lemma tokens_sent_app a b : tokens_sent (a ++ b) = tokens_sent a ++ tokens_sent b.
Proof. unfold tokens_sent. rewrite map_app, concat_app. reflexivity. Qed.

Lemma packets_of_0 mp : 0 < mp -> packets_of 0 mp = 0%nat.
Proof.
  intros Hmp. unfold packets_of. rewrite Z.div_small by lia. reflexivity.
Qed.

Lemma packets_of_pos r mp : 0 < mp -> 0 < r -> (0 < packets_of r mp)%nat.
Proof.
  intros Hmp Hr. unfold packets_of.
  assert (1 <= (r + mp - 1) / mp) by (apply Z.div_le_lower_bound; lia). lia.
Qed.

Lemma packets_of_step r mp :
  0 < mp -> 0 < r ->
  packets_of r mp = S (packets_of (r - (if decide (r > mp) then mp else r)) mp).
Proof.
  intros Hmp Hr. unfold packets_of. destruct (decide (r > mp)).
  - replace (r + mp - 1) with ((r - mp + mp - 1) + 1 * mp) by lia.
    rewrite Z.div_add by lia.
    assert (0 <= (r - mp + mp - 1) / mp) by (apply Z.div_pos; lia). lia.
  - replace (r - r + mp - 1) with (mp - 1) by lia.
    rewrite (Z.div_small (mp - 1)) by lia.
    replace (r + mp - 1) with ((r - 1) + 1 * mp) by lia.
    rewrite Z.div_add, Z.div_small by lia. reflexivity.
Qed.

Lemma take_add {A} (l : list A) (a b : nat) :
  take (a + b) l = take a l ++ take b (drop a l).
Proof.
  revert l. induction a as [|a IH]; intros [|x l]; cbn; try reflexivity.
  - rewrite take_nil. reflexivity.
  - f_equal. apply IH.
Qed.

Lemma bulk_out_iteration ep at_ st e r1 r2 rest lg :
  EP_IN ep = 0 ->
  endpoint_at (b_dev st) at_ = Some e ->
  accepts r1 -> accepts r2 ->
  bulk_iteration ep at_ st (mkChip (r1 :: r2 :: rest) lg)
    = Some (inl (mkBulk (flip_toggle (b_dev st) at_) (b_data st)
                   (b_resiLen st
                    - to_u8 (if decide (b_resiLen st > max_packet e)
                             then max_packet e else b_resiLen st))
                   (b_offset st
                    + to_u8 (if decide (b_resiLen st > max_packet e)
                             then max_packet e else b_resiLen st))
                   (b_timeout st)),
            mkChip rest
              ((lg ++ [WriteBlock
                         (block_of (b_data st) (b_offset st)
                            (to_u8 (if decide (b_resiLen st > max_packet e)
                                    then max_packet e else b_resiLen st)))])
                  ++ [SendToken ep (data_toggle e) USB_PID_OUT])).
Proof.
  intros Hout He [Hr1 _] [Hr2 Hs2].
  assert (Htr : bulk_transact ep e st (mkChip (r1 :: r2 :: rest) lg)
                = Some (Continue (CH37X_USB_INT_SUCCESS,
                                  to_u8 (if decide (b_resiLen st > max_packet e)
                                         then max_packet e else b_resiLen st)),
                        b_data st,
                        mkChip rest
                          ((lg ++ [WriteBlock
                                     (block_of (b_data st) (b_offset st)
                                        (to_u8 (if decide (b_resiLen st > max_packet e)
                                                then max_packet e else b_resiLen st)))])
                              ++ [SendToken ep (data_toggle e) USB_PID_OUT]))).
  { unfold bulk_transact. cbv zeta.
    destruct (decide (EP_IN ep <> 0)); [congruence|].
    run_chip. rewrite Hr1.
    destruct (decide (CH37X_SUCCESS <> CH37X_SUCCESS)); [congruence|].
    run_chip. rewrite Hr2, Hs2.
    destruct (decide (CH37X_SUCCESS <> CH37X_SUCCESS)); [congruence|].
    destruct (decide (CH37X_USB_INT_SUCCESS = CH37X_USB_INT_SUCCESS)); [|congruence].
    reflexivity. }
  rewrite (bulk_iteration_unfold ep at_ st e _ _ _ _ He Htr).
  unfold bulk_settle.
  destruct (decide (CH37X_USB_INT_SUCCESS = CH37X_USB_INT_SUCCESS)); [|congruence].
  run_chip. reflexivity.
Qed.

Lemma xorb_odd_succ t i : xorb t (Nat.odd (S i)) = xorb (negb t) (Nat.odd i).
Proof.
  rewrite Nat.odd_succ, <- Nat.negb_odd. destruct t, (Nat.odd i); reflexivity.
Qed.

Lemma bulk_out_run (k : nat) : forall n ep at_ st c e,
  EP_IN ep = 0 ->
  endpoint_at (b_dev st) at_ = Some e ->
  0 < max_packet e < 256 ->
  0 <= b_resiLen st -> 0 <= b_offset st ->
  packets_of (b_resiLen st) (max_packet e) = k -> (k <= n)%nat ->
  Forall accepts (pending c) -> (2 * k <= length (pending c))%nat ->
  exists st' c',
    bulk_loop n ep at_ st c
      = Some (CH37X_HOST_SUCCESS, Some (b_offset st + b_resiLen st), st', c') /\
    b_data st' = b_data st /\
    pending c' = drop (2 * k) (pending c) /\
    written (log c')
      = written (log c)
        ++ take (Z.to_nat (b_resiLen st)) (drop (Z.to_nat (b_offset st)) (b_data st)) /\
    tokens_sent (log c')
      = tokens_sent (log c)
        ++ map (fun i => (ep, xorb (data_toggle e) (Nat.odd i), USB_PID_OUT)) (seq 0 k) /\
    toggle_at (b_dev st') at_ = Some (xorb (data_toggle e) (Nat.odd k)).
Proof.
  induction k as [|k IH]; intros n ep at_ st c e Hout He Hmp Hr Ho Hk Hn Hacc Hlen.
  - assert (b_resiLen st = 0).
    { destruct (decide (0 < b_resiLen st)) as [Hp|]; [|lia].
      pose proof (packets_of_pos _ _ (proj1 Hmp) Hp). lia. }
    exists st, c. split.
    { destruct n; cbn [bulk_loop]; destruct (decide (b_resiLen st > 0)); try lia;
        rewrite H, Z.add_0_r; reflexivity. }
    rewrite H. cbn [Z.to_nat take map seq Nat.odd Nat.mul drop]. rewrite !app_nil_r.
    repeat split. unfold toggle_at. rewrite He. cbn. destruct (data_toggle e); reflexivity.
  - assert (Hpos : 0 < b_resiLen st).
    { destruct (decide (0 < b_resiLen st)) as [Hp|]; [exact Hp|].
      assert (b_resiLen st = 0) as H0 by lia. rewrite H0, packets_of_0 in Hk by lia.
      discriminate. }
    destruct n as [|n]; [lia|].
    destruct c as [pend lg]. cbn [pending log] in *.
    destruct pend as [|r1 [|r2 rest]]; cbn [length] in Hlen; try lia.
    inversion Hacc as [|? ? Ha1 Hacc1]; subst.
    inversion Hacc1 as [|? ? Ha2 Hacc2]; subst.
    set (len := to_u8 (if decide (b_resiLen st > max_packet e)
                       then max_packet e else b_resiLen st)).
    assert (Hlen8 : len = if decide (b_resiLen st > max_packet e)
                          then max_packet e else b_resiLen st).
    { unfold len. apply to_u_id. destruct (decide (b_resiLen st > max_packet e)); simpl; lia. }
    pose proof (bulk_out_iteration ep at_ st e r1 r2 rest lg Hout He Ha1 Ha2) as Hit.
    fold len in Hit.
    assert (Hgt : b_resiLen st > 0) by lia.
    rewrite (bulk_loop_step _ _ _ _ _ _ _ Hgt Hit).
    pose proof (packets_of_step _ _ (proj1 Hmp) Hpos) as Hstep.
    rewrite <- Hlen8 in Hstep.
    assert (Hlen_pos : 0 < len <= b_resiLen st)
      by (rewrite Hlen8; destruct (decide (b_resiLen st > max_packet e)); lia).
    edestruct (IH n ep at_
                 (mkBulk (flip_toggle (b_dev st) at_) (b_data st) (b_resiLen st - len)
                         (b_offset st + len) (b_timeout st))
                 (mkChip rest
                    ((lg ++ [WriteBlock (block_of (b_data st) (b_offset st) len)])
                        ++ [SendToken ep (data_toggle e) USB_PID_OUT]))
                 (set_data_toggle e (negb (data_toggle e))))
      as (st' & c' & Hrun & Hdata & Hpend & Hwr & Htok & Htog).
    + exact Hout.
    + cbn [b_dev]. apply endpoint_at_flip. exact He.
    + destruct e; cbn in *; lia.
    + cbn [b_resiLen]. lia.
    + cbn [b_offset]. lia.
    + cbn [b_resiLen]. replace (max_packet (set_data_toggle e (negb (data_toggle e))))
        with (max_packet e) by (destruct e; reflexivity). lia.
    + lia.
    + exact Hacc2.
    + cbn [pending]. lia.
    + exists st', c'. cbn [b_dev b_data b_resiLen b_offset b_timeout pending log] in *.
      replace (b_offset st + len + (b_resiLen st - len)) with (b_offset st + b_resiLen st)
        in Hrun by lia.
      split; [exact Hrun|].
      split; [exact Hdata|].
      split; [replace (2 * S k)%nat with (S (S (2 * k))) by lia; exact Hpend|].
      split.
      * rewrite Hwr, !written_app. cbn [written map concat]. rewrite !app_nil_r.
        rewrite <- !app_assoc. f_equal. unfold block_of.
        replace (Z.to_nat (b_resiLen st)) with (Z.to_nat len + Z.to_nat (b_resiLen st - len))%nat
          by lia.
        rewrite take_add, drop_drop.
        replace (Z.to_nat (b_offset st + len)) with (Z.to_nat (b_offset st) + Z.to_nat len)%nat
          by lia.
        reflexivity.
      * split.
        -- rewrite Htok, !tokens_sent_app. cbn [tokens_sent map concat]. rewrite !app_nil_r.
           rewrite <- !app_assoc. f_equal.
           change (seq 0 (S k)) with (0%nat :: seq 1 k). cbn [map app Nat.odd].
           replace (data_toggle (set_data_toggle e (negb (data_toggle e))))
             with (negb (data_toggle e)) by (destruct e; reflexivity).
           rewrite <- seq_shift, map_map. f_equal.
           ++ destruct (data_toggle e); reflexivity.
           ++ apply map_ext. intros i. rewrite xorb_odd_succ. reflexivity.
        -- rewrite Htog.
           replace (data_toggle (set_data_toggle e (negb (data_toggle e))))
             with (negb (data_toggle e)) by (destruct e; reflexivity).
           rewrite xorb_odd_succ. reflexivity.
Qed.

(** X23. A bulk OUT transfer against a chip that accepts every command
    and completes every token: for an endpoint with max_packet 1..255 and
    0 <= len within the caller's buffer, ch375_hostBulkTransfer returns
    CH37X_HOST_SUCCESS with *pActualLen = len after ceil(len / max_packet)
    packets; the bytes handed to the block writes, in order, are exactly
    the first len bytes of the buffer, every packet is followed by one OUT
    token to the endpoint, the tokens alternate the data toggle starting
    from the endpoint's, the endpoint is left with the toggle the next
    packet needs, and the caller's buffer is unchanged. *)
Theorem bulk_out_sends_all (fuel : nat) (u : USB_Device_t) (ep : Z) (at_ : nat * nat)
    (e : USB_Endpoint_t) (pData : list Z) (len timeout : Z) (c : chip_t) :
  get_endpoint u ep = Some at_ ->
  endpoint_at u at_ = Some e ->
  EP_IN ep = 0 ->
  0 < max_packet e < 256 ->
  0 <= len <= Z.of_nat (length pData) ->
  (packets_of len (max_packet e) <= fuel)%nat ->
  Forall accepts (pending c) ->
  (1 + 2 * packets_of len (max_packet e) <= length (pending c))%nat ->
  exists st' c',
    ch375_hostBulkTransfer fuel u ep pData len timeout c
      = Some (CH37X_HOST_SUCCESS, Some len, st', c') /\
    b_data st' = pData /\
    written (log c') = written (log c) ++ take (Z.to_nat len) pData /\
    length (take (Z.to_nat len) pData) = Z.to_nat len /\
    tokens_sent (log c')
      = tokens_sent (log c)
        ++ map (fun i => (ep, xorb (data_toggle e) (Nat.odd i), USB_PID_OUT))
               (seq 0 (packets_of len (max_packet e))) /\
    toggle_at (b_dev st') at_
      = Some (xorb (data_toggle e) (Nat.odd (packets_of len (max_packet e)))) /\
    pending c' = drop (1 + 2 * packets_of len (max_packet e)) (pending c).
Proof.
  intros Hget He Hout Hmp Hlen Hfuel Hacc Hpend.
  unfold ch375_hostBulkTransfer. cbv zeta. rewrite Hget.
  destruct c as [pend lg]. cbn [pending log] in *.
  destruct pend as [|r0 rest]; cbn [length] in Hpend; [lia|].
  inversion Hacc as [|? ? [Hr0 _] Hacc0]; subst.
  run_chip. rewrite Hr0.
  destruct (decide (CH37X_SUCCESS <> CH37X_SUCCESS)); [congruence|].
  destruct (bulk_out_run (packets_of len (max_packet e)) fuel ep at_
              (mkBulk u pData len 0 timeout) (mkChip rest (lg ++ [SetRetry CH37X_RETRY_TIMES_ZERO]))
              e Hout He Hmp ltac:(cbn; lia) ltac:(cbn; lia) eq_refl Hfuel Hacc0
              ltac:(cbn [pending]; lia))
    as (st' & c' & Hrun & Hdata & Hp & Hwr & Htok & Htog).
  cbn [b_dev b_data b_resiLen b_offset] in Hrun, Hdata, Hwr.
  change (pending (mkChip rest (lg ++ [SetRetry CH37X_RETRY_TIMES_ZERO]))) with rest in Hp.
  change (log (mkChip rest (lg ++ [SetRetry CH37X_RETRY_TIMES_ZERO])))
    with (lg ++ [SetRetry CH37X_RETRY_TIMES_ZERO]) in Hwr, Htok.
  change (Z.to_nat 0) with 0%nat in Hwr. rewrite drop_0 in Hwr.
  exists st', c'. rewrite Z.add_0_l in Hrun.
  change (let (_, log0) := c' in log0) with (log c').
  change (let (pending0, _) := c' in pending0) with (pending c').
  split; [exact Hrun|]. split; [exact Hdata|].
  split; [rewrite Hwr, written_app; cbn [written map concat app]; rewrite app_nil_r;
          reflexivity|].
  split; [rewrite length_take; lia|].
  split; [rewrite Htok, tokens_sent_app; cbn [tokens_sent map concat app];
          rewrite app_nil_r; reflexivity|].
  split; [exact Htog|]. exact Hp.
Qed.

(** X24. ch375_hostBulkTransfer asks get_endpoint before it touches the
    chip: for endpoint address 0, or an address that no endpoint slot in
    use carries, it returns CH37X_HOST_PARAM_INVALID, sends nothing to the
    chip, stores no actual length and leaves device and buffer as they
    were. *)
Theorem bulk_refuses_unknown_endpoint (fuel : nat) (u : USB_Device_t) (ep : Z)
    (pData : list Z) (len timeout : Z) (c : chip_t) :
  (ep = 0 \/
   forall (i j : nat) ifc e,
     interfaces u !! i = Some ifc -> Z.of_nat i < interface_count u ->
     endpoints ifc !! j = Some e -> Z.of_nat j < endpoint_count ifc ->
     ep_addr e <> ep) ->
  ch375_hostBulkTransfer fuel u ep pData len timeout c
    = Some (CH37X_HOST_PARAM_INVALID, None, mkBulk u pData len 0 timeout, c).
Proof.
  intros Hno. unfold ch375_hostBulkTransfer. cbv zeta.
  assert (Hget : get_endpoint u ep = None).
  { unfold get_endpoint. destruct (decide (0 = ep)) as [|Hne]; [reflexivity|].
    destruct Hno as [->|Hno]; [congruence|].
    pose proof (find_interface_spec (interfaces u) 0 (Z.to_nat (interface_count u)) ep) as H.
    destruct (find_interface (interfaces u) 0 (Z.to_nat (interface_count u)) ep)
      as [[i j]|]; [|reflexivity].
    destruct H as (k & ifc & e & _ & Hk & Hi & Hl & Hj & Ha & _).
    destruct (Hno k j ifc e Hi ltac:(lia) Hl Hj Ha). }
  rewrite Hget. reflexivity.
Qed.

End BulkOutFacts.

Section BulkOutWitnesses.
Import Cint Chip Usb Host.

Lemma bulk_out_sends_all_witness :
  exists st' c',
    ch375_hostBulkTransfer 2 test_device 0x02 (map Z.of_nat (seq 0 100)) 100 0
        (mkChip (repeat (token CH37X_USB_INT_SUCCESS) 5) [])
      = Some (CH37X_HOST_SUCCESS, Some 100, st', c') /\
    b_data st' = map Z.of_nat (seq 0 100) /\
    written (log c')
      = written [] ++ take (Z.to_nat 100) (map Z.of_nat (seq 0 100)) /\
    length (take (Z.to_nat 100) (map Z.of_nat (seq 0 100))) = Z.to_nat 100 /\
    tokens_sent (log c')
      = tokens_sent []
        ++ map (fun i => (0x02, xorb false (Nat.odd i), USB_PID_OUT))
               (seq 0 (packets_of 100 64)) /\
    toggle_at (b_dev st') (0%nat, 1%nat)
      = Some (xorb false (Nat.odd (packets_of 100 64))) /\
    pending c' = drop (1 + 2 * packets_of 100 64)
                      (repeat (token CH37X_USB_INT_SUCCESS) 5).
Proof.
  apply (bulk_out_sends_all 2 test_device 0x02 (0%nat, 1%nat)
           (mkEndpoint 0x02 2 64 0 false) (map Z.of_nat (seq 0 100)) 100 0
           (mkChip (repeat (token CH37X_USB_INT_SUCCESS) 5) [])).
  - reflexivity.
  - reflexivity.
  - reflexivity.
  - simpl. lia.
  - vm_compute. split; congruence.
  - vm_compute. lia.
  - cbn [pending repeat]. repeat (apply List.Forall_cons; [split; reflexivity|]).
    apply List.Forall_nil.
  - vm_compute. lia.
Defined.

Lemma bulk_refuses_unknown_endpoint_witness :
  ch375_hostBulkTransfer 2 test_device 0 [1; 2; 3] 3 100 (mkChip [] [])
    = Some (CH37X_HOST_PARAM_INVALID, None, mkBulk test_device [1; 2; 3] 3 0 100,
            mkChip [] []).
Proof.
  apply (bulk_refuses_unknown_endpoint 2 test_device 0 [1; 2; 3] 3 100 (mkChip [] [])).
  left. reflexivity.
Defined.

End BulkOutWitnesses.

(** ** ch376s.c: block writes and block reads *)
Ltac run_port :=
  cbv beta iota delta
    [mbind mret port_bind port_ret Ch376sPort.bind Ch376sPort.ret
     Ch376sPort.k_mutex_lock Ch376sPort.k_mutex_unlock Ch376sPort.write_byte
     Ch376sPort.read_byte Ch376sPort.lift
     Ch376sPort.p_link Ch376sPort.p_reads Ch376sPort.p_lock].

Section BlockWriteFacts.
Import Cint Link Ch376sPort Ch376sBlock.

Lemma write_byte_run b ans w rd lk :
  write_byte b (mkPort (mkLink ans w) rd lk)
    = match ans with
      | [] => Some (0, mkPort (mkLink [] (w ++ [Byte b])) rd lk)
      | r :: rs =>
          Some (r, mkPort (mkLink rs (if decide (r = 0) then w ++ [Byte b] else w)) rd lk)
      end.
Proof. destruct ans; reflexivity. Qed.

Lemma sent_nil frame : sent [] frame = frame.
Proof. destruct frame; reflexivity. Qed.

Lemma sent_length answers : forall frame, (length (sent answers frame) <= length frame)%nat.
Proof.
  induction answers as [|r rs IH]; intros [|w ws]; cbn [sent length]; try lia.
  destruct (decide (r = 0)); cbn [length]; [specialize (IH ws)|]; lia.
Qed.

Lemma write_loop_run (n : nat) : forall pBuff offset len ans w rd d,
  0 <= offset -> 0 <= len -> offset + len <= 255 ->
  offset + len <= Z.of_nat (length pBuff) ->
  (Z.to_nat len <= n)%nat ->
  exists early ans' w',
    write_loop n pBuff offset len (mkPort (mkLink ans w) rd (S d))
      = Some (early, mkPort (mkLink ans' w') rd
                            (match early with None => S d | Some _ => d end)) /\
    w' = w ++ sent ans (map Byte (take (Z.to_nat len) (drop (Z.to_nat offset) pBuff))) /\
    match early with
    | None => sent ans (map Byte (take (Z.to_nat len) (drop (Z.to_nat offset) pBuff)))
              = map Byte (take (Z.to_nat len) (drop (Z.to_nat offset) pBuff))
    | Some code =>
        code = CH376S_WRITE_CMD_FAILED /\
        (length (sent ans (map Byte (take (Z.to_nat len) (drop (Z.to_nat offset) pBuff))))
         < Z.to_nat len)%nat
    end.
Proof.
  induction n as [|n IH]; intros pBuff offset len ans w rd d Ho Hl Hsum Hbuf Hn.
  - assert (len = 0) as -> by lia. cbn [write_loop].
    destruct (decide (0 > 0)); [lia|]. exists None, ans, w.
    cbn [Z.to_nat take map]. destruct ans; cbn [sent]; rewrite app_nil_r; auto.
  - cbn [write_loop]. destruct (decide (len > 0)) as [Hpos|Hz].
    2:{ assert (len = 0) as -> by lia. exists None, ans, w.
        cbn [Z.to_nat take map]. destruct ans; cbn [sent]; rewrite app_nil_r; auto. }
    destruct (lookup_lt_is_Some_2 pBuff (Z.to_nat offset) ltac:(lia)) as [b Hb].
    assert (Hload : load pBuff offset = Some b)
      by (unfold load; destruct (decide (0 <= offset)); [exact Hb|lia]).
    assert (Hframe : take (Z.to_nat len) (drop (Z.to_nat offset) pBuff)
                     = b :: take (Z.to_nat (len - 1)) (drop (Z.to_nat (offset + 1)) pBuff)).
    { rewrite (drop_S _ _ _ Hb).
      replace (Z.to_nat len) with (S (Z.to_nat (len - 1))) by lia.
      replace (Z.to_nat (offset + 1)) with (S (Z.to_nat offset)) by lia. reflexivity. }
    rewrite Hframe. cbn [map].
    unfold mbind at 1, port_bind at 1, bind at 1, lift at 1. rewrite Hload.
    unfold mbind at 1, port_bind at 1, bind at 1. rewrite write_byte_run.
    rewrite !(to_u_id 8) by (simpl; lia).
    destruct ans as [|r rs].
    + destruct (decide (CH376S_SUCCESS <> 0)) as [Hne|_]; [destruct Hne; reflexivity|].
      destruct (IH pBuff (offset + 1) (len - 1) [] (w ++ [Byte b]) rd d
                  ltac:(lia) ltac:(lia) ltac:(lia) ltac:(lia) ltac:(lia))
        as (early & ans' & w' & Hrun & Hw & Hout).
      exists early, ans', w'. split; [exact Hrun|].
      rewrite sent_nil in *. split; [rewrite Hw, <- app_assoc; reflexivity|].
      destruct early as [code|]; [|reflexivity].
      destruct Hout as [_ Hlt]. rewrite length_map, length_take in Hlt.
      rewrite length_drop in Hlt. lia.
    + cbn [sent]. destruct (decide (r = 0)) as [->|Hr].
      * destruct (decide (CH376S_SUCCESS <> 0)) as [Hne|_]; [destruct Hne; reflexivity|].
        destruct (IH pBuff (offset + 1) (len - 1) rs (w ++ [Byte b]) rd d
                    ltac:(lia) ltac:(lia) ltac:(lia) ltac:(lia) ltac:(lia))
          as (early & ans' & w' & Hrun & Hw & Hout).
        exists early, ans', w'. split; [exact Hrun|].
        split; [rewrite Hw, <- app_assoc; reflexivity|].
        destruct early as [code|].
        -- destruct Hout as [Hc Hlt]. split; [exact Hc|]. cbn [length]. lia.
        -- rewrite Hout. reflexivity.
      * destruct (decide (CH376S_SUCCESS <> r)) as [_|Heq];
          [|exfalso; apply Hr; symmetry; apply dec_stable; exact Heq].
        run_port. exists (Some CH376S_WRITE_CMD_FAILED), rs, w.
        split; [reflexivity|]. split; [rewrite app_nil_r; reflexivity|].
        split; [reflexivity|]. cbn [length]. lia.
Qed.

(** X25. ch376s_writeBlockData frames a block as the command
    CH376S_CMD_WR_HOST_DATA, the length and the first len bytes of the
    buffer, in order. The words that reach the wire are those of the frame
    before the first one the write callback refuses: the call returns
    CH376S_SUCCESS exactly when the whole frame went out and
    CH376S_WRITE_CMD_FAILED otherwise, writes nothing after a refusal, reads
    nothing, and has released pCtx->lock on every path. *)
Theorem writeBlockData_sends_frame (pBuff : list Z) (len : Z) (p : port_t) :
  0 <= len < 256 ->
  len <= Z.of_nat (length pBuff) ->
  exists r p',
    ch376s_writeBlockData pBuff len p = Some (r, p') /\
    wire (p_link p')
      = wire (p_link p) ++ sent (answers (p_link p)) (write_frame pBuff len) /\
    (r = CH376S_SUCCESS /\
       sent (answers (p_link p)) (write_frame pBuff len) = write_frame pBuff len
     \/
     r = CH376S_WRITE_CMD_FAILED /\
       (length (sent (answers (p_link p)) (write_frame pBuff len))
        < length (write_frame pBuff len))%nat) /\
    p_reads p' = p_reads p /\
    p_lock p' = p_lock p.
Proof.
  intros Hlen Hbuf. destruct p as [[ans w] rd lk]. cbn [p_link p_reads p_lock answers wire].
  unfold ch376s_writeBlockData, write_frame.
  assert (Hfl : length (map Byte (take (Z.to_nat len) pBuff)) = Z.to_nat len)
    by (rewrite length_map, length_take; lia).
  unfold mbind at 1, port_bind at 1, bind at 1, k_mutex_lock at 1.
  cbn [p_link p_reads p_lock].
  unfold mbind at 1, port_bind at 1, bind at 1. rewrite write_byte_run.
  destruct ans as [|r1 rs1].
  - destruct (decide (CH376S_SUCCESS <> 0)) as [Hne|_]; [destruct Hne; reflexivity|].
    unfold mbind at 1, port_bind at 1, bind at 1. rewrite write_byte_run.
    destruct (decide (CH376S_SUCCESS <> 0)) as [Hne|_]; [destruct Hne; reflexivity|].
    destruct (write_loop_run 256 pBuff 0 len [] ((w ++ [Byte CH376S_CMD_WR_HOST_DATA]) ++ [Byte len])
                rd lk ltac:(lia) ltac:(lia) ltac:(lia) ltac:(lia) ltac:(lia))
      as (early & ans' & w' & Hrun & Hw & Hout).
    unfold mbind at 1, port_bind at 1, bind at 1. rewrite Hrun.
    change (Z.to_nat 0) with 0%nat in *. rewrite drop_0, sent_nil in *.
    destruct early as [code|]; [destruct Hout as [_ Hlt]; rewrite Hfl in Hlt; lia|].
    run_port. eexists _, _. split; [reflexivity|]. cbn [wire p_link].
    split; [rewrite Hw, <- !app_assoc; reflexivity|].
    split; [left; split; reflexivity|]. split; reflexivity.
  - cbn [sent]. destruct (decide (r1 = 0)) as [->|Hr1].
    2:{ destruct (decide (CH376S_SUCCESS <> r1)) as [_|Heq];
          [|exfalso; apply Hr1; symmetry; apply dec_stable; exact Heq].
        run_port. eexists _, _. split; [reflexivity|].
        split; [rewrite app_nil_r; reflexivity|].
        split; [right; split; [reflexivity|cbn [length]; lia]|]. split; reflexivity. }
    destruct (decide (CH376S_SUCCESS <> 0)) as [Hne|_]; [destruct Hne; reflexivity|].
    unfold mbind at 1, port_bind at 1, bind at 1. rewrite write_byte_run.
    destruct rs1 as [|r2 rs2].
    + destruct (decide (CH376S_SUCCESS <> 0)) as [Hne|_]; [destruct Hne; reflexivity|].
      destruct (write_loop_run 256 pBuff 0 len []
                  ((w ++ [Byte CH376S_CMD_WR_HOST_DATA]) ++ [Byte len])
                  rd lk ltac:(lia) ltac:(lia) ltac:(lia) ltac:(lia) ltac:(lia))
        as (early & ans' & w' & Hrun & Hw & Hout).
      unfold mbind at 1, port_bind at 1, bind at 1. rewrite Hrun.
      change (Z.to_nat 0) with 0%nat in *. rewrite drop_0, sent_nil in *.
      destruct early as [code|]; [destruct Hout as [_ Hlt]; rewrite Hfl in Hlt; lia|].
      run_port. eexists _, _. split; [reflexivity|]. cbn [wire p_link].
      split; [rewrite Hw, <- !app_assoc; reflexivity|].
      split; [left; split; reflexivity|]. split; reflexivity.
    + cbn [sent]. destruct (decide (r2 = 0)) as [->|Hr2].
      2:{ destruct (decide (CH376S_SUCCESS <> r2)) as [_|Heq];
            [|exfalso; apply Hr2; symmetry; apply dec_stable; exact Heq].
          run_port. eexists _, _. split; [reflexivity|]. cbn [wire p_link].
          split; [reflexivity|].
          split; [right; split; [reflexivity|cbn [length]; lia]|]. split; reflexivity. }
      destruct (decide (CH376S_SUCCESS <> 0)) as [Hne|_]; [destruct Hne; reflexivity|].
      destruct (write_loop_run 256 pBuff 0 len rs2
                  ((w ++ [Byte CH376S_CMD_WR_HOST_DATA]) ++ [Byte len])
                  rd lk ltac:(lia) ltac:(lia) ltac:(lia) ltac:(lia) ltac:(lia))
        as (early & ans' & w' & Hrun & Hw & Hout).
      unfold mbind at 1, port_bind at 1, bind at 1. rewrite Hrun.
      change (Z.to_nat 0) with 0%nat in *. rewrite drop_0 in *.
      destruct early as [code|].
      * destruct Hout as [-> Hlt]. run_port. eexists _, _. split; [reflexivity|].
        cbn [wire p_link]. split; [rewrite Hw, <- !app_assoc; reflexivity|].
        split; [right; split; [reflexivity|cbn [length]; rewrite Hfl; lia]|].
        split; reflexivity.
      * run_port. eexists _, _. split; [reflexivity|]. cbn [wire p_link].
        split; [rewrite Hw, <- !app_assoc; reflexivity|].
        split; [left; split; [reflexivity|rewrite Hout; reflexivity]|]. split; reflexivity.
Qed.

End BlockWriteFacts.

Section BlockReadFacts.
Import Cint Link Ch376sPort Ch376sBlock.

(** What one read_byte call into &pBuff[offset] leaves in the buffer. *)
Lemma callback_store pBuff offset (r : read_reply) :
  0 <= offset < Z.of_nat (length pBuff) ->
  exists pBuff1,
    match r_byte r with Some b => store pBuff offset b | None => Some pBuff end = Some pBuff1 /\
    length pBuff1 = length pBuff /\
    (forall i : nat, i <> Z.to_nat offset -> pBuff1 !! i = pBuff !! i) /\
    (forall b, r_byte r = Some b -> pBuff1 !! Z.to_nat offset = Some b).
Proof.
  intros Ho. destruct (r_byte r) as [b|].
  - unfold store. destruct (decide (0 <= offset < Z.of_nat (length pBuff))); [|lia].
    eexists. split; [reflexivity|]. split; [apply length_insert|]. split.
    + intros i Hi. apply list_lookup_insert_ne. congruence.
    + intros b' [= <-]. apply list_lookup_insert_eq. lia.
  - exists pBuff. split; [reflexivity|]. split; [reflexivity|]. split; [auto|discriminate].
Qed.

Lemma read_loop_run (n : nat) : forall pBuff len resiLen offset lnk rs d (m : nat),
  0 <= offset <= len -> len < 256 -> len <= Z.of_nat (length pBuff) ->
  0 <= resiLen < 256 ->
  m = Z.to_nat (Z.min resiLen (len - offset)) ->
  (m <= n)%nat -> (m <= length rs)%nat ->
  Forall stores_on_success (take m rs) ->
  exists early pBuff' p',
    read_loop n pBuff len resiLen offset (mkPort lnk rs (S d))
      = Some (early, pBuff', offset + Z.of_nat (length (delivered (take m rs))), p') /\
    p_link p' = lnk /\
    length pBuff' = length pBuff /\
    (forall i : nat,
       (i < Z.to_nat offset \/ Z.to_nat offset + length (delivered (take m rs)) < i)%nat ->
       pBuff' !! i = pBuff !! i) /\
    (forall i : nat, (i < length (delivered (take m rs)))%nat ->
       pBuff' !! (Z.to_nat offset + i)%nat = delivered (take m rs) !! i) /\
    (length (delivered (take m rs)) = m ->
       early = None /\ p_lock p' = S d /\ p_reads p' = drop m rs /\
       pBuff' !! (Z.to_nat offset + m)%nat = pBuff !! (Z.to_nat offset + m)%nat) /\
    ((length (delivered (take m rs)) < m)%nat ->
       exists rj, rs !! length (delivered (take m rs)) = Some rj /\
         r_code rj <> CH376S_SUCCESS /\
         if decide (CH376S_TIMEOUT = r_code rj)
         then early = None /\ p_lock p' = S d
         else early = Some CH376S_READ_DATA_FAILED /\ p_lock p' = d).
Proof.
  induction n as [|n IH];
    intros pBuff len resiLen offset lnk rs d m Ho Hlen Hbuf Hres Hm Hn Hrs Hst.
  - assert (m = 0%nat) as -> by lia. change (take 0 rs) with (@nil read_reply). cbn [delivered length read_loop].
    destruct (decide (resiLen > 0 /\ offset < len)); [lia|].
    eexists _, _, _. rewrite Z.add_0_r. split; [reflexivity|]. cbn [p_link p_lock p_reads].
    repeat split; auto; try lia.
  - destruct m as [|m].
    { change (take 0 rs) with (@nil read_reply). cbn [delivered length read_loop].
      destruct (decide (resiLen > 0 /\ offset < len)); [lia|].
      eexists _, _, _. rewrite Z.add_0_r. split; [reflexivity|]. cbn [p_link p_lock p_reads].
      repeat split; auto; try lia. }
    destruct rs as [|r rs]; cbn [length] in Hrs; [lia|].
    change (take (S m) (r :: rs)) with (r :: take m rs) in *. inversion Hst as [|? ? Hr Hst']; subst.
    cbn [read_loop]. destruct (decide (resiLen > 0 /\ offset < len)); [|lia].
    run_port.
    destruct (callback_store pBuff offset r ltac:(lia)) as (pBuff1 & Hstore & Hl1 & Hother & Hhere).
    rewrite Hstore.
    cbn [delivered].
    destruct (decide (r_code r = CH376S_SUCCESS)) as [Hs|Hs].
    + destruct (Hr Hs) as [b Hb]. rewrite Hb. cbn [length].
      destruct (decide (CH376S_TIMEOUT = r_code r)) as [Ht|_];
        [rewrite Hs in Ht; discriminate|].
      destruct (decide (CH376S_SUCCESS <> r_code r)) as [Hne|_]; [congruence|].
      rewrite !(to_u_id 8) by (simpl; lia).
      destruct (IH pBuff1 len (resiLen - 1) (offset + 1) lnk rs d m
                  ltac:(lia) Hlen ltac:(lia) ltac:(lia) ltac:(lia) ltac:(lia) ltac:(lia) Hst')
        as (early & pBuff' & p' & Hrun & Hlnk & Hl' & HA & HB & Hfull & Hpart).
      fold (@mbind P _) in Hrun.
      set (good := delivered (take m rs)) in *.
      replace (Z.to_nat (offset + 1)) with (S (Z.to_nat offset)) in * by lia.
      exists early, pBuff', p'.
      split.
      { rewrite Hrun. do 3 f_equal. lia. }
      split; [exact Hlnk|]. split; [congruence|].
      split.
      { intros i Hi. rewrite HA by lia. apply Hother. lia. }
      split.
      { intros [|i] Hi.
        - rewrite Nat.add_0_r, HA by lia. cbn. apply Hhere. exact Hb.
        - cbn. rewrite <- HB by lia. f_equal. lia. }
      split.
      { intros Hj. destruct (Hfull ltac:(lia)) as (He & Hlk & Hrd & Hsame).
        split; [exact He|]. split; [exact Hlk|]. split; [exact Hrd|].
        replace (Z.to_nat offset + S m)%nat with (S (Z.to_nat offset) + m)%nat by lia.
        rewrite Hsame. apply Hother. lia. }
      intros Hj. destruct (Hpart ltac:(lia)) as (rj & Hrj & Hc & Hout).
      exists rj. split; [exact Hrj|]. split; [exact Hc|]. exact Hout.
    + cbn [length]. rewrite Z.add_0_r.
      destruct (decide (CH376S_TIMEOUT = r_code r)) as [Ht|Ht].
      * eexists _, _, _. split; [reflexivity|]. cbn [p_link p_lock p_reads].
        split; [reflexivity|]. split; [exact Hl1|].
        split; [intros i Hi; apply Hother; lia|].
        split; [intros i Hi; lia|].
        split; [intros Hj; lia|].
        intros _. exists r. split; [reflexivity|]. split; [exact Hs|].
        destruct (decide (CH376S_TIMEOUT = r_code r)); [auto|contradiction].
      * destruct (decide (CH376S_SUCCESS <> r_code r)) as [_|Heq];
          [|exfalso; apply Hs; symmetry; apply dec_stable; exact Heq].
        eexists _, _, _. split; [reflexivity|]. cbn [p_link p_lock p_reads].
        split; [reflexivity|]. split; [exact Hl1|].
        split; [intros i Hi; apply Hother; lia|].
        split; [intros i Hi; lia|].
        split; [intros Hj; lia|].
        intros _. exists r. split; [reflexivity|]. split; [exact Hs|].
        destruct (decide (CH376S_TIMEOUT = r_code r)); [contradiction|auto].
Qed.

(** X26. ch376s_readBlockData on a port that accepts the command and
    announces dataLen bytes: it reads at most m = min(dataLen, len) bytes
    and stores them from pBuff[0] on, in the order delivered. When all m
    reads succeed it returns CH376S_SUCCESS with *pActualLen = m, leaves
    the rest of the buffer untouched and the bytes of the packet beyond len
    unread. A read that answers CH376S_TIMEOUT ends the packet short:
    CH376S_SUCCESS with the number of bytes stored so far; any other
    failure gives CH376S_READ_DATA_FAILED and no actual length. In every
    case nothing is stored beyond the slot of the failing read, hence
    nothing at or beyond pBuff[len], and pCtx->lock is released. *)
Theorem readBlockData_stores_packet (pBuff : list Z) (len dataLen : Z)
    (rs : list read_reply) (w : list wire_word) (d m : nat) :
  0 <= len < 256 ->
  len <= Z.of_nat (length pBuff) ->
  0 <= dataLen < 256 ->
  m = Z.to_nat (Z.min dataLen len) ->
  (m <= length rs)%nat ->
  Forall stores_on_success (take m rs) ->
  exists r pBuff' actual p',
    ch376s_readBlockData pBuff len
        (mkPort (mkLink [] w) (mkRead CH376S_SUCCESS (Some dataLen) :: rs) d)
      = Some (r, pBuff', actual, p') /\
    wire (p_link p') = w ++ [Byte CH376S_CMD_RD_USB_DATA] /\
    p_lock p' = d /\
    length pBuff' = length pBuff /\
    take (length (delivered (take m rs))) pBuff' = delivered (take m rs) /\
    drop (S (length (delivered (take m rs)))) pBuff'
      = drop (S (length (delivered (take m rs)))) pBuff /\
    (length (delivered (take m rs)) = m ->
       r = CH376S_SUCCESS /\ actual = Some (Z.of_nat m) /\
       pBuff' = delivered (take m rs) ++ drop m pBuff /\
       p_reads p' = drop m rs) /\
    ((length (delivered (take m rs)) < m)%nat ->
       exists rj, rs !! length (delivered (take m rs)) = Some rj /\
         r_code rj <> CH376S_SUCCESS /\
         if decide (CH376S_TIMEOUT = r_code rj)
         then r = CH376S_SUCCESS /\
              actual = Some (Z.of_nat (length (delivered (take m rs))))
         else r = CH376S_READ_DATA_FAILED /\ actual = None).
Proof.
  intros Hlen Hbuf Hdl Hm Hrs Hst.
  destruct (read_loop_run 256 pBuff len dataLen 0 (mkLink [] (w ++ [Byte CH376S_CMD_RD_USB_DATA]))
              rs d m ltac:(lia) ltac:(lia) Hbuf Hdl ltac:(rewrite Hm; f_equal; lia)
              ltac:(lia) Hrs Hst)
    as (early & pBuff' & p' & Hrun & Hlnk & Hl' & HA & HB & Hfull & Hpart).
  set (good := delivered (take m rs)) in *.
  change (Z.to_nat 0) with 0%nat in *. rewrite Z.add_0_l in Hrun.
  assert (Htake : take (length good) pBuff' = good).
  { apply list_eq. intros i. destruct (decide (i < length good)%nat).
    - rewrite lookup_take_lt by lia. apply (HB i). lia.
    - rewrite lookup_take_ge by lia. symmetry. apply lookup_ge_None_2. lia. }
  assert (Hdrop : drop (S (length good)) pBuff' = drop (S (length good)) pBuff).
  { apply list_eq. intros i. rewrite !lookup_drop. apply HA. lia. }
  unfold ch376s_readBlockData. run_port.
  change (link_write (Byte CH376S_CMD_RD_USB_DATA) (mkLink [] w))
    with (0, mkLink [] (w ++ [Byte CH376S_CMD_RD_USB_DATA])).
  cbv beta iota.
  destruct (decide (CH376S_SUCCESS <> 0)) as [Hne|_]; [destruct Hne; reflexivity|].
  cbn [r_code r_byte].
  destruct (decide (CH376S_SUCCESS <> CH376S_SUCCESS)) as [Hne|_]; [congruence|].
  rewrite Hrun.
  destruct (decide (length good = m)) as [Hj|Hj].
  - destruct (Hfull Hj) as (-> & Hlk & Hrd & Hsame).
    destruct p' as [lnk' rd' lk']. cbn [p_link p_reads p_lock] in *. subst lnk' rd' lk'.
    eexists _, _, _, _. split; [reflexivity|]. cbn [p_link p_reads p_lock wire Nat.pred].
    split; [reflexivity|]. split; [reflexivity|]. split; [exact Hl'|].
    split; [exact Htake|]. split; [exact Hdrop|].
    split; [|intros; lia].
    intros _. split; [reflexivity|]. split; [rewrite Hj; reflexivity|].
    split; [|reflexivity].
    rewrite <- (take_drop m pBuff') at 1. rewrite <- Hj at 1. rewrite Htake. f_equal.
    apply list_eq. intros i. rewrite !lookup_drop.
    destruct i as [|i]; [rewrite Nat.add_0_r; exact Hsame|].
    apply HA. lia.
  - assert (Hlt : (length good < m)%nat).
    { assert (length (take m rs) = m) by (rewrite length_take; lia).
      assert (length good <= length (take m rs))%nat.
      { unfold good. clear. induction (take m rs) as [|r l IH]; cbn [delivered length]; [lia|].
        destruct (decide (r_code r = CH376S_SUCCESS)); [|cbn; lia].
        destruct (r_byte r); cbn [length]; lia. }
      lia. }
    destruct (Hpart Hlt) as (rj & Hrj & Hc & Hout).
    destruct p' as [lnk' rd' lk']. cbn [p_link p_reads p_lock] in *. subst lnk'.
    destruct (decide (CH376S_TIMEOUT = r_code rj)) as [Ht|Ht].
    + destruct Hout as [-> ->].
      eexists _, _, _, _. split; [reflexivity|]. cbn [p_link p_reads p_lock wire Nat.pred].
      split; [reflexivity|]. split; [reflexivity|]. split; [exact Hl'|].
      split; [exact Htake|]. split; [exact Hdrop|].
      split; [intros; lia|].
      intros _. exists rj. split; [exact Hrj|]. split; [exact Hc|].
      destruct (decide (CH376S_TIMEOUT = r_code rj)); [auto|contradiction].
    + destruct Hout as [-> ->].
      eexists _, _, _, _. split; [reflexivity|]. cbn [p_link p_reads p_lock wire].
      split; [reflexivity|]. split; [reflexivity|]. split; [exact Hl'|].
      split; [exact Htake|]. split; [exact Hdrop|].
      split; [intros; lia|].
      intros _. exists rj. split; [exact Hrj|]. split; [exact Hc|].
      destruct (decide (CH376S_TIMEOUT = r_code rj)); [contradiction|auto].
Qed.

End BlockReadFacts.

Section BlockWitnesses.
Import Cint Link Ch376sPort Ch376sBlock.

Lemma writeBlockData_sends_frame_witness :
  exists r p',
    ch376s_writeBlockData [0x11; 0x22; 0x33] 3 (mkPort (mkLink [0; 0; 0; 0; -1] []) [] 0)
      = Some (r, p') /\
    wire (p_link p') = [] ++ sent [0; 0; 0; 0; -1] (write_frame [0x11; 0x22; 0x33] 3) /\
    (r = CH376S_SUCCESS /\
       sent [0; 0; 0; 0; -1] (write_frame [0x11; 0x22; 0x33] 3)
       = write_frame [0x11; 0x22; 0x33] 3
     \/
     r = CH376S_WRITE_CMD_FAILED /\
       Nat.lt (length (sent [0; 0; 0; 0; -1] (write_frame [0x11; 0x22; 0x33] 3)))
              (length (write_frame [0x11; 0x22; 0x33] 3))) /\
    p_reads p' = [] /\
    p_lock p' = 0%nat.
Proof.
  apply (writeBlockData_sends_frame [0x11; 0x22; 0x33] 3
           (mkPort (mkLink [0; 0; 0; 0; -1] []) [] 0)).
  - lia.
  - cbn [length]. lia.
Defined.

(** A block write whose last byte the callback refuses. *)
Example writeBlockData_refused_last_byte :
  ch376s_writeBlockData [0x11; 0x22; 0x33] 3 (mkPort (mkLink [0; 0; 0; 0; -1] []) [] 0)
    = Some (CH376S_WRITE_CMD_FAILED,
            mkPort (mkLink [] [Byte 0x2C; Byte 3; Byte 0x11; Byte 0x22]) [] 0).
Proof. reflexivity. Qed.

Lemma readBlockData_stores_packet_witness :
  exists r pBuff' actual p',
    ch376s_readBlockData [0; 0; 0; 0] 4
        (mkPort (mkLink [] [])
           (mkRead CH376S_SUCCESS (Some 3)
              :: short_packet_replies) 0)
      = Some (r, pBuff', actual, p') /\
    wire (p_link p') = [] ++ [Byte CH376S_CMD_RD_USB_DATA] /\
    p_lock p' = 0%nat /\
    length pBuff' = length [0; 0; 0; 0] /\
    take (length (delivered (take 3 short_packet_replies))) pBuff'
      = delivered (take 3 short_packet_replies) /\
    drop (S (length (delivered (take 3 short_packet_replies)))) pBuff'
      = drop (S (length (delivered (take 3 short_packet_replies)))) [0; 0; 0; 0] /\
    (length (delivered (take 3 short_packet_replies)) = 3%nat ->
       r = CH376S_SUCCESS /\ actual = Some (Z.of_nat 3) /\
       pBuff' = delivered (take 3 short_packet_replies) ++ drop 3 [0; 0; 0; 0] /\
       p_reads p' = drop 3 short_packet_replies) /\
    ((length (delivered (take 3 short_packet_replies)) < 3)%nat ->
       exists rj,
         short_packet_replies
           !! length (delivered (take 3 short_packet_replies)) = Some rj /\
         r_code rj <> CH376S_SUCCESS /\
         if decide (CH376S_TIMEOUT = r_code rj)
         then r = CH376S_SUCCESS /\
              actual = Some (Z.of_nat (length (delivered
                         (take 3 short_packet_replies))))
         else r = CH376S_READ_DATA_FAILED /\ actual = None).
Proof.
  apply (readBlockData_stores_packet [0; 0; 0; 0] 4 3
           short_packet_replies
           [] 0%nat 3%nat).
  - lia.
  - cbn [length]. lia.
  - lia.
  - reflexivity.
  - unfold short_packet_replies. cbn [length]. lia.
  - unfold short_packet_replies. cbn [firstn].
    repeat (apply List.Forall_cons; [intros H; first [discriminate H | eexists; reflexivity]|]).
    apply List.Forall_nil.
Defined.

(** A packet of three bytes that times out after the first. *)
Example readBlockData_short_packet :
  ch376s_readBlockData [0; 0; 0; 0] 4
      (mkPort (mkLink [] [])
         (mkRead CH376S_SUCCESS (Some 3) :: short_packet_replies) 0)
    = Some (CH376S_SUCCESS, [0xAA; 0; 0; 0], Some 1,
            mkPort (mkLink [] [Byte 0x28]) [mkRead 0 (Some 0xCC)] 0).
Proof. reflexivity. Qed.

End BlockWitnesses.

(** ** ch375_host.c: the DATA stage of a control IN transfer *)
Section ControlInFacts.
Import Cint Chip Usb Host.

Lemma store_n_explicit bs : forall buf (p : nat),
  (p + length bs <= length buf)%nat ->
  store_n buf (Z.of_nat p) bs = Some (take p buf ++ bs ++ drop (p + length bs) buf).
Proof.
  induction bs as [|b bs IH]; intros buf p Hlen; cbn [store_n length] in *.
  - rewrite Nat.add_0_r. cbn [app]. rewrite take_drop. reflexivity.
  - unfold store. destruct (decide (0 <= Z.of_nat p < Z.of_nat (length buf))); [|lia].
    rewrite Nat2Z.id.
    replace (Z.of_nat p + 1) with (Z.of_nat (S p)) by lia.
    rewrite IH by (rewrite length_insert; lia).
    f_equal.
    destruct (lookup_lt_is_Some_2 (<[p:=b]> buf) p ltac:(rewrite length_insert; lia))
      as [x Hx].
    rewrite list_lookup_insert_eq in Hx by lia. injection Hx as <-.
    rewrite (take_S_r (<[p:=b]> buf) p b) by (apply list_lookup_insert_eq; lia).
    rewrite take_insert_ge by lia.
    rewrite drop_insert_lt by lia.
    rewrite <- app_assoc. cbn [app].
    replace (S p + length bs)%nat with (p + S (length bs))%nat by lia. reflexivity.
Qed.

Lemma in_script_cons p ps rest :
  in_script (p :: ps) ++ rest
    = token CH37X_USB_INT_SUCCESS :: packet p :: in_script ps ++ rest.
Proof. reflexivity. Qed.

(** One IN transaction of the DATA stage that delivers the packet [p]. *)
Lemma control_in_packet n ep0 wLength total toggle pData p rest lg :
  0 < ep0 -> 0 <= total -> total < wLength -> wLength < 256 ->
  total + Z.of_nat (length p) <= wLength ->
  wLength <= Z.of_nat (length pData) ->
  control_data_in (S n) ep0 wLength total toggle pData
      (mkChip (token CH37X_USB_INT_SUCCESS :: packet p :: rest) lg)
    = let pData' := take (Z.to_nat total) pData ++ p
                    ++ drop (Z.to_nat total + length p) pData in
      let lg' := (lg ++ [SendToken 0 toggle USB_PID_IN])
                 ++ [ReadBlock (wLength - total)] in
      if decide (Z.of_nat (length p) < ep0)
      then Some (Continue (total + Z.of_nat (length p)), pData', mkChip rest lg')
      else if decide (total + Z.of_nat (length p) < wLength)
           then control_data_in n ep0 wLength (total + Z.of_nat (length p)) (negb toggle)
                  pData' (mkChip rest (lg' ++ [BusyWait 100]))
           else control_data_in n ep0 wLength (total + Z.of_nat (length p))
                  (if decide (Z.of_nat (length p) > 0) then negb toggle else toggle)
                  pData' (mkChip rest lg').
Proof.
  intros Hep Ht Hlt Hw Hfit Hbuf. cbv zeta. cbn [control_data_in].
  destruct (decide (total < wLength)); [|lia].
  run_chip. cbn [c_ret c_status token packet c_data].
  destruct (decide (CH37X_SUCCESS <> CH37X_SUCCESS)); [congruence|].
  destruct (decide (CH37X_USB_INT_SUCCESS <> CH37X_USB_INT_SUCCESS)); [congruence|].
  rewrite (to_u_id 8) by (simpl; lia).
  change (c_data (packet p)) with p. change (c_ret (packet p)) with CH37X_SUCCESS.
  assert (Hbytes : firstn (Z.to_nat (wLength - total)) p = p)
    by (apply firstn_all2; lia).
  rewrite Hbytes.
  replace total with (Z.of_nat (Z.to_nat total)) at 1 by lia.
  rewrite store_n_explicit by lia.
  destruct (decide (CH37X_SUCCESS <> CH37X_SUCCESS)); [congruence|].
  run_chip.
  destruct (decide (Z.of_nat (length p) > 0)) as [Hpos|Hzero].
  - destruct (decide (Z.of_nat (length p) < ep0)); [reflexivity|].
    destruct (decide (total + Z.of_nat (length p) < wLength)); reflexivity.
  - replace (total + Z.of_nat (length p)) with total by lia.
    destruct (decide (Z.of_nat (length p) < ep0)); [reflexivity|lia].
Qed.

Lemma control_data_in_done n ep0 wLength total toggle pData c :
  wLength <= total ->
  control_data_in n ep0 wLength total toggle pData c = Some (Continue total, pData, c).
Proof.
  intros H. destruct n; cbn [control_data_in];
    destruct (decide (total < wLength)); try lia; reflexivity.
Qed.

Lemma buffer_after_packet (pData p tail : list Z) (t k : nat) :
  (t + length p <= length pData)%nat ->
  take (t + length p) (take t pData ++ p ++ drop (t + length p) pData) ++ tail
    ++ drop (t + length p + k) (take t pData ++ p ++ drop (t + length p) pData)
  = take t pData ++ (p ++ tail) ++ drop (t + length p + k) pData.
Proof.
  intros Hlen.
  assert (Ht : length (take t pData ++ p) = (t + length p)%nat)
    by (rewrite length_app, length_take; lia).
  rewrite (app_assoc (take t pData) p).
  rewrite (take_app_length' (take t pData ++ p)) by (symmetry; exact Ht).
  rewrite (drop_app_add' (take t pData ++ p)) by (symmetry; exact Ht).
  rewrite drop_drop, <- !app_assoc. reflexivity.
Qed.

(** The DATA stage of an IN transfer over the packets [full ++ [last]]. *)
Lemma control_in_run (full : list (list Z)) :
  forall n ep0 wLength (t : nat) toggle pData last rest lg,
  0 < ep0 -> wLength < 256 -> wLength <= Z.of_nat (length pData) ->
  Forall (fun p => ep0 <= Z.of_nat (length p)) full ->
  Z.of_nat (t + length (concat full)) < wLength ->
  Z.of_nat (t + length (concat (full ++ [last]))) <= wLength ->
  (Z.of_nat (length last) < ep0 \/
   Z.of_nat (t + length (concat (full ++ [last]))) = wLength) ->
  (length full < n)%nat ->
  exists lg',
    control_data_in n ep0 wLength (Z.of_nat t) toggle pData
        (mkChip (in_script (full ++ [last]) ++ rest) lg)
      = Some (Continue (Z.of_nat (t + length (concat (full ++ [last])))),
              take t pData ++ concat (full ++ [last])
                ++ drop (t + length (concat (full ++ [last]))) pData,
              mkChip rest lg') /\
    written lg' = written lg /\
    tokens_sent lg'
      = tokens_sent lg
        ++ map (fun i => (0, xorb toggle (Nat.odd i), USB_PID_IN))
               (seq 0 (S (length full))).
Proof.
  induction full as [|p full IH];
    intros n ep0 wLength t toggle pData last rest lg Hep Hw Hbuf Hfull Hlt Hle Hend Hn.
  - destruct n as [|n]; [cbn [length] in Hn; lia|].
    cbn [app concat length] in *. rewrite app_nil_r in *.
    change (in_script [last] ++ rest)
      with (token CH37X_USB_INT_SUCCESS :: packet last :: rest).
    rewrite (control_in_packet n ep0 wLength (Z.of_nat t) toggle pData last rest lg)
      by lia.
    cbv zeta. rewrite Nat2Z.id.
    replace (Z.of_nat t + Z.of_nat (length last)) with (Z.of_nat (t + length last)) by lia.
    eexists. split.
    + destruct (decide (Z.of_nat (length last) < ep0)); [reflexivity|].
      destruct (decide (Z.of_nat (t + length last) < wLength)); [lia|].
      apply control_data_in_done. lia.
    + rewrite !written_app, !tokens_sent_app. cbn. rewrite !app_nil_r.
      destruct toggle; split; reflexivity.
  - destruct n as [|n]; [cbn [length] in Hn; lia|].
    inversion Hfull as [|? ? Hp Hfull']; subst.
    assert (Hcat : concat ((p :: full) ++ [last]) = p ++ concat (full ++ [last]))
      by reflexivity.
    rewrite Hcat in *. cbn [concat] in Hlt. rewrite !length_app in *.
    rewrite <- app_comm_cons, in_script_cons.
    rewrite (control_in_packet n ep0 wLength (Z.of_nat t) toggle pData p _ lg) by lia.
    cbv zeta. rewrite Nat2Z.id.
    replace (Z.of_nat t + Z.of_nat (length p)) with (Z.of_nat (t + length p)) by lia.
    destruct (decide (Z.of_nat (length p) < ep0)); [lia|].
    destruct (decide (Z.of_nat (t + length p) < wLength)); [|lia].
    destruct (IH n ep0 wLength (t + length p)%nat (negb toggle)
                (take t pData ++ p ++ drop (t + length p) pData) last rest
                (((lg ++ [SendToken 0 toggle USB_PID_IN])
                    ++ [ReadBlock (wLength - Z.of_nat t)]) ++ [BusyWait 100])
                Hep Hw ltac:(rewrite !length_app, length_take, length_drop; lia)
                Hfull' ltac:(lia) ltac:(lia) ltac:(lia) ltac:(cbn [length] in Hn; lia))
      as (lg' & Hrun & Hwr & Htok).
    exists lg'. split.
    + rewrite Hrun. rewrite buffer_after_packet by lia.
      rewrite !Nat.add_assoc. reflexivity.
    + split.
      * rewrite Hwr, !written_app. cbn. rewrite !app_nil_r. reflexivity.
      * rewrite Htok, !tokens_sent_app. cbn [tokens_sent map concat app].
        rewrite !app_nil_r, <- !app_assoc. f_equal.
        replace (seq 0 (S (length (p :: full))))
          with (0%nat :: map S (seq 0 (S (length full))))
          by (rewrite seq_shift; reflexivity).
        cbn [map app Nat.odd]. f_equal.
        -- destruct toggle; reflexivity.
        -- rewrite map_map. apply map_ext. intros i.
           rewrite xorb_odd_succ. reflexivity.
Qed.

Lemma control_setup_ok reqType bRequest wValue wIndex wLength rest lg :
  control_setup reqType bRequest wValue wIndex wLength
      (mkChip (ok :: ok :: token CH37X_USB_INT_SUCCESS :: rest) lg)
    = Some (Continue tt,
            mkChip rest
              ((((lg ++ [SetRetry (if decide (USB_SREQ_GET_DESCRIPTOR = bRequest)
                                   then CH37X_RETRY_TIMES_2MS
                                   else CH37X_RETRY_TIMES_INFINITY)])
                   ++ [WriteBlock (setup_packet reqType bRequest wValue wIndex wLength)])
                  ++ [BusyWait 200]) ++ [SendToken 0 false USB_PID_SETUP])).
Proof.
  unfold control_setup.
  destruct (decide (USB_SREQ_GET_DESCRIPTOR = bRequest)); run_chip;
    cbn [c_ret c_status ok token];
    (destruct (decide (CH37X_SUCCESS <> CH37X_SUCCESS)); [congruence|]);
    (destruct (decide (CH37X_USB_INT_SUCCESS <> CH37X_USB_INT_SUCCESS)); [congruence|]);
    reflexivity.
Qed.

(** X27. A control IN transfer whose DATA stage the device answers with
    the packets full ++ [last], every packet of full at least ep0 bytes
    long, fewer than wLength bytes before the last packet, at most wLength
    in all, and the last packet short or completing wLength: against a chip
    on which every command succeeds, ch375_hostControlTransfer returns
    CH37X_HOST_SUCCESS, the caller's buffer starts with the bytes of the
    packets in order and is unchanged after them, and *pActualLen is their
    number. On the bus it sends one SETUP token with DATA0, one IN token
    per packet with toggles DATA1, DATA0, DATA1, ..., and one OUT token
    with DATA1 for the STATUS stage; the only bytes it writes are the eight
    bytes of the SETUP packet. *)
Theorem control_in_delivers_packets (fuel : nat) (u : USB_Device_t)
    (reqType bRequest wValue wIndex wLength : Z) (pData : list Z)
    (full : list (list Z)) (last : list Z) (rest : list chip_reply)
    (lg : list chip_call) :
  SETUP_IN reqType <> 0 ->
  0 < ep0_max_packet u ->
  0 < wLength < 256 ->
  wLength <= Z.of_nat (length pData) ->
  Forall (fun p => ep0_max_packet u <= Z.of_nat (length p)) full ->
  Z.of_nat (length (concat full)) < wLength ->
  Z.of_nat (length (concat (full ++ [last]))) <= wLength ->
  (Z.of_nat (length last) < ep0_max_packet u \/
   Z.of_nat (length (concat (full ++ [last]))) = wLength) ->
  (length full < fuel)%nat ->
  exists lg',
    ch375_hostControlTransfer fuel u reqType bRequest wValue wIndex pData wLength
        (mkChip (ok :: ok :: token CH37X_USB_INT_SUCCESS
                 :: in_script (full ++ [last])
                 ++ ok :: token CH37X_USB_INT_SUCCESS :: rest) lg)
      = Some (CH37X_HOST_SUCCESS,
              concat (full ++ [last]) ++ drop (length (concat (full ++ [last]))) pData,
              Some (Z.of_nat (length (concat (full ++ [last])))),
              mkChip rest lg') /\
    written lg' = written lg ++ setup_packet reqType bRequest wValue wIndex wLength /\
    tokens_sent lg'
      = tokens_sent lg
        ++ (0, false, USB_PID_SETUP)
           :: map (fun i => (0, xorb true (Nat.odd i), USB_PID_IN))
                  (seq 0 (S (length full)))
        ++ [(0, true, USB_PID_OUT)].
Proof.
  intros Hin Hep Hw Hbuf Hfull Hlt Hle Hend Hfuel.
  set (lg1 := (((lg ++ [SetRetry (if decide (USB_SREQ_GET_DESCRIPTOR = bRequest)
                                  then CH37X_RETRY_TIMES_2MS
                                  else CH37X_RETRY_TIMES_INFINITY)])
                 ++ [WriteBlock (setup_packet reqType bRequest wValue wIndex wLength)])
                ++ [BusyWait 200]) ++ [SendToken 0 false USB_PID_SETUP]).
  destruct (control_in_run full fuel (ep0_max_packet u) wLength 0 true pData last
              (ok :: token CH37X_USB_INT_SUCCESS :: rest) lg1
              Hep ltac:(lia) Hbuf Hfull ltac:(cbn [Nat.add]; lia) ltac:(cbn [Nat.add]; lia)
              ltac:(cbn [Nat.add]; exact Hend) Hfuel)
    as (lg2 & Hrun & Hwr & Htok).
  cbn [Nat.add take app] in Hrun.
  exists ((lg2 ++ [WriteBlock []]) ++ [SendToken 0 true USB_PID_OUT]).
  split.
  - eapply control_transfer_by_stages.
    + unfold control_stages.
      unfold mbind at 1, chip_bind at 1, bind at 1.
      rewrite control_setup_ok. fold lg1.
      destruct (decide (wLength > 0)); [|lia].
      destruct (decide (SETUP_IN reqType <> 0)); [|tauto].
      exact Hrun.
    + unfold control_status. destruct (decide (SETUP_IN reqType <> 0)); [|tauto].
      run_chip. cbn [c_ret c_status ok token].
      destruct (decide (CH37X_SUCCESS <> CH37X_SUCCESS)); [congruence|].
      destruct (decide (CH37X_USB_INT_SUCCESS <> CH37X_USB_INT_SUCCESS)); [congruence|].
      reflexivity.
  - split.
    + rewrite !written_app, Hwr. unfold lg1. rewrite !written_app. cbn.
      rewrite !app_nil_r. reflexivity.
    + rewrite !tokens_sent_app, Htok. unfold lg1. rewrite !tokens_sent_app.
      cbn [tokens_sent map concat app]. rewrite !app_nil_r, <- !app_assoc. reflexivity.
Qed.

End ControlInFacts.

Section ControlInWitness.
Import Cint Chip Usb Host.

(** GET_DESCRIPTOR(CONFIGURATION) of 18 bytes over an 8-byte endpoint 0. *)
Lemma control_in_delivers_packets_witness :
  exists lg',
    ch375_hostControlTransfer 3 test_device 0x80 6 0x0200 0 (repeat 0 18) 18
        (mkChip (ok :: ok :: token CH37X_USB_INT_SUCCESS
                 :: in_script ([[1; 2; 3; 4; 5; 6; 7; 8]; [9; 10; 11; 12; 13; 14; 15; 16]]
                               ++ [[17; 18]])
                 ++ ok :: token CH37X_USB_INT_SUCCESS :: []) [])
      = Some (CH37X_HOST_SUCCESS,
              concat ([[1; 2; 3; 4; 5; 6; 7; 8]; [9; 10; 11; 12; 13; 14; 15; 16]]
                      ++ [[17; 18]])
                ++ drop (length (concat ([[1; 2; 3; 4; 5; 6; 7; 8];
                                          [9; 10; 11; 12; 13; 14; 15; 16]] ++ [[17; 18]])))
                        (repeat 0 18),
              Some (Z.of_nat (length (concat ([[1; 2; 3; 4; 5; 6; 7; 8];
                                               [9; 10; 11; 12; 13; 14; 15; 16]]
                                              ++ [[17; 18]])))),
              mkChip [] lg') /\
    written lg' = written [] ++ setup_packet 0x80 6 0x0200 0 18 /\
    tokens_sent lg'
      = tokens_sent []
        ++ (0, false, USB_PID_SETUP)
           :: map (fun i => (0, xorb true (Nat.odd i), USB_PID_IN))
                  (seq 0 (S (length [[1; 2; 3; 4; 5; 6; 7; 8];
                                     [9; 10; 11; 12; 13; 14; 15; 16]])))
        ++ [(0, true, USB_PID_OUT)].
Proof.
  apply (control_in_delivers_packets 3 test_device 0x80 6 0x0200 0 18 (repeat 0 18)
           [[1; 2; 3; 4; 5; 6; 7; 8]; [9; 10; 11; 12; 13; 14; 15; 16]] [17; 18] [] []).
  - vm_compute. discriminate.
  - vm_compute. reflexivity.
  - lia.
  - vm_compute. discriminate.
  - repeat (apply List.Forall_cons; [vm_compute; discriminate|]). apply List.Forall_nil.
  - vm_compute. reflexivity.
  - vm_compute. discriminate.
  - left. vm_compute. reflexivity.
  - cbn [length]. lia.
Defined.

End ControlInWitness.

(** ** ch375_host.c: the length of a control IN request *)
Section ControlLengthFacts.
Import Cint Chip Usb Host.

(** X28. The length handed to ch37x_readBlockData is a uint8_t: for a
    control IN request whose wLength is a multiple of 256 the first block
    read of the DATA stage asks for 0 bytes, the empty packet counts as
    short, and ch375_hostControlTransfer goes on to the STATUS stage and
    returns CH37X_HOST_SUCCESS with *pActualLen = 0 and the caller's buffer
    unchanged, whatever the device sent. *)
Theorem control_in_length_wraps (n : nat) (u : USB_Device_t)
    (reqType bRequest wValue wIndex wLength : Z) (pData p : list Z)
    (rest : list chip_reply) (lg : list chip_call) :
  SETUP_IN reqType <> 0 ->
  0 < ep0_max_packet u ->
  0 < wLength < 65536 ->
  wLength mod 256 = 0 ->
  exists lg',
    ch375_hostControlTransfer (S n) u reqType bRequest wValue wIndex pData wLength
        (mkChip (ok :: ok :: token CH37X_USB_INT_SUCCESS
                 :: token CH37X_USB_INT_SUCCESS :: packet p
                 :: ok :: token CH37X_USB_INT_SUCCESS :: rest) lg)
      = Some (CH37X_HOST_SUCCESS, pData, Some 0, mkChip rest lg') /\
    lg' = lg ++ [SetRetry (if decide (USB_SREQ_GET_DESCRIPTOR = bRequest)
                           then CH37X_RETRY_TIMES_2MS else CH37X_RETRY_TIMES_INFINITY);
                 WriteBlock (setup_packet reqType bRequest wValue wIndex wLength);
                 BusyWait 200; SendToken 0 false USB_PID_SETUP;
                 SendToken 0 true USB_PID_IN; ReadBlock 0;
                 WriteBlock []; SendToken 0 true USB_PID_OUT].
Proof.
  intros Hin Hep Hw Hmod. eexists. split.
  - eapply control_transfer_by_stages.
    + unfold control_stages.
      unfold mbind at 1, chip_bind at 1, bind at 1.
      rewrite control_setup_ok.
      destruct (decide (wLength > 0)); [|lia].
      destruct (decide (SETUP_IN reqType <> 0)); [|tauto].
      cbn [control_data_in].
      destruct (decide (0 < wLength)); [|lia].
      run_chip. cbn [c_ret c_status token].
      destruct (decide (CH37X_SUCCESS <> CH37X_SUCCESS)); [congruence|].
      destruct (decide (CH37X_USB_INT_SUCCESS <> CH37X_USB_INT_SUCCESS)); [congruence|].
      replace (to_u8 (wLength - 0)) with 0
        by (unfold to_u8, to_u; rewrite Z.sub_0_r; symmetry; exact Hmod).
      change (c_ret (packet p)) with CH37X_SUCCESS.
      change (take (Z.to_nat 0) (c_data (packet p))) with (@nil Z).
      cbn [store_n length]. run_chip.
      destruct (decide (CH37X_SUCCESS <> CH37X_SUCCESS)); [congruence|].
      change (Z.of_nat 0) with 0.
      destruct (decide (0 < ep0_max_packet u)); [|lia].
      destruct (decide (0 > 0)); [lia|].
      run_chip. reflexivity.
    + unfold control_status. destruct (decide (SETUP_IN reqType <> 0)); [|tauto].
      run_chip. cbn [c_ret c_status ok token].
      destruct (decide (CH37X_SUCCESS <> CH37X_SUCCESS)); [congruence|].
      destruct (decide (CH37X_USB_INT_SUCCESS <> CH37X_USB_INT_SUCCESS)); [congruence|].
      reflexivity.
  - rewrite <- !app_assoc. reflexivity.
Qed.

End ControlLengthFacts.

Section ControlLengthWitness.
Import Cint Chip Usb Host.

(** A request for 256 bytes of a report descriptor. *)
Lemma control_in_length_wraps_witness :
  exists lg',
    ch375_hostControlTransfer 1 test_device 0x81 6 0x2200 0 (repeat 0 256) 256
        (mkChip (ok :: ok :: token CH37X_USB_INT_SUCCESS
                 :: token CH37X_USB_INT_SUCCESS :: packet [5; 1; 9; 2; 161; 1; 9; 1]
                 :: ok :: token CH37X_USB_INT_SUCCESS :: []) [])
      = Some (CH37X_HOST_SUCCESS, repeat 0 256, Some 0, mkChip [] lg') /\
    lg' = [] ++ [SetRetry (if decide (USB_SREQ_GET_DESCRIPTOR = 6)
                           then CH37X_RETRY_TIMES_2MS else CH37X_RETRY_TIMES_INFINITY);
                 WriteBlock (setup_packet 0x81 6 0x2200 0 256);
                 BusyWait 200; SendToken 0 false USB_PID_SETUP;
                 SendToken 0 true USB_PID_IN; ReadBlock 0;
                 WriteBlock []; SendToken 0 true USB_PID_OUT].
Proof.
  apply (control_in_length_wraps 0 test_device 0x81 6 0x2200 0 256 (repeat 0 256)
           [5; 1; 9; 2; 161; 1; 9; 1] [] []).
  - vm_compute. discriminate.
  - vm_compute. reflexivity.
  - lia.
  - reflexivity.
Defined.

End ControlLengthWitness.

(** ** hid_parser.c: get_ep_in on a parsed configuration *)
Section EndpointOfInterfaceFacts.
Import Cint Usb Host HidEndpoint.

(** X29. get_ep_in after parse_config_descriptor: on the tables read
    from a well-formed configuration descriptor, get_ep_in(i) takes the
    i-th interface descriptor of the configuration, by position and not by
    its bInterfaceNumber, and returns the address of the first endpoint
    descriptor spelled for it, whatever its direction and transfer type; it
    returns -1 for an interface without endpoints and for i at or beyond
    the number of interfaces, and stores nothing then. *)
Theorem get_ep_in_after_parse (ep0 : Z) (pre : list (Z * list Z))
    (cfg : list (USB_Interface_t * list (Z * list Z))) (interfaceNum : Z) :
  Forall skipped_item pre ->
  (length cfg <= Z.to_nat USB_MAX_INTERFACES)%nat ->
  Forall (fun entry => table_entry entry.1 /\ Forall skipped_item entry.2) cfg ->
  encode_configuration pre cfg <> [] ->
  0 <= interfaceNum < 256 ->
  exists u,
    parse_config_descriptor (fresh_device ep0 (encode_configuration pre cfg)) = Parsed u /\
    (forall entry e,
       cfg !! Z.to_nat interfaceNum = Some entry ->
       1 <= endpoint_count entry.1 ->
       endpoints entry.1 !! 0%nat = Some e ->
       get_ep_in u interfaceNum = Some (0, Some (ep_addr e))) /\
    (forall entry,
       cfg !! Z.to_nat interfaceNum = Some entry ->
       endpoint_count entry.1 < 1 ->
       get_ep_in u interfaceNum = Some (-1, None)) /\
    (cfg !! Z.to_nat interfaceNum = None ->
     get_ep_in u interfaceNum = Some (-1, None)).
Proof.
  intros Hpre Hn Hcfg Hne Hi. unfold USB_MAX_INTERFACES in *.
  change (Z.to_nat 4) with 4%nat in *.
  set (conf := encode_configuration pre cfg) in *.
  eexists. split.
  - unfold parse_config_descriptor.
    cbn [fresh_device raw_conf_desc raw_conf_desc_len].
    destruct (decide (0 = Z.of_nat (length conf))) as [H0|_];
      [destruct conf; [congruence | cbn [length] in H0; lia]|].
    pose proof (prefix_items_le_length pre cfg Hcfg) as Hle. fold conf in Hle.
    rewrite (f_equal (fun k => walk k _ _ _) (split_fuel _ _ Hle)).
    rewrite <- Nat.add_assoc.
    rewrite (walk_prefix ep0 pre cfg [] conf _ (eq_sym (app_nil_r _)) Hpre Hn Hcfg).
    fold conf. apply walk_done. cbn [raw_conf_desc_len]. lia.
  - unfold get_ep_in. cbn [interface_count interfaces].
    assert (Hlook : forall entry, cfg !! Z.to_nat interfaceNum = Some entry ->
              (map fst cfg ++ repeat zero_interface (4 - length cfg)) !! Z.to_nat interfaceNum
              = Some entry.1).
    { intros entry He. apply lookup_app_l_Some. rewrite list_lookup_fmap, He. reflexivity. }
    split; [|split].
    + intros entry e He Hc He0. pose proof (lookup_lt_Some _ _ _ He) as Hlt.
      destruct (decide (interfaceNum >= Z.of_nat (length cfg))); [lia|].
      rewrite (Hlook entry He).
      destruct (decide (endpoint_count entry.1 < 1)); [lia|].
      rewrite He0. reflexivity.
    + intros entry He Hc. pose proof (lookup_lt_Some _ _ _ He) as Hlt.
      destruct (decide (interfaceNum >= Z.of_nat (length cfg))); [lia|].
      rewrite (Hlook entry He).
      destruct (decide (endpoint_count entry.1 < 1)); [reflexivity|lia].
    + intros Hnone. apply lookup_ge_None_1 in Hnone.
      destruct (decide (interfaceNum >= Z.of_nat (length cfg))); [reflexivity|lia].
Qed.

End EndpointOfInterfaceFacts.

Section EndpointOfInterfaceWitness.
Import Cint Usb Host HidEndpoint.

Lemma out_first_configuration_valid :
  Forall (fun entry => table_entry entry.1 /\ Forall skipped_item entry.2)
         out_first_configuration.
Proof.
  unfold out_first_configuration.
  repeat (apply List.Forall_cons;
          [split; [|apply List.Forall_nil];
           split; [vm_compute; split; congruence|]; split; [reflexivity|];
           intros j e Hj;
           destruct j as [|[|[|[|j]]]]; cbn in Hj; inversion Hj; subst e; clear Hj;
           vm_compute; repeat split; congruence|]).
  apply List.Forall_nil.
Qed.

Lemma get_ep_in_after_parse_witness :
  exists u,
    parse_config_descriptor
      (fresh_device 8 (encode_configuration [] out_first_configuration)) = Parsed u /\
    (forall entry e,
       out_first_configuration !! Z.to_nat 0 = Some entry ->
       1 <= endpoint_count entry.1 ->
       endpoints entry.1 !! 0%nat = Some e ->
       get_ep_in u 0 = Some (0, Some (ep_addr e))) /\
    (forall entry,
       out_first_configuration !! Z.to_nat 0 = Some entry ->
       endpoint_count entry.1 < 1 ->
       get_ep_in u 0 = Some (-1, None)) /\
    (out_first_configuration !! Z.to_nat 0 = None ->
     get_ep_in u 0 = Some (-1, None)).
Proof.
  apply (get_ep_in_after_parse 8 [] out_first_configuration 0).
  - apply List.Forall_nil.
  - vm_compute. lia.
  - exact out_first_configuration_valid.
  - vm_compute. discriminate.
  - lia.
Defined.

(** Asked for interface 0, get_ep_in answers with the OUT endpoint 0x01 of
    the interface whose number is 2. *)
Example get_ep_in_by_position :
  exists u,
    parse_config_descriptor
      (fresh_device 8 (encode_configuration [] out_first_configuration)) = Parsed u /\
    get_ep_in u 0 = Some (0, Some 0x01).
Proof. eexists. split; [vm_compute; reflexivity|]. reflexivity. Qed.

End EndpointOfInterfaceWitness.

(** ** ch375_host.c: bulk and interrupt IN transfers *)
Section BulkInFacts.
Import Cint Chip Usb Host.

(** One pass of the loop on an IN endpoint that delivers the packet [p]. *)
Lemma bulk_in_iteration ep at_ st e p rest lg (o : nat) :
  EP_IN ep <> 0 ->
  endpoint_at (b_dev st) at_ = Some e ->
  0 < max_packet e < 256 ->
  b_offset st = Z.of_nat o ->
  Z.of_nat (length p) <= b_resiLen st ->
  Z.of_nat (length p) <= max_packet e ->
  (o + length p <= length (b_data st))%nat ->
  bulk_iteration ep at_ st (mkChip (token CH37X_USB_INT_SUCCESS :: packet p :: rest) lg)
    = Some (inl (mkBulk (flip_toggle (b_dev st) at_)
                   (take o (b_data st) ++ p ++ drop (o + length p) (b_data st))
                   (b_resiLen st - Z.of_nat (length p))
                   (Z.of_nat (o + length p))
                   (b_timeout st)),
            mkChip rest
              ((lg ++ [SendToken ep (data_toggle e) USB_PID_IN])
                  ++ [ReadBlock (if decide (b_resiLen st > max_packet e)
                                 then max_packet e else b_resiLen st)])).
Proof.
  intros Hin He Hmp Ho Hres Hfit Hbuf.
  assert (Hlen8 : to_u8 (if decide (b_resiLen st > max_packet e)
                         then max_packet e else b_resiLen st)
                  = if decide (b_resiLen st > max_packet e)
                    then max_packet e else b_resiLen st).
  { apply to_u_id. destruct (decide (b_resiLen st > max_packet e)); simpl; lia. }
  assert (Htr : bulk_transact ep e st
                  (mkChip (token CH37X_USB_INT_SUCCESS :: packet p :: rest) lg)
                = Some (Continue (CH37X_USB_INT_SUCCESS, Z.of_nat (length p)),
                        take o (b_data st) ++ p ++ drop (o + length p) (b_data st),
                        mkChip rest
                          ((lg ++ [SendToken ep (data_toggle e) USB_PID_IN])
                              ++ [ReadBlock (if decide (b_resiLen st > max_packet e)
                                             then max_packet e else b_resiLen st)]))).
  { unfold bulk_transact. cbv zeta.
    destruct (decide (EP_IN ep <> 0)); [|tauto].
    run_chip. cbn [c_ret c_status token].
    destruct (decide (CH37X_SUCCESS <> CH37X_SUCCESS)); [congruence|].
    destruct (decide (CH37X_USB_INT_SUCCESS = CH37X_USB_INT_SUCCESS)); [|congruence].
    run_chip. rewrite !Hlen8.
    change (c_data (packet p)) with p. change (c_ret (packet p)) with CH37X_SUCCESS.
    assert (Hbytes : firstn (Z.to_nat (if decide (b_resiLen st > max_packet e)
                                       then max_packet e else b_resiLen st)) p = p).
    { apply firstn_all2. destruct (decide (b_resiLen st > max_packet e)); lia. }
    rewrite Hbytes, Ho. rewrite (store_n_explicit p (b_data st) o Hbuf).
    destruct (decide (CH37X_SUCCESS <> CH37X_SUCCESS)); [congruence|].
    reflexivity. }
  rewrite (bulk_iteration_unfold ep at_ st e _ _ _ _ He Htr).
  unfold bulk_settle.
  destruct (decide (CH37X_USB_INT_SUCCESS = CH37X_USB_INT_SUCCESS)); [|congruence].
  run_chip. rewrite Ho, Nat2Z.inj_add. reflexivity.
Qed.

Lemma bulk_in_run (ps : list (list Z)) : forall n ep at_ st e rest lg (o : nat),
  EP_IN ep <> 0 ->
  endpoint_at (b_dev st) at_ = Some e ->
  0 < max_packet e < 256 ->
  b_offset st = Z.of_nat o ->
  b_resiLen st = Z.of_nat (length (concat ps)) ->
  Forall (fun p => 0 < Z.of_nat (length p) <= max_packet e) ps ->
  (o + length (concat ps) <= length (b_data st))%nat ->
  (length ps <= n)%nat ->
  exists st' lg',
    bulk_loop n ep at_ st (mkChip (in_script ps ++ rest) lg)
      = Some (CH37X_HOST_SUCCESS, Some (Z.of_nat (o + length (concat ps))), st',
              mkChip rest lg') /\
    b_data st' = take o (b_data st) ++ concat ps
                 ++ drop (o + length (concat ps)) (b_data st) /\
    written lg' = written lg /\
    tokens_sent lg'
      = tokens_sent lg
        ++ map (fun i => (ep, xorb (data_toggle e) (Nat.odd i), USB_PID_IN))
               (seq 0 (length ps)) /\
    toggle_at (b_dev st') at_ = Some (xorb (data_toggle e) (Nat.odd (length ps))).
Proof.
  induction ps as [|p ps IH];
    intros n ep at_ st e rest lg o Hin He Hmp Ho Hres Hps Hbuf Hn.
  - cbn [concat length] in *. exists st, lg. split.
    + destruct n; cbn [bulk_loop]; destruct (decide (b_resiLen st > 0)); try lia;
        rewrite Ho, Nat.add_0_r; reflexivity.
    + rewrite Nat.add_0_r. cbn [app map seq Nat.odd]. rewrite take_drop, app_nil_r.
      repeat split. unfold toggle_at. rewrite He. cbn. destruct (data_toggle e); reflexivity.
  - inversion Hps as [|? ? Hp Hps']; subst.
    cbn [concat length] in *. rewrite length_app in *.
    destruct n as [|n]; [lia|].
    rewrite in_script_cons.
    assert (Hgt : b_resiLen st > 0) by lia.
    pose proof (bulk_in_iteration ep at_ st e p (in_script ps ++ rest) lg o
                  Hin He Hmp Ho ltac:(lia) ltac:(lia) ltac:(lia)) as Hit.
    rewrite (bulk_loop_step _ _ _ _ _ _ _ Hgt Hit).
    edestruct (IH n ep at_
                 (mkBulk (flip_toggle (b_dev st) at_)
                    (take o (b_data st) ++ p ++ drop (o + length p) (b_data st))
                    (b_resiLen st - Z.of_nat (length p))
                    (Z.of_nat (o + length p)) (b_timeout st))
                 (set_data_toggle e (negb (data_toggle e))) rest
                 ((lg ++ [SendToken ep (data_toggle e) USB_PID_IN])
                     ++ [ReadBlock (if decide (b_resiLen st > max_packet e)
                                    then max_packet e else b_resiLen st)])
                 (o + length p)%nat)
      as (st' & lg' & Hrun & Hdata & Hwr & Htok & Htog).
    + exact Hin.
    + cbn [b_dev]. apply endpoint_at_flip. exact He.
    + destruct e; cbn in *; lia.
    + reflexivity.
    + cbn [b_resiLen]. lia.
    + replace (max_packet (set_data_toggle e (negb (data_toggle e))))
        with (max_packet e) by (destruct e; reflexivity). exact Hps'.
    + cbn [b_data]. rewrite !length_app, length_take, length_drop. lia.
    + lia.
    + cbn [b_data] in Hdata.
      replace (data_toggle (set_data_toggle e (negb (data_toggle e))))
        with (negb (data_toggle e)) in * by (destruct e; reflexivity).
      exists st', lg'. split; [rewrite Hrun; rewrite Nat.add_assoc; reflexivity|].
      split.
      { rewrite Hdata. rewrite buffer_after_packet by lia.
        rewrite !Nat.add_assoc. reflexivity. }
      split.
      { rewrite Hwr, !written_app. cbn. rewrite !app_nil_r. reflexivity. }
      split.
      { rewrite Htok, !tokens_sent_app. cbn [tokens_sent map concat app].
        rewrite !app_nil_r, <- !app_assoc. f_equal.
        replace (seq 0 (S (length ps))) with (0%nat :: map S (seq 0 (length ps)))
          by (rewrite seq_shift; reflexivity).
        cbn [map app Nat.odd]. f_equal.
        - destruct (data_toggle e); reflexivity.
        - rewrite map_map. apply map_ext. intros i. rewrite xorb_odd_succ. reflexivity. }
      rewrite Htog, xorb_odd_succ. reflexivity.
Qed.

(** X30. A bulk or interrupt IN transfer that the device answers with
    the non-empty packets ps, none longer than max_packet (1..255) and len
    bytes in all: against a chip on which every command succeeds
    ch375_hostBulkTransfer returns CH37X_HOST_SUCCESS with *pActualLen =
    len, the caller's buffer starts with the bytes of the packets in order
    and is unchanged after them, one IN token is sent per packet with the
    data toggle alternating from the endpoint's, the endpoint is left with
    the toggle the next packet needs, and nothing is written to the
    device. *)
Theorem bulk_in_receives_all (fuel : nat) (u : USB_Device_t) (ep : Z) (at_ : nat * nat)
    (e : USB_Endpoint_t) (pData : list Z) (timeout : Z) (ps : list (list Z))
    (rest : list chip_reply) (lg : list chip_call) :
  get_endpoint u ep = Some at_ ->
  endpoint_at u at_ = Some e ->
  EP_IN ep <> 0 ->
  0 < max_packet e < 256 ->
  Forall (fun p => 0 < Z.of_nat (length p) <= max_packet e) ps ->
  (length (concat ps) <= length pData)%nat ->
  (length ps <= fuel)%nat ->
  exists st' lg',
    ch375_hostBulkTransfer fuel u ep pData (Z.of_nat (length (concat ps))) timeout
        (mkChip (ok :: in_script ps ++ rest) lg)
      = Some (CH37X_HOST_SUCCESS, Some (Z.of_nat (length (concat ps))), st',
              mkChip rest lg') /\
    b_data st' = concat ps ++ drop (length (concat ps)) pData /\
    written lg' = written lg /\
    tokens_sent lg'
      = tokens_sent lg
        ++ map (fun i => (ep, xorb (data_toggle e) (Nat.odd i), USB_PID_IN))
               (seq 0 (length ps)) /\
    toggle_at (b_dev st') at_ = Some (xorb (data_toggle e) (Nat.odd (length ps))).
Proof.
  intros Hget He Hin Hmp Hps Hbuf Hfuel.
  unfold ch375_hostBulkTransfer. cbv zeta. rewrite Hget.
  run_chip. cbn [c_ret ok].
  destruct (decide (CH37X_SUCCESS <> CH37X_SUCCESS)); [congruence|].
  destruct (bulk_in_run ps fuel ep at_
              (mkBulk u pData (Z.of_nat (length (concat ps))) 0 timeout) e rest
              (lg ++ [SetRetry CH37X_RETRY_TIMES_ZERO]) 0%nat
              Hin He Hmp eq_refl eq_refl Hps ltac:(cbn [b_data]; lia) Hfuel)
    as (st' & lg' & Hrun & Hdata & Hwr & Htok & Htog).
  cbn [Nat.add b_data take app] in Hrun, Hdata.
  exists st', lg'. split; [exact Hrun|]. split; [exact Hdata|].
  split; [rewrite Hwr, written_app; cbn; rewrite app_nil_r; reflexivity|].
  split; [rewrite Htok, tokens_sent_app; cbn [tokens_sent map concat app];
          rewrite app_nil_r; reflexivity|].
  exact Htog.
Qed.

End BulkInFacts.

Section BulkInWitness.
Import Cint Chip Usb Host.

(** A four-byte mouse report on the interrupt IN endpoint 0x81. *)
Lemma bulk_in_receives_all_witness :
  exists st' lg',
    ch375_hostBulkTransfer 1 test_device 0x81 (repeat 0 4)
        (Z.of_nat (length (concat [[0x01; 0x05; 0xFB; 0x00]]))) 100
        (mkChip (ok :: in_script [[0x01; 0x05; 0xFB; 0x00]] ++ []) [])
      = Some (CH37X_HOST_SUCCESS,
              Some (Z.of_nat (length (concat [[0x01; 0x05; 0xFB; 0x00]]))), st',
              mkChip [] lg') /\
    b_data st' = concat [[0x01; 0x05; 0xFB; 0x00]]
                 ++ drop (length (concat [[0x01; 0x05; 0xFB; 0x00]])) (repeat 0 4) /\
    written lg' = written [] /\
    tokens_sent lg'
      = tokens_sent []
        ++ map (fun i => (0x81, xorb false (Nat.odd i), USB_PID_IN))
               (seq 0 (length [[0x01; 0x05; 0xFB; 0x00]])) /\
    toggle_at (b_dev st') (0%nat, 0%nat)
      = Some (xorb false (Nat.odd (length [[0x01; 0x05; 0xFB; 0x00]]))).
Proof.
  apply (bulk_in_receives_all 1 test_device 0x81 (0%nat, 0%nat)
           (mkEndpoint 0x81 3 4 10 false) (repeat 0 4) 100
           [[0x01; 0x05; 0xFB; 0x00]] [] []).
  - reflexivity.
  - reflexivity.
  - vm_compute. discriminate.
  - simpl. lia.
  - apply List.Forall_cons; [|apply List.Forall_nil]. simpl. lia.
  - simpl. lia.
  - simpl. lia.
Defined.

End BulkInWitness.

(** ** ch375_host.c: NAK, retry and timeout of a bulk transfer *)
Section BulkRetryFacts.
Import Cint Chip Usb Host.














End BulkRetryFacts.

Section BulkRetryWitness.
Import Cint Chip Usb Host.


(** The same on the bulk OUT endpoint 0x02 (max packet 64): 100 bytes, the
    first block taken, the second answered with NAK twice against a timeout
    of 1. *)
Example bulk_out_nak_timeout :
  exists st' lg',
    ch375_hostBulkTransfer 4 test_device 0x02 (map Z.of_nat (seq 0 100)) 100 1
        (mkChip [ok; ok; token CH37X_USB_INT_SUCCESS; ok; token NAK; ok; token NAK] [])
      = Some (CH37X_HOST_TIMEOUT, Some 64, st', mkChip [] lg') /\
    toggle_at (b_dev st') (0%nat, 1%nat) = Some true /\
    b_timeout st' = 0 /\
    bus_calls lg'
      = [SendToken 0x02 false USB_PID_OUT; SendToken 0x02 true USB_PID_OUT; MSleep 1;
         SendToken 0x02 true USB_PID_OUT].
Proof. eexists _, _. split; [vm_compute; reflexivity|]. repeat split. Qed.

End BulkRetryWitness.

(** ** input_patterns.c: the error diffusion of the expansion *)
Section DiffusionFacts.
Import Cint Recoil.
Context {F : Type} {FO : FloatOps F}.


















End DiffusionFacts.

Section DiffusionBinary32.
Import Cint Recoil.


(** In binary32, for the two presets of the program at the default
    coefficient and sensitivity, every residual is exact: for each
    component and each group g the sum of all ticks of groups 0..g is the
    rounded running sum of the targets, with t_raw unscaled as the target
    of t. *)
Example presets_track_targets :
  forallb (fun a => forallb (tracks_target (opened_with_preset (F:=spec_float) 1) a)
                            (seq 0 30))
          [AxisX; AxisY; AxisT] = true /\
  forallb (fun a => forallb (tracks_target (opened_with_preset (F:=spec_float) 2) a)
                            (seq 0 18))
          [AxisX; AxisY; AxisT] = true.
Proof. split; vm_compute; reflexivity. Qed.

(** The diffusion of y of the Cassidy preset at the defaults, groups 0..2:
    the target -20.2 / 2.5 of group 1 gives base -1 and residual 54 of 62,
    so the group sums to -8, and the next group has nothing to hand out. *)
Example cassidy_y_diffusion :
  map (fun d => (d_base d, d_fix d, d_total d))
      (firstn 3 (diffusion_of (F:=spec_float) gRawPreset_OW2_Cassidy 62
                   RECOIL_COMP_DEFAULT_COEFF RECOIL_COMP_DEFAULT_SENS AxisY))
    = [(0, 0, 0); (-1, 54, -8); (0, 0, -8)].
Proof. vm_compute. reflexivity. Qed.

End DiffusionBinary32.
